(* ===== verification/_CoqProject ===== *)
-Q . S2P
Prelude.v
Abi.v
Bpf.v
Lpm.v
Scenario.v
Vmlinux.v
VmlinuxX86.v
VmlinuxArm64.v
CoreRead.v
Logic.v
Common.v
Governance.v
Text.v
Identity.v
Levels.v
Net.v
Exec.v
File.v
Guard.v
Selftest.v
Emit.v
Decoder.v
Events.v
Object.v
Enforcement.v
Records.v
Counting.v
Ipnet.v
Addr.v
Policy.v
Cidr.v
Parse.v
Flatten.v
Reload.v
Apply.v
Resolve.v
Engine.v
Deploy.v
Validated.v
Bindings.v
Metadata.v
Resilience.v
Steady.v
Runtime.v
Reparse.v
Adopt.v
Restart.v
Serving.v
Takeover.v
Preview.v
Naming.v
EndToEnd.v
Rollout.v
Host.v
Relaunch.v
Json.v
Crypto.v
AuditWriter.v
AuditVerify.v
AuditChain.v
AuditWrite.v
AuditNames.v
AuditRun.v
AuditLog.v
AuditForge.v
AuditHost.v
