(* ===== verification/Prelude.v ===== *)
(** * Reality Kernel: a verification of the policy path from file to verdict

    Reality Kernel governs processes by cgroup.  An administrator writes a policy of
    profiles (network rules, executables, protected files) and binds cgroups to them.
    The crate rk-policy parses and compiles the policy, the daemon rk-sensor writes the
    result into BPF maps, and the BPF programs of rk-bpf decide in the kernel: connects
    and sends, socket creation, TUN devices, execs, file accesses, and attacks on the
    sensor itself.  Each decision becomes a record in a ring buffer, which the sensor
    decodes and writes to a signed audit log.  The development follows that path, in both
    directions.

    ** The kernel side: rk-bpf (C)

    - [Abi]: rk-bpf/include/rk_abi.h.  Enumerations as inductive types with their values,
      structures as records, their C layout computed, their byte encodings.
    - [Bpf]: the execution model.  A program is a finite tree [prog] of map accesses,
      helper calls and kernel reads; [handle] gives each call a meaning on a [world] (the
      maps the sensor writes, the kernel environment, the telemetry the programs write);
      [run] executes a tree.  What the kernel implements and the code only calls is the
      class [BpfKernel]; the documented behaviour the proofs rely on is [BpfKernelLaws];
      [reference_kernel] is an instance that evaluates.  [Lpm] relates trie keys and
      addresses.
    - [Vmlinux], [VmlinuxX86], [VmlinuxArm64], [CoreRead]: the declarations of the vendored
      vmlinux.h headers that the programs read, mechanically translated, and that every
      read names a member with the kind and width used.  The headers are generated; only
      these structures and what they contain by value are here.
    - [Common]: rk-bpf/src/common.bpf.h, every inline function by its name.
    - [Net], [Exec], [File], [Guard]: net.bpf.c, exec.bpf.c, file.bpf.c, guard.bpf.c, every
      program, with the exact condition under which it refuses.  [Selftest]: the selftest
      and probe programs, definitions only.
    - [Object]: rk.bpf.c, all enforcement programs as one type [rk_program] with their
      entry points, and the pure list of decisions each takes.

    What the theorems show of it: [Governance] - the nearest bound cgroup governs, the
    heartbeat test is exact, a profile that was never applied fails closed.  [Enforcement]
    - every program returns what its decisions prescribe, refuses everything when the
    sensor is gone, never refuses in audit mode or outside governance, and no verdict
    depends on telemetry.  [Emit] - record construction stays inside the 2048-byte payload.
    [Events] - the exact bytes of the records.  [Counting] - each decision is counted once.
    [Logic] holds the reasoning about trees that these share.

    ** The way back: the sensor's decoder (Rust)

    - [Decoder]: rk-sensor/src/decoder.rs.  Decoding inverts encoding and accepts nothing
      else.  [Records]: whatever a program offers to the ring buffer, the decoder accepts.

    ** The way in: parser, compiler and policy engine (Rust)

    - [Text]: the operations of Rust's str the code uses.  [Addr]: the grammar of the
      standard library's IP addresses.  [Ipnet], [Cidr]: the ipnet crate as classes with
      laws and an instance, and the prefix functions of rk-policy/src/net.rs.
    - [Policy]: rk-policy/src/net.rs from the policy data on - the reference semantics
      [evaluate], [compile] and [lookup].  [Parse]: the same file's [parse], whole; the toml
      crate is the class [Toml].  [Validated], [Bindings], [Metadata]: what an accepted
      policy is guaranteed to be - ids, origins, bindings, pod profiles, the built-in list.
      [Flatten]: the compiled tries decide as [evaluate] does; exactly which policies
      compile.
    - [Identity]: rk-sensor/src/identity.rs, files as the hooks see them; the file system
      is the class [Os].  [Resolve]: exec and file rules resolved to such identities.
    - [Reload]: the same program trees run while the maps change between calls.  A program
      reads the active slot once, so it ends as under one of the two policies.
    - [Apply]: rk-sensor/src/policy.rs, the two-slot apply, as a monad over the engine's
      state in which any system call may fail.  An apply is atomic for every program and
      every interleaving; a failed one is invisible.  [Engine]: [PolicyEngine] around it -
      apply from the text on, bindings of agents and containers, quarantine.  [Levels]: the
      mask of cgroup levels it publishes makes the walk complete.
    - [Adopt]: the same file's takeover of pinned maps by a new process - [adopt] with and
      without the state file, [migrate] into a new pin set, the walk of the cgroup tree.
      The state file is part of the engine ([pe_store]), rewritten by [persist] where the
      code does.  [Restart], [Reparse], [Takeover]: both slots are on record again, the text
      parses to the same policy, an engine comes back as it was, and without the file no
      live binding is lost.
    - [Preview]: [dry_run], and that an apply then ends as it said.  [Naming]: the names the
      audit log gives to decisions.
    - [Resilience]: rk-sensor/src/resilience.rs, the heartbeat thread and the registration
      with the guard programs.

    ** The audit log: rk-audit (Rust)

    - [Json], [Crypto]: serde_json values, SHA-256, Ed25519 and hexadecimal as classes with
      laws and instances that evaluate.
    - [AuditWriter]: rk-audit/src/chain.rs, the log's lines, hashes and trailers, and the writer
      with its buffer, over files whose operations may fail.  [AuditVerify]: the same
      file's verification of segments and directories, with everything it reports.
    - [AuditChain]: what acceptance means.  Every batch of an accepted log was sealed by a
      holder of the keys, and with a recorded head none that was sealed is missing or
      changed.  Forged signatures and colliding hashes are excluded by hypotheses about the
      signatures and inputs at hand.
    - [AuditWrite], [AuditNames], [AuditRun], [AuditLog]: the log a writer leaves at any
      moment of any history of openings, appends, seals, stops and power failures verifies,
      is reopened at its last sealed batch, and holds what was sealed.  No file operation
      fails there, and opening is one step.  [AuditForge]: appended lines do not move the
      chain.  [AuditHost]: a concrete log.

    ** The parts together

    [Deploy] says what it means that the live slot [serves] a policy, and that the network
    programs then decide as the policy says.  [Steady] and [Runtime] run arbitrary sequences
    of engine operations with arbitrary failing calls; the engine's record is the kernel's
    state.  [Serving] does so for whole sensor processes, with restarts between operations,
    and [EndToEnd] concludes from policy text to verdict: network, exec and file decisions,
    quarantine and the built-in metadata list.  [Scenario], [Rollout], [Host] and [Relaunch]
    are concrete hosts, policies and sensors on which the theorems are evaluated.

    ** Integers, bounds and fuel

    A w-bit integer is a [Z] kept in range by explicit reduction.  No definition needs
    fuel for the BPF programs: the source's loops are bounded by constants (16 cgroup
    levels, 32 directories, 8 ranges) and are recursions over the list of their indices.
    The trimming of [Text] removes at least a byte per step and has the length as bound;
    the decoder's string loop recurses over the announced count; the walk of the cgroup
    tree has the source's depth bound of 32; the search for a free file name in [AuditWriter] tries one name more than there are files.

    ** Not modelled

    Loading, pinning and attaching programs, process lifecycle, metrics and export
    (rk-sensor): I/O around libraries.  The audit log's key files, record schema and display,
    the agent daemon (rk-agentd), the command line (rk-cli), the container runtime plugin
    (rk-nri) and the build.  Of the policy engine: attaching programs, the texts of reports
    and of the changes between two policies, the wait between two flips, and failures to
    write the state file.  A sensor restarts between operations, not within one.  A run has
    the per-CPU scratch buffer and counters to itself: a program that preempts another on
    the same CPU between building and emitting a record is outside the model. *)


From Stdlib Require Import ZArith Lia.
From stdpp Require Export base numbers gmap list.
#[export] Set Default Proof Using "Type".

Open Scope Z_scope.

(** ** Fixed-width machine integers

    A w-bit unsigned integer is a [Z]; a C conversion to an unsigned type is the
    reduction below.  [int] values stay signed [Z]. *)

Definition u8 (x : Z) : Z := x mod 2 ^ 8.
Definition u16 (x : Z) : Z := x mod 2 ^ 16.
Definition u32 (x : Z) : Z := x mod 2 ^ 32.
Definition u64 (x : Z) : Z := x mod 2 ^ 64.
Definition u64_max : Z := 2 ^ 64 - 1.

(** The C test [if (x & m)]. *)
Definition has_bits (x m : Z) : bool := negb (Z.land x m =? 0).

(** The C conversion of a comparison result to [int]. *)
Definition b2z (b : bool) : Z := if b then 1 else 0.

Declare Scope rk_scope.
Delimit Scope rk_scope with rk.
Notation "x ∋ m" := (has_bits x m) (at level 70, no associativity) : rk_scope.
Open Scope rk_scope.

(** ** Automation shared by the components *)

Create HintDb rk.
Create Rewrite HintDb rk_len.

(** Case analysis on the innermost [match] or [if] of the goal. *)
Ltac split_match :=
  match goal with
  | |- context [ match ?x with _ => _ end ] =>
      lazymatch x with
      | context [ match _ with _ => _ end ] => fail
      | _ => destruct x eqn:?
      end
  end.

(** Boolean comparisons on [Z] in the context, as propositions. *)
Ltac bool_to_prop :=
  repeat match goal with
  | H : (_ && _)%bool = true |- _ => apply andb_true_iff in H as [? ?]
  | H : (_ || _)%bool = false |- _ => apply orb_false_iff in H as [? ?]
  | H : negb _ = true |- _ => apply negb_true_iff in H
  | H : negb _ = false |- _ => apply negb_false_iff in H
  | H : (_ =? _) = true |- _ => apply Z.eqb_eq in H
  | H : (_ =? _) = false |- _ => apply Z.eqb_neq in H
  | H : (_ <? _) = true |- _ => apply Z.ltb_lt in H
  | H : (_ <? _) = false |- _ => apply Z.ltb_ge in H
  | H : (_ <=? _) = true |- _ => apply Z.leb_le in H
  | H : (_ <=? _) = false |- _ => apply Z.leb_gt in H
  end.

(** ** Bounds of the conversions *)

Lemma u8_bound x : 0 <= u8 x < 2 ^ 8.
Proof. apply Z.mod_pos_bound; lia. Qed.

Lemma u16_bound x : 0 <= u16 x < 2 ^ 16.
Proof. apply Z.mod_pos_bound; lia. Qed.

Lemma u32_bound x : 0 <= u32 x < 2 ^ 32.
Proof. apply Z.mod_pos_bound; lia. Qed.

Lemma u64_bound x : 0 <= u64 x < 2 ^ 64.
Proof. apply Z.mod_pos_bound; lia. Qed.

Lemma u8_small x : 0 <= x < 2 ^ 8 -> u8 x = x.
Proof. apply Z.mod_small. Qed.

Lemma u16_small x : 0 <= x < 2 ^ 16 -> u16 x = x.
Proof. apply Z.mod_small. Qed.

Lemma u32_small x : 0 <= x < 2 ^ 32 -> u32 x = x.
Proof. apply Z.mod_small. Qed.

Lemma u64_small x : 0 <= x < 2 ^ 64 -> u64 x = x.
Proof. apply Z.mod_small. Qed.

#[export] Hint Resolve u8_bound u16_bound u32_bound u64_bound : rk.

(** A mask of [2 ^ n - 1] keeps a value that is already below [2 ^ n]. *)
Lemma land_mask_small x n : 0 <= n -> 0 <= x < 2 ^ n -> Z.land x (Z.ones n) = x.
Proof. intros Hn Hx. rewrite Z.land_ones by lia. by apply Z.mod_small. Qed.

Lemma land_mask_bound x n : 0 <= n -> 0 <= Z.land x (Z.ones n) < 2 ^ n.
Proof.
  intros Hn. rewrite Z.land_ones by lia.
  apply Z.mod_pos_bound, Z.pow_pos_nonneg; lia.
Qed.

(** Disjoint bit fields add up. *)
Lemma lor_shiftl_small a b n :
  0 <= n -> 0 <= b < 2 ^ n -> Z.lor (Z.shiftl a n) b = a * 2 ^ n + b.
Proof.
  intros Hn Hb. rewrite <- Z.shiftl_mul_pow2 by lia.
  assert (Z.land (Z.shiftl a n) b = 0) as Hd.
  { apply Z.bits_inj_0. intros i. rewrite Z.land_spec. destruct (Z.ltb_spec i n).
    - by rewrite Z.shiftl_spec_low by lia.
    - rewrite <- (Z.mod_small b (2 ^ n)) by lia.
      by rewrite Z.mod_pow2_bits_high, andb_false_r by lia. }
  by rewrite <- Z.lxor_lor, <- Z.add_nocarry_lxor by done.
Qed.

Lemma has_bits_0_r x : has_bits x 0 = false.
Proof. unfold has_bits. by rewrite Z.land_0_r. Qed.

Lemma nonzero_bit z : z <> 0 -> exists n, Z.testbit z n = true.
Proof.
  intros Hz. destruct (Z.lt_total z 0) as [Hneg|[?|Hpos]]; [|done|].
  - exists (Z.succ (Z.log2 (Z.pred (- z)))). apply Z.bits_above_log2_neg; lia.
  - exists (Z.log2 z). by apply Z.bit_log2.
Qed.

Lemma has_bits_iff x m :
  has_bits x m = true <-> exists n, Z.testbit x n = true /\ Z.testbit m n = true.
Proof.
  unfold has_bits. rewrite negb_true_iff, Z.eqb_neq. split.
  - intros [n Hn]%nonzero_bit. exists n. by rewrite Z.land_spec, andb_true_iff in Hn.
  - intros (n & Hx & Hm) H0. assert (Z.testbit (Z.land x m) n = true) as H
      by (by rewrite Z.land_spec, Hx, Hm). by rewrite H0, Z.bits_0 in H.
Qed.

Lemma has_bits_0_l x : has_bits 0 x = false.
Proof. unfold has_bits. by rewrite Z.land_0_l. Qed.

(** A one-bit mask tests that bit. *)
Lemma has_bits_pow2 x n : 0 <= n -> has_bits x (2 ^ n) = Z.testbit x n.
Proof.
  intros Hn. unfold has_bits.
  destruct (Z.testbit x n) eqn:Hb.
  - apply negb_true_iff, Z.eqb_neq. intros H0.
    assert (Z.testbit (Z.land x (2 ^ n)) n = true) as Ht
      by (rewrite Z.land_spec, Hb, Z.pow2_bits_true; [done|lia]).
    by rewrite H0, Z.bits_0 in Ht.
  - apply negb_false_iff, Z.eqb_eq, Z.bits_inj. intros i.
    rewrite Z.land_spec, Z.bits_0.
    destruct (decide (i = n)) as [->|Hne]; [by rewrite Hb|].
    rewrite Z.pow2_bits_false by done. by rewrite andb_false_r.
Qed.

Lemma has_bits_lor x m1 m2 :
  has_bits x (Z.lor m1 m2) = (has_bits x m1 || has_bits x m2)%bool.
Proof.
  unfold has_bits. rewrite Z.land_lor_distr_r.
  rewrite <- negb_andb. f_equal. apply eq_true_iff_eq.
  by rewrite andb_true_iff, !Z.eqb_eq, Z.lor_eq_0_iff.
Qed.

(** ** Little-endian byte encodings

    The kernel targets are x86-64 and arm64, both little-endian: a field of [n]
    bytes is stored least significant byte first. *)

Fixpoint le_bytes (n : nat) (v : Z) : list Z :=
  match n with
  | O => []
  | S n => u8 v :: le_bytes n (v / 256)
  end.

Fixpoint le_value (bs : list Z) : Z :=
  match bs with
  | [] => 0
  | b :: bs => b + 256 * le_value bs
  end.

Definition byte_ok (b : Z) : Prop := 0 <= b < 256.

Lemma length_le_bytes n v : length (le_bytes n v) = n.
Proof. revert v. induction n as [|n IH]; intros v; simpl; [done|]. by rewrite IH. Qed.

Lemma le_bytes_ok n v : Forall byte_ok (le_bytes n v).
Proof.
  revert v. induction n as [|n IH]; intros v; simpl; constructor; [|done].
  apply u8_bound.
Qed.

Lemma le_value_bytes n v : le_value (le_bytes n v) = v mod 2 ^ (8 * Z.of_nat n).
Proof.
  revert v. induction n as [|n IH]; intros v; cbn [le_bytes le_value].
  { by rewrite Z.mod_1_r. }
  rewrite IH, Nat2Z.inj_succ. unfold u8.
  replace (8 * Z.succ (Z.of_nat n)) with (8 + 8 * Z.of_nat n) by lia.
  rewrite Z.pow_add_r by lia. change (2 ^ 8) with 256.
  rewrite Z.rem_mul_r by lia. done.
Qed.

Lemma le_value_bytes_small n v :
  0 <= v < 2 ^ (8 * Z.of_nat n) -> le_value (le_bytes n v) = v.
Proof. intros H. rewrite le_value_bytes. by apply Z.mod_small. Qed.

Lemma le_value_bound bs :
  Forall byte_ok bs -> 0 <= le_value bs < 2 ^ (8 * Z.of_nat (length bs)).
Proof.
  induction 1 as [|b bs Hb _ IH]; cbn [le_value length]; [done|].
  unfold byte_ok in Hb. rewrite Nat2Z.inj_succ.
  replace (8 * Z.succ (Z.of_nat (length bs)))
    with (8 + 8 * Z.of_nat (length bs)) by lia.
  rewrite Z.pow_add_r by lia. change (2 ^ 8) with 256. lia.
Qed.

Lemma le_bytes_value bs : Forall byte_ok bs -> le_bytes (length bs) (le_value bs) = bs.
Proof.
  induction 1 as [|b bs Hb _ IH]; cbn [le_value length le_bytes]; [done|].
  unfold byte_ok in Hb. f_equal.
  - unfold u8. change (2 ^ 8) with 256.
    rewrite Z.mul_comm, Z.mod_add by lia. by apply Z.mod_small.
  - rewrite Z.mul_comm, Z.div_add by lia.
    rewrite Z.div_small, Z.add_0_l by lia. done.
Qed.

#[export] Hint Rewrite length_le_bytes @length_app @length_inserts @length_take
  @length_drop @length_replicate @length_map : rk_len.

(** Lengths of byte lists, by rewriting. *)
Ltac len := autorewrite with rk_len in *; cbn [length] in *; try lia.

(** ** Overwriting a range of a byte buffer *)

(** What a byte holds after a write. *)
Lemma lookup_inserts {A} (off i : nat) (bs mem : list A) :
  list_inserts off bs mem !! i =
  if decide ((off <= i < off + length bs)%nat /\ (i < length mem)%nat)
  then bs !! (i - off)%nat else mem !! i.
Proof.
  case_decide as H; [by apply list_lookup_inserts; lia|].
  destruct (decide (i < off)%nat); [by apply list_lookup_inserts_lt|].
  destruct (decide (off + length bs <= i)%nat); [by apply list_lookup_inserts_ge|].
  rewrite (proj2 (lookup_ge_None mem i)) by lia. apply lookup_ge_None. len.
Qed.

(** A write that ends at [off + length bs] leaves the buffer's prefix followed by
    the bytes written. *)
Lemma take_inserts_end {A} (off : nat) (bs mem : list A) :
  (off + length bs <= length mem)%nat ->
  take (off + length bs) (list_inserts off bs mem) = take off mem ++ bs.
Proof.
  intros Hlen. apply list_eq. intros i.
  destruct (decide (i < off)%nat).
  { rewrite lookup_take_lt, lookup_app_l by len.
    by rewrite list_lookup_inserts_lt, lookup_take_lt by lia. }
  rewrite lookup_app_r by len.
  replace (length (take off mem)) with off by len.
  destruct (decide (i < off + length bs)%nat).
  - by rewrite lookup_take_lt, list_lookup_inserts by len.
  - rewrite lookup_take_ge by lia. symmetry. apply lookup_ge_None. lia.
Qed.

(** A write beyond a prefix does not change it. *)
Lemma take_inserts_below {A} (n off : nat) (bs mem : list A) :
  (n <= off)%nat -> take n (list_inserts off bs mem) = take n mem.
Proof.
  intros Hn. apply list_eq. intros i.
  destruct (decide (i < n)%nat).
  - rewrite !lookup_take_lt by lia. by apply list_lookup_inserts_lt; lia.
  - by rewrite !lookup_take_ge by lia.
Qed.

(** A write below a suffix does not change it. *)
Lemma drop_inserts_above {A} (n off : nat) (bs mem : list A) :
  (off + length bs <= n)%nat -> drop n (list_inserts off bs mem) = drop n mem.
Proof.
  intros Hn. apply list_eq. intros i.
  rewrite !lookup_drop, list_lookup_inserts_ge by lia. done.
Qed.

(** A write inside a prefix is a write on that prefix. *)
Lemma inserts_app_prefix {A} (off : nat) (bs l rest : list A) :
  (off + length bs <= length l)%nat ->
  list_inserts off bs (l ++ rest) = list_inserts off bs l ++ rest.
Proof.
  intros Hlen. apply list_eq. intros i.
  rewrite lookup_inserts. destruct (decide (i < length l)%nat) as [Hi|Hi].
  - rewrite (lookup_app_l (list_inserts off bs l)), (lookup_app_l l) by len.
    rewrite lookup_inserts, length_app. by repeat case_decide; try lia.
  - rewrite decide_False by lia. rewrite !lookup_app_r by len. by len.
Qed.

(** A write that starts at the front replaces the prefix. *)
Lemma inserts_front {A} (bs mem : list A) :
  (length bs <= length mem)%nat ->
  list_inserts 0 bs mem = bs ++ drop (length bs) mem.
Proof.
  intros Hlen. rewrite <- (take_drop (length bs) mem) at 1.
  by rewrite list_inserts_0_r by len.
Qed.

(** Two adjacent writes are one write of the concatenation. *)
Lemma inserts_merge {A} (off off' : nat) (b1 b2 mem : list A) :
  off' = (off + length b1)%nat ->
  list_inserts off' b2 (list_inserts off b1 mem) = list_inserts off (b1 ++ b2) mem.
Proof. intros ->. rewrite list_inserts_app_l. f_equal. lia. Qed.

(** Disjoint writes commute. *)
Lemma inserts_comm {A} (o1 o2 : nat) (b1 b2 mem : list A) :
  (o1 + length b1 <= o2)%nat ->
  list_inserts o2 b2 (list_inserts o1 b1 mem) =
  list_inserts o1 b1 (list_inserts o2 b2 mem).
Proof.
  intros H. apply list_eq. intros i. rewrite !lookup_inserts, !length_inserts.
  repeat case_decide; try done; lia.
Qed.

(** A list of known length as its elements. *)
Ltac list_vars l :=
  lazymatch goal with
  | H : length l = O |- _ => destruct l; [|discriminate H]
  | H : length l = S _ |- _ =>
      let a := fresh "b" in
      destruct l as [|a l]; [discriminate H|]; cbn [length] in H; injection H as H;
      list_vars l
  end.

Lemma exists_Some_eq {A} (a : A) (P : A -> Prop) : (exists x, Some a = Some x /\ P x) <-> P a.
Proof. naive_solver. Qed.

Lemma filter_Forall {A} (P : A -> Prop) `{!forall x, Decision (P x)} l :
  Forall P l -> filter P l = l.
Proof.
  induction 1 as [|x l Hx _ IH]; [done|]. by rewrite filter_cons, decide_True, IH.
Qed.
