(* ===== verification/Abi.v ===== *)
(** * The kernel/userspace contract ([rk-bpf/include/rk_abi.h])

    Limits and enumerations, the C layout of every shared structure (sizes and
    offsets are computed by the natural-alignment rules, so the header's
    [_Static_assert]s are theorems here), and the structures as records with
    their byte encodings. *)

From S2P Require Import Prelude.
From stdpp Require Import strings.
Open Scope Z_scope.

(** ** Limits *)

Definition RK_ABI_VERSION : Z := 2.
Definition RK_SCRATCH_PAYLOAD_MAX : Z := 2048.
Definition RK_VERDICTS : Z := 3.
Definition RK_MAX_PROFILES : Z := 1024.
Definition RK_POLICY_SLOTS : Z := 2.
Definition RK_NET_MAX_RANGES : Z := 8.
Definition RK_FILE_MAX_DEPTH : nat := 32.
Definition RK_RULE_HEARTBEAT : Z := 0xFFFFFFFF.
Definition RK_NSEC_PER_CLOCK_TICK : Z := 10000000.
Definition RK_CGROUP_MAX_DEPTH : Z := 16.

(** ** Enumerations

    Each C enumeration is an inductive type with the source's constructors and a
    coercion to the value the constructor has in the ABI. *)

Inductive rk_hook : Set :=
| RK_HOOK_CONNECT4 | RK_HOOK_CONNECT6 | RK_HOOK_SENDMSG4 | RK_HOOK_SENDMSG6
| RK_HOOK_SOCK_CREATE | RK_HOOK_EXEC | RK_HOOK_FILE | RK_HOOK_GUARD
| RK_HOOK_TUN | RK_HOOK_MAX.

Definition rk_hook_val (h : rk_hook) : Z :=
  match h with
  | RK_HOOK_CONNECT4 => 0 | RK_HOOK_CONNECT6 => 1 | RK_HOOK_SENDMSG4 => 2
  | RK_HOOK_SENDMSG6 => 3 | RK_HOOK_SOCK_CREATE => 4 | RK_HOOK_EXEC => 5
  | RK_HOOK_FILE => 6 | RK_HOOK_GUARD => 7 | RK_HOOK_TUN => 8 | RK_HOOK_MAX => 9
  end.
Coercion rk_hook_val : rk_hook >-> Z.

Inductive rk_counter : Set :=
| RK_CNT_RINGBUF_DROP | RK_CNT_SCRATCH_MISS | RK_CNT_DECISION_BASE | RK_CNT_MAX.

Definition rk_counter_val (c : rk_counter) : Z :=
  match c with
  | RK_CNT_RINGBUF_DROP => 0 | RK_CNT_SCRATCH_MISS => 1
  | RK_CNT_DECISION_BASE => 2 | RK_CNT_MAX => 29
  end.
Coercion rk_counter_val : rk_counter >-> Z.

Inductive rk_event_type : Set :=
| RK_EV_NONE | RK_EV_EXEC | RK_EV_FILE_OPEN | RK_EV_NET_CONNECT | RK_EV_UNLINK
| RK_EV_RENAME | RK_EV_FORK | RK_EV_EXIT | RK_EV_TAMPER | RK_EV_SENDMSG
| RK_EV_SOCK_CREATE | RK_EV_FILE_DENY | RK_EV_TUN.

Definition rk_event_type_val (e : rk_event_type) : Z :=
  match e with
  | RK_EV_NONE => 0 | RK_EV_EXEC => 1 | RK_EV_FILE_OPEN => 2
  | RK_EV_NET_CONNECT => 3 | RK_EV_UNLINK => 4 | RK_EV_RENAME => 5
  | RK_EV_FORK => 6 | RK_EV_EXIT => 7 | RK_EV_TAMPER => 8 | RK_EV_SENDMSG => 9
  | RK_EV_SOCK_CREATE => 10 | RK_EV_FILE_DENY => 11 | RK_EV_TUN => 12
  end.
Coercion rk_event_type_val : rk_event_type >-> Z.

Inductive rk_verdict : Set :=
| RK_VERDICT_ALLOW | RK_VERDICT_DENY | RK_VERDICT_AUDIT_WOULD_DENY.

Definition rk_verdict_val (v : rk_verdict) : Z :=
  match v with
  | RK_VERDICT_ALLOW => 0 | RK_VERDICT_DENY => 1 | RK_VERDICT_AUDIT_WOULD_DENY => 2
  end.
Coercion rk_verdict_val : rk_verdict >-> Z.

Inductive rk_tun_op : Set := RK_TUN_CREATE | RK_TUN_ATTACH | RK_TUN_ATTACH_QUEUE.

Definition rk_tun_op_val (o : rk_tun_op) : Z :=
  match o with RK_TUN_CREATE => 1 | RK_TUN_ATTACH => 2 | RK_TUN_ATTACH_QUEUE => 3 end.
Coercion rk_tun_op_val : rk_tun_op >-> Z.

Inductive rk_mode : Set := RK_MODE_AUDIT | RK_MODE_ENFORCE.

Definition rk_mode_val (m : rk_mode) : Z :=
  match m with RK_MODE_AUDIT => 0 | RK_MODE_ENFORCE => 1 end.
Coercion rk_mode_val : rk_mode >-> Z.

Inductive rk_action : Set := RK_ACTION_ALLOW | RK_ACTION_DENY.

Definition rk_action_val (a : rk_action) : Z :=
  match a with RK_ACTION_ALLOW => 0 | RK_ACTION_DENY => 1 end.
Coercion rk_action_val : rk_action >-> Z.

Inductive rk_proto : Set := RK_PROTO_TCP | RK_PROTO_UDP | RK_PROTO_OTHER | RK_PROTO_ANY.

Definition rk_proto_val (p : rk_proto) : Z :=
  match p with
  | RK_PROTO_TCP => 1 | RK_PROTO_UDP => 2 | RK_PROTO_OTHER => 4 | RK_PROTO_ANY => 7
  end.
Coercion rk_proto_val : rk_proto >-> Z.

Inductive rk_profile_flag : Set :=
| RK_PROFILE_DENY_RAW_SOCKETS | RK_PROFILE_EXEC_DENY_DEFAULT
| RK_PROFILE_EXEC_ALLOW_UNLINKED.

Definition rk_profile_flag_val (f : rk_profile_flag) : Z :=
  match f with
  | RK_PROFILE_DENY_RAW_SOCKETS => 1 | RK_PROFILE_EXEC_DENY_DEFAULT => 2
  | RK_PROFILE_EXEC_ALLOW_UNLINKED => 4
  end.
Coercion rk_profile_flag_val : rk_profile_flag >-> Z.

Inductive rk_exec_flag : Set :=
| RK_EXEC_ARGV_TRUNCATED | RK_EXEC_ARGV_UNAVAILABLE | RK_EXEC_UNLINKED
| RK_EXEC_DECISION.

Definition rk_exec_flag_val (f : rk_exec_flag) : Z :=
  match f with
  | RK_EXEC_ARGV_TRUNCATED => 1 | RK_EXEC_ARGV_UNAVAILABLE => 2
  | RK_EXEC_UNLINKED => 4 | RK_EXEC_DECISION => 8
  end.
Coercion rk_exec_flag_val : rk_exec_flag >-> Z.

Inductive rk_file_access : Set :=
| RK_FILE_READ | RK_FILE_WRITE | RK_FILE_EXEC | RK_FILE_CREATE | RK_FILE_DELETE
| RK_FILE_RENAME | RK_FILE_TRUNCATE | RK_FILE_LINK | RK_FILE_SETATTR | RK_FILE_ALL.

Definition rk_file_access_val (a : rk_file_access) : Z :=
  match a with
  | RK_FILE_READ => 1 | RK_FILE_WRITE => 2 | RK_FILE_EXEC => 4
  | RK_FILE_CREATE => 8 | RK_FILE_DELETE => 16 | RK_FILE_RENAME => 32
  | RK_FILE_TRUNCATE => 64 | RK_FILE_LINK => 128 | RK_FILE_SETATTR => 256
  | RK_FILE_ALL => 511
  end.
Coercion rk_file_access_val : rk_file_access >-> Z.

(** [enum rk_file_rule_flag] *)
Definition RK_FILE_SUBTREE : Z := 1.

Inductive rk_file_hook : Set :=
| RK_FILE_HOOK_OPEN | RK_FILE_HOOK_UNLINK | RK_FILE_HOOK_RENAME
| RK_FILE_HOOK_LINK | RK_FILE_HOOK_CREATE | RK_FILE_HOOK_SETATTR.

Definition rk_file_hook_val (h : rk_file_hook) : Z :=
  match h with
  | RK_FILE_HOOK_OPEN => 1 | RK_FILE_HOOK_UNLINK => 2 | RK_FILE_HOOK_RENAME => 3
  | RK_FILE_HOOK_LINK => 4 | RK_FILE_HOOK_CREATE => 5 | RK_FILE_HOOK_SETATTR => 6
  end.
Coercion rk_file_hook_val : rk_file_hook >-> Z.

Inductive rk_file_event_flag : Set := RK_FILE_EV_SUBTREE | RK_FILE_EV_DEPTH_EXCEEDED.

Definition rk_file_event_flag_val (f : rk_file_event_flag) : Z :=
  match f with RK_FILE_EV_SUBTREE => 1 | RK_FILE_EV_DEPTH_EXCEEDED => 2 end.
Coercion rk_file_event_flag_val : rk_file_event_flag >-> Z.

Inductive rk_tamper_hook : Set :=
| RK_TAMPER_BPF | RK_TAMPER_SIGNAL | RK_TAMPER_PTRACE | RK_TAMPER_PIN_UNLINK
| RK_TAMPER_PIN_RENAME | RK_TAMPER_PIN_RMDIR | RK_TAMPER_UMOUNT.

Definition rk_tamper_hook_val (h : rk_tamper_hook) : Z :=
  match h with
  | RK_TAMPER_BPF => 1 | RK_TAMPER_SIGNAL => 2 | RK_TAMPER_PTRACE => 3
  | RK_TAMPER_PIN_UNLINK => 4 | RK_TAMPER_PIN_RENAME => 5
  | RK_TAMPER_PIN_RMDIR => 6 | RK_TAMPER_UMOUNT => 7
  end.
Coercion rk_tamper_hook_val : rk_tamper_hook >-> Z.

(** ** Structures *)

Record rk_hdr : Set := mk_rk_hdr {
  hdr_ts_ns : Z; hdr_cgroup_id : Z; hdr_policy_gen : Z; hdr_pid : Z; hdr_tgid : Z;
  hdr_uid : Z; hdr_gid : Z; hdr_type : Z; hdr_verdict : Z; hdr_abi : Z;
  hdr_rule_id : Z }.

Record rk_payload_exec : Set := mk_rk_payload_exec {
  pe_file_dev : Z; pe_file_ino : Z; pe_flags : Z; pe_str_count : Z; pe_pad : Z }.

Record rk_payload_file : Set := mk_rk_payload_file {
  pf_file_dev : Z; pf_file_ino : Z; pf_open_flags : Z; pf_mode : Z;
  pf_str_count : Z; pf_pad : Z; pf_pad2 : Z }.

Record rk_payload_net : Set := mk_rk_payload_net {
  pn_saddr_v6 : list Z; pn_daddr_v6 : list Z; pn_sport : Z; pn_dport : Z;
  pn_family : Z; pn_protocol : Z; pn_pad : Z }.

Record rk_payload_sock : Set := mk_rk_payload_sock {
  ps_family : Z; ps_pad : Z; ps_type : Z; ps_protocol : Z; ps_pad2 : Z }.

Record rk_payload_tun : Set := mk_rk_payload_tun { pt_op : Z; pt_pad : Z }.

Record rk_payload_file_deny : Set := mk_rk_payload_file_deny {
  fd_file_dev : Z; fd_file_ino : Z; fd_access : Z; fd_hook : Z; fd_flags : Z;
  fd_pad : Z; fd_str_count : Z; fd_pad2 : Z; fd_pad3 : Z }.

Record rk_payload_tamper : Set := mk_rk_payload_tamper {
  tp_hook : Z; tp_pad : Z; tp_target_tgid : Z; tp_detail : Z }.

Record rk_binding : Set := mk_rk_binding { bind_profile : Z; bind_pad : Z }.

Record rk_profile : Set := mk_rk_profile {
  prof_mode : Z; prof_net_default : Z; prof_flags : Z; prof_pad : Z;
  prof_policy_gen : Z }.

Record rk_net_key : Set := mk_rk_net_key {
  nk_prefixlen : Z; nk_scope : Z; nk_addr : list Z }.

Record rk_net_range : Set := mk_rk_net_range {
  nr_rule_id : Z; nr_port_lo : Z; nr_port_hi : Z; nr_proto_mask : Z;
  nr_pad : list Z }.

Record rk_net_rule : Set := mk_rk_net_rule {
  rule_nranges : Z; rule_ranges : list rk_net_range }.

Record rk_exec_key : Set := mk_rk_exec_key {
  ek_scope : Z; ek_pad : Z; ek_dev : Z; ek_ino : Z }.

Record rk_exec_rule : Set := mk_rk_exec_rule { er_rule_id : Z; er_flags : Z }.

Record rk_file_key : Set := mk_rk_file_key {
  fk_scope : Z; fk_pad : Z; fk_dev : Z; fk_ino : Z }.

Record rk_file_rule : Set := mk_rk_file_rule {
  fr_rule_id : Z; fr_deny_mask : Z; fr_flags : Z; fr_pad : Z }.

Record rk_config : Set := mk_rk_config {
  cfg_heartbeat_timeout_ns : Z; cfg_governed_levels : Z }.

Record rk_meta : Set := mk_rk_meta {
  meta_abi : Z; meta_pad : Z; meta_object_sha256 : list Z; meta_epoch : list Z }.

Record rk_guard_target : Set := mk_rk_guard_target {
  gt_tgid : Z; gt_pad : Z; gt_start_ticks : Z }.

(** Hash-map keys are compared as a whole, so equality on them is decidable and
    they are countable. *)

#[export] Instance rk_exec_key_eq_dec : EqDecision rk_exec_key.
Proof. solve_decision. Defined.

#[export] Instance rk_file_key_eq_dec : EqDecision rk_file_key.
Proof. solve_decision. Defined.

#[export] Instance rk_exec_key_countable : Countable rk_exec_key.
Proof.
  refine (inj_countable' (fun k => (ek_scope k, ek_pad k, ek_dev k, ek_ino k))
            (fun '(s, p, d, i) => mk_rk_exec_key s p d i) _).
  by intros [].
Defined.

#[export] Instance rk_file_key_countable : Countable rk_file_key.
Proof.
  refine (inj_countable' (fun k => (fk_scope k, fk_pad k, fk_dev k, fk_ino k))
            (fun '(s, p, d, i) => mk_rk_file_key s p d i) _).
  by intros [].
Defined.

(** ** C layout

    Sizes, alignments and offsets under the natural-alignment rules of the BPF
    target: an integer of [w] bytes is aligned to [w], an array like its element,
    a structure like its most aligned member; padding is inserted in front of a
    member and at the end. *)

Inductive ctype : Set :=
| CInt (width : nat)
| CArr (elem : ctype) (n : nat)
| CStruct (fields : list (string * ctype)).

Abbreviation CU8 := (CInt 1).
Abbreviation CU16 := (CInt 2).
Abbreviation CU32 := (CInt 4).
Abbreviation CU64 := (CInt 8).

Definition align_up (off a : nat) : nat := ((off + (a - 1)) / a * a)%nat.

Fixpoint alignof (t : ctype) : nat :=
  match t with
  | CInt w => w
  | CArr t _ => alignof t
  | CStruct fs =>
      (fix go (fs : list (string * ctype)) : nat :=
         match fs with
         | [] => 1%nat
         | (_, t) :: fs => Nat.max (alignof t) (go fs)
         end) fs
  end.

Fixpoint sizeof (t : ctype) : nat :=
  match t with
  | CInt w => w
  | CArr t n => (n * sizeof t)%nat
  | CStruct fs =>
      let end_ :=
        (fix go (off : nat) (fs : list (string * ctype)) : nat :=
           match fs with
           | [] => off
           | (_, t) :: fs => go (align_up off (alignof t) + sizeof t)%nat fs
           end) 0%nat fs in
      align_up end_ (alignof t)
  end.

(** Offsets of the members of a structure, in order. *)
Fixpoint offsets (off : nat) (fs : list (string * ctype)) : list (string * nat) :=
  match fs with
  | [] => []
  | (name, t) :: fs =>
      let o := align_up off (alignof t) in (name, o) :: offsets (o + sizeof t)%nat fs
  end.

Definition offsetof (t : ctype) (name : string) : option nat :=
  match t with
  | CStruct fs => (fun r => r.2.2) <$> list_find (fun p => p.1 = name) (offsets 0 fs)
  | _ => None
  end.

Definition rk_hdr_layout : ctype := CStruct
  [("ts_ns", CU64); ("cgroup_id", CU64); ("policy_gen", CU64); ("pid", CU32);
   ("tgid", CU32); ("uid", CU32); ("gid", CU32); ("type", CU16); ("verdict",
   CU8); ("abi", CU8); ("rule_id", CU32)].

Definition rk_scratch_msg_layout : ctype := CStruct
  [("hdr", rk_hdr_layout); ("payload_len", CU32); ("_reserved", CU32);
   ("payload", CArr CU8 2048)].

Definition rk_payload_exec_layout : ctype := CStruct
  [("file_dev", CU64); ("file_ino", CU64); ("flags", CU32); ("str_count", CU16);
   ("_pad", CU16)].

Definition rk_payload_file_layout : ctype := CStruct
  [("file_dev", CU64); ("file_ino", CU64); ("open_flags", CU32); ("mode", CU32);
   ("str_count", CU16); ("_pad", CU16); ("_pad2", CU32)].

Definition rk_payload_net_layout : ctype := CStruct
  [("saddr_v6", CArr CU8 16); ("daddr_v6", CArr CU8 16); ("sport", CU16);
   ("dport", CU16); ("family", CU16); ("protocol", CU8); ("_pad", CU8)].

Definition rk_payload_sock_layout : ctype := CStruct
  [("family", CU16); ("_pad", CU16); ("type", CU32); ("protocol", CU32);
   ("_pad2", CU32)].

Definition rk_payload_tun_layout : ctype := CStruct
  [("op", CU32); ("_pad", CU32)].

Definition rk_binding_layout : ctype := CStruct
  [("profile", CU32); ("_pad", CU32)].

Definition rk_profile_layout : ctype := CStruct
  [("mode", CU8); ("net_default", CU8); ("flags", CU16); ("_pad", CU32);
   ("policy_gen", CU64)].

Definition rk_net_key_layout : ctype := CStruct
  [("prefixlen", CU32); ("scope", CU32); ("addr", CArr CU8 16)].

Definition rk_net_range_layout : ctype := CStruct
  [("rule_id", CU32); ("port_lo", CU16); ("port_hi", CU16); ("proto_mask", CU8);
   ("_pad", CArr CU8 3)].

Definition rk_net_rule_layout : ctype := CStruct
  [("nranges", CU32); ("ranges", CArr rk_net_range_layout 8)].

Definition rk_exec_key_layout : ctype := CStruct
  [("scope", CU32); ("_pad", CU32); ("dev", CU64); ("ino", CU64)].

Definition rk_exec_rule_layout : ctype := CStruct
  [("rule_id", CU32); ("flags", CU32)].

Definition rk_file_key_layout : ctype := CStruct
  [("scope", CU32); ("_pad", CU32); ("dev", CU64); ("ino", CU64)].

Definition rk_file_rule_layout : ctype := CStruct
  [("rule_id", CU32); ("deny_mask", CU32); ("flags", CU32); ("_pad", CU32)].

Definition rk_payload_file_deny_layout : ctype := CStruct
  [("file_dev", CU64); ("file_ino", CU64); ("access", CU32); ("hook", CU16);
   ("flags", CU8); ("_pad", CU8); ("str_count", CU16); ("_pad2", CU16);
   ("_pad3", CU32)].

Definition rk_config_layout : ctype := CStruct
  [("heartbeat_timeout_ns", CU64); ("governed_levels", CU64)].

Definition rk_guard_target_layout : ctype := CStruct
  [("tgid", CU32); ("_pad", CU32); ("start_ticks", CU64)].

Definition rk_meta_layout : ctype := CStruct
  [("abi", CU32); ("_pad", CU32); ("object_sha256", CArr CU8 32); ("epoch", CArr
   CU8 16)].

Definition rk_payload_tamper_layout : ctype := CStruct
  [("hook", CU16); ("_pad", CU16); ("target_tgid", CU32); ("detail", CU64)].

(** Bytes of a structure not covered by a declared member. *)
Definition padding (t : ctype) : nat :=
  match t with
  | CStruct fs => (sizeof t - sum_list_with (fun f => sizeof f.2) fs)%nat
  | _ => 0%nat
  end.

(** Every [_Static_assert] of [rk_abi.h]: the sizes and member offsets the
    header states are the ones the C layout rules give. *)
Lemma abi_static_asserts :
  sizeof rk_config_layout = 16%nat /\
  sizeof rk_guard_target_layout = 16%nat /\
  offsetof rk_guard_target_layout "start_ticks" = Some 8%nat /\
  sizeof rk_meta_layout = 56%nat /\
  offsetof rk_meta_layout "epoch" = Some 40%nat /\
  sizeof rk_payload_tamper_layout = 16%nat /\
  offsetof rk_payload_tamper_layout "detail" = Some 8%nat /\
  sizeof rk_exec_key_layout = 24%nat /\
  offsetof rk_exec_key_layout "dev" = Some 8%nat /\
  sizeof rk_exec_rule_layout = 8%nat /\
  sizeof rk_file_key_layout = 24%nat /\
  sizeof rk_file_rule_layout = 16%nat /\
  sizeof rk_payload_file_deny_layout = 32%nat /\
  offsetof rk_payload_file_deny_layout "str_count" = Some 24%nat /\
  sizeof rk_payload_sock_layout = 16%nat /\
  sizeof rk_payload_tun_layout = 8%nat /\
  sizeof rk_binding_layout = 8%nat /\
  sizeof rk_profile_layout = 16%nat /\
  offsetof rk_profile_layout "policy_gen" = Some 8%nat /\
  sizeof rk_net_key_layout = 24%nat /\
  offsetof rk_net_key_layout "addr" = Some 8%nat /\
  sizeof rk_net_range_layout = 12%nat /\
  sizeof rk_net_rule_layout = 100%nat /\
  sizeof rk_hdr_layout = 48%nat /\
  offsetof rk_hdr_layout "ts_ns" = Some 0%nat /\
  offsetof rk_hdr_layout "cgroup_id" = Some 8%nat /\
  offsetof rk_hdr_layout "policy_gen" = Some 16%nat /\
  offsetof rk_hdr_layout "pid" = Some 24%nat /\
  offsetof rk_hdr_layout "tgid" = Some 28%nat /\
  offsetof rk_hdr_layout "uid" = Some 32%nat /\
  offsetof rk_hdr_layout "gid" = Some 36%nat /\
  offsetof rk_hdr_layout "type" = Some 40%nat /\
  offsetof rk_hdr_layout "verdict" = Some 42%nat /\
  offsetof rk_hdr_layout "abi" = Some 43%nat /\
  offsetof rk_hdr_layout "rule_id" = Some 44%nat /\
  offsetof rk_scratch_msg_layout "hdr" = Some 0%nat /\
  offsetof rk_scratch_msg_layout "payload_len" = Some 48%nat /\
  offsetof rk_scratch_msg_layout "_reserved" = Some 52%nat /\
  offsetof rk_scratch_msg_layout "payload" = Some 56%nat /\
  sizeof rk_scratch_msg_layout = 2104%nat /\
  sizeof rk_payload_exec_layout = 24%nat /\
  offsetof rk_payload_exec_layout "file_dev" = Some 0%nat /\
  offsetof rk_payload_exec_layout "file_ino" = Some 8%nat /\
  offsetof rk_payload_exec_layout "flags" = Some 16%nat /\
  offsetof rk_payload_exec_layout "str_count" = Some 20%nat /\
  sizeof rk_payload_file_layout = 32%nat /\
  offsetof rk_payload_file_layout "file_dev" = Some 0%nat /\
  offsetof rk_payload_file_layout "file_ino" = Some 8%nat /\
  offsetof rk_payload_file_layout "open_flags" = Some 16%nat /\
  offsetof rk_payload_file_layout "mode" = Some 20%nat /\
  offsetof rk_payload_file_layout "str_count" = Some 24%nat /\
  offsetof rk_payload_file_layout "_pad2" = Some 28%nat /\
  sizeof rk_payload_net_layout = 40%nat /\
  offsetof rk_payload_net_layout "saddr_v6" = Some 0%nat /\
  offsetof rk_payload_net_layout "daddr_v6" = Some 16%nat /\
  offsetof rk_payload_net_layout "sport" = Some 32%nat /\
  offsetof rk_payload_net_layout "dport" = Some 34%nat /\
  offsetof rk_payload_net_layout "family" = Some 36%nat /\
  offsetof rk_payload_net_layout "protocol" = Some 38%nat.
Proof. repeat split; reflexivity. Qed.

(** No shared structure has implicit padding: every byte belongs to a declared
    member. *)
Lemma abi_no_implicit_padding :
  Forall (fun t => padding t = 0%nat)
    [rk_hdr_layout; rk_scratch_msg_layout; rk_payload_exec_layout;
     rk_payload_file_layout; rk_payload_net_layout; rk_payload_sock_layout;
     rk_payload_tun_layout; rk_binding_layout; rk_profile_layout; rk_net_key_layout;
     rk_net_range_layout; rk_net_rule_layout; rk_exec_key_layout;
     rk_exec_rule_layout; rk_file_key_layout; rk_file_rule_layout;
     rk_payload_file_deny_layout; rk_config_layout; rk_guard_target_layout;
     rk_meta_layout; rk_payload_tamper_layout].
Proof. repeat constructor. Qed.

(** ** Byte encodings

    The bytes a structure occupies, member by member.  [field bs off w] reads the
    [w]-byte little-endian member at offset [off]. *)

Definition rk_hdr_bytes (h : rk_hdr) : list Z :=
  le_bytes 8 (hdr_ts_ns h) ++ le_bytes 8 (hdr_cgroup_id h) ++
  le_bytes 8 (hdr_policy_gen h) ++ le_bytes 4 (hdr_pid h) ++ le_bytes 4 (hdr_tgid h) ++
  le_bytes 4 (hdr_uid h) ++ le_bytes 4 (hdr_gid h) ++ le_bytes 2 (hdr_type h) ++
  le_bytes 1 (hdr_verdict h) ++ le_bytes 1 (hdr_abi h) ++ le_bytes 4 (hdr_rule_id h).

Definition rk_payload_exec_bytes (b : rk_payload_exec) : list Z :=
  le_bytes 8 (pe_file_dev b) ++ le_bytes 8 (pe_file_ino b) ++ le_bytes 4 (pe_flags b) ++
  le_bytes 2 (pe_str_count b) ++ le_bytes 2 (pe_pad b).

Definition rk_payload_file_bytes (b : rk_payload_file) : list Z :=
  le_bytes 8 (pf_file_dev b) ++ le_bytes 8 (pf_file_ino b) ++
  le_bytes 4 (pf_open_flags b) ++ le_bytes 4 (pf_mode b) ++
  le_bytes 2 (pf_str_count b) ++ le_bytes 2 (pf_pad b) ++ le_bytes 4 (pf_pad2 b).

Definition rk_payload_net_bytes (b : rk_payload_net) : list Z :=
  pn_saddr_v6 b ++ pn_daddr_v6 b ++ le_bytes 2 (pn_sport b) ++ le_bytes 2 (pn_dport b) ++
  le_bytes 2 (pn_family b) ++ le_bytes 1 (pn_protocol b) ++ le_bytes 1 (pn_pad b).

Definition rk_payload_sock_bytes (b : rk_payload_sock) : list Z :=
  le_bytes 2 (ps_family b) ++ le_bytes 2 (ps_pad b) ++ le_bytes 4 (ps_type b) ++
  le_bytes 4 (ps_protocol b) ++ le_bytes 4 (ps_pad2 b).

Definition rk_payload_tun_bytes (b : rk_payload_tun) : list Z :=
  le_bytes 4 (pt_op b) ++ le_bytes 4 (pt_pad b).

Definition rk_payload_file_deny_bytes (b : rk_payload_file_deny) : list Z :=
  le_bytes 8 (fd_file_dev b) ++ le_bytes 8 (fd_file_ino b) ++ le_bytes 4 (fd_access b) ++
  le_bytes 2 (fd_hook b) ++ le_bytes 1 (fd_flags b) ++ le_bytes 1 (fd_pad b) ++
  le_bytes 2 (fd_str_count b) ++ le_bytes 2 (fd_pad2 b) ++ le_bytes 4 (fd_pad3 b).

Definition rk_payload_tamper_bytes (b : rk_payload_tamper) : list Z :=
  le_bytes 2 (tp_hook b) ++ le_bytes 2 (tp_pad b) ++ le_bytes 4 (tp_target_tgid b) ++
  le_bytes 8 (tp_detail b).

Definition field (bs : list Z) (off w : nat) : Z := le_value (take w (drop off bs)).

Definition rk_hdr_of_bytes (bs : list Z) : rk_hdr :=
  mk_rk_hdr (field bs 0 8) (field bs 8 8) (field bs 16 8) (field bs 24 4)
    (field bs 28 4) (field bs 32 4) (field bs 36 4) (field bs 40 2) (field bs 42 1)
    (field bs 43 1) (field bs 44 4).

Definition rk_payload_exec_of_bytes (bs : list Z) : rk_payload_exec :=
  mk_rk_payload_exec (field bs 0 8) (field bs 8 8) (field bs 16 4) (field bs 20 2)
    (field bs 22 2).

Definition rk_payload_file_of_bytes (bs : list Z) : rk_payload_file :=
  mk_rk_payload_file (field bs 0 8) (field bs 8 8) (field bs 16 4) (field bs 20 4)
    (field bs 24 2) (field bs 26 2) (field bs 28 4).

Definition rk_payload_net_of_bytes (bs : list Z) : rk_payload_net :=
  mk_rk_payload_net (take 16 bs) (take 16 (drop 16 bs)) (field bs 32 2)
    (field bs 34 2) (field bs 36 2) (field bs 38 1) (field bs 39 1).

Definition rk_payload_sock_of_bytes (bs : list Z) : rk_payload_sock :=
  mk_rk_payload_sock (field bs 0 2) (field bs 2 2) (field bs 4 4) (field bs 8 4)
    (field bs 12 4).

Definition rk_payload_tun_of_bytes (bs : list Z) : rk_payload_tun :=
  mk_rk_payload_tun (field bs 0 4) (field bs 4 4).

Definition rk_payload_file_deny_of_bytes (bs : list Z) : rk_payload_file_deny :=
  mk_rk_payload_file_deny (field bs 0 8) (field bs 8 8) (field bs 16 4)
    (field bs 20 2) (field bs 22 1) (field bs 23 1) (field bs 24 2) (field bs 26 2)
    (field bs 28 4).

Definition rk_payload_tamper_of_bytes (bs : list Z) : rk_payload_tamper :=
  mk_rk_payload_tamper (field bs 0 2) (field bs 2 2) (field bs 4 4) (field bs 8 8).

(** Members that fit their width survive an encode/decode round trip. *)

Definition fits (w : nat) (v : Z) : Prop := 0 <= v < 2 ^ (8 * Z.of_nat w).

Definition fits_all (l : list (nat * Z)) : Prop := Forall (fun f => fits f.1 f.2) l.

Definition rk_hdr_wf (h : rk_hdr) : Prop :=
  fits_all [(8, hdr_ts_ns h); (8, hdr_cgroup_id h); (8, hdr_policy_gen h);
    (4, hdr_pid h); (4, hdr_tgid h); (4, hdr_uid h); (4, hdr_gid h); (2, hdr_type h);
    (1, hdr_verdict h); (1, hdr_abi h); (4, hdr_rule_id h)]%nat.

Definition rk_payload_exec_wf (b : rk_payload_exec) : Prop :=
  fits_all [(8, pe_file_dev b); (8, pe_file_ino b); (4, pe_flags b);
    (2, pe_str_count b); (2, pe_pad b)]%nat.

Definition rk_payload_file_wf (b : rk_payload_file) : Prop :=
  fits_all [(8, pf_file_dev b); (8, pf_file_ino b); (4, pf_open_flags b);
    (4, pf_mode b); (2, pf_str_count b); (2, pf_pad b); (4, pf_pad2 b)]%nat.

Definition rk_payload_net_wf (b : rk_payload_net) : Prop :=
  length (pn_saddr_v6 b) = 16%nat /\ length (pn_daddr_v6 b) = 16%nat /\
  fits_all [(2, pn_sport b); (2, pn_dport b); (2, pn_family b);
    (1, pn_protocol b); (1, pn_pad b)]%nat.

Definition rk_payload_sock_wf (b : rk_payload_sock) : Prop :=
  fits_all [(2, ps_family b); (2, ps_pad b); (4, ps_type b); (4, ps_protocol b);
    (4, ps_pad2 b)]%nat.

Definition rk_payload_tun_wf (b : rk_payload_tun) : Prop :=
  fits_all [(4, pt_op b); (4, pt_pad b)]%nat.

Definition rk_payload_file_deny_wf (b : rk_payload_file_deny) : Prop :=
  fits_all [(8, fd_file_dev b); (8, fd_file_ino b); (4, fd_access b); (2, fd_hook b);
    (1, fd_flags b); (1, fd_pad b); (2, fd_str_count b); (2, fd_pad2 b);
    (4, fd_pad3 b)]%nat.

Definition rk_payload_tamper_wf (b : rk_payload_tamper) : Prop :=
  fits_all [(2, tp_hook b); (2, tp_pad b); (4, tp_target_tgid b); (8, tp_detail b)]%nat.

(** Reads one member back out of the encoding it was written into: the bytes at
    its offset are, by computation, its own encoding. *)
Ltac decode_field :=
  match goal with
  | |- field _ _ ?w = ?v =>
      change (le_value (le_bytes w v) = v); apply le_value_bytes_small; assumption
  end.

Ltac fits_cases :=
  repeat match goal with
  | H : fits_all _ |- _ => unfold fits_all in H
  | H : Forall _ (_ :: _) |- _ => apply Forall_cons in H as [? ?]
  | H : Forall _ [] |- _ => clear H
  end; cbn [fst snd] in *.

Ltac struct_round_trip :=
  let b := fresh in let H := fresh in
  intros b ? H; destruct b; hnf in H; fits_cases;
  match goal with |- ?f _ = _ => unfold f end; f_equal; decode_field.

Lemma rk_hdr_round_trip h rest :
  rk_hdr_wf h -> rk_hdr_of_bytes (rk_hdr_bytes h ++ rest) = h.
Proof. revert h rest. struct_round_trip. Qed.

Lemma rk_payload_exec_round_trip b rest :
  rk_payload_exec_wf b -> rk_payload_exec_of_bytes (rk_payload_exec_bytes b ++ rest) = b.
Proof. revert b rest. struct_round_trip. Qed.

Lemma rk_payload_file_round_trip b rest :
  rk_payload_file_wf b -> rk_payload_file_of_bytes (rk_payload_file_bytes b ++ rest) = b.
Proof. revert b rest. struct_round_trip. Qed.

Lemma rk_payload_sock_round_trip b rest :
  rk_payload_sock_wf b -> rk_payload_sock_of_bytes (rk_payload_sock_bytes b ++ rest) = b.
Proof. revert b rest. struct_round_trip. Qed.

Lemma rk_payload_tun_round_trip b rest :
  rk_payload_tun_wf b -> rk_payload_tun_of_bytes (rk_payload_tun_bytes b ++ rest) = b.
Proof. revert b rest. struct_round_trip. Qed.

Lemma rk_payload_file_deny_round_trip b rest :
  rk_payload_file_deny_wf b ->
  rk_payload_file_deny_of_bytes (rk_payload_file_deny_bytes b ++ rest) = b.
Proof. revert b rest. struct_round_trip. Qed.

Lemma rk_payload_tamper_round_trip b rest :
  rk_payload_tamper_wf b ->
  rk_payload_tamper_of_bytes (rk_payload_tamper_bytes b ++ rest) = b.
Proof. revert b rest. struct_round_trip. Qed.

(** A list of known length is its explicit elements. *)
Lemma length_16_inv {A} (l : list A) : length l = 16%nat ->
  exists a0 a1 a2 a3 a4 a5 a6 a7 a8 a9 a10 a11 a12 a13 a14 a15,
    l = [a0; a1; a2; a3; a4; a5; a6; a7; a8; a9; a10; a11; a12; a13; a14; a15].
Proof.
  intros H. do 16 (destruct l as [|? l]; [done|]). destruct l; [|done].
  repeat eexists.
Qed.

Lemma rk_payload_net_round_trip b rest :
  rk_payload_net_wf b -> rk_payload_net_of_bytes (rk_payload_net_bytes b ++ rest) = b.
Proof.
  destruct b as [sa da sp dp fam pr pad]. intros (Hs & Hd & H).
  cbn [pn_saddr_v6 pn_daddr_v6] in *.
  apply length_16_inv in Hs as (?&?&?&?&?&?&?&?&?&?&?&?&?&?&?&? & ->).
  apply length_16_inv in Hd as (?&?&?&?&?&?&?&?&?&?&?&?&?&?&?&? & ->).
  fits_cases. unfold rk_payload_net_of_bytes. f_equal; decode_field.
Qed.

Lemma length_rk_hdr_bytes h : length (rk_hdr_bytes h) = 48%nat.
Proof. reflexivity. Qed.

#[export] Hint Rewrite length_rk_hdr_bytes : rk_len.
#[export] Hint Resolve rk_hdr_round_trip rk_payload_exec_round_trip
  rk_payload_file_round_trip rk_payload_net_round_trip rk_payload_sock_round_trip
  rk_payload_tun_round_trip rk_payload_file_deny_round_trip
  rk_payload_tamper_round_trip : rk.
