(* ===== verification/Bpf.v ===== *)
(** * The execution model of the BPF programs

    A BPF program is a finite tree of helper calls ([prog]): the programs have no
    unbounded loop, and everything they observe of the kernel goes through a map
    access, a helper or a CO-RE read.  [handle] gives each call its meaning on an
    explicit [world]: the maps the sensor writes, the kernel objects and task the
    hook observes, and the state the programs themselves write (counters, scratch
    buffer, ring buffer, exec decisions).  [run] executes a program with nothing
    else happening in between; other files give the same trees an interleaved
    meaning.

    What the kernel implements and the repository only calls is the class
    [BpfKernel]; its documented behaviour is [BpfKernelLaws]. *)

From S2P Require Import Prelude Abi.
Open Scope Z_scope.

(** ** State declared by the sources *)

(** [struct rk_exec_decision] (exec.bpf.c) *)
Record rk_exec_decision : Set := mk_rk_exec_decision {
  ed_policy_gen : Z; ed_rule_id : Z; ed_pad : Z }.

(** [struct rk_scratch_buf]: the message and the slack tail.  [sb_mem] is the
    2048-byte payload followed by the 2048-byte slack, contiguous in memory. *)
Record rk_scratch_buf : Set := mk_rk_scratch_buf {
  sb_hdr : rk_hdr; sb_payload_len : Z; sb_reserved : Z; sb_mem : list Z }.

(** The maps only rk-sensor writes.  A one-element array map is an [option]:
    [None] is a lookup that returned NULL. *)
Record policy_maps : Set := mk_policy_maps {
  m_cgroup_profile : gmap Z rk_binding;
  m_profiles : gmap Z rk_profile;
  m_active_slot : option Z;
  m_heartbeat : option Z;
  m_config : option rk_config;
  m_guard : option rk_guard_target;
  m_monitored_cgroups : gmap Z Z;
  m_net_deny : list (rk_net_key * rk_net_rule);
  m_net_allow : list (rk_net_key * rk_net_rule);
  m_exec_allow : gmap rk_exec_key rk_exec_rule;
  m_file_protect : gmap rk_file_key rk_file_rule }.

(** The state the programs write: none of it is read to reach a verdict. *)
Record telemetry : Set := mk_telemetry {
  t_exec_decided : gmap Z rk_exec_decision;
  t_counters : gmap Z Z;
  t_scratch : option rk_scratch_buf;
  t_ring : list (Z * list Z);
  t_consumed : Z;
  t_wakeup_threshold : Z;
  t_lsm_exec_counter : option Z }.

(** Members of kernel structures the programs read with [BPF_CORE_READ]. *)
Inductive kfield : Set :=
| inode_i_sb | inode_i_ino | inode_i_nlink
| super_block_s_dev | super_block_s_magic
| dentry_d_inode | dentry_d_parent | dentry_d_name_name
| file_f_inode | file_f_path_dentry | file_f_mode | file_f_flags
| linux_binprm_file | linux_binprm_filename
| task_struct_tgid | task_struct_group_leader | task_struct_start_boottime
| task_struct_mm | mm_struct_arg_start | mm_struct_arg_end
| iattr_ia_valid | vfsmount_mnt_sb.

(** What the hook observes of the running task and of kernel and user memory.
    Pointers are addresses, 0 is NULL.  [k_str] and [k_user] are the results of
    the probe-read helpers: the return value and the bytes written.
    [k_empty_literal] is where the program's read-only literal of length zero was loaded. *)
Record kenv : Set := mk_kenv {
  k_cgroup_id : Z;
  k_ancestor_cgroup_id : Z -> Z;
  k_boot_ns : Z;
  k_uid_gid : Z;
  k_pid_tgid : Z;
  k_field : kfield -> Z -> Z;
  k_str : Z -> Z -> Z * list Z;
  k_user : Z -> Z -> Z * list Z;
  k_empty_literal : Z }.

Record world : Set := mk_world {
  w_maps : policy_maps; w_env : kenv; w_tele : telemetry }.

(** ** The kernel's side of the interface *)

Class BpfKernel := {
  (** [bpf_map_lookup_elem] on a [BPF_MAP_TYPE_LPM_TRIE] *)
  lpm_lookup : list (rk_net_key * rk_net_rule) -> rk_net_key -> option rk_net_rule;
  (** [bpf_map_update_elem] on the [BPF_MAP_TYPE_LRU_HASH] of exec decisions *)
  lru_update : gmap Z rk_exec_decision -> Z -> rk_exec_decision ->
               gmap Z rk_exec_decision;
  (** [bpf_ringbuf_query(.., BPF_RB_AVAIL_DATA)] and the result of
      [bpf_ringbuf_output], given what was produced and consumed so far *)
  ringbuf_avail : Z -> list (Z * list Z) -> Z;
  ringbuf_output_result : Z -> list (Z * list Z) -> list Z -> Z -> Z }.

(** ** Helper calls *)

Inductive op : Set -> Type :=
| LkCgroupProfile (cg : Z) : op (option rk_binding)
| LkProfiles (idx : Z) : op (option rk_profile)
| LkActiveSlot : op (option Z)
| LkHeartbeat : op (option Z)
| LkConfig : op (option rk_config)
| LkGuard : op (option rk_guard_target)
| LkMonitored (cg : Z) : op (option Z)
| LkNetDeny (k : rk_net_key) : op (option rk_net_rule)
| LkNetAllow (k : rk_net_key) : op (option rk_net_rule)
| LkExecAllow (k : rk_exec_key) : op (option rk_exec_rule)
| LkFileProtect (k : rk_file_key) : op (option rk_file_rule)
| LkExecDecided (tid : Z) : op (option rk_exec_decision)
| UpdExecDecided (tid : Z) (d : rk_exec_decision) : op unit
| DelExecDecided (tid : Z) : op unit
| LkCounter (idx : Z) : op (option Z)
| StCounter (idx v : Z) : op unit
| LkScratch : op bool
| LdMsg : op rk_scratch_buf
| StMsg (f : rk_scratch_buf -> rk_scratch_buf) : op unit
| RingbufQuery : op Z
| RingbufOutput (rec : list Z) (flags : Z) : op Z
| WakeupThreshold : op Z
| LkLsmCounter : op (option Z)
| StLsmCounter (v : Z) : op unit
| GetCgroupId : op Z
| GetAncestorCgroupId (level : Z) : op Z
| KtimeBootNs : op Z
| GetUidGid : op Z
| GetPidTgid : op Z
| AddrEmptyLiteral : op Z
| CoreRead (f : kfield) (p : Z) : op Z
| ProbeReadKernelStr (size src : Z) : op (Z * list Z)
| ProbeReadUser (size src : Z) : op (Z * list Z).

Inductive prog (A : Type) : Type :=
| Ret (a : A)
| Op {X : Set} (o : op X) (k : X -> prog A).
Arguments Ret {A} a.
Arguments Op {A X} o k.

Fixpoint prog_bind {A B} (p : prog A) (f : A -> prog B) : prog B :=
  match p with
  | Ret a => f a
  | Op o k => Op o (fun x => prog_bind (k x) f)
  end.

#[export] Instance prog_mret : MRet prog := fun A a => Ret a.
#[export] Instance prog_mbind : MBind prog := fun A B f p => prog_bind p f.

Definition call {X : Set} (o : op X) : prog X := Op o Ret.

(** ** Meaning of a helper call *)

Definition zero_hdr : rk_hdr := mk_rk_hdr 0 0 0 0 0 0 0 0 0 0 0.
Definition zero_scratch : rk_scratch_buf := mk_rk_scratch_buf zero_hdr 0 0 [].

Definition map_tele (f : telemetry -> telemetry) (w : world) : world :=
  mk_world (w_maps w) (w_env w) (f (w_tele w)).

Definition set_exec_decided (m : gmap Z rk_exec_decision) (t : telemetry) : telemetry :=
  mk_telemetry m (t_counters t) (t_scratch t) (t_ring t) (t_consumed t)
    (t_wakeup_threshold t) (t_lsm_exec_counter t).

Definition set_counters (m : gmap Z Z) (t : telemetry) : telemetry :=
  mk_telemetry (t_exec_decided t) m (t_scratch t) (t_ring t) (t_consumed t)
    (t_wakeup_threshold t) (t_lsm_exec_counter t).

Definition set_scratch (s : option rk_scratch_buf) (t : telemetry) : telemetry :=
  mk_telemetry (t_exec_decided t) (t_counters t) s (t_ring t) (t_consumed t)
    (t_wakeup_threshold t) (t_lsm_exec_counter t).

Definition set_ring (r : list (Z * list Z)) (t : telemetry) : telemetry :=
  mk_telemetry (t_exec_decided t) (t_counters t) (t_scratch t) r (t_consumed t)
    (t_wakeup_threshold t) (t_lsm_exec_counter t).

Definition set_lsm_counter (c : option Z) (t : telemetry) : telemetry :=
  mk_telemetry (t_exec_decided t) (t_counters t) (t_scratch t) (t_ring t)
    (t_consumed t) (t_wakeup_threshold t) c.

Section Run.
Context `{K : BpfKernel}.

Definition handle {X : Set} (o : op X) : world -> X * world :=
  match o in op X return world -> X * world with
  | LkCgroupProfile cg => fun w => (m_cgroup_profile (w_maps w) !! cg, w)
  | LkProfiles idx => fun w => (m_profiles (w_maps w) !! idx, w)
  | LkActiveSlot => fun w => (m_active_slot (w_maps w), w)
  | LkHeartbeat => fun w => (m_heartbeat (w_maps w), w)
  | LkConfig => fun w => (m_config (w_maps w), w)
  | LkGuard => fun w => (m_guard (w_maps w), w)
  | LkMonitored cg => fun w => (m_monitored_cgroups (w_maps w) !! cg, w)
  | LkNetDeny k => fun w => (lpm_lookup (m_net_deny (w_maps w)) k, w)
  | LkNetAllow k => fun w => (lpm_lookup (m_net_allow (w_maps w)) k, w)
  | LkExecAllow k => fun w => (m_exec_allow (w_maps w) !! k, w)
  | LkFileProtect k => fun w => (m_file_protect (w_maps w) !! k, w)
  | LkExecDecided tid => fun w => (t_exec_decided (w_tele w) !! tid, w)
  | UpdExecDecided tid d => fun w =>
      (tt, map_tele (fun t => set_exec_decided (lru_update (t_exec_decided t) tid d) t) w)
  | DelExecDecided tid => fun w =>
      (tt, map_tele (fun t => set_exec_decided (delete tid (t_exec_decided t)) t) w)
  | LkCounter idx => fun w => (t_counters (w_tele w) !! idx, w)
  | StCounter idx v => fun w =>
      (tt, map_tele (fun t => set_counters (<[idx := v]> (t_counters t)) t) w)
  | LkScratch => fun w => (bool_decide (is_Some (t_scratch (w_tele w))), w)
  | LdMsg => fun w => (default zero_scratch (t_scratch (w_tele w)), w)
  | StMsg f => fun w => (tt, map_tele (fun t => set_scratch (f <$> t_scratch t) t) w)
  | RingbufQuery => fun w =>
      (ringbuf_avail (t_consumed (w_tele w)) (t_ring (w_tele w)), w)
  | RingbufOutput rec flags => fun w =>
      let t := w_tele w in
      let r := ringbuf_output_result (t_consumed t) (t_ring t) rec flags in
      (r, if r <? 0 then w else map_tele (set_ring (t_ring t ++ [(flags, rec)])) w)
  | WakeupThreshold => fun w => (t_wakeup_threshold (w_tele w), w)
  | LkLsmCounter => fun w => (t_lsm_exec_counter (w_tele w), w)
  | StLsmCounter v => fun w => (tt, map_tele (set_lsm_counter (Some v)) w)
  | GetCgroupId => fun w => (k_cgroup_id (w_env w), w)
  | GetAncestorCgroupId level => fun w => (k_ancestor_cgroup_id (w_env w) level, w)
  | KtimeBootNs => fun w => (k_boot_ns (w_env w), w)
  | GetUidGid => fun w => (k_uid_gid (w_env w), w)
  | GetPidTgid => fun w => (k_pid_tgid (w_env w), w)
  | AddrEmptyLiteral => fun w => (k_empty_literal (w_env w), w)
  | CoreRead f p => fun w => (k_field (w_env w) f p, w)
  | ProbeReadKernelStr size src => fun w => (k_str (w_env w) size src, w)
  | ProbeReadUser size src => fun w => (k_user (w_env w) size src, w)
  end.

Fixpoint run {A} (p : prog A) (w : world) : A * world :=
  match p with
  | Ret a => (a, w)
  | Op o k => let '(x, w') := handle o w in run (k x) w'
  end.

(** The value a program returns, and the world it leaves. *)
Definition result {A} (p : prog A) (w : world) : A := (run p w).1.
Definition final {A} (p : prog A) (w : world) : world := (run p w).2.

Lemma run_bind {A B} (p : prog A) (f : A -> prog B) w :
  run (p ≫= f) w = let '(a, w') := run p w in run (f a) w'.
Proof.
  revert w. induction p as [a|X o k IH]; intros w; [done|].
  cbn. destruct (handle o w) as [x w']. apply IH.
Qed.

Lemma run_call {X : Set} (o : op X) w : run (call o) w = handle o w.
Proof. cbn. by destruct (handle o w). Qed.

Lemma run_ret {A} (a : A) w : run (mret a) w = (a, w).
Proof. done. Qed.

End Run.

(** ** Documented behaviour of the kernel side *)

(** Bits of a byte, most significant first, and of a trie key's data: the scope
    as stored in memory, then the address. *)
Definition byte_bits (b : Z) : list bool :=
  (fun i => Z.testbit b (Z.of_nat i)) <$> [7; 6; 5; 4; 3; 2; 1; 0]%nat.

Definition key_bits (k : rk_net_key) : list bool :=
  (le_bytes 4 (nk_scope k) ++ nk_addr k) ≫= byte_bits.

(** A trie entry matches a lookup key when they agree on the entry's prefix. *)
Definition lpm_matches (e k : rk_net_key) : Prop :=
  take (Z.to_nat (nk_prefixlen e)) (key_bits e) =
  take (Z.to_nat (nk_prefixlen e)) (key_bits k).

#[export] Instance lpm_matches_dec e k : Decision (lpm_matches e k).
Proof. unfold lpm_matches. apply _. Defined.

(** The longest matching prefix decides; the LRU update keeps no entry that was
    not there or just written. *)
Class BpfKernelLaws (K : BpfKernel) : Prop := {
  lpm_lookup_None t k :
    nk_prefixlen k = 160 -> lpm_lookup t k = None ->
    forall e r, (e, r) ∈ t -> ~ lpm_matches e k;
  lpm_lookup_Some t k r :
    nk_prefixlen k = 160 -> lpm_lookup t k = Some r ->
    exists e, (e, r) ∈ t /\ lpm_matches e k /\
      forall e' r', (e', r') ∈ t -> lpm_matches e' k ->
        nk_prefixlen e' <= nk_prefixlen e;
  lru_update_subseteq m tid d : lru_update m tid d ⊆ <[tid := d]> m }.

(** The probe-read helpers write at most the bytes they were given room for and
    report how many: a successful string read reports the bytes it wrote, the
    terminating NUL included; a successful user read fills the whole size. *)
Definition kenv_wf (e : kenv) : Prop :=
  (forall size src, 0 <= size ->
     let '(n, bs) := k_str e size src in
     n <= size /\ Z.of_nat (length bs) <= size /\ Forall byte_ok bs /\
     (0 < n -> Z.of_nat (length bs) = n)) /\
  (forall size src, 0 <= size ->
     let '(r, bs) := k_user e size src in
     Z.of_nat (length bs) = size /\ Forall byte_ok bs) /\
  k_str e 1 (k_empty_literal e) = (1, [0]).

(** ** A concrete kernel

    One implementation of the interface, used to evaluate the programs: the trie
    lookup scans every entry, the LRU map and the ring buffer never run out. *)

Fixpoint longest_match (k : rk_net_key) (best : option (rk_net_key * rk_net_rule))
    (t : list (rk_net_key * rk_net_rule)) : option (rk_net_key * rk_net_rule) :=
  match t with
  | [] => best
  | (e, r) :: t =>
      if decide (lpm_matches e k) then
        match best with
        | Some (b, _) =>
            if nk_prefixlen b <? nk_prefixlen e
            then longest_match k (Some (e, r)) t else longest_match k best t
        | None => longest_match k (Some (e, r)) t
        end
      else longest_match k best t
  end.

Definition reference_kernel : BpfKernel := {|
  lpm_lookup t k := snd <$> longest_match k None t;
  lru_update m tid d := <[tid := d]> m;
  ringbuf_avail consumed ring := 0;
  ringbuf_output_result consumed ring rec flags := 0 |}.

(** What the scan returns: an entry of the list that matches and is at least as
    long as every other, or the initial candidate. *)
Lemma longest_match_spec k t best :
  (forall b, best = Some b -> lpm_matches b.1 k) ->
  match longest_match k best t with
  | Some (e, r) =>
      (best = Some (e, r) \/ (e, r) ∈ t) /\ lpm_matches e k /\
      (forall b, best = Some b -> nk_prefixlen b.1 <= nk_prefixlen e) /\
      (forall e' r', (e', r') ∈ t -> lpm_matches e' k ->
         nk_prefixlen e' <= nk_prefixlen e)
  | None => best = None /\ forall e' r', (e', r') ∈ t -> ~ lpm_matches e' k
  end.
Proof.
  revert best. induction t as [|[e0 r0] t IH]; intros best Hb; cbn [longest_match].
  { destruct best as [[e r]|].
    - split_and!; [by left|by apply (Hb (e, r))|naive_solver|set_solver].
    - split; [done|set_solver]. }
  destruct (decide (lpm_matches e0 k)) as [Hm|Hm].
  - assert (forall b : rk_net_key * rk_net_rule, Some (e0, r0) = Some b ->
      lpm_matches b.1 k) as H0 by naive_solver.
    destruct best as [[b rb]|].
    + destruct (Z.ltb_spec (nk_prefixlen b) (nk_prefixlen e0)) as [Hlt|Hge].
      * specialize (IH _ H0). destruct (longest_match _ _ _) as [[e r]|]; [|naive_solver].
        destruct IH as (Hin & Hme & Hbest & Hall).
        pose proof (Hbest _ eq_refl) as Hle. cbn in Hle.
        split_and!; [set_solver|done|naive_solver lia|].
        intros e' r' [?|?]%elem_of_cons ?; [simplify_eq; lia|by eapply Hall].
      * specialize (IH _ Hb). destruct (longest_match _ _ _) as [[e r]|]; [|naive_solver].
        destruct IH as (Hin & Hme & Hbest & Hall).
        pose proof (Hbest _ eq_refl) as Hle. cbn in Hle.
        split_and!; [set_solver|done|done|].
        intros e' r' [?|?]%elem_of_cons ?; [simplify_eq; lia|by eapply Hall].
    + specialize (IH _ H0). destruct (longest_match _ _ _) as [[e r]|]; [|naive_solver].
      destruct IH as (Hin & Hme & Hbest & Hall).
      pose proof (Hbest _ eq_refl) as Hle. cbn in Hle.
      split_and!; [set_solver|done|done|].
      intros e' r' [?|?]%elem_of_cons ?; [simplify_eq; lia|by eapply Hall].
  - specialize (IH _ Hb). destruct (longest_match _ _ _) as [[e r]|].
    + destruct IH as (Hin & Hme & Hbest & Hall). split_and!; [set_solver|done|done|].
      intros e' r' [?|?]%elem_of_cons ?; [by simplify_eq|by eapply Hall].
    + destruct IH as [-> Hall]. split; [done|].
      intros e' r' [?|?]%elem_of_cons ?; [by simplify_eq|by eapply Hall].
Qed.

Lemma reference_kernel_laws : BpfKernelLaws reference_kernel.
Proof.
  split; cbn.
  - intros t k _ H. pose proof (longest_match_spec k t None) as Hs.
    destruct (longest_match k None t) as [[e r]|]; [done|]. naive_solver.
  - intros t k r _ H. pose proof (longest_match_spec k t None) as Hs.
    destruct (longest_match k None t) as [[e r']|]; [|done]. simplify_eq/=.
    destruct Hs as ([?|?] & ? & _ & ?); [done|done|]. naive_solver.
  - done.
Qed.
