(* ===== verification/Lpm.v ===== *)
(** * Longest-prefix-match keys

    What a stored prefix and a lookup key of the network tries agree on: the scope
    bytes, then the leading bits of the address. *)

From S2P Require Import Prelude Abi Bpf.
Open Scope Z_scope.

Lemma length_byte_bits b : length (byte_bits b) = 8%nat.
Proof. done. Qed.

Lemma testbit_byte_high b n : byte_ok b -> 8 <= n -> Z.testbit b n = false.
Proof.
  unfold byte_ok. intros Hb Hn. rewrite <- (Z.mod_small b (2 ^ 8)) by lia.
  by apply Z.mod_pow2_bits_high.
Qed.

Lemma byte_bits_inj b1 b2 :
  byte_ok b1 -> byte_ok b2 -> byte_bits b1 = byte_bits b2 -> b1 = b2.
Proof.
  intros Hb1 Hb2 [= H7 H6 H5 H4 H3 H2 H1 H0]. apply Z.bits_inj'. intros n Hn.
  destruct (Z.ltb_spec n 8) as [Hlt|Hge]; [|by rewrite !testbit_byte_high].
  assert (n = 0 \/ n = 1 \/ n = 2 \/ n = 3 \/ n = 4 \/ n = 5 \/ n = 6 \/ n = 7) as Hc by lia.
  by destruct Hc as [->|[->|[->|[->|[->|[->|[->| ->]]]]]]].
Qed.

(** The bits of a byte string. *)
Definition bits (bs : list Z) : list bool := bs ≫= byte_bits.

Lemma bits_app bs1 bs2 : bits (bs1 ++ bs2) = bits bs1 ++ bits bs2.
Proof. apply bind_app. Qed.

Lemma bits_cons b bs : bits (b :: bs) = byte_bits b ++ bits bs.
Proof. done. Qed.

Lemma length_bits bs : length (bits bs) = (8 * length bs)%nat.
Proof.
  induction bs as [|b bs IH]; [done|].
  rewrite bits_cons, length_app, IH, length_byte_bits. cbn [length]. lia.
Qed.

Lemma bits_inj bs1 bs2 :
  Forall byte_ok bs1 -> Forall byte_ok bs2 -> length bs1 = length bs2 ->
  bits bs1 = bits bs2 -> bs1 = bs2.
Proof.
  intros H1. revert bs2. induction H1 as [|b1 bs1 Hb1 _ IH]; intros [|b2 bs2] H2 Hl Hbits;
    try done.
  inversion H2 as [|? ? Hb2 H2']; subst. rewrite !bits_cons in Hbits.
  apply app_inj_1 in Hbits as [Hb Hbs]; [|done].
  f_equal; [by apply byte_bits_inj|apply IH; [done|by injection Hl|done]].
Qed.

(** The bits of an address. *)
Definition addr_bits (k : rk_net_key) : list bool := bits (nk_addr k).

Lemma key_bits_eq k : key_bits k = bits (le_bytes 4 (nk_scope k)) ++ addr_bits k.
Proof. apply bits_app. Qed.

Definition scope_ok (k : rk_net_key) : Prop := 0 <= nk_scope k < 2 ^ 32.

(** A prefix of at least 32 bits matches exactly the keys of its own scope whose
    address starts with its address bits. *)
Lemma lpm_matches_iff e k :
  scope_ok e -> scope_ok k -> 32 <= nk_prefixlen e ->
  lpm_matches e k <->
  nk_scope e = nk_scope k /\
  take (Z.to_nat (nk_prefixlen e - 32)) (addr_bits e) =
  take (Z.to_nat (nk_prefixlen e - 32)) (addr_bits k).
Proof.
  intros He Hk Hp. unfold lpm_matches. rewrite !key_bits_eq.
  assert (forall v, length (bits (le_bytes 4 v)) = 32%nat) as Hlen
    by (intros; by rewrite length_bits, length_le_bytes).
  assert (forall v l, take (Z.to_nat (nk_prefixlen e)) (bits (le_bytes 4 v) ++ l) =
    bits (le_bytes 4 v) ++ take (Z.to_nat (nk_prefixlen e - 32)) l) as Htake.
  { intros v l. rewrite take_app_ge by (rewrite Hlen; lia). rewrite Hlen. do 2 f_equal. lia. }
  rewrite !Htake. split.
  - intros [Hs Ha]%app_inj_1; [|by rewrite !Hlen]. split; [|done].
    apply bits_inj in Hs; [|apply le_bytes_ok..|by rewrite !length_le_bytes].
    apply (f_equal le_value) in Hs. unfold scope_ok in *.
    by rewrite !le_value_bytes_small in Hs by (cbn; lia).
  - by intros [-> ->].
Qed.

(** A table whose keys are all of another scope has no match. *)
Lemma lpm_lookup_foreign `{K : BpfKernel, !BpfKernelLaws K} t k :
  nk_prefixlen k = 160 -> scope_ok k ->
  (forall e r, (e, r) ∈ t -> scope_ok e /\ 32 <= nk_prefixlen e /\ nk_scope e <> nk_scope k) ->
  lpm_lookup t k = None.
Proof.
  intros Hk Hs Ht. destruct (lpm_lookup t k) as [r|] eqn:Hl; [|done]. exfalso.
  apply lpm_lookup_Some in Hl as (e & Hin & Hm & _); [|done].
  destruct (Ht e r Hin) as (He & Hp & Hne). by apply lpm_matches_iff in Hm as [? _].
Qed.
