(* ===== verification/Scenario.v ===== *)
(** * A concrete deployment

    One host on which the theorems are evaluated: a task in cgroup 900 below the
    bound cgroup 500, the policy of profile 3 live in slot 1, and a few kernel
    objects.  The scenario is a function of what the theorems vary: the bindings,
    the profile's mode, and the last heartbeat. *)

From S2P Require Import Prelude Abi Bpf.
Open Scope Z_scope.

(** Cgroup ids from the root to the task. *)
Definition ex_path : list Z := [1; 10; 500; 900].

(** A string read of "sh" and a zero-terminated argument area. *)
Definition ex_str (size src : Z) : Z * list Z :=
  if src =? 99 then (Z.min size 1, take (Z.to_nat size) [0])
  else (Z.min size 3, take (Z.to_nat size) [115; 104; 0]).

Definition ex_user (size src : Z) : Z * list Z :=
  (0, replicate (Z.to_nat size) 65).

(** Inode 20 (dev 66, ino 1001) is a program; dentries 30 and 31 name inode 21 and
    its directory inode 22 (ino 77); dentry 32 is the root.  The sensor is task 60. *)
Definition ex_field (f : kfield) (p : Z) : Z :=
  match f with
  | inode_i_sb => 40
  | inode_i_ino => if p =? 20 then 1001 else if p =? 21 then 76
                   else if p =? 22 then 77 else if p =? 23 then 2 else 0
  | inode_i_nlink => 1
  | super_block_s_dev => 66
  | super_block_s_magic => if p =? 41 then 0xcafe4a11 else 0xef53
  | dentry_d_inode => if p =? 30 then 21 else if p =? 31 then 22
                      else if p =? 32 then 23 else 0
  | dentry_d_parent => if p =? 30 then 31 else if p =? 31 then 32
                       else if p =? 32 then 32 else 0
  | dentry_d_name_name => 50
  | file_f_inode => if p =? 11 then 20 else 21
  | file_f_path_dentry => 30
  | file_f_mode => 3
  | file_f_flags => 0
  | linux_binprm_file => 11
  | linux_binprm_filename => 51
  | task_struct_tgid => if p =? 60 then 4242 else 7
  | task_struct_group_leader => if p =? 60 then 60 else 61
  | task_struct_start_boottime => 1230000000
  | task_struct_mm => 52
  | mm_struct_arg_start => 4096
  | mm_struct_arg_end => 4100
  | iattr_ia_valid => 8
  | vfsmount_mnt_sb => 41
  end.

Definition ex_env : kenv :=
  mk_kenv 900 (fun level => default 0 (ex_path !! Z.to_nat level)) 10000000000
    (1000 + 100 * 2 ^ 32) (4300 + 4300 * 2 ^ 32) ex_field ex_str ex_user 99.

(** 10.0.0.0/8 and 10.9.0.0/16 as IPv4-mapped prefixes of scope [2^31 + 3]. *)
Definition ex_scope : Z := 2 ^ 31 + 3.
Definition ex_net_key (bits : Z) (a b : Z) : rk_net_key :=
  mk_rk_net_key (32 + 96 + bits) ex_scope
    (replicate 10 0 ++ [0xff; 0xff; a; b; 0; 0]).
Definition ex_range (id lo hi proto : Z) : rk_net_range :=
  mk_rk_net_range id lo hi proto [0; 0; 0].
Definition ex_rule (r : rk_net_range) : rk_net_rule :=
  mk_rk_net_rule 1 (r :: replicate 7 (ex_range 0 0 0 0)).

Definition ex_maps (bindings : gmap Z rk_binding) (mode heartbeat : Z) : policy_maps :=
  mk_policy_maps bindings
    {[ 1024 + 3 := mk_rk_profile mode RK_ACTION_DENY 3 0 7 ]}
    (Some 1) (Some heartbeat) (Some (mk_rk_config 2000000000 4))
    (Some (mk_rk_guard_target 4242 0 123)) ∅
    [(ex_net_key 16 10 9, ex_rule (ex_range 2 0 65535 7))]
    [(ex_net_key 8 10 0, ex_rule (ex_range 1 443 443 1))]
    {[ mk_rk_exec_key ex_scope 0 66 1001 := mk_rk_exec_rule 11 0 ]}
    {[ mk_rk_file_key ex_scope 0 66 77 := mk_rk_file_rule 12 RK_FILE_WRITE 1 0 ]}.

Definition ex_tele : telemetry :=
  mk_telemetry ∅ (list_to_map ((fun i => (Z.of_nat i, 0)) <$> seq 0 29))
    (Some (mk_rk_scratch_buf (mk_rk_hdr 0 0 0 0 0 0 0 0 0 0 0) 0 0 (replicate 4096 170)))
    [] 0 0 (Some 0).

Definition ex_bindings : gmap Z rk_binding := {[ 500 := mk_rk_binding 3 0 ]}.

(** The bound task; [mode] of its profile, [heartbeat] of the sensor. *)
Definition ex_world (mode heartbeat : Z) : world :=
  mk_world (ex_maps ex_bindings mode heartbeat) ex_env ex_tele.

(** Nothing is bound. *)
Definition ex_unbound : world :=
  mk_world (ex_maps ∅ RK_MODE_ENFORCE 9500000000) ex_env ex_tele.

(** Bound to profile 9, which was never written. *)
Definition ex_unapplied : world :=
  mk_world (ex_maps {[ 500 := mk_rk_binding 9 0 ]} RK_MODE_ENFORCE 9500000000)
    ex_env ex_tele.
