(* ===== verification/Vmlinux.v ===== *)
(** * Kernel structure declarations

    The types of the vendored [vmlinux.h] headers: scalars, pointers, arrays,
    structures and unions with bit-fields, alignment and packing, with the sizes
    and offsets the C ABI of both targets (LP64, natural alignment) gives them.
    The declarations themselves are in [VmlinuxX86] and [VmlinuxArm64].

    The loader relocates offsets to the running kernel, so an offset here is that of
    the header only.  What the compiled programs keep is the name, the kind and the
    width of each member they read. *)

From S2P Require Import Prelude.
From stdpp Require Export strings.
Open Scope Z_scope.

Inductive ktype : Set :=
| KInt (size : Z) (signed : bool)
| KPtr (pointee : string)
| KArr (elem : ktype) (n : Z)
| KStruct (packed : bool) (align : Z) (ms : kmembers)
| KUnion (align : Z) (ms : kmembers)
with kmembers : Set :=
| MNil
| MField (name : string) (align : Z) (t : ktype) (ms : kmembers)
| MBits (name : string) (unit width : Z) (ms : kmembers).

Definition round_up (x a : Z) : Z := (x + (a - 1)) / a * a.

Fixpoint kalign (t : ktype) : Z :=
  match t with
  | KInt size _ => size
  | KPtr _ => 8
  | KArr t _ => kalign t
  | KStruct packed a ms => Z.max a (if packed then 1 else malign ms)
  | KUnion a ms => Z.max a (malign ms)
  end
with malign (ms : kmembers) : Z :=
  match ms with
  | MNil => 1
  | MField _ a t ms => Z.max (Z.max a (kalign t)) (malign ms)
  | MBits name unit _ ms =>
      Z.max (match name with EmptyString => 1 | _ => unit end) (malign ms)
  end.

(** The first byte of a member that follows [bit] bits. *)
Definition member_start (packed : bool) (bit a al : Z) : Z :=
  round_up ((bit + 7) / 8) (if packed then Z.max 1 a else Z.max a al).

(** The first bit of a bit-field: moved to the next unit when it would straddle. *)
Definition bits_start (packed : bool) (bit unit width : Z) : Z :=
  if packed then bit
  else if width =? 0 then round_up bit (8 * unit)
  else if bit / (8 * unit) =? (bit + width - 1) / (8 * unit) then bit
  else round_up bit (8 * unit).

Fixpoint ksize (t : ktype) : Z :=
  match t with
  | KInt size _ => size
  | KPtr _ => 8
  | KArr t n => n * ksize t
  | KStruct packed a ms => round_up ((mend packed 0 ms + 7) / 8) (kalign (KStruct packed a ms))
  | KUnion a ms => round_up (mmax ms) (kalign (KUnion a ms))
  end
with mend (packed : bool) (bit : Z) (ms : kmembers) : Z :=
  match ms with
  | MNil => bit
  | MField _ a t ms => mend packed (8 * (member_start packed bit a (kalign t) + ksize t)) ms
  | MBits _ unit width ms => mend packed (bits_start packed bit unit width + width) ms
  end
with mmax (ms : kmembers) : Z :=
  match ms with
  | MNil => 0
  | MField _ _ t ms => Z.max (ksize t) (mmax ms)
  | MBits _ _ width ms => Z.max ((width + 7) / 8) (mmax ms)
  end.

(** A member by name: its byte offset and type.  Members of anonymous structures
    and unions are members of the enclosing type. *)
Fixpoint kfind (name : string) (t : ktype) : option (Z * ktype) :=
  match t with
  | KStruct packed _ ms => mfind name packed true 0 ms
  | KUnion _ ms => mfind name false false 0 ms
  | _ => None
  end
with mfind (name : string) (packed seq : bool) (bit : Z) (ms : kmembers) : option (Z * ktype) :=
  match ms with
  | MNil => None
  | MField n a t ms =>
      let off := if seq then member_start packed bit a (kalign t) else 0 in
      let next := if seq then 8 * (off + ksize t) else 0 in
      let rest := mfind name packed seq next ms in
      if String.eqb n name then Some (off, t)
      else match n with
           | EmptyString =>
               match kfind name t with
               | Some (o, t') => Some (off + o, t')
               | None => rest
               end
           | _ => rest
           end
  | MBits _ unit width ms =>
      mfind name packed seq (if seq then bits_start packed bit unit width + width else 0) ms
  end.

(** A member of a member, as in [f_path.dentry]. *)
Fixpoint kpath (names : list string) (t : ktype) : option (Z * ktype) :=
  match names with
  | [] => Some (0, t)
  | n :: names =>
      '(o, t) ← kfind n t;
      '(o', t') ← kpath names t;
      Some (o + o', t')
  end.

(** A member list, written as a list of members. *)
Definition members (l : list (kmembers -> kmembers)) : kmembers :=
  foldr (fun f ms => f ms) MNil l.

Abbreviation KU8 := (KInt 1 false).
Abbreviation KU16 := (KInt 2 false).
Abbreviation KU32 := (KInt 4 false).
Abbreviation KU64 := (KInt 8 false).
Abbreviation KS8 := (KInt 1 true).
Abbreviation KS16 := (KInt 2 true).
Abbreviation KS32 := (KInt 4 true).
Abbreviation KS64 := (KInt 8 true).
