(* ===== verification/VmlinuxX86.v ===== *)
(** * Kernel structures of the x86 header

    The structures the programs read and everything these contain by value, in
    declaration order of their use ([rk-bpf/include/vmlinux/x86/vmlinux.h]). *)

From S2P Require Import Prelude Vmlinux.
Open Scope Z_scope.

Definition x86_kuid_t : ktype := KStruct false 0 (members 
  [MField "val" 0 KU32]).

Definition x86_kgid_t : ktype := KStruct false 0 (members 
  [MField "val" 0 KU32]).

Definition x86_atomic_t : ktype := KStruct false 0 (members 
  [MField "counter" 0 KS32]).

Definition x86_qspinlock : ktype := KStruct false 0 (members 
  [MField "" 0 (KUnion 0 (members 
    [MField "val" 0 x86_atomic_t;
     MField "" 0 (KStruct false 0 (members 
      [MField "locked" 0 KU8;
       MField "pending" 0 KU8]));
     MField "" 0 (KStruct false 0 (members 
      [MField "locked_pending" 0 KU16;
       MField "tail" 0 KU16]))]))]).

Definition x86_raw_spinlock : ktype := KStruct false 0 (members 
  [MField "raw_lock" 0 x86_qspinlock]).

Definition x86_spinlock : ktype := KStruct false 0 (members 
  [MField "" 0 (KUnion 0 (members 
    [MField "rlock" 0 x86_raw_spinlock]))]).

Definition x86_inode_state_flags : ktype := KStruct false 0 (members 
  [MField "__state" 0 KU32]).

Definition x86_atomic64_t : ktype := KStruct false 0 (members 
  [MField "counter" 0 KS64]).

Definition x86_optimistic_spin_queue : ktype := KStruct false 0 (members 
  [MField "tail" 0 x86_atomic_t]).

Definition x86_list_head : ktype := KStruct false 0 (members 
  [MField "next" 0 (KPtr "list_head");
   MField "prev" 0 (KPtr "list_head")]).

Definition x86_rw_semaphore : ktype := KStruct false 0 (members 
  [MField "count" 0 x86_atomic64_t;
   MField "owner" 0 x86_atomic64_t;
   MField "osq" 0 x86_optimistic_spin_queue;
   MField "wait_lock" 0 x86_raw_spinlock;
   MField "wait_list" 0 x86_list_head]).

Definition x86_hlist_node : ktype := KStruct false 0 (members 
  [MField "next" 0 (KPtr "hlist_node");
   MField "pprev" 0 (KPtr "hlist_node *")]).

Definition x86_hlist_head : ktype := KStruct false 0 (members 
  [MField "first" 0 (KPtr "hlist_node")]).

Definition x86_callback_head : ktype := KStruct false 0 (members 
  [MField "next" 0 (KPtr "callback_head");
   MField "func" 0 (KPtr "fn")]).

Definition x86_xarray : ktype := KStruct false 0 (members 
  [MField "xa_lock" 0 x86_spinlock;
   MField "xa_flags" 0 KU32;
   MField "xa_head" 0 (KPtr "void")]).

Definition x86_rb_root : ktype := KStruct false 0 (members 
  [MField "rb_node" 0 (KPtr "rb_node")]).

Definition x86_rb_root_cached : ktype := KStruct false 0 (members 
  [MField "rb_root" 0 x86_rb_root;
   MField "rb_leftmost" 0 (KPtr "rb_node")]).

Definition x86_address_space : ktype := KStruct false 0 (members 
  [MField "host" 0 (KPtr "inode");
   MField "i_pages" 0 x86_xarray;
   MField "invalidate_lock" 0 x86_rw_semaphore;
   MField "gfp_mask" 0 KU32;
   MField "i_mmap_writable" 0 x86_atomic_t;
   MField "i_mmap" 0 x86_rb_root_cached;
   MField "nrpages" 0 KU64;
   MField "writeback_index" 0 KU64;
   MField "a_ops" 0 (KPtr "address_space_operations");
   MField "flags" 0 KU64;
   MField "wb_err" 0 KU32;
   MField "i_private_lock" 0 x86_spinlock;
   MField "i_private_list" 0 x86_list_head;
   MField "i_mmap_rwsem" 0 x86_rw_semaphore;
   MField "i_private_data" 0 (KPtr "void")]).

Definition x86_inode : ktype := KStruct false 0 (members 
  [MField "i_mode" 0 KU16;
   MField "i_opflags" 0 KU16;
   MField "i_flags" 0 KU32;
   MField "i_uid" 0 x86_kuid_t;
   MField "i_gid" 0 x86_kgid_t;
   MField "i_op" 0 (KPtr "inode_operations");
   MField "i_sb" 0 (KPtr "super_block");
   MField "i_mapping" 0 (KPtr "address_space");
   MField "i_security" 0 (KPtr "void");
   MField "i_ino" 0 KU64;
   MField "" 0 (KUnion 0 (members 
    [MField "i_nlink" 0 KU32;
     MField "__i_nlink" 0 KU32]));
   MField "i_rdev" 0 KU32;
   MField "i_size" 0 KS64;
   MField "i_atime_sec" 0 KS64;
   MField "i_mtime_sec" 0 KS64;
   MField "i_ctime_sec" 0 KS64;
   MField "i_atime_nsec" 0 KU32;
   MField "i_mtime_nsec" 0 KU32;
   MField "i_ctime_nsec" 0 KU32;
   MField "i_generation" 0 KU32;
   MField "i_lock" 0 x86_spinlock;
   MField "i_bytes" 0 KU16;
   MField "i_blkbits" 0 KU8;
   MField "i_write_hint" 0 KU8;
   MField "i_blocks" 0 KU64;
   MField "i_state" 0 x86_inode_state_flags;
   MField "i_rwsem" 0 x86_rw_semaphore;
   MField "dirtied_when" 0 KU64;
   MField "dirtied_time_when" 0 KU64;
   MField "i_hash" 0 x86_hlist_node;
   MField "i_io_list" 0 x86_list_head;
   MField "i_lru" 0 x86_list_head;
   MField "i_sb_list" 0 x86_list_head;
   MField "i_wb_list" 0 x86_list_head;
   MField "" 0 (KUnion 0 (members 
    [MField "i_dentry" 0 x86_hlist_head;
     MField "i_rcu" 0 x86_callback_head]));
   MField "i_version" 0 x86_atomic64_t;
   MField "i_sequence" 0 x86_atomic64_t;
   MField "i_count" 0 x86_atomic_t;
   MField "i_dio_count" 0 x86_atomic_t;
   MField "i_writecount" 0 x86_atomic_t;
   MField "" 0 (KUnion 0 (members 
    [MField "i_fop" 0 (KPtr "file_operations");
     MField "free_inode" 0 (KPtr "fn")]));
   MField "i_flctx" 0 (KPtr "file_lock_context");
   MField "i_data" 0 x86_address_space;
   MField "" 0 (KUnion 0 (members 
    [MField "i_devices" 0 x86_list_head;
     MField "i_linklen" 0 KS32]));
   MField "" 0 (KUnion 0 (members 
    [MField "i_pipe" 0 (KPtr "pipe_inode_info");
     MField "i_cdev" 0 (KPtr "cdev");
     MField "i_link" 0 (KPtr "char");
     MField "i_dir_seq" 0 KU32]));
   MField "i_private" 0 (KPtr "void")]).

Definition x86_seqcount : ktype := KStruct false 0 (members 
  [MField "sequence" 0 KU32]).

Definition x86_seqcount_spinlock : ktype := KStruct false 0 (members 
  [MField "seqcount" 0 x86_seqcount]).

Definition x86_hlist_bl_node : ktype := KStruct false 0 (members 
  [MField "next" 0 (KPtr "hlist_bl_node");
   MField "pprev" 0 (KPtr "hlist_bl_node *")]).

Definition x86_qstr : ktype := KStruct false 0 (members 
  [MField "" 0 (KUnion 0 (members 
    [MField "" 0 (KStruct false 0 (members 
      [MField "hash" 0 KU32;
       MField "len" 0 KU32]));
     MField "hash_len" 0 KU64]));
   MField "name" 0 (KPtr "unsigned char")]).

Definition x86_shortname_store : ktype := KUnion 0 (members 
  [MField "string" 0 (KArr KU8 40);
   MField "words" 0 (KArr KU64 5)]).

Definition x86_lockref : ktype := KStruct false 0 (members 
  [MField "" 0 (KUnion 0 (members 
    [MField "lock_count" 0 KU64;
     MField "" 0 (KStruct false 0 (members 
      [MField "lock" 0 x86_spinlock;
       MField "count" 0 KS32]))]))]).

Definition x86_dentry : ktype := KStruct false 0 (members 
  [MField "d_flags" 0 KU32;
   MField "d_seq" 0 x86_seqcount_spinlock;
   MField "d_hash" 0 x86_hlist_bl_node;
   MField "d_parent" 0 (KPtr "dentry");
   MField "" 0 (KUnion 0 (members 
    [MField "__d_name" 0 x86_qstr;
     MField "d_name" 0 x86_qstr]));
   MField "d_inode" 0 (KPtr "inode");
   MField "d_shortname" 0 x86_shortname_store;
   MField "d_op" 0 (KPtr "dentry_operations");
   MField "d_sb" 0 (KPtr "super_block");
   MField "d_time" 0 KU64;
   MField "d_fsdata" 0 (KPtr "void");
   MField "d_lockref" 0 x86_lockref;
   MField "" 0 (KUnion 0 (members 
    [MField "d_lru" 0 x86_list_head;
     MField "d_wait" 0 (KPtr "wait_queue_head_t")]));
   MField "d_sib" 0 x86_hlist_node;
   MField "d_children" 0 x86_hlist_head;
   MField "d_u" 0 (KUnion 0 (members 
    [MField "d_alias" 0 x86_hlist_node;
     MField "d_in_lookup_hash" 0 x86_hlist_bl_node;
     MField "d_rcu" 0 x86_callback_head]))]).

Definition x86_path : ktype := KStruct false 0 (members 
  [MField "mnt" 0 (KPtr "vfsmount");
   MField "dentry" 0 (KPtr "dentry")]).

Definition x86_mutex : ktype := KStruct false 0 (members 
  [MField "owner" 0 x86_atomic64_t;
   MField "wait_lock" 0 x86_raw_spinlock;
   MField "osq" 0 x86_optimistic_spin_queue;
   MField "wait_list" 0 x86_list_head]).

Definition x86_llist_node : ktype := KStruct false 0 (members 
  [MField "next" 0 (KPtr "llist_node")]).

Definition x86_file_ra_state : ktype := KStruct false 0 (members 
  [MField "start" 0 KU64;
   MField "size" 0 KU32;
   MField "async_size" 0 KU32;
   MField "ra_pages" 0 KU32;
   MField "order" 0 KU16;
   MField "mmap_miss" 0 KU16;
   MField "prev_pos" 0 KS64]).

Definition x86_freeptr_t : ktype := KStruct false 0 (members 
  [MField "v" 0 KU64]).

Definition x86_file_ref_t : ktype := KStruct false 0 (members 
  [MField "refcnt" 0 x86_atomic64_t]).

Definition x86_file : ktype := KStruct false 0 (members 
  [MField "f_lock" 0 x86_spinlock;
   MField "f_mode" 0 KU32;
   MField "f_op" 0 (KPtr "file_operations");
   MField "f_mapping" 0 (KPtr "address_space");
   MField "private_data" 0 (KPtr "void");
   MField "f_inode" 0 (KPtr "inode");
   MField "f_flags" 0 KU32;
   MField "f_iocb_flags" 0 KU32;
   MField "f_cred" 0 (KPtr "cred");
   MField "f_owner" 0 (KPtr "fown_struct");
   MField "" 0 (KUnion 0 (members 
    [MField "f_path" 0 x86_path;
     MField "__f_path" 0 x86_path]));
   MField "" 0 (KUnion 0 (members 
    [MField "f_pos_lock" 0 x86_mutex;
     MField "f_pipe" 0 KU64]));
   MField "f_pos" 0 KS64;
   MField "f_security" 0 (KPtr "void");
   MField "f_wb_err" 0 KU32;
   MField "f_sb_err" 0 KU32;
   MField "" 0 (KUnion 0 (members 
    [MField "f_task_work" 0 x86_callback_head;
     MField "f_llist" 0 x86_llist_node;
     MField "f_ra" 0 x86_file_ra_state;
     MField "f_freeptr" 0 x86_freeptr_t]));
   MField "f_ref" 0 x86_file_ref_t]).

Definition x86_hlist_bl_head : ktype := KStruct false 0 (members 
  [MField "first" 0 (KPtr "hlist_bl_node")]).

Definition x86_mem_dqinfo : ktype := KStruct false 0 (members 
  [MField "dqi_format" 0 (KPtr "quota_format_type");
   MField "dqi_fmt_id" 0 KS32;
   MField "dqi_dirty_list" 0 x86_list_head;
   MField "dqi_flags" 0 KU64;
   MField "dqi_bgrace" 0 KU32;
   MField "dqi_igrace" 0 KU32;
   MField "dqi_max_spc_limit" 0 KS64;
   MField "dqi_max_ino_limit" 0 KS64;
   MField "dqi_priv" 0 (KPtr "void")]).

Definition x86_quota_info : ktype := KStruct false 0 (members 
  [MField "flags" 0 KU32;
   MField "dqio_sem" 0 x86_rw_semaphore;
   MField "files" 0 (KArr (KPtr "inode") 3);
   MField "info" 0 (KArr x86_mem_dqinfo 3);
   MField "ops" 0 (KArr (KPtr "quota_format_ops") 3)]).

Definition x86_wait_queue_head : ktype := KStruct false 0 (members 
  [MField "lock" 0 x86_spinlock;
   MField "head" 0 x86_list_head]).

Definition x86_rcu_sync : ktype := KStruct false 0 (members 
  [MField "gp_state" 0 KS32;
   MField "gp_count" 0 KS32;
   MField "gp_wait" 0 x86_wait_queue_head;
   MField "cb_head" 0 x86_callback_head]).

Definition x86_rcuwait : ktype := KStruct false 0 (members 
  [MField "task" 0 (KPtr "task_struct")]).

Definition x86_percpu_rw_semaphore : ktype := KStruct false 0 (members 
  [MField "rss" 0 x86_rcu_sync;
   MField "read_count" 0 (KPtr "unsigned int");
   MField "writer" 0 x86_rcuwait;
   MField "waiters" 0 x86_wait_queue_head;
   MField "block" 0 x86_atomic_t]).

Definition x86_sb_writers : ktype := KStruct false 0 (members 
  [MField "frozen" 0 KU16;
   MField "freeze_kcount" 0 KS32;
   MField "freeze_ucount" 0 KS32;
   MField "freeze_owner" 0 (KPtr "void");
   MField "rw_sem" 0 (KArr x86_percpu_rw_semaphore 3)]).

Definition x86_uuid_t : ktype := KStruct false 0 (members 
  [MField "b" 0 (KArr KU8 16)]).

Definition x86_list_lru : ktype := KStruct false 0 (members 
  [MField "node" 0 (KPtr "list_lru_node")]).

Definition x86_work_struct : ktype := KStruct false 0 (members 
  [MField "data" 0 x86_atomic64_t;
   MField "entry" 0 x86_list_head;
   MField "func" 0 (KPtr "fn")]).

Definition x86_super_block : ktype := KStruct false 0 (members 
  [MField "s_list" 0 x86_list_head;
   MField "s_dev" 0 KU32;
   MField "s_blocksize_bits" 0 KU8;
   MField "s_blocksize" 0 KU64;
   MField "s_maxbytes" 0 KS64;
   MField "s_type" 0 (KPtr "file_system_type");
   MField "s_op" 0 (KPtr "super_operations");
   MField "dq_op" 0 (KPtr "dquot_operations");
   MField "s_qcop" 0 (KPtr "quotactl_ops");
   MField "s_export_op" 0 (KPtr "export_operations");
   MField "s_flags" 0 KU64;
   MField "s_iflags" 0 KU64;
   MField "s_magic" 0 KU64;
   MField "s_root" 0 (KPtr "dentry");
   MField "s_umount" 0 x86_rw_semaphore;
   MField "s_count" 0 KS32;
   MField "s_active" 0 x86_atomic_t;
   MField "s_security" 0 (KPtr "void");
   MField "s_xattr" 0 (KPtr "xattr_handler *");
   MField "s_roots" 0 x86_hlist_bl_head;
   MField "s_mounts" 0 (KPtr "mount");
   MField "s_bdev" 0 (KPtr "block_device");
   MField "s_bdev_file" 0 (KPtr "file");
   MField "s_bdi" 0 (KPtr "backing_dev_info");
   MField "s_mtd" 0 (KPtr "mtd_info");
   MField "s_instances" 0 x86_hlist_node;
   MField "s_quota_types" 0 KU32;
   MField "s_dquot" 0 x86_quota_info;
   MField "s_writers" 0 x86_sb_writers;
   MField "s_fs_info" 0 (KPtr "void");
   MField "s_time_gran" 0 KU32;
   MField "s_time_min" 0 KS64;
   MField "s_time_max" 0 KS64;
   MField "s_id" 0 (KArr KS8 32);
   MField "s_uuid" 0 x86_uuid_t;
   MField "s_uuid_len" 0 KU8;
   MField "s_sysfs_name" 0 (KArr KS8 37);
   MField "s_max_links" 0 KU32;
   MField "s_d_flags" 0 KU32;
   MField "s_vfs_rename_mutex" 0 x86_mutex;
   MField "s_subtype" 0 (KPtr "char");
   MField "__s_d_op" 0 (KPtr "dentry_operations");
   MField "s_shrink" 0 (KPtr "shrinker");
   MField "s_remove_count" 0 x86_atomic64_t;
   MField "s_readonly_remount" 0 KS32;
   MField "s_wb_err" 0 KU32;
   MField "s_dio_done_wq" 0 (KPtr "workqueue_struct");
   MField "s_pins" 0 x86_hlist_head;
   MField "s_user_ns" 0 (KPtr "user_namespace");
   MField "s_dentry_lru" 0 x86_list_lru;
   MField "s_inode_lru" 0 x86_list_lru;
   MField "rcu" 0 x86_callback_head;
   MField "destroy_work" 0 x86_work_struct;
   MField "s_sync_lock" 0 x86_mutex;
   MField "s_stack_depth" 0 KS32;
   MBits "" 8 64;
   MBits "" 8 64;
   MField "s_inode_list_lock" 0 x86_spinlock;
   MField "s_inodes" 0 x86_list_head;
   MField "s_inode_wblist_lock" 0 x86_spinlock;
   MField "s_inodes_wb" 0 x86_list_head;
   MField "s_min_writeback_pages" 0 KS64;
   MBits "" 8 64]).

Definition x86_maple_tree : ktype := KStruct false 0 (members 
  [MField "" 0 (KUnion 0 (members 
    [MField "ma_lock" 0 x86_spinlock]));
   MField "ma_flags" 0 KU32;
   MField "ma_root" 0 (KPtr "void")]).

Definition x86_mm_mm_cid : ktype := KStruct false 0 (members []).

Definition x86_percpu_counter : ktype := KStruct false 0 (members 
  [MField "lock" 0 x86_raw_spinlock;
   MField "count" 0 KS64;
   MField "list" 0 x86_list_head;
   MField "counters" 0 (KPtr "s32")]).

Definition x86_mm_context_t : ktype := KStruct false 0 (members 
  [MField "ctx_id" 0 KU64;
   MField "tlb_gen" 0 x86_atomic64_t;
   MField "next_trim_cpumask" 0 KU64;
   MField "flags" 0 KU64;
   MField "lock" 0 x86_mutex;
   MField "vdso" 0 (KPtr "void");
   MField "vdso_image" 0 (KPtr "vdso_image");
   MField "perf_rdpmc_allowed" 0 x86_atomic_t;
   MField "pkey_allocation_map" 0 KU16;
   MField "execute_only_pkey" 0 KS16;
   MField "global_asid" 0 KU16;
   MField "asid_transition" 0 KU8]).

Definition x86_mm_flags_t : ktype := KStruct false 0 (members 
  [MField "__mm_flags" 0 (KArr KU64 1)]).

Definition x86_uprobes_state : ktype := KStruct false 0 (members 
  [MField "xol_area" 0 (KPtr "xol_area");
   MField "head_tramps" 0 x86_hlist_head]).

Definition x86_mm_struct : ktype := KStruct false 0 (members 
  [MField "" 0 (KStruct false 0 (members 
    [MField "" 0 (KStruct false 0 (members 
      [MField "mm_count" 0 x86_atomic_t;
       MBits "" 8 64;
       MBits "" 8 64;
       MBits "" 8 64;
       MBits "" 8 64;
       MBits "" 8 64;
       MBits "" 8 64;
       MBits "" 8 64]));
     MField "mm_mt" 0 x86_maple_tree;
     MField "mmap_base" 0 KU64;
     MField "mmap_legacy_base" 0 KU64;
     MField "task_size" 0 KU64;
     MField "pgd" 0 (KPtr "pgd_t");
     MField "mm_users" 0 x86_atomic_t;
     MField "mm_cid" 0 x86_mm_mm_cid;
     MField "pgtables_bytes" 0 x86_atomic64_t;
     MField "map_count" 0 KS32;
     MField "page_table_lock" 0 x86_spinlock;
     MField "mmap_lock" 0 x86_rw_semaphore;
     MField "mmlist" 0 x86_list_head;
     MField "vma_writer_wait" 0 x86_rcuwait;
     MField "mm_lock_seq" 0 x86_seqcount;
     MField "hiwater_rss" 0 KU64;
     MField "hiwater_vm" 0 KU64;
     MField "total_vm" 0 KU64;
     MField "locked_vm" 0 KU64;
     MField "pinned_vm" 0 x86_atomic64_t;
     MField "data_vm" 0 KU64;
     MField "exec_vm" 0 KU64;
     MField "stack_vm" 0 KU64;
     MField "def_flags" 0 KU64;
     MField "write_protect_seq" 0 x86_seqcount;
     MField "arg_lock" 0 x86_spinlock;
     MField "start_code" 0 KU64;
     MField "end_code" 0 KU64;
     MField "start_data" 0 KU64;
     MField "end_data" 0 KU64;
     MField "start_brk" 0 KU64;
     MField "brk" 0 KU64;
     MField "start_stack" 0 KU64;
     MField "arg_start" 0 KU64;
     MField "arg_end" 0 KU64;
     MField "env_start" 0 KU64;
     MField "env_end" 0 KU64;
     MField "saved_auxv" 0 (KArr KU64 50);
     MField "rss_stat" 0 (KArr x86_percpu_counter 4);
     MField "binfmt" 0 (KPtr "linux_binfmt");
     MField "context" 0 x86_mm_context_t;
     MField "flags" 0 x86_mm_flags_t;
     MField "user_ns" 0 (KPtr "user_namespace");
     MField "exe_file" 0 (KPtr "file");
     MField "tlb_flush_pending" 0 x86_atomic_t;
     MField "tlb_flush_batched" 0 x86_atomic_t;
     MField "uprobes_state" 0 x86_uprobes_state;
     MField "async_put_work" 0 x86_work_struct;
     MBits "" 8 64;
     MBits "" 8 64;
     MBits "" 8 64;
     MBits "" 8 64]));
   MField "flexible_array" 0 (KArr KS8 0)]).

Definition x86_thread_info : ktype := KStruct false 0 (members 
  [MField "flags" 0 KU64;
   MField "syscall_work" 0 KU64;
   MField "status" 0 KU32;
   MField "cpu" 0 KU32]).

Definition x86_refcount_struct : ktype := KStruct false 0 (members 
  [MField "refs" 0 x86_atomic_t]).

Definition x86_call_single_node : ktype := KStruct false 0 (members 
  [MField "llist" 0 x86_llist_node;
   MField "" 0 (KUnion 0 (members 
    [MField "u_flags" 0 KU32;
     MField "a_flags" 0 x86_atomic_t]));
   MField "src" 0 KU16;
   MField "dst" 0 KU16]).

Definition x86_load_weight : ktype := KStruct false 0 (members 
  [MField "weight" 0 KU64;
   MField "inv_weight" 0 KU32]).

Definition x86_rb_node : ktype := KStruct false 0 (members 
  [MField "__rb_parent_color" 0 KU64;
   MField "rb_right" 0 (KPtr "rb_node");
   MField "rb_left" 0 (KPtr "rb_node")]).

Definition x86_sched_avg : ktype := KStruct false 0 (members 
  [MField "last_update_time" 0 KU64;
   MField "load_sum" 0 KU64;
   MField "runnable_sum" 0 KU64;
   MField "util_sum" 0 KU32;
   MField "period_contrib" 0 KU32;
   MField "load_avg" 0 KU64;
   MField "runnable_avg" 0 KU64;
   MField "util_avg" 0 KU64;
   MField "util_est" 0 KU32]).

Definition x86_sched_entity : ktype := KStruct false 0 (members 
  [MField "load" 0 x86_load_weight;
   MField "run_node" 0 x86_rb_node;
   MField "deadline" 0 KU64;
   MField "min_vruntime" 0 KU64;
   MField "min_slice" 0 KU64;
   MField "group_node" 0 x86_list_head;
   MField "on_rq" 0 KU8;
   MField "sched_delayed" 0 KU8;
   MField "rel_deadline" 0 KU8;
   MField "custom_slice" 0 KU8;
   MField "exec_start" 0 KU64;
   MField "sum_exec_runtime" 0 KU64;
   MField "prev_sum_exec_runtime" 0 KU64;
   MField "vruntime" 0 KU64;
   MField "" 0 (KUnion 0 (members 
    [MField "vlag" 0 KS64;
     MField "vprot" 0 KU64]));
   MField "slice" 0 KU64;
   MField "nr_migrations" 0 KU64;
   MBits "" 8 64;
   MBits "" 8 64;
   MBits "" 8 64;
   MBits "" 8 64;
   MBits "" 8 64;
   MBits "" 8 64;
   MField "avg" 0 x86_sched_avg]).

Definition x86_sched_rt_entity : ktype := KStruct false 0 (members 
  [MField "run_list" 0 x86_list_head;
   MField "timeout" 0 KU64;
   MField "watchdog_stamp" 0 KU64;
   MField "time_slice" 0 KU32;
   MField "on_rq" 0 KU16;
   MField "on_list" 0 KU16;
   MField "back" 0 (KPtr "sched_rt_entity")]).

Definition x86_timerqueue_node : ktype := KStruct false 0 (members 
  [MField "node" 0 x86_rb_node;
   MField "expires" 0 KS64]).

Definition x86_hrtimer : ktype := KStruct false 0 (members 
  [MField "node" 0 x86_timerqueue_node;
   MField "_softexpires" 0 KS64;
   MField "function" 0 (KPtr "fn");
   MField "base" 0 (KPtr "hrtimer_clock_base");
   MField "state" 0 KU8;
   MField "is_rel" 0 KU8;
   MField "is_soft" 0 KU8;
   MField "is_hard" 0 KU8]).

Definition x86_sched_dl_entity : ktype := KStruct false 0 (members 
  [MField "rb_node" 0 x86_rb_node;
   MField "dl_runtime" 0 KU64;
   MField "dl_deadline" 0 KU64;
   MField "dl_period" 0 KU64;
   MField "dl_bw" 0 KU64;
   MField "dl_density" 0 KU64;
   MField "runtime" 0 KS64;
   MField "deadline" 0 KU64;
   MField "flags" 0 KU32;
   MBits "dl_throttled" 4 1;
   MBits "dl_yielded" 4 1;
   MBits "dl_non_contending" 4 1;
   MBits "dl_overrun" 4 1;
   MBits "dl_server" 4 1;
   MBits "dl_server_active" 4 1;
   MBits "dl_defer" 4 1;
   MBits "dl_defer_armed" 4 1;
   MBits "dl_defer_running" 4 1;
   MBits "dl_defer_idle" 4 1;
   MField "dl_timer" 0 x86_hrtimer;
   MField "inactive_timer" 0 x86_hrtimer;
   MField "rq" 0 (KPtr "rq");
   MField "server_pick_task" 0 (KPtr "fn")]).

Definition x86_sched_statistics : ktype := KStruct false 0 (members []).

Definition x86_cpumask : ktype := KStruct false 0 (members 
  [MField "bits" 0 (KArr KU64 1)]).

Definition x86_rcu_special : ktype := KUnion 0 (members 
  [MField "b" 0 (KStruct false 0 (members 
    [MField "blocked" 0 KU8;
     MField "need_qs" 0 KU8;
     MField "exp_hint" 0 KU8;
     MField "need_mb" 0 KU8]));
   MField "s" 0 KU32]).

Definition x86_sched_info : ktype := KStruct false 0 (members []).

Definition x86_plist_node : ktype := KStruct false 0 (members 
  [MField "prio" 0 KS32;
   MField "prio_list" 0 x86_list_head;
   MField "node_list" 0 x86_list_head]).

Definition x86_restart_block : ktype := KStruct false 0 (members 
  [MField "arch_data" 0 KU64;
   MField "fn" 0 (KPtr "fn");
   MField "" 0 (KUnion 0 (members 
    [MField "futex" 0 (KStruct false 0 (members 
      [MField "uaddr" 0 (KPtr "u32");
       MField "val" 0 KU32;
       MField "flags" 0 KU32;
       MField "bitset" 0 KU32;
       MField "time" 0 KS64;
       MField "uaddr2" 0 (KPtr "u32")]));
     MField "nanosleep" 0 (KStruct false 0 (members 
      [MField "clockid" 0 KS32;
       MField "type" 0 KU32;
       MField "" 0 (KUnion 0 (members 
        [MField "rmtp" 0 (KPtr "__kernel_timespec");
         MField "compat_rmtp" 0 (KPtr "old_timespec32")]));
       MField "expires" 0 KS64]));
     MField "poll" 0 (KStruct false 0 (members 
      [MField "ufds" 0 (KPtr "pollfd");
       MField "nfds" 0 KS32;
       MField "has_timeout" 0 KS32;
       MField "tv_sec" 0 KU64;
       MField "tv_nsec" 0 KU64]))]))]).

Definition x86_prev_cputime : ktype := KStruct false 0 (members 
  [MField "utime" 0 KU64;
   MField "stime" 0 KU64;
   MField "lock" 0 x86_raw_spinlock]).

Definition x86_posix_cputimers : ktype := KStruct false 0 (members []).

Definition x86_sigset_t : ktype := KStruct false 0 (members 
  [MField "sig" 0 (KArr KU64 1)]).

Definition x86_sigpending : ktype := KStruct false 0 (members 
  [MField "list" 0 x86_list_head;
   MField "signal" 0 x86_sigset_t]).

Definition x86_seccomp : ktype := KStruct false 0 (members []).

Definition x86_syscall_user_dispatch : ktype := KStruct false 0 (members 
  [MField "selector" 0 (KPtr "char");
   MField "offset" 0 KU64;
   MField "len" 0 KU64;
   MField "on_dispatch" 0 KU8]).

Definition x86_wake_q_node : ktype := KStruct false 0 (members 
  [MField "next" 0 (KPtr "wake_q_node")]).

Definition x86_task_io_accounting : ktype := KStruct false 0 (members []).

Definition x86_rseq_data : ktype := KStruct false 0 (members []).

Definition x86_sched_mm_cid : ktype := KStruct false 0 (members []).

Definition x86_arch_tlbflush_unmap_batch : ktype := KStruct false 0 (members 
  [MField "cpumask" 0 x86_cpumask;
   MField "unmapped_pages" 0 KU8]).

Definition x86_tlbflush_unmap_batch : ktype := KStruct false 0 (members 
  [MField "arch" 0 x86_arch_tlbflush_unmap_batch;
   MField "flush_required" 0 KU8;
   MField "writable" 0 KU8]).

Definition x86_page_frag : ktype := KStruct false 0 (members 
  [MField "page" 0 (KPtr "page");
   MField "offset" 0 KU32;
   MField "size" 0 KU32]).

Definition x86_kmap_ctrl : ktype := KStruct false 0 (members []).

Definition x86_timer_list : ktype := KStruct false 0 (members 
  [MField "entry" 0 x86_hlist_node;
   MField "expires" 0 KU64;
   MField "function" 0 (KPtr "fn");
   MField "flags" 0 KU32]).

Definition x86_llist_head : ktype := KStruct false 0 (members 
  [MField "first" 0 (KPtr "llist_node")]).

Definition x86_unwind_task_id : ktype := KUnion 0 (members 
  [MField "" 0 (KStruct false 0 (members 
    [MField "cpu" 0 KU32;
     MField "cnt" 0 KU32]));
   MField "id" 0 KU64]).

Definition x86_unwind_task_info : ktype := KStruct false 0 (members 
  [MField "unwind_mask" 0 x86_atomic64_t;
   MField "cache" 0 (KPtr "unwind_cache");
   MField "work" 0 x86_callback_head;
   MField "id" 0 x86_unwind_task_id]).

Definition x86_desc_struct : ktype := KStruct false 0 (members 
  [MField "limit0" 0 KU16;
   MField "base0" 0 KU16;
   MBits "base1" 2 8;
   MBits "type" 2 4;
   MBits "s" 2 1;
   MBits "dpl" 2 2;
   MBits "p" 2 1;
   MBits "limit1" 2 4;
   MBits "avl" 2 1;
   MBits "l" 2 1;
   MBits "d" 2 1;
   MBits "g" 2 1;
   MBits "base2" 2 8]).

Definition x86_thread_struct : ktype := KStruct false 0 (members 
  [MField "tls_array" 0 (KArr x86_desc_struct 3);
   MField "sp" 0 KU64;
   MField "es" 0 KU16;
   MField "ds" 0 KU16;
   MField "fsindex" 0 KU16;
   MField "gsindex" 0 KU16;
   MField "fsbase" 0 KU64;
   MField "gsbase" 0 KU64;
   MField "ptrace_bps" 0 (KArr (KPtr "perf_event") 4);
   MField "virtual_dr6" 0 KU64;
   MField "ptrace_dr7" 0 KU64;
   MField "cr2" 0 KU64;
   MField "trap_nr" 0 KU64;
   MField "error_code" 0 KU64;
   MField "io_bitmap" 0 (KPtr "io_bitmap");
   MField "iopl_emul" 0 KU64;
   MBits "iopl_warn" 4 1;
   MField "pkru" 0 KU32]).

Definition x86_task_struct : ktype := KStruct false 0 (members 
  [MField "thread_info" 0 x86_thread_info;
   MField "__state" 0 KU32;
   MField "saved_state" 0 KU32;
   MField "stack" 0 (KPtr "void");
   MField "usage" 0 x86_refcount_struct;
   MField "flags" 0 KU32;
   MField "ptrace" 0 KU32;
   MField "on_cpu" 0 KS32;
   MField "wake_entry" 0 x86_call_single_node;
   MField "wakee_flips" 0 KU32;
   MField "wakee_flip_decay_ts" 0 KU64;
   MField "last_wakee" 0 (KPtr "task_struct");
   MField "recent_used_cpu" 0 KS32;
   MField "wake_cpu" 0 KS32;
   MField "on_rq" 0 KS32;
   MField "prio" 0 KS32;
   MField "static_prio" 0 KS32;
   MField "normal_prio" 0 KS32;
   MField "rt_priority" 0 KU32;
   MField "se" 0 x86_sched_entity;
   MField "rt" 0 x86_sched_rt_entity;
   MField "dl" 0 x86_sched_dl_entity;
   MField "dl_server" 0 (KPtr "sched_dl_entity");
   MField "sched_class" 0 (KPtr "sched_class");
   MBits "" 8 64;
   MBits "" 8 64;
   MBits "" 8 64;
   MField "stats" 0 x86_sched_statistics;
   MField "policy" 0 KU32;
   MField "max_allowed_capacity" 0 KU64;
   MField "nr_cpus_allowed" 0 KS32;
   MField "cpus_ptr" 0 (KPtr "cpumask_t");
   MField "user_cpus_ptr" 0 (KPtr "cpumask_t");
   MField "cpus_mask" 0 x86_cpumask;
   MField "migration_pending" 0 (KPtr "void");
   MField "migration_disabled" 0 KU16;
   MField "migration_flags" 0 KU16;
   MField "trc_reader_nesting" 0 KS32;
   MField "trc_ipi_to_cpu" 0 KS32;
   MField "trc_reader_special" 0 x86_rcu_special;
   MField "trc_holdout_list" 0 x86_list_head;
   MField "trc_blkd_node" 0 x86_list_head;
   MField "trc_blkd_cpu" 0 KS32;
   MField "sched_info" 0 x86_sched_info;
   MField "tasks" 0 x86_list_head;
   MField "pushable_tasks" 0 x86_plist_node;
   MField "pushable_dl_tasks" 0 x86_rb_node;
   MField "mm" 0 (KPtr "mm_struct");
   MField "active_mm" 0 (KPtr "mm_struct");
   MField "faults_disabled_mapping" 0 (KPtr "address_space");
   MField "exit_state" 0 KS32;
   MField "exit_code" 0 KS32;
   MField "exit_signal" 0 KS32;
   MField "pdeath_signal" 0 KS32;
   MField "jobctl" 0 KU64;
   MField "personality" 0 KU32;
   MBits "sched_reset_on_fork" 4 1;
   MBits "sched_contributes_to_load" 4 1;
   MBits "sched_migrated" 4 1;
   MBits "sched_task_hot" 4 1;
   MBits "" 8 28;
   MBits "sched_remote_wakeup" 4 1;
   MBits "in_execve" 4 1;
   MBits "in_iowait" 4 1;
   MBits "restore_sigmask" 4 1;
   MBits "in_nf_duplicate" 4 1;
   MField "atomic_flags" 0 KU64;
   MField "restart_block" 0 x86_restart_block;
   MField "pid" 0 KS32;
   MField "tgid" 0 KS32;
   MField "real_parent" 0 (KPtr "task_struct");
   MField "parent" 0 (KPtr "task_struct");
   MField "children" 0 x86_list_head;
   MField "sibling" 0 x86_list_head;
   MField "group_leader" 0 (KPtr "task_struct");
   MField "ptraced" 0 x86_list_head;
   MField "ptrace_entry" 0 x86_list_head;
   MField "thread_pid" 0 (KPtr "pid");
   MField "pid_links" 0 (KArr x86_hlist_node 4);
   MField "thread_node" 0 x86_list_head;
   MField "vfork_done" 0 (KPtr "completion");
   MField "set_child_tid" 0 (KPtr "int");
   MField "clear_child_tid" 0 (KPtr "int");
   MField "worker_private" 0 (KPtr "void");
   MField "utime" 0 KU64;
   MField "stime" 0 KU64;
   MField "gtime" 0 KU64;
   MField "prev_cputime" 0 x86_prev_cputime;
   MField "nvcsw" 0 KU64;
   MField "nivcsw" 0 KU64;
   MField "start_time" 0 KU64;
   MField "start_boottime" 0 KU64;
   MField "min_flt" 0 KU64;
   MField "maj_flt" 0 KU64;
   MField "posix_cputimers" 0 x86_posix_cputimers;
   MField "ptracer_cred" 0 (KPtr "cred");
   MField "real_cred" 0 (KPtr "cred");
   MField "cred" 0 (KPtr "cred");
   MField "comm" 0 (KArr KS8 16);
   MField "nameidata" 0 (KPtr "nameidata");
   MField "fs" 0 (KPtr "fs_struct");
   MField "files" 0 (KPtr "files_struct");
   MField "nsproxy" 0 (KPtr "nsproxy");
   MField "signal" 0 (KPtr "signal_struct");
   MField "sighand" 0 (KPtr "sighand_struct");
   MField "blocked" 0 x86_sigset_t;
   MField "real_blocked" 0 x86_sigset_t;
   MField "saved_sigmask" 0 x86_sigset_t;
   MField "pending" 0 x86_sigpending;
   MField "sas_ss_sp" 0 KU64;
   MField "sas_ss_size" 0 KU64;
   MField "sas_ss_flags" 0 KU32;
   MField "task_works" 0 (KPtr "callback_head");
   MField "seccomp" 0 x86_seccomp;
   MField "syscall_dispatch" 0 x86_syscall_user_dispatch;
   MField "parent_exec_id" 0 KU64;
   MField "self_exec_id" 0 KU64;
   MField "alloc_lock" 0 x86_spinlock;
   MField "pi_lock" 0 x86_raw_spinlock;
   MField "wake_q" 0 x86_wake_q_node;
   MField "blocked_on" 0 (KPtr "mutex");
   MField "journal_info" 0 (KPtr "void");
   MField "bio_list" 0 (KPtr "bio_list");
   MField "plug" 0 (KPtr "blk_plug");
   MField "reclaim_state" 0 (KPtr "reclaim_state");
   MField "io_context" 0 (KPtr "io_context");
   MField "ptrace_message" 0 KU64;
   MField "last_siginfo" 0 (KPtr "kernel_siginfo_t");
   MField "ioac" 0 x86_task_io_accounting;
   MField "perf_recursion" 0 (KArr KU8 4);
   MField "perf_event_ctxp" 0 (KPtr "perf_event_context");
   MField "perf_event_mutex" 0 x86_mutex;
   MField "perf_event_list" 0 x86_list_head;
   MField "perf_ctx_data" 0 (KPtr "perf_ctx_data");
   MField "rseq" 0 x86_rseq_data;
   MField "mm_cid" 0 x86_sched_mm_cid;
   MField "tlb_ubc" 0 x86_tlbflush_unmap_batch;
   MField "splice_pipe" 0 (KPtr "pipe_inode_info");
   MField "task_frag" 0 x86_page_frag;
   MField "nr_dirtied" 0 KS32;
   MField "nr_dirtied_pause" 0 KS32;
   MField "dirty_paused_when" 0 KU64;
   MField "timer_slack_ns" 0 KU64;
   MField "default_timer_slack_ns" 0 KU64;
   MField "curr_ret_stack" 0 KS32;
   MField "curr_ret_depth" 0 KS32;
   MField "ret_stack" 0 (KPtr "unsigned long");
   MField "ftrace_timestamp" 0 KU64;
   MField "ftrace_sleeptime" 0 KU64;
   MField "trace_overrun" 0 x86_atomic_t;
   MField "tracing_graph_pause" 0 x86_atomic_t;
   MField "trace_recursion" 0 KU64;
   MField "utask" 0 (KPtr "uprobe_task");
   MField "kmap_ctrl" 0 x86_kmap_ctrl;
   MField "rcu" 0 x86_callback_head;
   MField "rcu_users" 0 x86_refcount_struct;
   MField "pagefault_disabled" 0 KS32;
   MField "oom_reaper_list" 0 (KPtr "task_struct");
   MField "oom_reaper_timer" 0 x86_timer_list;
   MField "stack_vm_area" 0 (KPtr "vm_struct");
   MField "stack_refcount" 0 x86_refcount_struct;
   MField "security" 0 (KPtr "void");
   MField "bpf_storage" 0 (KPtr "bpf_local_storage");
   MField "bpf_ctx" 0 (KPtr "bpf_run_ctx");
   MField "bpf_net_context" 0 (KPtr "bpf_net_context");
   MField "kretprobe_instances" 0 x86_llist_head;
   MField "rethooks" 0 x86_llist_head;
   MField "l1d_flush_kill" 0 x86_callback_head;
   MField "unwind_info" 0 x86_unwind_task_info;
   MField "thread" 0 x86_thread_struct;
   MBits "" 8 64;
   MBits "" 8 64;
   MBits "" 8 64;
   MBits "" 8 64;
   MBits "" 8 64;
   MBits "" 8 64;
   MBits "" 8 64]).

Definition x86_rlimit : ktype := KStruct false 0 (members 
  [MField "rlim_cur" 0 KU64;
   MField "rlim_max" 0 KU64]).

Definition x86_linux_binprm : ktype := KStruct false 0 (members 
  [MField "vma" 0 (KPtr "vm_area_struct");
   MField "vma_pages" 0 KU64;
   MField "argmin" 0 KU64;
   MField "mm" 0 (KPtr "mm_struct");
   MField "p" 0 KU64;
   MBits "have_execfd" 4 1;
   MBits "execfd_creds" 4 1;
   MBits "secureexec" 4 1;
   MBits "point_of_no_return" 4 1;
   MBits "comm_from_dentry" 4 1;
   MBits "is_check" 4 1;
   MField "executable" 0 (KPtr "file");
   MField "interpreter" 0 (KPtr "file");
   MField "file" 0 (KPtr "file");
   MField "cred" 0 (KPtr "cred");
   MField "unsafe" 0 KS32;
   MField "per_clear" 0 KU32;
   MField "argc" 0 KS32;
   MField "envc" 0 KS32;
   MField "filename" 0 (KPtr "char");
   MField "interp" 0 (KPtr "char");
   MField "fdpath" 0 (KPtr "char");
   MField "interp_flags" 0 KU32;
   MField "execfd" 0 KS32;
   MField "exec" 0 KU64;
   MField "rlim_stack" 0 x86_rlimit;
   MField "buf" 0 (KArr KS8 256)]).

Definition x86_vfsuid_t : ktype := KStruct false 0 (members 
  [MField "val" 0 KU32]).

Definition x86_vfsgid_t : ktype := KStruct false 0 (members 
  [MField "val" 0 KU32]).

Definition x86_timespec64 : ktype := KStruct false 0 (members 
  [MField "tv_sec" 0 KS64;
   MField "tv_nsec" 0 KS64]).

Definition x86_iattr : ktype := KStruct false 0 (members 
  [MField "ia_valid" 0 KU32;
   MField "ia_mode" 0 KU16;
   MField "" 0 (KUnion 0 (members 
    [MField "ia_uid" 0 x86_kuid_t;
     MField "ia_vfsuid" 0 x86_vfsuid_t]));
   MField "" 0 (KUnion 0 (members 
    [MField "ia_gid" 0 x86_kgid_t;
     MField "ia_vfsgid" 0 x86_vfsgid_t]));
   MField "ia_size" 0 KS64;
   MField "ia_atime" 0 x86_timespec64;
   MField "ia_mtime" 0 x86_timespec64;
   MField "ia_ctime" 0 x86_timespec64;
   MField "ia_file" 0 (KPtr "file")]).

Definition x86_vfsmount : ktype := KStruct false 0 (members 
  [MField "mnt_root" 0 (KPtr "dentry");
   MField "mnt_sb" 0 (KPtr "super_block");
   MField "mnt_flags" 0 KS32;
   MField "mnt_idmap" 0 (KPtr "mnt_idmap")]).

Definition x86_bpf_sock_addr : ktype := KStruct false 0 (members 
  [MField "user_family" 0 KU32;
   MField "user_ip4" 0 KU32;
   MField "user_ip6" 0 (KArr KU32 4);
   MField "user_port" 0 KU32;
   MField "family" 0 KU32;
   MField "type" 0 KU32;
   MField "protocol" 0 KU32;
   MField "msg_src_ip4" 0 KU32;
   MField "msg_src_ip6" 0 (KArr KU32 4);
   MField "" 0 (KUnion 0 (members 
    [MField "sk" 0 (KPtr "bpf_sock")]))]).
