(* ===== verification/CoreRead.v ===== *)
(** * The kernel members the programs read

    Every member read with [BPF_CORE_READ], resolved in the headers of both
    targets: which structure declares it, with what kind and width, and the range
    of the values a read can return. *)

From S2P Require Import Prelude Abi Bpf Vmlinux VmlinuxX86 VmlinuxArm64.
Open Scope Z_scope.




(** The type the programs use the value at. *)
Definition kfield_type (f : kfield) : ktype :=
  match f with
  | inode_i_sb | vfsmount_mnt_sb => KPtr "super_block"
  | dentry_d_inode | file_f_inode => KPtr "inode"
  | dentry_d_parent | file_f_path_dentry => KPtr "dentry"
  | dentry_d_name_name => KPtr "unsigned char"
  | linux_binprm_file => KPtr "file"
  | linux_binprm_filename => KPtr "char"
  | task_struct_group_leader => KPtr "task_struct"
  | task_struct_mm => KPtr "mm_struct"
  | inode_i_ino | super_block_s_magic | task_struct_start_boottime
  | mm_struct_arg_start | mm_struct_arg_end => KU64
  | inode_i_nlink | super_block_s_dev | file_f_mode | file_f_flags | iattr_ia_valid => KU32
  | task_struct_tgid => KS32
  end.

(** The values of a scalar type. *)
Definition in_range (t : ktype) (v : Z) : Prop :=
  match t with
  | KInt size false => 0 <= v < 2 ^ (8 * size)
  | KInt size true => - 2 ^ (8 * size - 1) <= v < 2 ^ (8 * size - 1)
  | KPtr _ => 0 <= v < 2 ^ 64
  | _ => False
  end.

(** A kernel whose members hold values of their declared types. *)
Definition core_typed (e : kenv) : Prop :=
  forall f p, in_range (kfield_type f) (k_field e f p).


(** The device and inode numbers of a file fit the 64-bit members of the rule keys,
    the device number even its low half. *)
Lemma core_identity_fits e sb inode :
  core_typed e ->
  fits 4 (k_field e super_block_s_dev sb) /\ fits 8 (k_field e inode_i_ino inode).
Proof.
  intros He. split; [apply (He super_block_s_dev sb)|apply (He inode_i_ino inode)].
Qed.
