(* ===== verification/Logic.v ===== *)
(** * Reasoning about program trees

    Results and final worlds of composed programs, programs that only read, and
    the equivalence of worlds that agree on everything a verdict may depend on.
    Three classes carry the telemetry argument: a [ReadOnly] program leaves the
    world unchanged, a [Verdict] program computes its result from the policy maps
    and the kernel alone, and a program that [Returns] a value returns it in every
    world. *)

From S2P Require Import Prelude Abi Bpf.
Open Scope Z_scope.

(** Worlds that differ at most in what the programs themselves write. *)
#[export] Instance world_equiv : Equiv world := fun w1 w2 =>
  w_maps w1 = w_maps w2 /\ w_env w1 = w_env w2.

#[export] Instance world_equiv_equivalence : Equivalence (≡@{world}).
Proof.
  split.
  - by intros w.
  - by intros w1 w2 [? ?].
  - intros w1 w2 w3 [? ?] [? ?]. split; congruence.
Qed.

Lemma map_tele_equiv f w : map_tele f w ≡ w.
Proof. done. Qed.

(** Calls that read the maps or the kernel and change nothing. *)
Definition op_policy {X : Set} (o : op X) : bool :=
  match o with
  | LkCgroupProfile _ | LkProfiles _ | LkActiveSlot | LkHeartbeat | LkConfig | LkGuard
  | LkMonitored _ | LkNetDeny _ | LkNetAllow _ | LkExecAllow _ | LkFileProtect _
  | GetCgroupId | GetAncestorCgroupId _ | KtimeBootNs | GetUidGid | GetPidTgid
  | AddrEmptyLiteral | CoreRead _ _ | ProbeReadKernelStr _ _ | ProbeReadUser _ _ => true
  | _ => false
  end.

Section Logic.
Context `{K : BpfKernel}.

(** ** Results of composed programs *)

Lemma result_ret {A} (a : A) w : result (mret a) w = a.
Proof. done. Qed.

Lemma final_ret {A} (a : A) w : final (mret a) w = w.
Proof. done. Qed.

Lemma result_bind {A B} (p : prog A) (f : A -> prog B) w :
  result (p ≫= f) w = result (f (result p w)) (final p w).
Proof. unfold result, final. rewrite run_bind. by destruct (run p w). Qed.

Lemma final_bind {A B} (p : prog A) (f : A -> prog B) w :
  final (p ≫= f) w = final (f (result p w)) (final p w).
Proof. unfold result, final. rewrite run_bind. by destruct (run p w). Qed.

Lemma result_call {X : Set} (o : op X) w : result (call o) w = (handle o w).1.
Proof. unfold result. by rewrite run_call. Qed.

Lemma final_call {X : Set} (o : op X) w : final (call o) w = (handle o w).2.
Proof. unfold final. by rewrite run_call. Qed.

(** A call leaves the maps and the kernel as they are. *)
Lemma handle_equiv {X : Set} (o : op X) w : (handle o w).2 ≡ w.
Proof. destruct o; try done. cbn. by destruct (_ <? 0). Qed.

Lemma handle_policy {X : Set} (o : op X) w :
  op_policy o = true -> (handle o w).2 = w.
Proof. by destruct o. Qed.

Lemma handle_policy_result {X : Set} (o : op X) w1 w2 :
  op_policy o = true -> w1 ≡ w2 -> (handle o w1).1 = (handle o w2).1.
Proof. intros Ho [Hm He]. destruct o; try done; cbn; by rewrite ?Hm, ?He. Qed.

(** Every program leaves the maps and the kernel as they are. *)
Lemma final_equiv {A} (p : prog A) w : final p w ≡ w.
Proof.
  unfold final. revert w. induction p as [a|X o k IH]; intros w; [done|].
  cbn. pose proof (handle_equiv o w) as Ho. destruct (handle o w) as [x w'].
  cbn in *. etrans; [apply IH|done].
Qed.

(** ** Read-only programs *)

Class ReadOnly {A} (p : prog A) : Prop := read_only : forall w, final p w = w.

#[export] Instance read_only_ret {A} (a : A) : ReadOnly (mret a).
Proof. by intros w. Qed.

Lemma read_only_call {X : Set} (o : op X) : op_policy o = true -> ReadOnly (call o).
Proof. intros Ho w. rewrite final_call. by apply handle_policy. Qed.

#[export] Instance read_only_bind {A B} (p : prog A) (f : A -> prog B) :
  ReadOnly p -> (forall a, ReadOnly (f a)) -> ReadOnly (p ≫= f).
Proof. intros Hp Hf w. by rewrite final_bind, Hp, Hf. Qed.

(** ** Programs whose result telemetry cannot reach *)

Class Verdict {A} (p : prog A) : Prop :=
  verdict_proper : forall w1 w2, w1 ≡ w2 -> result p w1 = result p w2.

#[export] Instance verdict_ret {A} (a : A) : Verdict (mret a).
Proof. by intros w1 w2 _. Qed.

Lemma verdict_call {X : Set} (o : op X) : op_policy o = true -> Verdict (call o).
Proof. intros Ho w1 w2 H. rewrite !result_call. by apply handle_policy_result. Qed.

Lemma verdict_bind {A B} (p : prog A) (f : A -> prog B) :
  Verdict p -> (forall a, Verdict (f a)) -> Verdict (p ≫= f).
Proof.
  intros Hp Hf w1 w2 H. rewrite !result_bind, (Hp w1 w2 H). apply Hf.
  by rewrite !final_equiv.
Qed.

(** What comes before does not matter when its result is dropped. *)
Lemma verdict_then {A B} (p : prog A) (q : prog B) : Verdict q -> Verdict (p;; q).
Proof.
  intros Hq w1 w2 H. rewrite !result_bind. apply Hq. by rewrite !final_equiv.
Qed.

Lemma result_then {A B} (p : prog A) (q : prog B) w :
  Verdict q -> result (p;; q) w = result q w.
Proof. intros Hq. rewrite result_bind. apply Hq, final_equiv. Qed.

(** ** Programs that return a fixed value *)

Class Returns {A} (p : prog A) (v : A) : Prop := returns : forall w, result p w = v.

Lemma returns_ret {A} (v : A) : Returns (mret v) v.
Proof. by intros w. Qed.

Lemma returns_bind {A B} (p : prog A) (f : A -> prog B) v :
  (forall a, Returns (f a) v) -> Returns (p ≫= f) v.
Proof. intros Hf w. by rewrite result_bind, Hf. Qed.

Lemma returns_verdict {A} (p : prog A) v : Returns p v -> Verdict p.
Proof. intros Hp w1 w2 _. by rewrite !Hp. Qed.

#[export] Instance result_proper {A} (p : prog A) :
  Verdict p -> Proper ((≡) ==> (=)) (result p).
Proof. intros H w1 w2. apply H. Qed.

#[export] Instance final_proper {A} (p : prog A) : Proper ((≡) ==> (≡)) (final p).
Proof. intros w1 w2 H. by rewrite !final_equiv. Qed.

End Logic.

(** ** Automation *)

(** Structural search for [ReadOnly]: binds, calls, and case analysis. *)
Ltac read_only_step :=
  match goal with
  | |- ReadOnly (mbind _ _) => apply read_only_bind; [|intros ?]
  | |- ReadOnly (mret _) => apply read_only_ret
  | |- ReadOnly (call _) => apply read_only_call; reflexivity
  | |- ReadOnly (match ?x with _ => _ end) => destruct x
  | |- ReadOnly (let '(_, _) := ?x in _) => destruct x
  | |- ReadOnly _ => solve [eauto with rk typeclass_instances]
  end.
Ltac solve_read_only := intros; repeat read_only_step.

Ltac verdict_step :=
  match goal with
  | |- Verdict (mbind (fun _ => ?q) _) => apply verdict_then
  | |- Verdict (mbind _ _) => apply verdict_bind; [|intros ?]
  | |- Verdict (mret _) => apply verdict_ret
  | |- Verdict (call _) => apply verdict_call; reflexivity
  | |- Verdict (match ?x with _ => _ end) => destruct x
  | |- Verdict (let '(_, _) := ?x in _) => destruct x
  | |- Verdict _ => solve [eauto with rk typeclass_instances]
  end.
Ltac solve_verdict := intros; repeat verdict_step.

Ltac returns_step :=
  match goal with
  | |- Returns (mbind _ _) _ => apply returns_bind; intros ?
  | |- Returns (mret _) _ => apply returns_ret
  | |- Returns (match ?x with _ => _ end) _ => destruct x
  end.
Ltac solve_returns := intros; repeat returns_step.
Ltac by_returns :=
  match goal with
  | |- result ?p ?w = ?v =>
      let H := fresh in assert (H : Returns p v) by solve_returns; apply H
  end.

(** Symbolic execution: results and final worlds of binds, calls and returns. *)
Create Rewrite HintDb rk_run.
#[export] Hint Rewrite @result_bind @final_bind @result_ret @final_ret
  @result_call @final_call : rk_run.

Ltac sym_exec :=
  repeat (progress (cbn [negb orb andb handle fst snd]; autorewrite with rk_run));
  cbn [negb orb andb handle fst snd].

Lemma run_eq `{K : BpfKernel} {A} (p : prog A) w : run p w = (result p w, final p w).
Proof. unfold result, final. by destruct (run p w). Qed.

Lemma result_read_only `{K : BpfKernel} {A B} (p : prog A) (f : A -> prog B) w :
  ReadOnly p -> result (p ≫= f) w = result (f (result p w)) w.
Proof. intros Hp. by rewrite result_bind, Hp. Qed.

Lemma final_read_only `{K : BpfKernel} {A B} (p : prog A) (f : A -> prog B) w :
  ReadOnly p -> final (p ≫= f) w = final (f (result p w)) w.
Proof. intros Hp. by rewrite final_bind, Hp. Qed.
