(* ===== verification/Common.v ===== *)
(** * Shared decision path and event emission ([rk-bpf/src/common.bpf.h])

    The governance lookup, the heartbeat, the verdict algebra, the decision
    counters, and the construction and emission of event records.  Function names
    are those of the source. *)

From S2P Require Import Prelude Abi Bpf.
Open Scope Z_scope.

Definition RK_PAYLOAD_MASK : Z := RK_SCRATCH_PAYLOAD_MAX - 1.
Definition BPF_RB_NO_WAKEUP : Z := 1.
Definition BPF_RB_FORCE_WAKEUP : Z := 2.

(** ** Counters *)

Definition rk_count (idx : Z) : prog unit :=
  val ← call (LkCounter idx);
  match val with
  | Some v => call (StCounter idx (u64 (v + 1)))
  | None => mret tt
  end.

(** ** Governance *)

Definition rk_governed_gen (cgroup_id : Z) : prog Z :=
  gen ← call (LkMonitored cgroup_id);
  mret (match gen with Some g => g | None => 0 end).

Record rk_gov : Set := mk_rk_gov {
  g_cgroup_id : Z; g_policy_gen : Z; g_scope : Z; g_mode : Z; g_net_default : Z;
  g_flags : Z; g_stale : Z }.

Definition rk_heartbeat_stale : prog Z :=
  beat ← call LkHeartbeat;
  cfg ← call LkConfig;
  match beat, cfg with
  | Some last, Some c =>
      let timeout := cfg_heartbeat_timeout_ns c in
      if (last =? 0) || (timeout =? 0) then mret 1
      else
        now ← call KtimeBootNs;
        if now <=? last then mret 0
        else mret (b2z (timeout <? u64 (now - last)))
  | _, _ => mret 1
  end.

(** The levels of the ancestor walk, in the order the loop visits them. *)
Definition walk_levels : list Z :=
  (fun i => RK_CGROUP_MAX_DEPTH - Z.of_nat i) <$> seq 0 (Z.to_nat RK_CGROUP_MAX_DEPTH).

Fixpoint rk_governed_walk (levels self : Z) (ls : list Z) : prog (option (rk_binding * Z)) :=
  match ls with
  | [] => mret None
  | level :: ls =>
      if negb (levels ∋ Z.shiftl 1 level) then rk_governed_walk levels self ls
      else
        anc ← call (GetAncestorCgroupId level);
        if (anc =? 0) || (anc =? self) then rk_governed_walk levels self ls
        else
          b ← call (LkCgroupProfile anc);
          match b with
          | Some b => mret (Some (b, anc))
          | None => rk_governed_walk levels self ls
          end
  end.

(** The binding that governs the task and the cgroup it was found on. *)
Definition rk_governed_binding (self : Z) : prog (option (rk_binding * Z)) :=
  b ← call (LkCgroupProfile self);
  match b with
  | Some b => mret (Some (b, self))
  | None =>
      cfg ← call LkConfig;
      let levels := match cfg with Some c => cfg_governed_levels c | None => 0 end in
      if levels =? 0 then mret None else rk_governed_walk levels self walk_levels
  end.

(** The label [fail_closed] of [rk_governance]. *)
Definition rk_governance_fail_closed (governed : Z) : prog (option rk_gov) :=
  stale ← rk_heartbeat_stale;
  mret (Some (mk_rk_gov governed 0 0xffffffff RK_MODE_ENFORCE RK_ACTION_DENY
    (Z.lor RK_PROFILE_DENY_RAW_SOCKETS RK_PROFILE_EXEC_DENY_DEFAULT) stale)).

(** [None] is the return value 0 (ungoverned), [Some g] is 1 with [*g] filled. *)
Definition rk_governance : prog (option rk_gov) :=
  cg ← call GetCgroupId;
  binding ← rk_governed_binding cg;
  match binding with
  | None => mret None
  | Some (binding, governed) =>
      active ← call LkActiveSlot;
      let slot := match active with Some a => Z.land a 1 | None => 0 end in
      let profile := bind_profile binding in
      if RK_MAX_PROFILES <=? profile then rk_governance_fail_closed governed
      else
        prof ← call (LkProfiles (u32 (slot * RK_MAX_PROFILES + profile)));
        match prof with
        | None => rk_governance_fail_closed governed
        | Some prof =>
            if prof_policy_gen prof =? 0 then rk_governance_fail_closed governed
            else
              stale ← (if prof_mode prof =? RK_MODE_ENFORCE then rk_heartbeat_stale
                       else mret 0);
              mret (Some (mk_rk_gov governed (prof_policy_gen prof)
                (u32 (Z.lor (u32 (Z.shiftl slot 31)) profile))
                (prof_mode prof) (prof_net_default prof) (prof_flags prof) stale))
        end
  end.

(** ** Verdicts *)

Definition rk_effective_deny (g : rk_gov) (action : Z) : bool :=
  (action =? RK_ACTION_DENY) || (negb (g_stale g =? 0) && (g_mode g =? RK_MODE_ENFORCE)).

Definition rk_reported_verdict (g : rk_gov) (action : Z) : Z :=
  if negb (rk_effective_deny g action) then RK_VERDICT_ALLOW
  else if g_mode g =? RK_MODE_ENFORCE then RK_VERDICT_DENY
  else RK_VERDICT_AUDIT_WOULD_DENY.

Definition rk_enforced_deny (g : rk_gov) (action : Z) : bool :=
  rk_effective_deny g action && (g_mode g =? RK_MODE_ENFORCE).

Definition rk_count_decision (hook : Z) (g : rk_gov) (action : Z) : prog unit :=
  let verdict := rk_reported_verdict g action in
  if (RK_HOOK_MAX <=? hook) || (RK_VERDICTS <=? verdict) then mret tt
  else rk_count (RK_CNT_DECISION_BASE + hook * RK_VERDICTS + verdict).

Definition rk_rule (g : rk_gov) (action rule_id : Z) : Z :=
  if negb (action =? RK_ACTION_DENY) && negb (g_stale g =? 0) &&
     (g_mode g =? RK_MODE_ENFORCE)
  then RK_RULE_HEARTBEAT else rule_id.

(** ** The scratch message *)

Definition sb_set_hdr (f : rk_hdr -> rk_hdr) (m : rk_scratch_buf) : rk_scratch_buf :=
  mk_rk_scratch_buf (f (sb_hdr m)) (sb_payload_len m) (sb_reserved m) (sb_mem m).

Definition sb_set_payload_len (n : Z) (m : rk_scratch_buf) : rk_scratch_buf :=
  mk_rk_scratch_buf (sb_hdr m) n (sb_reserved m) (sb_mem m).

Definition sb_set_reserved (n : Z) (m : rk_scratch_buf) : rk_scratch_buf :=
  mk_rk_scratch_buf (sb_hdr m) (sb_payload_len m) n (sb_mem m).

(** Bytes [bs] stored at [&msg->payload[off]]. *)
Definition sb_write (off : Z) (bs : list Z) (m : rk_scratch_buf) : rk_scratch_buf :=
  mk_rk_scratch_buf (sb_hdr m) (sb_payload_len m) (sb_reserved m)
    (list_inserts (Z.to_nat off) bs (sb_mem m)).

(** An integer member of [w] bytes stored at payload offset [off]. *)
Definition sb_store (w : nat) (off v : Z) : rk_scratch_buf -> rk_scratch_buf :=
  sb_write off (le_bytes w v).

(** The message as it lies in memory: header, envelope, payload, slack. *)
Definition sb_bytes (m : rk_scratch_buf) : list Z :=
  rk_hdr_bytes (sb_hdr m) ++ le_bytes 4 (sb_payload_len m) ++
  le_bytes 4 (sb_reserved m) ++ sb_mem m.

(** [true] is a non-NULL message pointer. *)
Definition rk_scratch : prog bool :=
  buf ← call LkScratch;
  if negb buf then rk_count RK_CNT_SCRATCH_MISS;; mret false
  else
    call (StMsg (sb_set_payload_len 0));;
    call (StMsg (sb_set_reserved 0));;
    mret true.

Definition rk_fill_hdr (cgroup_id policy_gen type verdict rule_id : Z) : prog unit :=
  uid_gid ← call GetUidGid;
  ts_ns ← call KtimeBootNs;
  call (StMsg (sb_set_hdr (fun _ =>
    mk_rk_hdr ts_ns cgroup_id policy_gen 0 0 (u32 uid_gid)
      (u32 (Z.shiftr uid_gid 32)) type verdict RK_ABI_VERSION rule_id))).

Definition rk_fill_task : prog unit :=
  pid_tgid ← call GetPidTgid;
  call (StMsg (sb_set_hdr (fun h =>
    mk_rk_hdr (hdr_ts_ns h) (hdr_cgroup_id h) (hdr_policy_gen h) (u32 pid_tgid)
      (u32 (Z.shiftr pid_tgid 32)) (hdr_uid h) (hdr_gid h) (hdr_type h)
      (hdr_verdict h) (hdr_abi h) (hdr_rule_id h)))).

Definition rk_append_kstr (src max_len : Z) : prog unit :=
  msg ← call LdMsg;
  let off := sb_payload_len msg in
  if RK_SCRATCH_PAYLOAD_MAX - 3 <? off then mret tt
  else
    let len_off := Z.land off RK_PAYLOAD_MASK in
    let str_off := Z.land (u32 (off + 2)) RK_PAYLOAD_MASK in
    let room := u32 (RK_SCRATCH_PAYLOAD_MAX - u32 (off + 2)) in
    let max_len := if room <? max_len then room else max_len in
    let max_len := Z.land max_len RK_PAYLOAD_MASK in
    '(n, bs) ← call (ProbeReadKernelStr max_len src);
    call (StMsg (sb_write str_off bs));;
    if n <=? 0 then
      call (StMsg (sb_store 2 len_off 0));;
      call (StMsg (sb_set_payload_len (u32 (off + 2))))
    else
      call (StMsg (sb_store 2 len_off (u16 (n - 1))));;
      call (StMsg (sb_set_payload_len (u32 (off + 2 + u32 (n - 1))))).

(** 0 on success, 1 when the data was truncated, -1 when it could not be read. *)
Definition rk_append_ublob (src want : Z) : prog Z :=
  msg ← call LdMsg;
  let off := sb_payload_len msg in
  if RK_SCRATCH_PAYLOAD_MAX - 3 <? off then mret 1
  else
    let len_off := Z.land off RK_PAYLOAD_MASK in
    let str_off := Z.land (u32 (off + 2)) RK_PAYLOAD_MASK in
    let room := u32 (RK_SCRATCH_PAYLOAD_MAX - u32 (off + 2)) in
    let '(n, truncated) := if room <? want then (room, 1) else (u32 want, 0) in
    let n := Z.land n RK_PAYLOAD_MASK in
    '(r, bs) ← call (ProbeReadUser n src);
    call (StMsg (sb_write str_off bs));;
    if r <? 0 then
      call (StMsg (sb_store 2 len_off 0));;
      call (StMsg (sb_set_payload_len (u32 (off + 2))));;
      mret (-1)
    else
      call (StMsg (sb_store 2 len_off (u16 n)));;
      call (StMsg (sb_set_payload_len (u32 (off + 2 + n))));;
      mret truncated.

(** [sizeof(struct rk_hdr) + 8 + len] bytes starting at the message. *)
Definition rk_emit : prog unit :=
  msg ← call LdMsg;
  let len := sb_payload_len msg in
  let len := if RK_SCRATCH_PAYLOAD_MAX <? len then RK_SCRATCH_PAYLOAD_MAX else len in
  let len := Z.land len (2 * RK_SCRATCH_PAYLOAD_MAX - 1) in
  threshold ← call WakeupThreshold;
  flags ← (if threshold =? 0 then mret 0
           else
             avail ← call RingbufQuery;
             mret (if threshold <=? avail then BPF_RB_FORCE_WAKEUP
                   else BPF_RB_NO_WAKEUP));
  msg ← call LdMsg;
  r ← call (RingbufOutput (take (Z.to_nat (48 + 8 + len)) (sb_bytes msg)) flags);
  if r <? 0 then rk_count RK_CNT_RINGBUF_DROP else mret tt.
