(* ===== verification/Governance.v ===== *)
(** * Correctness of the governance lookup

    The heartbeat test, the ancestor-aware binding lookup, and the governance
    context, proved against specifications over the cgroup path of the task and
    the contents of the maps. *)

From S2P Require Import Prelude Abi Bpf Scenario Logic Common.
Open Scope Z_scope.

(** ** The governance programs only read *)

Section ReadOnly.
Context `{K : BpfKernel}.

#[export] Instance rk_heartbeat_stale_read_only : ReadOnly rk_heartbeat_stale.
Proof. unfold rk_heartbeat_stale. solve_read_only. Qed.

#[export] Instance rk_governed_walk_read_only levels self ls :
  ReadOnly (rk_governed_walk levels self ls).
Proof. induction ls; cbn [rk_governed_walk]; solve_read_only. Qed.

#[export] Instance rk_governed_binding_read_only self :
  ReadOnly (rk_governed_binding self).
Proof. unfold rk_governed_binding. solve_read_only. Qed.

#[export] Instance rk_governance_read_only : ReadOnly rk_governance.
Proof. unfold rk_governance, rk_governance_fail_closed. solve_read_only. Qed.

#[export] Instance rk_heartbeat_stale_verdict : Verdict rk_heartbeat_stale.
Proof. unfold rk_heartbeat_stale. solve_verdict. Qed.

#[export] Instance rk_governed_walk_verdict levels self ls :
  Verdict (rk_governed_walk levels self ls).
Proof. induction ls; cbn [rk_governed_walk]; solve_verdict. Qed.

#[export] Instance rk_governed_binding_verdict self : Verdict (rk_governed_binding self).
Proof. unfold rk_governed_binding. solve_verdict. Qed.

#[export] Instance rk_governance_verdict : Verdict rk_governance.
Proof. unfold rk_governance, rk_governance_fail_closed. solve_verdict. Qed.

End ReadOnly.

(** ** Heartbeat *)

(** The sensor is alive: a heartbeat and a timeout were written, and the heartbeat
    is not older than the timeout. *)
Definition heartbeat_fresh (m : policy_maps) (now : Z) : Prop :=
  exists last cfg,
    m_heartbeat m = Some last /\ m_config m = Some cfg /\ last <> 0 /\
    cfg_heartbeat_timeout_ns cfg <> 0 /\
    now - last <= cfg_heartbeat_timeout_ns cfg.

(** Values of the unsigned types the heartbeat test reads. *)
Definition clock_wf (w : world) : Prop :=
  0 <= k_boot_ns (w_env w) < 2 ^ 64 /\
  (forall last, m_heartbeat (w_maps w) = Some last -> 0 <= last < 2 ^ 64) /\
  (forall cfg, m_config (w_maps w) = Some cfg ->
     0 <= cfg_heartbeat_timeout_ns cfg < 2 ^ 64).

Section Heartbeat.
Context `{K : BpfKernel}.

Lemma heartbeat_stale_spec w :
  clock_wf w ->
  (result rk_heartbeat_stale w = 0 <-> heartbeat_fresh (w_maps w) (k_boot_ns (w_env w))).
Proof.
  intros (Hnow & Hlast & Hcfg). unfold rk_heartbeat_stale, heartbeat_fresh.
  sym_exec.
  destruct (m_heartbeat (w_maps w)) as [last|] eqn:Hb; [|naive_solver].
  destruct (m_config (w_maps w)) as [cfg|] eqn:Hc; [|naive_solver].
  specialize (Hlast _ eq_refl). specialize (Hcfg _ eq_refl).
  destruct ((last =? 0) || (cfg_heartbeat_timeout_ns cfg =? 0))%bool eqn:Hz.
  { rewrite result_ret. apply orb_true_iff in Hz as [?%Z.eqb_eq|?%Z.eqb_eq]; naive_solver. }
  bool_to_prop. sym_exec.
  destruct (Z.leb_spec (k_boot_ns (w_env w)) last).
  { rewrite result_ret. split; [|done]. intros _. exists last, cfg. naive_solver lia. }
  rewrite result_ret, u64_small by lia.
  destruct (Z.ltb_spec (cfg_heartbeat_timeout_ns cfg) (k_boot_ns (w_env w) - last));
    cbn; split; try done; [naive_solver lia|].
  intros _. exists last, cfg. naive_solver lia.
Qed.

Lemma heartbeat_stale_bool w :
  result rk_heartbeat_stale w = 0 \/ result rk_heartbeat_stale w = 1.
Proof.
  unfold rk_heartbeat_stale. sym_exec.
  repeat first [ split_match | progress sym_exec ]; unfold b2z; try split_match; auto.
Qed.

End Heartbeat.

(** ** Nearest bound ancestor *)

(** The ids of the task's cgroup and its ancestors, from the root (level 0) down,
    as the kernel helper reports them. *)
Definition cgroup_path (e : kenv) (path : list Z) : Prop :=
  (exists ancestors, path = ancestors ++ [k_cgroup_id e]) /\
  (forall id, id ∈ path -> id <> 0) /\
  (forall level, 0 <= level ->
     k_ancestor_cgroup_id e level = default 0 (path !! Z.to_nat level)).

(** The first bound cgroup of a list, with its binding. *)
Definition first_bound (m : gmap Z rk_binding) (ids : list Z) : option (rk_binding * Z) :=
  head (omap (fun id => (fun b => (b, id)) <$> m !! id) ids).

(** The task's own cgroup, then its ancestors from level 16 up to level 1. *)
Definition governing_order (self : Z) (path : list Z) : list Z :=
  self :: rev (take (Z.to_nat RK_CGROUP_MAX_DEPTH) (drop 1 path)).

(** The published mask covers every level of the path that holds a binding. *)
Definition levels_published (m : policy_maps) (path : list Z) : Prop :=
  forall level id, 1 <= level <= RK_CGROUP_MAX_DEPTH ->
    path !! Z.to_nat level = Some id -> is_Some (m_cgroup_profile m !! id) ->
    exists cfg, m_config m = Some cfg /\
      Z.testbit (cfg_governed_levels cfg) level = true.

Lemma first_bound_cons m id ids :
  first_bound m (id :: ids) =
  match m !! id with Some b => Some (b, id) | None => first_bound m ids end.
Proof. unfold first_bound. cbn. by destruct (m !! id). Qed.

Lemma first_bound_None m ids :
  first_bound m ids = None <-> forall id, id ∈ ids -> m !! id = None.
Proof.
  induction ids as [|id ids IH]; [split; [set_solver|done]|].
  rewrite first_bound_cons. destruct (m !! id) eqn:E; [|set_solver].
  split; [done|]. intros H. rewrite (H id) in E; set_solver.
Qed.

Section Walk.
Context `{K : BpfKernel}.

(** The loop visits the levels in order and stops at the first bound ancestor. *)
Lemma governed_walk_spec w path cfg ls :
  cgroup_path (w_env w) path ->
  m_config (w_maps w) = Some cfg ->
  m_cgroup_profile (w_maps w) !! k_cgroup_id (w_env w) = None ->
  levels_published (w_maps w) path ->
  Forall (fun l => 1 <= l <= RK_CGROUP_MAX_DEPTH) ls ->
  result (rk_governed_walk (cfg_governed_levels cfg) (k_cgroup_id (w_env w)) ls) w =
  first_bound (m_cgroup_profile (w_maps w)) (omap (fun l => path !! Z.to_nat l) ls).
Proof.
  intros (Hlast & Hnz & Hanc) Hcfg Hself Hpub. induction 1 as [|l ls Hl Hls IH]; [done|].
  cbn [rk_governed_walk].
  rewrite Z.shiftl_1_l, has_bits_pow2 by lia.
  assert (forall id, path !! Z.to_nat l = Some id ->
    m_cgroup_profile (w_maps w) !! id = None ->
    first_bound (m_cgroup_profile (w_maps w)) (omap (fun l => path !! Z.to_nat l) (l :: ls)) =
    first_bound (m_cgroup_profile (w_maps w)) (omap (fun l => path !! Z.to_nat l) ls)) as Hskip.
  { intros id Hid Hun. cbn. rewrite Hid, first_bound_cons. by rewrite Hun. }
  destruct (path !! Z.to_nat l) as [id|] eqn:Hid.
  - destruct (m_cgroup_profile (w_maps w) !! id) as [b|] eqn:Hb.
    + destruct (Hpub l id Hl Hid) as (cfg' & Hcfg' & Hbit); [by rewrite Hb|].
      simplify_eq. rewrite Hbit.
      assert (id <> 0) by (apply Hnz; by eapply list_elem_of_lookup_2).
      assert (id <> k_cgroup_id (w_env w)) by congruence.
      sym_exec.
      rewrite Hanc, Hid by lia. cbn [from_option Datatypes.id].
      rewrite (proj2 (Z.eqb_neq _ _)), (proj2 (Z.eqb_neq _ _)) by done. cbn [orb].
      sym_exec. rewrite Hb.
      cbn. by rewrite Hid, first_bound_cons, Hb.
    + rewrite (Hskip id) by done. rewrite <- IH.
      destruct (negb _); [done|].
      sym_exec.
      destruct (_ || _)%bool; [done|].
      sym_exec.
      rewrite Hanc, Hid by lia. cbn [from_option Datatypes.id]. by rewrite Hb.
  - cbn [omap list_omap]. rewrite Hid. rewrite <- IH. destruct (negb _); [done|].
    sym_exec.
    by rewrite Hanc, Hid by lia.
Qed.

Lemma walk_levels_path (path : list Z) :
  omap (fun l => path !! Z.to_nat l) walk_levels =
  rev (take (Z.to_nat RK_CGROUP_MAX_DEPTH) (drop 1 path)).
Proof.
  change walk_levels with (map Z.of_nat (rev (seq 1 16))).
  change (Z.to_nat RK_CGROUP_MAX_DEPTH) with 16%nat.
  assert (forall n, omap (fun l => path !! Z.to_nat l) (map Z.of_nat (rev (seq 1 n))) =
            rev (take n (drop 1 path))) as H; [|apply H].
  induction n as [|n IH]; [done|].
  rewrite seq_S, rev_app_distr, map_app, omap_app. cbn [rev app map omap list_omap].
  rewrite Nat2Z.id. destruct (path !! (1 + n)%nat) as [id|] eqn:Hid.
  - rewrite (take_S_r _ _ id) by (by rewrite lookup_drop).
    rewrite rev_app_distr. cbn [rev app]. f_equal. apply IH.
  - apply lookup_ge_None in Hid. rewrite IH, !take_ge by (rewrite length_drop; lia). done.
Qed.

Lemma governed_binding_spec w path :
  cgroup_path (w_env w) path ->
  levels_published (w_maps w) path ->
  result (rk_governed_binding (k_cgroup_id (w_env w))) w =
  first_bound (m_cgroup_profile (w_maps w))
    (governing_order (k_cgroup_id (w_env w)) path).
Proof.
  intros Hpath Hpub. unfold rk_governed_binding, governing_order.
  sym_exec. rewrite first_bound_cons.
  destruct (m_cgroup_profile (w_maps w) !! k_cgroup_id (w_env w)) as [b|] eqn:Hself; [done|].
  sym_exec.
  rewrite <- walk_levels_path.
  assert (Forall (fun l => 1 <= l <= RK_CGROUP_MAX_DEPTH) walk_levels) as Hls
    by (cbv; repeat constructor; discriminate).
  destruct (m_config (w_maps w)) as [cfg|] eqn:Hcfg;
    [destruct (Z.eqb_spec (cfg_governed_levels cfg) 0) as [H0|H0]|].
  2: by apply governed_walk_spec.
  all: cbn; symmetry; apply first_bound_None; intros id Hin.
  all: rewrite Forall_forall in Hls.
  all: apply list_elem_of_omap in Hin as (l & Hl%Hls & Hid).
  all: destruct (m_cgroup_profile (w_maps w) !! id) eqn:Hb; [|done].
  all: destruct (Hpub l id Hl Hid) as (c & Hc & Hbit); [by rewrite Hb|].
  - simplify_eq. by rewrite H0, Z.bits_0 in Hbit.
  - congruence.
Qed.

End Walk.

(** ** The governance context *)

(** The live generation slot. *)
Definition live_slot (m : policy_maps) : Z :=
  match m_active_slot m with Some a => Z.land a 1 | None => 0 end.

(** [slot << 31 | profile], the prefix of every rule key. *)
Definition scope_of (slot profile : Z) : Z := Z.lor (Z.shiftl slot 31) profile.

(** The profile entry of a binding in the live slot, if it was ever written. *)
Definition live_profile (m : policy_maps) (b : rk_binding) : option rk_profile :=
  if RK_MAX_PROFILES <=? bind_profile b then None
  else
    p ← m_profiles m !! (live_slot m * RK_MAX_PROFILES + bind_profile b);
    if prof_policy_gen p =? 0 then None else Some p.

(** Bound to a profile that was never written: enforce, deny by default. *)
Definition fail_closed_gov (governed stale : Z) : rk_gov :=
  mk_rk_gov governed 0 0xffffffff RK_MODE_ENFORCE RK_ACTION_DENY 3 stale.

(** The context of a task governed through binding [b] of cgroup [governed]. *)
Definition governance_context (m : policy_maps) (b : rk_binding) (governed : Z)
    (stale : Z) : rk_gov :=
  match live_profile m b with
  | None => fail_closed_gov governed stale
  | Some p =>
      mk_rk_gov governed (prof_policy_gen p) (scope_of (live_slot m) (bind_profile b))
        (prof_mode p) (prof_net_default p) (prof_flags p)
        (if prof_mode p =? RK_MODE_ENFORCE then stale else 0)
  end.

Definition bindings_wf (m : policy_maps) : Prop :=
  forall id b, m_cgroup_profile m !! id = Some b -> 0 <= bind_profile b < 2 ^ 32.

Lemma live_slot_range m : live_slot m = 0 \/ live_slot m = 1.
Proof.
  unfold live_slot. destruct (m_active_slot m) as [a|]; [|auto].
  pose proof (land_mask_bound a 1) as H. change (Z.ones 1) with 1 in H. lia.
Qed.

Lemma live_profile_range m id b p :
  bindings_wf m -> m_cgroup_profile m !! id = Some b -> live_profile m b = Some p ->
  0 <= bind_profile b < RK_MAX_PROFILES.
Proof.
  intros Hwf Hb%Hwf. unfold live_profile.
  destruct (Z.leb_spec RK_MAX_PROFILES (bind_profile b)); [done|]. lia.
Qed.

(** A scope keeps slot and profile apart, and none is the fail-closed scope. *)
Lemma scope_of_eq slot profile :
  0 <= slot <= 1 -> 0 <= profile < RK_MAX_PROFILES ->
  scope_of slot profile = slot * 2 ^ 31 + profile.
Proof.
  intros Hs Hp. unfold scope_of, RK_MAX_PROFILES in *. apply lor_shiftl_small; lia.
Qed.

Lemma scope_of_inj s1 p1 s2 p2 :
  0 <= s1 <= 1 -> 0 <= s2 <= 1 ->
  0 <= p1 < RK_MAX_PROFILES -> 0 <= p2 < RK_MAX_PROFILES ->
  scope_of s1 p1 = scope_of s2 p2 -> s1 = s2 /\ p1 = p2.
Proof. intros. rewrite !scope_of_eq in * by done. unfold RK_MAX_PROFILES in *. lia. Qed.

Lemma scope_of_not_fail_closed slot profile :
  0 <= slot <= 1 -> 0 <= profile < RK_MAX_PROFILES ->
  scope_of slot profile <> 0xffffffff.
Proof. intros. rewrite scope_of_eq by done. unfold RK_MAX_PROFILES in *. lia. Qed.

Section Governance.
Context `{K : BpfKernel}.

Lemma governed_walk_bound w levels self ls b id :
  result (rk_governed_walk levels self ls) w = Some (b, id) ->
  m_cgroup_profile (w_maps w) !! id = Some b.
Proof.
  induction ls as [|l ls IH]; [done|]. cbn [rk_governed_walk].
  destruct (negb _); [done|]. sym_exec. destruct (_ || _)%bool; [done|]. sym_exec.
  destruct (m_cgroup_profile (w_maps w) !! k_ancestor_cgroup_id _ _) eqn:E; [|done].
  rewrite result_ret. by intros [= <- <-].
Qed.

(** The binding returned is the one of the governing cgroup. *)
Lemma governed_binding_bound w self b id :
  result (rk_governed_binding self) w = Some (b, id) ->
  m_cgroup_profile (w_maps w) !! id = Some b.
Proof.
  unfold rk_governed_binding. sym_exec.
  destruct (m_cgroup_profile (w_maps w) !! self) eqn:E.
  { rewrite result_ret. by intros [= <- <-]. }
  sym_exec. destruct (_ =? 0); [done|]. apply governed_walk_bound.
Qed.

(** What the lookup returns, from the bound cgroup it found. *)
Lemma governance_spec w :
  bindings_wf (w_maps w) ->
  result rk_governance w =
  match result (rk_governed_binding (k_cgroup_id (w_env w))) w with
  | None => None
  | Some (b, governed) =>
      Some (governance_context (w_maps w) b governed (result rk_heartbeat_stale w))
  end.
Proof.
  intros Hwf. unfold governance_context, rk_governance, rk_governance_fail_closed.
  rewrite result_bind, final_call, result_call. cbn [handle fst snd].
  rewrite result_read_only by apply _.
  destruct (result (rk_governed_binding _) w) as [[b governed]|] eqn:Hb; [|done].
  pose proof (governed_binding_bound w _ _ _ Hb) as Hbound. apply Hwf in Hbound.
  rewrite result_bind, final_call, result_call. cbn [handle fst snd].
  fold (live_slot (w_maps w)). unfold live_profile.
  destruct (Z.leb_spec RK_MAX_PROFILES (bind_profile b)) as [Hge|Hlt].
  { by rewrite result_read_only by apply _. }
  pose proof (live_slot_range (w_maps w)) as Hslot.
  rewrite result_bind, final_call, result_call. cbn [handle fst snd].
  unfold RK_MAX_PROFILES in *.
  rewrite (u32_small (_ * _ + _)) by lia.
  destruct (m_profiles (w_maps w) !! _) as [p|] eqn:Hp; cbn [mbind option_bind];
    [|by rewrite result_read_only by apply _].
  destruct (prof_policy_gen p =? 0); [by rewrite result_read_only by apply _|].
  assert (u32 (Z.lor (u32 (Z.shiftl (live_slot (w_maps w)) 31)) (bind_profile b)) =
          scope_of (live_slot (w_maps w)) (bind_profile b)) as ->.
  { pose proof (scope_of_eq (live_slot (w_maps w)) (bind_profile b)) as Hs.
    unfold RK_MAX_PROFILES, scope_of in *.
    rewrite (u32_small (Z.shiftl _ _)) by (rewrite Z.shiftl_mul_pow2; lia).
    rewrite u32_small; lia. }
  destruct (prof_mode p =? RK_MODE_ENFORCE); by rewrite result_read_only by apply _.
Qed.

(** The mode of a governance context is the profile's; staleness is a flag. *)
Lemma governance_stale_bool w g :
  bindings_wf (w_maps w) -> result rk_governance w = Some g ->
  g_stale g = 0 \/ g_stale g = 1.
Proof.
  intros Hwf. rewrite governance_spec by done.
  pose proof (heartbeat_stale_bool w).
  destruct (result (rk_governed_binding _) w) as [[b governed]|]; [|done].
  intros [= <-]. unfold governance_context.
  destruct (live_profile _ _); cbn; [destruct (_ =? _)|]; auto.
Qed.

End Governance.

(** ** The verdict functions *)

Lemma enforced_deny_eq g action :
  rk_enforced_deny g action =
  bool_decide (g_mode g = RK_MODE_ENFORCE /\
               (action = RK_ACTION_DENY \/ g_stale g <> 0)).
Proof.
  unfold rk_enforced_deny, rk_effective_deny.
  destruct (Z.eqb_spec (g_mode g) RK_MODE_ENFORCE) as [Hm|Hm];
    destruct (Z.eqb_spec action RK_ACTION_DENY);
    destruct (Z.eqb_spec (g_stale g) 0); cbn; symmetry;
    first [apply bool_decide_eq_true | apply bool_decide_eq_false]; naive_solver.
Qed.

Lemma enforced_deny_audit g action :
  g_mode g <> RK_MODE_ENFORCE -> rk_enforced_deny g action = false.
Proof. intros Hm. rewrite enforced_deny_eq. apply bool_decide_eq_false. tauto. Qed.

Lemma enforced_deny_stale g action :
  g_mode g = RK_MODE_ENFORCE -> g_stale g <> 0 -> rk_enforced_deny g action = true.
Proof. intros. rewrite enforced_deny_eq. apply bool_decide_eq_true. tauto. Qed.

Lemma enforced_deny_fresh g action :
  g_mode g = RK_MODE_ENFORCE -> g_stale g = 0 ->
  rk_enforced_deny g action = (action =? RK_ACTION_DENY).
Proof.
  intros Hm Hs. rewrite enforced_deny_eq. destruct (Z.eqb_spec action RK_ACTION_DENY).
  - apply bool_decide_eq_true. tauto.
  - apply bool_decide_eq_false. tauto.
Qed.

(** ** Properties of the lookup *)

Lemma governance_nearest `{K : BpfKernel} w path :
  bindings_wf (w_maps w) -> cgroup_path (w_env w) path ->
  levels_published (w_maps w) path ->
  result rk_governance w =
  (fun '(b, governed) =>
     governance_context (w_maps w) b governed (result rk_heartbeat_stale w)) <$>
  first_bound (m_cgroup_profile (w_maps w)) (governing_order (k_cgroup_id (w_env w)) path).
Proof.
  intros Hwf Hpath Hpub. rewrite governance_spec, (governed_binding_spec w path) by done.
  by destruct (first_bound _ _) as [[b governed]|].
Qed.

(** The deepest bound level of the walk is no higher than any bound level. *)
Lemma first_bound_deepest m (path : list Z) n level id b :
  (1 <= level <= n)%nat -> path !! level = Some id -> m !! id = Some b ->
  exists level' id' b', (level <= level' <= n)%nat /\ path !! level' = Some id' /\
    first_bound m (rev (take n (drop 1 path))) = Some (b', id').
Proof.
  induction n as [|n IH]; intros Hl Hid Hb; [lia|].
  destruct (path !! S n) as [idn|] eqn:Hn.
  - rewrite (take_S_r _ _ idn) by (by rewrite lookup_drop).
    rewrite rev_app_distr. cbn [rev app]. rewrite first_bound_cons.
    destruct (m !! idn) as [bn|] eqn:Hbn.
    + exists (S n), idn, bn. split_and!; [lia..|done|done].
    + destruct IH as (l' & id' & b' & ? & ? & ?); [|done..|].
      { destruct (decide (level = S n)) as [->|]; [congruence|lia]. }
      exists l', id', b'. split_and!; [lia..|done|done].
  - apply lookup_ge_None in Hn as Hlen.
    destruct IH as (l' & id' & b' & ? & ? & Hf); [|done..|].
    { destruct (decide (level = S n)) as [->|]; [congruence|lia]. }
    exists l', id', b'. split_and!; [lia..|done|].
    rewrite !take_ge in * by (rewrite length_drop; lia). done.
Qed.

Lemma governing_order_deepest m e (path : list Z) level id b :
  cgroup_path e path -> (1 <= level <= 16)%nat ->
  path !! level = Some id -> m !! id = Some b ->
  exists level' id' b', (level <= level')%nat /\ path !! level' = Some id' /\
    first_bound m (governing_order (k_cgroup_id e) path) = Some (b', id').
Proof.
  intros ((ancs & ->) & _) Hl Hid Hb. unfold governing_order. rewrite first_bound_cons.
  destruct (m !! k_cgroup_id e) as [b'|] eqn:Hself.
  - exists (length ancs), (k_cgroup_id e), b'.
    split_and!; [|by rewrite lookup_app_r, Nat.sub_diag by lia|done].
    apply lookup_lt_Some in Hid. rewrite length_app in Hid. cbn in Hid. lia.
  - destruct (first_bound_deepest m (ancs ++ [k_cgroup_id e]) 16 level id b)
      as (l' & id' & b' & ? & ? & ?); [done..|].
    exists l', id', b'. split_and!; [lia|done|done].
Qed.

(** ** The scenario is well formed *)

Lemma ex_path_ok : cgroup_path ex_env ex_path.
Proof.
  split_and!; [by exists [1; 10; 500]| |done].
  intros id Hid. repeat (apply elem_of_cons in Hid as [->|Hid]; [lia|]). by apply elem_of_nil in Hid.
Qed.

Lemma ex_bindings_wf id profile mode heartbeat :
  0 <= profile < 2 ^ 32 ->
  bindings_wf (ex_maps {[ id := mk_rk_binding profile 0 ]} mode heartbeat).
Proof. intros H id' b. cbn. intros [_ <-]%lookup_singleton_Some. done. Qed.

Lemma ex_levels_published profile mode heartbeat :
  levels_published (ex_maps {[ 500 := mk_rk_binding profile 0 ]} mode heartbeat) ex_path.
Proof.
  intros level id Hl Hid [b Hb]. cbn in Hb. apply lookup_singleton_Some in Hb as [<- _].
  eexists. split; [done|].
  assert (Z.to_nat level = 2)%nat as Hlv.
  { unfold ex_path in Hid. by destruct (Z.to_nat level) as [|[|[|[|[|]]]]]. }
  by replace level with 2 by lia.
Qed.

(** C15. The task is governed by its nearest bound cgroup: its own, or the deepest
    bound ancestor of the sixteen levels below the root.  The context is that of
    the live profile of this binding, and the lookup changes nothing. *)
Theorem governed_by_nearest_bound_cgroup `{K : BpfKernel} w path :
  bindings_wf (w_maps w) -> cgroup_path (w_env w) path ->
  levels_published (w_maps w) path ->
  run rk_governance w =
  ((fun '(b, governed) =>
      governance_context (w_maps w) b governed (result rk_heartbeat_stale w)) <$>
   first_bound (m_cgroup_profile (w_maps w)) (governing_order (k_cgroup_id (w_env w)) path),
   w).
Proof.
  intros. rewrite run_eq, (governance_nearest w path) by done. f_equal. apply read_only.
Qed.

Lemma governed_by_nearest_bound_cgroup_witness :
  run (K:=reference_kernel) rk_governance (ex_world RK_MODE_ENFORCE 9500000000) =
  (Some (mk_rk_gov 500 7 (2 ^ 31 + 3) 1 1 3 0), ex_world RK_MODE_ENFORCE 9500000000).
Proof.
  rewrite (governed_by_nearest_bound_cgroup (K:=reference_kernel) _ ex_path).
  - vm_compute. reflexivity.
  - by apply ex_bindings_wf.
  - apply ex_path_ok.
  - apply ex_levels_published.
Defined.

(** A task cannot leave governance by moving into a sub-cgroup: with a bound
    cgroup at any of the sixteen covered levels of its path, the task is governed,
    by a bound cgroup that is at least as deep. *)
Lemma descendant_stays_governed `{K : BpfKernel} w path level id b :
  bindings_wf (w_maps w) -> cgroup_path (w_env w) path ->
  levels_published (w_maps w) path ->
  (1 <= level <= 16)%nat -> path !! level = Some id ->
  m_cgroup_profile (w_maps w) !! id = Some b ->
  exists g level', result rk_governance w = Some g /\ (level <= level')%nat /\
    path !! level' = Some (g_cgroup_id g).
Proof.
  intros Hwf Hpath Hpub Hl Hid Hb. rewrite (governance_nearest w path) by done.
  destruct (governing_order_deepest (m_cgroup_profile (w_maps w)) (w_env w) path level id b)
    as (l' & id' & b' & Hl' & Hid' & ->); [done..|].
  exists (governance_context (w_maps w) b' id' (result rk_heartbeat_stale w)), l'.
  split_and!; [done..|]. rewrite Hid'. f_equal. unfold governance_context.
  by destruct (live_profile _ _).
Qed.

Lemma descendant_stays_governed_witness :
  exists g level', result (K:=reference_kernel) rk_governance
      (ex_world RK_MODE_ENFORCE 9500000000) = Some g /\ (2 <= level')%nat /\
    ex_path !! level' = Some (g_cgroup_id g).
Proof.
  apply (descendant_stays_governed (K:=reference_kernel)
    (ex_world RK_MODE_ENFORCE 9500000000) ex_path 2 500 (mk_rk_binding 3 0)).
  - by apply ex_bindings_wf.
  - apply ex_path_ok.
  - apply ex_levels_published.
  - lia.
  - reflexivity.
  - reflexivity.
Defined.

(** The heartbeat test is exact on unsigned 64-bit clocks: it returns 0 when
    the sensor wrote a heartbeat and a timeout and the heartbeat is not older than
    the timeout, and 1 in every other case. *)
Lemma heartbeat_stale_exact `{K : BpfKernel} w :
  clock_wf w ->
  result rk_heartbeat_stale w = 0 /\ heartbeat_fresh (w_maps w) (k_boot_ns (w_env w)) \/
  result rk_heartbeat_stale w = 1 /\ ~ heartbeat_fresh (w_maps w) (k_boot_ns (w_env w)).
Proof.
  intros Hwf. pose proof (heartbeat_stale_spec w Hwf) as Hspec.
  destruct (heartbeat_stale_bool w) as [H|H]; [left; tauto|right].
  split; [done|]. intros Hf%Hspec. congruence.
Qed.

Lemma ex_clock_wf bindings mode heartbeat :
  0 <= heartbeat < 2 ^ 64 ->
  clock_wf (mk_world (ex_maps bindings mode heartbeat) ex_env ex_tele).
Proof. intros H. split_and!; cbn; [lia|lia|naive_solver|naive_solver lia]. Qed.

Lemma heartbeat_stale_exact_witness :
  result (K:=reference_kernel) rk_heartbeat_stale (ex_world RK_MODE_ENFORCE 7000000000) = 1 /\
  ~ heartbeat_fresh (w_maps (ex_world RK_MODE_ENFORCE 7000000000)) 10000000000.
Proof.
  destruct (heartbeat_stale_exact (K:=reference_kernel) (ex_world RK_MODE_ENFORCE 7000000000))
    as [[H _]|H]; [apply ex_clock_wf; lia|vm_compute in H; discriminate H|exact H].
Defined.

(** A task bound to a profile that was never written, or whose number is out of
    range, gets the fail-closed context: enforce, network and exec denied by
    default, raw sockets denied, and a scope under which no rule is stored. *)
Lemma unapplied_profile_fails_closed `{K : BpfKernel} w b governed :
  bindings_wf (w_maps w) ->
  result (rk_governed_binding (k_cgroup_id (w_env w))) w = Some (b, governed) ->
  live_profile (w_maps w) b = None ->
  result rk_governance w =
    Some (mk_rk_gov governed 0 0xffffffff RK_MODE_ENFORCE RK_ACTION_DENY
      (Z.lor RK_PROFILE_DENY_RAW_SOCKETS RK_PROFILE_EXEC_DENY_DEFAULT)
      (result rk_heartbeat_stale w)) /\
  forall slot profile, 0 <= slot <= 1 -> 0 <= profile < RK_MAX_PROFILES ->
    scope_of slot profile <> 0xffffffff.
Proof.
  intros Hwf Hb Hl. split; [|intros; by apply scope_of_not_fail_closed].
  rewrite governance_spec, Hb by done. unfold governance_context. by rewrite Hl.
Qed.

Lemma unapplied_profile_fails_closed_witness :
  result (K:=reference_kernel) rk_governance ex_unapplied =
    Some (mk_rk_gov 500 0 0xffffffff 1 1 3 0).
Proof.
  destruct (unapplied_profile_fails_closed (K:=reference_kernel) ex_unapplied
    (mk_rk_binding 9 0) 500) as [H _].
  - by apply ex_bindings_wf.
  - vm_compute. reflexivity.
  - vm_compute. reflexivity.
  - rewrite H. vm_compute. reflexivity.
Defined.

(** Rule keys keep policies apart: two governed tasks, in any two states of the
    maps, look rules up under the same scope only when they run under the same
    profile of the same generation slot. *)
Lemma scope_identifies_profile `{K : BpfKernel} w1 w2 b1 b2 c1 c2 p1 p2 g1 g2 :
  bindings_wf (w_maps w1) -> bindings_wf (w_maps w2) ->
  result (rk_governed_binding (k_cgroup_id (w_env w1))) w1 = Some (b1, c1) ->
  result (rk_governed_binding (k_cgroup_id (w_env w2))) w2 = Some (b2, c2) ->
  live_profile (w_maps w1) b1 = Some p1 -> live_profile (w_maps w2) b2 = Some p2 ->
  result rk_governance w1 = Some g1 -> result rk_governance w2 = Some g2 ->
  g_scope g1 = g_scope g2 <->
  live_slot (w_maps w1) = live_slot (w_maps w2) /\ bind_profile b1 = bind_profile b2.
Proof.
  intros Hw1 Hw2 Hb1 Hb2 Hl1 Hl2. rewrite !governance_spec, Hb1, Hb2 by done.
  unfold governance_context. rewrite Hl1, Hl2. intros [= <-] [= <-]. cbn.
  apply governed_binding_bound in Hb1, Hb2.
  split; [|by intros [-> ->]].
  pose proof (live_slot_range (w_maps w1)). pose proof (live_slot_range (w_maps w2)).
  apply scope_of_inj; [lia|lia|exact (live_profile_range _ _ _ _ Hw1 Hb1 Hl1)|
    exact (live_profile_range _ _ _ _ Hw2 Hb2 Hl2)].
Qed.

Lemma scope_identifies_profile_witness :
  let w := ex_world RK_MODE_ENFORCE 9500000000 in
  let w' := ex_world RK_MODE_AUDIT 0 in
  2 ^ 31 + 3 = 2 ^ 31 + 3 <-> live_slot (w_maps w) = live_slot (w_maps w') /\ 3 = 3.
Proof.
  apply (scope_identifies_profile (K:=reference_kernel)
    (ex_world RK_MODE_ENFORCE 9500000000) (ex_world RK_MODE_AUDIT 0)
    (mk_rk_binding 3 0) (mk_rk_binding 3 0) 500 500
    (mk_rk_profile 1 1 3 0 7) (mk_rk_profile 0 1 3 0 7)
    (mk_rk_gov 500 7 (2 ^ 31 + 3) 1 1 3 0) (mk_rk_gov 500 7 (2 ^ 31 + 3) 0 1 3 0)).
  1-2: by apply ex_bindings_wf.
  all: vm_compute; reflexivity.
Defined.
