(* ===== verification/Text.v ===== *)
(** * Text

    The operations of Rust's [str] that the policy parser and the policy engine use.  A
    [str] is its UTF-8 bytes. *)

From Stdlib Require Export Ascii String.
From Stdlib Require Import List.
From stdpp Require Export strings.
From S2P Require Import Prelude.
Open Scope Z_scope.

Definition chars (s : string) : list ascii := list_ascii_of_string s.
Definition text (l : list ascii) : string := string_of_list_ascii l.

Lemma text_chars s : text (chars s) = s.
Proof. apply string_of_list_ascii_of_string. Qed.

Lemma chars_text l : chars (text l) = l.
Proof. apply list_ascii_of_string_of_list_ascii. Qed.

Lemma chars_app a b : chars (a +:+ b) = chars a ++ chars b.
Proof.
  unfold chars. induction a as [|c a IH]; [done|].
  change (c :: list_ascii_of_string (a +:+ b) =
          c :: list_ascii_of_string a ++ list_ascii_of_string b). by rewrite IH.
Qed.

(** [s.split(c)]; [seg] is the segment being read. *)
Fixpoint split_loop (c : ascii) (seg l : list ascii) : list (list ascii) :=
  match l with
  | [] => [seg]
  | a :: l => if decide (a = c) then seg :: split_loop c [] l
              else split_loop c (seg ++ [a]) l
  end.

Definition split (c : ascii) (s : string) : list string :=
  text <$> split_loop c [] (chars s).

(** [s.split_once(c)]: around the first occurrence. *)
Fixpoint split_once_loop (c : ascii) (seg l : list ascii)
    : option (list ascii * list ascii) :=
  match l with
  | [] => None
  | a :: l => if decide (a = c) then Some (seg, l)
              else split_once_loop c (seg ++ [a]) l
  end.

Definition split_once (c : ascii) (s : string) : option (string * string) :=
  (fun '(a, b) => (text a, text b)) <$> split_once_loop c [] (chars s).

Definition contains_char (c : ascii) (s : string) : bool := bool_decide (c ∈ chars s).

Definition starts_with_char (c : ascii) (s : string) : bool :=
  bool_decide (head (chars s) = Some c).

Definition ends_with_char (c : ascii) (s : string) : bool :=
  bool_decide (last (chars s) = Some c).

(** [l] without the prefix [p]. *)
Fixpoint strip_list {A} `{EqDecision A} (p l : list A) : option (list A) :=
  match p, l with
  | [], l => Some l
  | _, [] => None
  | a :: p, b :: l => if decide (a = b) then strip_list p l else None
  end.

Definition strip_prefix (p s : string) : option string :=
  text <$> strip_list (chars p) (chars s).

Lemma strip_list_Some {A} `{EqDecision A} (p l r : list A) :
  strip_list p l = Some r -> l = p ++ r.
Proof.
  revert l. induction p as [|a p IH]; intros l; cbn [strip_list app]; [by intros [= ->]|].
  destruct l as [|b l]; [done|]. case_decide as Hab; [|done]. subst. by intros ->%IH.
Qed.

(** ** Trimming *)

Definition byte_char (b : nat) : ascii := ascii_of_nat b.

(** The UTF-8 encodings of the characters with the White_Space property. *)
Definition white_space : list (list ascii) :=
  map (map byte_char)
  [[9]; [10]; [11]; [12]; [13]; [32]; [194; 133]; [194; 160]; [225; 154; 128];
   [226; 128; 128]; [226; 128; 129]; [226; 128; 130]; [226; 128; 131]; [226; 128; 132];
   [226; 128; 133]; [226; 128; 134]; [226; 128; 135]; [226; 128; 136]; [226; 128; 137];
   [226; 128; 138]; [226; 128; 168]; [226; 128; 169]; [226; 128; 175]; [226; 129; 159];
   [227; 128; 128]]%nat.

(** The first of the patterns that is a prefix, removed. *)
Definition strip_any (pats : list (list ascii)) (l : list ascii) : option (list ascii) :=
  head (omap (fun p => strip_list p l) pats).

(** Removes patterns from the front as long as one matches: at most once per byte. *)
Fixpoint strip_all (pats : list (list ascii)) (n : nat) (l : list ascii) : list ascii :=
  match n with
  | O => l
  | S n => match strip_any pats l with
           | Some l' => strip_all pats n l'
           | None => l
           end
  end.

Definition trim_start_list (pats : list (list ascii)) (l : list ascii) : list ascii :=
  strip_all pats (length l) l.

Definition trim_end_list (pats : list (list ascii)) (l : list ascii) : list ascii :=
  reverse (trim_start_list (reverse <$> pats) (reverse l)).

Definition trim (s : string) : string :=
  text (trim_end_list white_space (trim_start_list white_space (chars s))).

Lemma trim_start_none pats l : strip_any pats l = None -> trim_start_list pats l = l.
Proof.
  unfold trim_start_list. intros H. destruct (length l); cbn [strip_all]; [done|]. by rewrite H.
Qed.

Lemma trim_end_none pats l c :
  last l = Some c -> (forall r, strip_any (reverse <$> pats) (c :: r) = None) ->
  trim_end_list pats l = l.
Proof.
  intros [l' ->]%last_Some Hc. unfold trim_end_list.
  rewrite reverse_snoc, trim_start_none by done.
  by rewrite reverse_cons, reverse_involutive.
Qed.

(** [s.trim_end_matches(c)]. *)
Definition trim_end_char (c : ascii) (s : string) : string :=
  text (trim_end_list [[c]] (chars s)).

(** [s.split_whitespace()]: the maximal runs without white space; [seg] is the run being
    read, and a step consumes at least a byte. *)
Fixpoint words_loop (n : nat) (seg l : list ascii) : list (list ascii) :=
  match n with
  | O => [seg]
  | S n =>
      match strip_any white_space l with
      | Some l' => seg :: words_loop n [] l'
      | None =>
          match l with
          | [] => [seg]
          | a :: l => words_loop n (seg ++ [a]) l
          end
      end
  end.

Definition split_whitespace (s : string) : list string :=
  text <$> filter (fun seg => seg <> []) (words_loop (S (length (chars s))) [] (chars s)).

(** [s.lines()]: without line ends, and without a last empty line. *)
Definition strip_cr (l : list ascii) : list ascii :=
  if decide (last l = Some (byte_char 13)) then take (length l - 1) l else l.

Definition drop_last_empty (ls : list (list ascii)) : list (list ascii) :=
  if decide (last ls = Some []) then take (length ls - 1) ls else ls.

Definition lines (s : string) : list string :=
  (fun l => text (strip_cr l)) <$>
    drop_last_empty (split_loop (byte_char 10) [] (chars s)).

(** ** Characters *)

Definition in_range (lo hi : ascii) (c : ascii) : bool :=
  (nat_of_ascii lo <=? nat_of_ascii c)%nat && (nat_of_ascii c <=? nat_of_ascii hi)%nat.

Definition is_ascii_digit (c : ascii) : bool := in_range "0" "9" c.
Definition is_ascii_lowercase (c : ascii) : bool := in_range "a" "z" c.
Definition is_ascii_uppercase (c : ascii) : bool := in_range "A" "Z" c.
Definition is_ascii_alphanumeric (c : ascii) : bool :=
  is_ascii_digit c || is_ascii_lowercase c || is_ascii_uppercase c.

(** ** Numbers *)

(** The digits of an unsigned integer; [None] on another character or above [max]. *)
Fixpoint digits_loop (max acc : Z) (l : list ascii) : option Z :=
  match l with
  | [] => Some acc
  | c :: l =>
      if is_ascii_digit c then
        let acc := 10 * acc + Z.of_nat (nat_of_ascii c - nat_of_ascii "0") in
        if max <? acc then None else digits_loop max acc l
      else None
  end.

Definition strip_plus (l : list ascii) : list ascii :=
  match l with
  | c :: l' => if decide (c = "+"%char) then l' else l
  | [] => []
  end.

(** [s.parse()] at an unsigned type with largest value [max]: an optional plus sign
    and at least one digit. *)
Definition parse_uint (max : Z) (s : string) : option Z :=
  match strip_plus (chars s) with
  | [] => None
  | l => digits_loop max 0 l
  end.

Lemma digits_loop_bound max acc l n :
  0 <= acc <= max -> digits_loop max acc l = Some n -> 0 <= n <= max.
Proof.
  revert acc. induction l as [|c l IH]; intros acc Hacc; cbn [digits_loop].
  { by intros [= <-]. }
  destruct (is_ascii_digit c); [|done].
  destruct (Z.ltb_spec max (10 * acc + Z.of_nat (nat_of_ascii c - nat_of_ascii "0"))); [done|].
  apply IH. lia.
Qed.

Lemma parse_uint_bound max s n : 0 <= max -> parse_uint max s = Some n -> 0 <= n <= max.
Proof.
  intros Hmax. unfold parse_uint. destruct (strip_plus (chars s)); [done|].
  apply digits_loop_bound. lia.
Qed.
