(* ===== verification/Identity.v ===== *)
(** * File identity ([rk-sensor/src/identity.rs])

    The device and inode by which the kernel hooks know a file, found from a path through
    the mount table.  The operating system is an interface: what opening a path, reading
    a directory and reading /proc return at the time of an apply. *)

From S2P Require Import Prelude Text.
Open Scope string_scope.
Open Scope list_scope.
Open Scope Z_scope.

(** [std::io::ErrorKind], as far as the code tells kinds apart. *)
Inductive ErrorKind : Set := NotFound | PermissionDenied | OtherError.

#[export] Instance ErrorKind_eq_dec : EqDecision ErrorKind.
Proof. solve_decision. Defined.

Record Metadata : Set := mk_Metadata {
  md_ino : Z; md_dev : Z; md_is_file : bool; md_is_dir : bool }.

(** A file opened with [O_PATH]: its metadata and its fdinfo, which may be unreadable. *)
Record OpenFile : Set := mk_OpenFile {
  of_meta : ErrorKind + Metadata; of_fdinfo : ErrorKind + string }.

Class Os := {
  os_open : string -> ErrorKind + OpenFile;
  os_metadata : string -> ErrorKind + Metadata;
  os_read_dir : string -> ErrorKind + list (ErrorKind + string);
  os_mountinfo : ErrorKind + string }.

(** From [rk-sensor/src/selftest.rs]: [st_dev] in the kernel's encoding. *)
Definition kernel_dev (st_dev : Z) : Z :=
  let major := Z.lor (Z.land (Z.shiftr st_dev 32) 0xfffff000)
                     (Z.land (Z.shiftr st_dev 8) 0x00000fff) in
  let minor := Z.lor (Z.land (Z.shiftr st_dev 12) 0xffffff00)
                     (Z.land st_dev 0x000000ff) in
  Z.lor (u64 (Z.shiftl major 20)) minor.

(** The C library's [makedev], with which [st_dev] is encoded. *)
Definition makedev (major minor : Z) : Z :=
  Z.lor (Z.lor (Z.shiftl (Z.land major 0xfff) 8) (Z.shiftl (Z.ldiff major 0xfff) 32))
        (Z.lor (Z.land minor 0xff) (Z.shiftl (Z.ldiff minor 0xff) 12)).

Record Mount : Set := mk_Mount { mt_dev : Z; mt_fstype : string }.

Record FileIdentity : Set := mk_FileIdentity {
  fi_dev : Z; fi_ino : Z; fi_stat_dev : Z; fi_fstype : string; fi_meta : Metadata }.

Record MountTable : Set := mk_MountTable { by_id : gmap Z Mount; loaded : bool }.

Definition MountTable_new : MountTable := mk_MountTable ∅ false.

(** [fields.skip_while(|f| f != "-").nth(1)]: the field after the lone dash. *)
Fixpoint after_dash (fields : list string) : option string :=
  match fields with
  | [] => None
  | f :: fields => if decide (f = "-") then head fields else after_dash fields
  end.

Definition parse_mountinfo_line (line : string) : option (Z * Mount) :=
  match split_whitespace line with
  | id :: rest =>
      id ← parse_uint u64_max id;
      match rest with
      | _ :: dev :: fields =>
          '(major, minor) ← split_once ":" dev;
          major ← parse_uint u64_max major;
          minor ← parse_uint u64_max minor;
          fstype ← after_dash fields;
          Some (id, mk_Mount (Z.lor (u64 (Z.shiftl major 20)) minor) fstype)
      | _ => None
      end
  | [] => None
  end.

Definition parse_fdinfo_mnt_id (text : string) : option Z :=
  v ← head (omap (strip_prefix "mnt_id:") (lines text));
  parse_uint u64_max (trim v).

Definition MountTable_parse (text : string) : MountTable :=
  mk_MountTable
    (foldl (fun m '(id, mount) => <[id := mount]> m) ∅
       (omap parse_mountinfo_line (lines text)))
    true.

Lemma testbit_above x w n : 0 <= x < 2 ^ w -> w <= n -> Z.testbit x n = false.
Proof.
  intros Hx Hn. destruct (Z.ltb_spec w 0); [rewrite Z.pow_neg_r in Hx; lia|].
  rewrite <- (Z.mod_small x (2 ^ w)) by done. apply Z.mod_pow2_bits_high. lia.
Qed.

Lemma makedev_testbit major minor n :
  0 <= major < 2 ^ 12 -> 0 <= n ->
  Z.testbit (makedev major minor) n =
  if n <? 8 then Z.testbit minor n
  else if n <? 20 then Z.testbit major (n - 8) else Z.testbit minor (n - 12).
Proof.
  intros Hmaj Hn. unfold makedev. change 0xfff with (Z.ones 12). change 0xff with (Z.ones 8).
  rewrite !Z.lor_spec, !Z.shiftl_spec, !Z.land_spec, !Z.ldiff_spec, !Z.testbit_ones by lia.
  assert (forall m, 12 <= m -> Z.testbit major m = false) as Hhi
    by (intros; by eapply testbit_above).
  destruct (Z.ltb_spec n 8); [|destruct (Z.ltb_spec n 20)].
  - rewrite (Z.testbit_neg_r _ (n - 8)), (Z.testbit_neg_r _ (n - 32)),
      (Z.testbit_neg_r _ (n - 12)) by lia.
    rewrite (proj2 (Z.leb_le 0 n)) by lia. cbn. by rewrite andb_true_r, orb_false_r.
  - rewrite (Z.testbit_neg_r _ (n - 32)) by lia.
    rewrite (proj2 (Z.leb_le 0 (n - 8))), (proj2 (Z.ltb_lt (n - 8) 12)) by lia.
    rewrite (proj2 (Z.leb_le 0 n)) by lia. cbn. rewrite andb_true_r, andb_false_r, orb_false_r.
    destruct (Z.leb_spec 0 (n - 12)); [|by rewrite (Z.testbit_neg_r _ (n - 12)), orb_false_r by lia].
    by rewrite (proj2 (Z.ltb_lt (n - 12) 8)), andb_false_r, orb_false_r by lia.
  - rewrite (Hhi (n - 8)) by lia.
    rewrite (proj2 (Z.leb_le 0 n)), (proj2 (Z.leb_le 0 (n - 12))) by lia.
    rewrite (proj2 (Z.ltb_ge (n - 12) 8)) by lia. cbn. rewrite andb_false_r, andb_true_r.
    destruct (Z.leb_spec 0 (n - 32)); [|by rewrite (Z.testbit_neg_r _ (n - 32)) by lia].
    destruct (Z.ltb_spec (n - 32) 12); cbn; [by rewrite andb_false_r|].
    by rewrite Hhi by lia.
Qed.

(** Device numbers convert exactly: the kernel's device of a file, as the programs read
    it from the superblock, is what the sensor computes from the [st_dev] that [stat]
    reports, for every major and minor number the kernel can encode. *)
Lemma kernel_dev_exact major minor
    (Hmaj : 0 <= major < 2 ^ 12) (Hmin : 0 <= minor < 2 ^ 20) :
  kernel_dev (makedev major minor) = major * 2 ^ 20 + minor.
Proof.
  set (st := makedev major minor).
  assert (forall m, 12 <= m -> Z.testbit major m = false) as Hhi1
    by (intros; by eapply testbit_above).
  assert (forall m, 20 <= m -> Z.testbit minor m = false) as Hhi2
    by (intros; by eapply testbit_above).
  assert (Z.lor (Z.land (Z.shiftr st 32) 0xfffff000) (Z.land (Z.shiftr st 8) 0x00000fff) =
    major) as HM.
  { apply Z.bits_inj'. intros n Hn. change 0xfff with (Z.ones 12).
    rewrite Z.lor_spec, !Z.land_spec, !Z.shiftr_spec, Z.testbit_ones by lia.
    unfold st. rewrite !makedev_testbit by lia.
    rewrite (proj2 (Z.ltb_ge (n + 32) 8)), (proj2 (Z.ltb_ge (n + 32) 20)),
      (proj2 (Z.ltb_ge (n + 8) 8)), (Hhi2 (n + 32 - 12)), (proj2 (Z.leb_le 0 n)) by lia.
    cbn. destruct (Z.ltb_spec n 12).
    - rewrite (proj2 (Z.ltb_lt (n + 8) 20)), andb_true_r by lia. f_equal. lia.
    - by rewrite andb_false_r, Hhi1 by lia. }
  assert (Z.lor (Z.land (Z.shiftr st 12) 0xffffff00) (Z.land st 0x000000ff) = minor) as Hm.
  { apply Z.bits_inj'. intros n Hn. change 0xff with (Z.ones 8).
    change 0xffffff00 with (Z.shiftl (Z.ones 24) 8).
    rewrite Z.lor_spec, !Z.land_spec, Z.shiftr_spec, Z.shiftl_spec by lia.
    unfold st. rewrite !makedev_testbit by lia. rewrite !Z.testbit_ones by lia.
    rewrite (proj2 (Z.leb_le 0 n)) by lia. cbn. destruct (Z.ltb_spec n 8).
    - rewrite andb_true_r. destruct (Z.leb_spec 0 (n - 8)); [lia|]. by rewrite andb_false_r.
    - rewrite andb_false_r, orb_false_r, (proj2 (Z.leb_le 0 (n - 8))) by lia.
      rewrite (proj2 (Z.ltb_ge (n + 12) 8)), (proj2 (Z.ltb_ge (n + 12) 20)) by lia.
      replace (n + 12 - 12) with n by lia. destruct (Z.ltb_spec (n - 8) 24); cbn.
      + by rewrite andb_true_r.
      + by rewrite andb_false_r, Hhi2 by lia. }
  unfold kernel_dev. rewrite HM, Hm, u64_small; [|rewrite Z.shiftl_mul_pow2; lia].
  by apply lor_shiftl_small.
Qed.

Lemma kernel_dev_exact_witness : kernel_dev (makedev 259 5) = 259 * 2 ^ 20 + 5.
Proof. apply (kernel_dev_exact 259 5); lia. Defined.

Section Identity.
Context {O : Os}.

Definition reload (t : MountTable) : ErrorKind + MountTable :=
  match os_mountinfo with
  | inl e => inl e
  | inr text => inr (MountTable_parse text)
  end.

(** The mount with this id, and the table afterwards. *)
Definition mount (t : MountTable) (mnt_id : Z) : option Mount * MountTable :=
  if negb (loaded t) || negb (bool_decide (is_Some (by_id t !! mnt_id))) then
    match reload t with
    | inl _ => (None, t)
    | inr t => (by_id t !! mnt_id, t)
    end
  else (by_id t !! mnt_id, t).

Definition identity (t : MountTable) (path : string)
    : (ErrorKind + FileIdentity) * MountTable :=
  match os_open path with
  | inl e => (inl e, t)
  | inr file =>
      match of_meta file, of_fdinfo file with
      | inl e, _ => (inl e, t)
      | _, inl e => (inl e, t)
      | inr meta, inr fdinfo =>
          match parse_fdinfo_mnt_id fdinfo with
          | None => (inl OtherError, t)
          | Some mnt_id =>
              let '(m, t) := mount t mnt_id in
              (match m with
               | None => inl OtherError
               | Some m => inr (mk_FileIdentity (mt_dev m) (md_ino meta)
                                  (kernel_dev (md_dev meta)) (mt_fstype m) meta)
               end, t)
          end
      end
  end.

(** ** The table is a cache

    While the mounts stay as they are, asking the table is reading /proc. *)

Definition table_ok (t : MountTable) : Prop :=
  loaded t = true -> exists text, os_mountinfo = inr text /\ t = MountTable_parse text.

Definition file_identity (path : string) : ErrorKind + FileIdentity :=
  (identity MountTable_new path).1.

Lemma mount_cached t mnt_id :
  table_ok t ->
  (mount t mnt_id).1 = (mount MountTable_new mnt_id).1 /\ table_ok (mount t mnt_id).2.
Proof.
  intros Ht. unfold mount at 2. cbn [loaded MountTable_new negb orb]. unfold mount, reload.
  destruct (loaded t) eqn:Hl; cbn [negb orb].
  - destruct (Ht Hl) as (text & Htext & ->). rewrite Htext.
    destruct (negb _); cbn; (split; [done|]); intros _; by exists text.
  - destruct os_mountinfo as [e|text] eqn:Htext; cbn; (split; [done|]).
    + intros ?; congruence.
    + intros _. by exists text.
Qed.

Lemma identity_cached t path :
  table_ok t ->
  (identity t path).1 = file_identity path /\ table_ok (identity t path).2.
Proof.
  intros Ht. unfold file_identity, identity. destruct (os_open path) as [|file]; [done|].
  destruct (of_meta file) as [|meta]; [done|]. destruct (of_fdinfo file) as [|text]; [done|].
  destruct (parse_fdinfo_mnt_id text) as [mnt_id|]; [|done].
  destruct (mount_cached t mnt_id Ht) as [H1 H2].
  destruct (mount t mnt_id), (mount MountTable_new mnt_id). cbn in *. by subst.
Qed.

Lemma table_new_ok : table_ok MountTable_new.
Proof. done. Qed.

End Identity.
