(* ===== verification/Levels.v ===== *)
(** * Published cgroup levels ([rk-sensor/src/policy.rs], [resilience.rs])

    The sensor publishes which levels of the cgroup hierarchy hold a binding; the
    governance walk visits only those.  The mask it publishes is enough for the walk to
    find every bound ancestor. *)

From S2P Require Import Prelude Text Abi Bpf Scenario Logic Common Governance.
Open Scope Z_scope.

(** The number of components of a path relative to the cgroup root. *)
Definition path_level (path : string) : Z :=
  Z.of_nat (length (filter (fun seg => seg <> EmptyString) (split "/" path))).

(** Bits 1 to [RK_CGROUP_MAX_DEPTH]. *)
Definition all_levels : Z :=
  Z.land (Z.shiftr (2 ^ 64 - 1) (63 - RK_CGROUP_MAX_DEPTH)) (2 ^ 64 - 1 - 1).

(** [self.bindings]: cgroup id, path and profile id. *)
Abbreviation sensor_bindings := (list (Z * (string * Z))).

Definition add_level (mask : Z) (b : Z * (string * Z)) : Z :=
  let level := path_level b.2.1 in
  if level =? 0 then Z.lor mask all_levels
  else if level <=? RK_CGROUP_MAX_DEPTH then Z.lor mask (Z.shiftl 1 level)
  else mask.

Definition governed_levels (bindings : sensor_bindings) : Z := foldl add_level 0 bindings.

(** A missing configuration counts as a zeroed one. *)
Definition set_governed_levels (levels : Z) (m : policy_maps) : policy_maps :=
  mk_policy_maps (m_cgroup_profile m) (m_profiles m) (m_active_slot m) (m_heartbeat m)
    (Some (mk_rk_config (default 0 (cfg_heartbeat_timeout_ns <$> m_config m)) levels))
    (m_guard m) (m_monitored_cgroups m) (m_net_deny m) (m_net_allow m) (m_exec_allow m)
    (m_file_protect m).

(** ** The mask *)

Lemma all_levels_spec l : Z.testbit all_levels l = true <-> 1 <= l <= RK_CGROUP_MAX_DEPTH.
Proof.
  change all_levels with (2 * Z.ones 16). unfold RK_CGROUP_MAX_DEPTH.
  destruct (Z.ltb_spec l 0); [rewrite Z.testbit_neg_r by done; lia|].
  replace l with (Z.succ (l - 1)) at 1 by lia.
  destruct (decide (l = 0)) as [->|]; [by split; [|lia]|].
  rewrite Z.double_bits_succ, Z.testbit_ones_nonneg, Z.ltb_lt by lia. lia.
Qed.

(** The levels a binding contributes. *)
Definition contributes (b : Z * (string * Z)) (l : Z) : Prop :=
  1 <= l <= RK_CGROUP_MAX_DEPTH /\ (path_level b.2.1 = 0 \/ path_level b.2.1 = l).

Lemma path_level_nonneg path : 0 <= path_level path.
Proof. unfold path_level. lia. Qed.

Lemma add_level_spec mask b l :
  Z.testbit (add_level mask b) l = true <-> Z.testbit mask l = true \/ contributes b l.
Proof.
  unfold add_level, contributes. pose proof (path_level_nonneg b.2.1).
  destruct (Z.eqb_spec (path_level b.2.1) 0) as [H0|H0].
  { rewrite Z.lor_spec, orb_true_iff, all_levels_spec. naive_solver. }
  destruct (Z.leb_spec (path_level b.2.1) RK_CGROUP_MAX_DEPTH); [|naive_solver lia].
  rewrite Z.lor_spec, orb_true_iff, Z.shiftl_1_l, Z.pow2_bits_eqb, Z.eqb_eq by done.
  naive_solver lia.
Qed.

Lemma governed_levels_spec bindings l :
  Z.testbit (governed_levels bindings) l = true <->
  exists b, b ∈ bindings /\ contributes b l.
Proof.
  unfold governed_levels. induction bindings as [|b bindings IH] using rev_ind.
  { cbn. rewrite Z.bits_0. split; [done|]. by intros (? & ?%elem_of_nil & _). }
  rewrite foldl_snoc, add_level_spec, IH. setoid_rewrite elem_of_app.
  setoid_rewrite list_elem_of_singleton. naive_solver.
Qed.

(** The engine's bindings are those of the kernel map, and the recorded path of a bound
    cgroup, where it is known, has as many components as the cgroup's level. *)
Definition bindings_recorded (m : policy_maps) (bindings : sensor_bindings)
    (path : list Z) : Prop :=
  forall level id, path !! level = Some id -> is_Some (m_cgroup_profile m !! id) ->
    exists p prof, (id, (p, prof)) ∈ bindings /\
      (path_level p = 0 \/ path_level p = Z.of_nat level).

Lemma published_levels m bindings path :
  bindings_recorded m bindings path ->
  levels_published (set_governed_levels (governed_levels bindings) m) path.
Proof.
  intros Hrec level id Hl Hid Hb. eexists. split; [done|]. cbn [cfg_governed_levels].
  destruct (Hrec _ _ Hid Hb) as (p & prof & Hin & Hlev).
  apply governed_levels_spec. eexists. split; [done|]. split; [done|]. cbn. lia.
Qed.

(** C24. The mask the sensor publishes makes the walk complete: after publishing, a task
    is governed by the nearest bound cgroup on its path, its own or one of the sixteen
    levels below the root, for any set of bindings - including bindings whose path
    could not be resolved, which cover every level. *)
Theorem published_levels_suffice `{K : BpfKernel} m e t bindings path
    (Hwf : bindings_wf m) (Hpath : cgroup_path e path)
    (Hrec : bindings_recorded m bindings path) :
  let w := mk_world (set_governed_levels (governed_levels bindings) m) e t in
  result rk_governance w =
  (fun '(b, governed) =>
     governance_context m b governed (result rk_heartbeat_stale w)) <$>
  first_bound (m_cgroup_profile m) (governing_order (k_cgroup_id e) path).
Proof.
  intros w. rewrite (governance_nearest w path); [done..|]. by apply published_levels.
Qed.

(** The scenario's binding is [rk.slice/agent]: two levels below the root. *)
Lemma published_levels_suffice_witness :
  result (K:=reference_kernel) rk_governance
    (mk_world (set_governed_levels (governed_levels [(500, ("rk.slice/agent"%string, 3))])
       (ex_maps ex_bindings RK_MODE_ENFORCE 9500000000)) ex_env ex_tele) =
  Some (mk_rk_gov 500 7 (2 ^ 31 + 3) 1 1 3 0).
Proof.
  rewrite (published_levels_suffice (K:=reference_kernel)
    (ex_maps ex_bindings RK_MODE_ENFORCE 9500000000) ex_env ex_tele
    [(500, ("rk.slice/agent"%string, 3))] ex_path).
  - vm_compute. reflexivity.
  - by apply ex_bindings_wf.
  - apply ex_path_ok.
  - intros level id Hl [b Hb]. cbn in Hb. unfold ex_bindings in Hb. apply lookup_singleton_Some in Hb as [<- _].
    exists "rk.slice/agent"%string, 3. split; [by left|]. right.
    unfold ex_path in Hl. by destruct level as [|[|[|[|[|]]]]].
Defined.
