(* ===== verification/Net.v ===== *)
(** * Network egress policy ([rk-bpf/src/net.bpf.c])

    The four [cgroup/sock_addr] programs, the [socket_create] LSM program and the
    three TUN/TAP LSM programs. *)

From S2P Require Import Prelude Abi Bpf Logic Common Governance.
Open Scope Z_scope.

Definition RK_AF_INET : Z := 2.
Definition RK_AF_INET6 : Z := 10.
Definition RK_AF_PACKET : Z := 17.
Definition RK_SOCK_STREAM : Z := 1.
Definition RK_SOCK_DGRAM : Z := 2.
Definition RK_SOCK_TYPE_MASK : Z := 0xf.
Definition RK_IPPROTO_IP : Z := 0.
Definition RK_IPPROTO_TCP : Z := 6.
Definition RK_IPPROTO_UDP : Z := 17.
Definition RK_EPERM : Z := 1.

(** The members of [struct bpf_sock_addr] the programs read. *)
Record bpf_sock_addr : Set := mk_bpf_sock_addr {
  user_ip4 : Z; user_ip6_0 : Z; user_ip6_1 : Z; user_ip6_2 : Z; user_ip6_3 : Z;
  user_port : Z; sa_protocol : Z }.

(** [bpf_ntohs] on a little-endian target. *)
Definition bpf_ntohs (x : Z) : Z :=
  Z.lor (Z.shiftl (Z.land x 0xff) 8) (Z.land (Z.shiftr x 8) 0xff).

Definition rk_proto_bit (protocol : Z) : Z :=
  if protocol =? RK_IPPROTO_TCP then RK_PROTO_TCP
  else if protocol =? RK_IPPROTO_UDP then RK_PROTO_UDP
  else RK_PROTO_OTHER.

(** The loop of [rk_net_match] from index [i]. *)
Fixpoint rk_net_match_loop (n port proto : Z) (i : Z) (ranges : list rk_net_range)
    : option Z :=
  match ranges with
  | [] => None
  | r :: ranges =>
      if n <=? i then None
      else if (nr_proto_mask r ∋ proto) && (nr_port_lo r <=? port) &&
              (port <=? nr_port_hi r)
      then Some (nr_rule_id r)
      else rk_net_match_loop n port proto (i + 1) ranges
  end.

(** [Some rule_id] is the return value 1 with [*rule_id] set. *)
Definition rk_net_match (trie : rk_net_key -> op (option rk_net_rule))
    (key : rk_net_key) (port proto : Z) : prog (option Z) :=
  rule ← call (trie key);
  match rule with
  | None => mret None
  | Some rule =>
      mret (rk_net_match_loop (rule_nranges rule) port proto 0
              (take (Z.to_nat RK_NET_MAX_RANGES) (rule_ranges rule)))
  end.

(** The action and the rule id. *)
Definition rk_net_verdict (g : rk_gov) (addr : list Z) (port proto : Z) : prog (Z * Z) :=
  let key := mk_rk_net_key (32 + 128) (g_scope g) addr in
  deny ← rk_net_match LkNetDeny key port proto;
  match deny with
  | Some rule_id => mret (rk_action_val RK_ACTION_DENY, rule_id)
  | None =>
      allow ← rk_net_match LkNetAllow key port proto;
      match allow with
      | Some rule_id => mret (rk_action_val RK_ACTION_ALLOW, rule_id)
      | None =>
          mret (if g_net_default g =? RK_ACTION_DENY
                then rk_action_val RK_ACTION_DENY else rk_action_val RK_ACTION_ALLOW, 0)
      end
  end.

Definition rk_net_emit (g : rk_gov) (type action rule_id : Z) (addr : list Z)
    (port family protocol : Z) : prog unit :=
  msg ← rk_scratch;
  if negb msg then mret tt
  else
    rk_fill_hdr (g_cgroup_id g) (g_policy_gen g) type (rk_reported_verdict g action)
      (rk_rule g action rule_id);;
    rk_fill_task;;
    call (StMsg (sb_write 0 (replicate 40 0)));;
    call (StMsg (sb_write 16 addr));;
    call (StMsg (sb_store 2 34 port));;
    call (StMsg (sb_store 2 36 family));;
    call (StMsg (sb_store 1 38 (u8 protocol)));;
    call (StMsg (sb_set_payload_len 40));;
    rk_emit.

(** The 16-byte (IPv4-mapped) destination address. *)
Definition sock_addr_bytes (ctx : bpf_sock_addr) (v6 : bool) : list Z :=
  if v6 then
    le_bytes 4 (user_ip6_0 ctx) ++ le_bytes 4 (user_ip6_1 ctx) ++
    le_bytes 4 (user_ip6_2 ctx) ++ le_bytes 4 (user_ip6_3 ctx)
  else replicate 10 0 ++ [0xff; 0xff] ++ le_bytes 4 (user_ip4 ctx).

(** 1 lets the call proceed, 0 denies it with EPERM. *)
Definition rk_net_sock_addr (ctx : bpf_sock_addr) (v6 : bool) (type : rk_event_type)
    : prog Z :=
  gov ← rk_governance;
  match gov with
  | None => mret 1
  | Some g =>
      let port := bpf_ntohs (u16 (user_port ctx)) in
      let protocol := sa_protocol ctx in
      let addr := sock_addr_bytes ctx v6 in
      '(action, rule_id) ← rk_net_verdict g addr port (rk_proto_bit protocol);
      rk_count_decision
        (if rk_event_type_val type =? RK_EV_NET_CONNECT
         then (if v6 then RK_HOOK_CONNECT6 else RK_HOOK_CONNECT4)
         else (if v6 then RK_HOOK_SENDMSG6 else RK_HOOK_SENDMSG4)) g action;;
      rk_net_emit g type action rule_id addr port
        (if v6 then RK_AF_INET6 else RK_AF_INET) protocol;;
      mret (if rk_enforced_deny g action then 0 else 1)
  end.

Definition rk_net_connect4 (ctx : bpf_sock_addr) : prog Z :=
  rk_net_sock_addr ctx false RK_EV_NET_CONNECT.

Definition rk_net_connect6 (ctx : bpf_sock_addr) : prog Z :=
  rk_net_sock_addr ctx true RK_EV_NET_CONNECT.

Definition rk_net_sendmsg4 (ctx : bpf_sock_addr) : prog Z :=
  rk_net_sock_addr ctx false RK_EV_SENDMSG.

Definition rk_net_sendmsg6 (ctx : bpf_sock_addr) : prog Z :=
  rk_net_sock_addr ctx true RK_EV_SENDMSG.

Definition rk_sock_observed (family type protocol : Z) : bool :=
  if family =? RK_AF_PACKET then false
  else if negb (family =? RK_AF_INET) && negb (family =? RK_AF_INET6) then true
  else
    let type := Z.land type RK_SOCK_TYPE_MASK in
    if type =? RK_SOCK_STREAM then
      (protocol =? RK_IPPROTO_IP) || (protocol =? RK_IPPROTO_TCP)
    else if type =? RK_SOCK_DGRAM then
      (protocol =? RK_IPPROTO_IP) || (protocol =? RK_IPPROTO_UDP)
    else false.

(** The profile flag that both [socket_create] and the TUN hooks follow. *)
Definition rk_raw_action (g : rk_gov) : Z :=
  if g_flags g ∋ RK_PROFILE_DENY_RAW_SOCKETS then RK_ACTION_DENY else RK_ACTION_ALLOW.

Definition rk_net_socket_create (family type protocol kern ret : Z) : prog Z :=
  if negb (ret =? 0) then mret ret
  else if negb (kern =? 0) then mret 0
  else if rk_sock_observed family type protocol then mret 0
  else
    gov ← rk_governance;
    match gov with
    | None => mret 0
    | Some g =>
        let action := rk_raw_action g in
        rk_count_decision RK_HOOK_SOCK_CREATE g action;;
        msg ← rk_scratch;
        (if negb msg then mret tt
         else
           rk_fill_hdr (g_cgroup_id g) (g_policy_gen g) RK_EV_SOCK_CREATE
             (rk_reported_verdict g action) (rk_rule g action 0);;
           rk_fill_task;;
           call (StMsg (sb_write 0 (replicate 16 0)));;
           call (StMsg (sb_store 2 0 (u16 family)));;
           call (StMsg (sb_store 4 4 (u32 type)));;
           call (StMsg (sb_store 4 8 (u32 protocol)));;
           call (StMsg (sb_set_payload_len 16));;
           rk_emit);;
        mret (if rk_enforced_deny g action then - RK_EPERM else 0)
    end.

Definition rk_net_tun (op : Z) : prog Z :=
  gov ← rk_governance;
  match gov with
  | None => mret 0
  | Some g =>
      let action := rk_raw_action g in
      rk_count_decision RK_HOOK_TUN g action;;
      msg ← rk_scratch;
      (if negb msg then mret tt
       else
         rk_fill_hdr (g_cgroup_id g) (g_policy_gen g) RK_EV_TUN
           (rk_reported_verdict g action) (rk_rule g action 0);;
         rk_fill_task;;
         call (StMsg (sb_store 4 0 op));;
         call (StMsg (sb_store 4 4 0));;
         call (StMsg (sb_set_payload_len 8));;
         rk_emit);;
      mret (if rk_enforced_deny g action then - RK_EPERM else 0)
  end.

Definition rk_net_tun_create (ret : Z) : prog Z :=
  if negb (ret =? 0) then mret ret else rk_net_tun RK_TUN_CREATE.

Definition rk_net_tun_open (ret : Z) : prog Z :=
  if negb (ret =? 0) then mret ret else rk_net_tun RK_TUN_ATTACH.

Definition rk_net_tun_attach_queue (ret : Z) : prog Z :=
  if negb (ret =? 0) then mret ret else rk_net_tun RK_TUN_ATTACH_QUEUE.

(** ** Decisions of the network programs *)

Definition range_matches (port proto : Z) (r : rk_net_range) : Prop :=
  (nr_proto_mask r ∋ proto) = true /\ nr_port_lo r <= port <= nr_port_hi r.

#[export] Instance range_matches_dec port proto r : Decision (range_matches port proto r).
Proof. unfold range_matches. apply _. Defined.

(** The id of the first live range that covers the port and the protocol. *)
Definition first_range (port proto : Z) (rule : rk_net_rule) : option Z :=
  nr_rule_id <$> head (filter (range_matches port proto)
    (take (Z.to_nat (rule_nranges rule) `min` Z.to_nat RK_NET_MAX_RANGES)
       (rule_ranges rule))).

Lemma net_match_loop_spec n port proto i ranges :
  rk_net_match_loop n port proto i ranges =
  nr_rule_id <$> head (filter (range_matches port proto) (take (Z.to_nat (n - i)) ranges)).
Proof.
  revert i. induction ranges as [|r ranges IH]; intros i; cbn [rk_net_match_loop].
  { by rewrite take_nil. }
  destruct (Z.leb_spec n i).
  { by replace (Z.to_nat (n - i)) with 0%nat by lia. }
  replace (Z.to_nat (n - i)) with (S (Z.to_nat (n - (i + 1)))) by lia.
  cbn [take]. rewrite filter_cons, IH. unfold range_matches at 2.
  destruct (decide _) as [(Hp & Hlo & Hhi)|Hno].
  - rewrite Hp, (proj2 (Z.leb_le _ _) Hlo), (proj2 (Z.leb_le _ _) Hhi). done.
  - destruct (_ && _)%bool eqn:E; [|done]. bool_to_prop. tauto.
Qed.

Section Decision.
Context `{K : BpfKernel}.

(** Denied destinations win over allowed ones; the profile's default decides the
    rest. *)
Definition net_decision (m : policy_maps) (g : rk_gov) (addr : list Z)
    (port proto : Z) : Z * Z :=
  let key := mk_rk_net_key 160 (g_scope g) addr in
  match lpm_lookup (m_net_deny m) key ≫= first_range port proto with
  | Some id => (rk_action_val RK_ACTION_DENY, id)
  | None =>
      match lpm_lookup (m_net_allow m) key ≫= first_range port proto with
      | Some id => (rk_action_val RK_ACTION_ALLOW, id)
      | None => (if g_net_default g =? RK_ACTION_DENY
                 then rk_action_val RK_ACTION_DENY else rk_action_val RK_ACTION_ALLOW, 0)
      end
  end.

Lemma first_range_loop port proto rule :
  rk_net_match_loop (rule_nranges rule) port proto 0
    (take (Z.to_nat RK_NET_MAX_RANGES) (rule_ranges rule)) = first_range port proto rule.
Proof.
  rewrite net_match_loop_spec. unfold first_range. rewrite take_take. do 4 f_equal. lia.
Qed.

Lemma rk_net_verdict_spec g addr port proto w :
  result (rk_net_verdict g addr port proto) w = net_decision (w_maps w) g addr port proto.
Proof.
  unfold rk_net_verdict, rk_net_match, net_decision. sym_exec.
  destruct (lpm_lookup (m_net_deny _) _) as [rd|]; sym_exec; cbn [mbind option_bind];
    rewrite ?first_range_loop; [destruct (first_range port proto rd); [done|]|];
    sym_exec; (destruct (lpm_lookup (m_net_allow _) _) as [ra|]; sym_exec;
      cbn [mbind option_bind]; rewrite ?first_range_loop;
      [destruct (first_range port proto ra); done|done]).
Qed.

#[export] Instance rk_net_verdict_read_only g addr port proto :
  ReadOnly (rk_net_verdict g addr port proto).
Proof. unfold rk_net_verdict, rk_net_match. solve_read_only. Qed.

Lemma sock_addr_result ctx v6 type w :
  result (rk_net_sock_addr ctx v6 type) w =
  match result rk_governance w with
  | None => 1
  | Some g =>
      if rk_enforced_deny g (net_decision (w_maps w) g (sock_addr_bytes ctx v6)
           (bpf_ntohs (u16 (user_port ctx))) (rk_proto_bit (sa_protocol ctx))).1
      then 0 else 1
  end.
Proof.
  unfold rk_net_sock_addr. rewrite result_read_only by apply _.
  destruct (result rk_governance w) as [g|]; [|done].
  rewrite result_read_only by apply _. rewrite rk_net_verdict_spec.
  destruct (net_decision _ _ _ _ _) as [action rule_id].
  by_returns.
Qed.

Lemma socket_create_result family type protocol kern ret w :
  result (rk_net_socket_create family type protocol kern ret) w =
  if negb (ret =? 0) then ret
  else if negb (kern =? 0) || rk_sock_observed family type protocol then 0
  else match result rk_governance w with
       | None => 0
       | Some g => if rk_enforced_deny g (rk_raw_action g) then -1 else 0
       end.
Proof.
  unfold rk_net_socket_create. do 2 (destruct (negb _); [done|]).
  destruct (rk_sock_observed _ _ _); [done|].
  rewrite result_read_only by apply _. cbn [orb].
  destruct (result rk_governance w) as [g|]; [|done].
  by_returns.
Qed.

Lemma tun_result op w :
  result (rk_net_tun op) w =
  match result rk_governance w with
  | None => 0
  | Some g => if rk_enforced_deny g (rk_raw_action g) then -1 else 0
  end.
Proof.
  unfold rk_net_tun. rewrite result_read_only by apply _.
  destruct (result rk_governance w) as [g|]; [|done].
  by_returns.
Qed.

End Decision.

(** ** Properties of the network programs *)

(** Sockets that the connect and send hooks cannot see: packet sockets, and internet
    sockets that are neither TCP streams nor UDP datagrams. *)
Definition raw_socket (family type protocol : Z) : Prop :=
  family = RK_AF_PACKET \/
  (family = RK_AF_INET \/ family = RK_AF_INET6) /\
  ~ (Z.land type RK_SOCK_TYPE_MASK = RK_SOCK_STREAM /\
     (protocol = RK_IPPROTO_IP \/ protocol = RK_IPPROTO_TCP)) /\
  ~ (Z.land type RK_SOCK_TYPE_MASK = RK_SOCK_DGRAM /\
     (protocol = RK_IPPROTO_IP \/ protocol = RK_IPPROTO_UDP)).

Lemma sock_observed_iff family type protocol :
  rk_sock_observed family type protocol = false <-> raw_socket family type protocol.
Proof.
  unfold rk_sock_observed, raw_socket, RK_AF_PACKET, RK_AF_INET, RK_AF_INET6,
    RK_SOCK_STREAM, RK_SOCK_DGRAM, RK_IPPROTO_IP, RK_IPPROTO_TCP, RK_IPPROTO_UDP.
  destruct (Z.eqb_spec family 17) as [->|]; [tauto|].
  destruct (Z.eqb_spec family 2), (Z.eqb_spec family 10); cbn [negb andb];
    try (split; [done|intuition lia]).
  all: destruct (Z.eqb_spec (Z.land type RK_SOCK_TYPE_MASK) 1) as [->|];
    [|destruct (Z.eqb_spec (Z.land type RK_SOCK_TYPE_MASK) 2) as [->|]];
    rewrite ?orb_false_iff, ?Z.eqb_neq; intuition lia.
Qed.

(** Socket creation is refused precisely for what escapes the connect and send
    hooks: a user-space socket of a governed task under an enforcing profile that is
    raw while the profile denies raw sockets, or while the sensor is gone. *)
Lemma socket_create_exact `{K : BpfKernel} family type protocol w :
  result (rk_net_socket_create family type protocol 0 0) w = -1 <->
  raw_socket family type protocol /\
  exists g, result rk_governance w = Some g /\ g_mode g = RK_MODE_ENFORCE /\
    ((g_flags g ∋ RK_PROFILE_DENY_RAW_SOCKETS) = true \/ g_stale g <> 0).
Proof.
  rewrite socket_create_result, <- sock_observed_iff. cbn [Z.eqb negb orb].
  destruct (rk_sock_observed family type protocol); [split; [done|by intros [? _]]|].
  destruct (result rk_governance w) as [g|]; [|split; [done|by intros (_ & ? & ? & _)]].
  rewrite exists_Some_eq, enforced_deny_eq. unfold rk_raw_action.
  destruct (g_flags g ∋ RK_PROFILE_DENY_RAW_SOCKETS); case_bool_decide; naive_solver.
Qed.
