(* ===== verification/Exec.v ===== *)
(** * Execution policy ([rk-bpf/src/exec.bpf.c])

    [rk_exec_check] decides on the identity of the file being executed;
    [rk_exec_record] records the exec after it committed. *)

From S2P Require Import Prelude Abi Bpf Logic Common Governance.
Open Scope Z_scope.

Definition RK_EXEC_EPERM : Z := 1.

Definition rk_exec_key_of (g : rk_gov) (inode : Z) : prog rk_exec_key :=
  sb ← call (CoreRead inode_i_sb inode);
  dev ← call (CoreRead super_block_s_dev sb);
  ino ← call (CoreRead inode_i_ino inode);
  mret (mk_rk_exec_key (g_scope g) 0 dev ino).

(** The action and rule id for a file with key [key] and exec flags [flags]. *)
Definition rk_exec_action (g : rk_gov) (key : rk_exec_key) (flags : Z) : prog (Z * Z) :=
  if (flags ∋ RK_EXEC_UNLINKED) && negb (g_flags g ∋ RK_PROFILE_EXEC_ALLOW_UNLINKED)
  then mret (rk_action_val RK_ACTION_DENY, 0)
  else
    rule ← call (LkExecAllow key);
    match rule with
    | Some rule => mret (rk_action_val RK_ACTION_ALLOW, er_rule_id rule)
    | None =>
        mret (if g_flags g ∋ RK_PROFILE_EXEC_DENY_DEFAULT
              then rk_action_val RK_ACTION_DENY else rk_action_val RK_ACTION_ALLOW, 0)
    end.

Definition rk_exec_check (bprm ret : Z) : prog Z :=
  if negb (ret =? 0) then mret ret
  else
    gov ← rk_governance;
    match gov with
    | None => mret 0
    | Some g =>
        file ← call (CoreRead linux_binprm_file bprm);
        inode ← call (CoreRead file_f_inode file);
        key ← rk_exec_key_of g inode;
        nlink ← call (CoreRead inode_i_nlink inode);
        let flags := if nlink =? 0 then Z.lor RK_EXEC_DECISION RK_EXEC_UNLINKED
                     else RK_EXEC_DECISION in
        '(action, rule_id) ← rk_exec_action g key flags;
        pid_tgid ← call GetPidTgid;
        call (UpdExecDecided (u32 pid_tgid)
                (mk_rk_exec_decision (g_policy_gen g) rule_id 0));;
        rk_count_decision RK_HOOK_EXEC g action;;
        (if negb (rk_effective_deny g action) then mret tt
         else
           msg ← rk_scratch;
           if negb msg then mret tt
           else
             rk_fill_hdr (g_cgroup_id g) (g_policy_gen g) RK_EV_EXEC
               (rk_reported_verdict g action) (rk_rule g action rule_id);;
             rk_fill_task;;
             call (StMsg (sb_store 8 0 (ek_dev key)));;
             call (StMsg (sb_store 8 8 (ek_ino key)));;
             call (StMsg (sb_store 4 16 flags));;
             call (StMsg (sb_store 2 20 1));;
             call (StMsg (sb_store 2 22 0));;
             call (StMsg (sb_set_payload_len 24));;
             filename ← call (CoreRead linux_binprm_filename bprm);
             rk_append_kstr filename 256;;
             rk_emit);;
        mret (if rk_enforced_deny g action then - RK_EXEC_EPERM else 0)
    end.

Definition rk_exec_record (p old_pid bprm : Z) : prog Z :=
  gov ← rk_governance;
  match gov with
  | None => mret 0
  | Some g =>
      msg ← rk_scratch;
      if negb msg then mret 0
      else
        file ← call (CoreRead linux_binprm_file bprm);
        inode ← call (CoreRead file_f_inode file);
        key ← rk_exec_key_of g inode;
        nlink ← call (CoreRead inode_i_nlink inode);
        let flags := if nlink =? 0 then rk_exec_flag_val RK_EXEC_UNLINKED else 0 in
        let tid := u32 old_pid in
        decided ← call (LkExecDecided tid);
        '(policy_gen, rule_id) ←
          match decided with
          | Some d =>
              call (DelExecDecided tid);;
              mret (ed_policy_gen d, ed_rule_id d)
          | None =>
              rule ← call (LkExecAllow key);
              mret (g_policy_gen g, match rule with Some r => er_rule_id r | None => 0 end)
          end;
        rk_fill_hdr (g_cgroup_id g) policy_gen RK_EV_EXEC RK_VERDICT_ALLOW rule_id;;
        rk_fill_task;;
        call (StMsg (sb_store 8 0 (ek_dev key)));;
        call (StMsg (sb_store 8 8 (ek_ino key)));;
        call (StMsg (sb_store 2 20 2));;
        call (StMsg (sb_store 2 22 0));;
        call (StMsg (sb_set_payload_len 24));;
        filename ← call (CoreRead linux_binprm_filename bprm);
        rk_append_kstr filename 256;;
        mm ← call (CoreRead task_struct_mm p);
        arg_start ← call (CoreRead mm_struct_arg_start mm);
        arg_end ← call (CoreRead mm_struct_arg_end mm);
        copied ← rk_append_ublob arg_start
                   (if arg_start <? arg_end then u64 (arg_end - arg_start) else 0);
        let flags :=
          if 0 <? copied then Z.lor flags RK_EXEC_ARGV_TRUNCATED
          else if copied <? 0 then Z.lor flags RK_EXEC_ARGV_UNAVAILABLE
          else flags in
        call (StMsg (sb_store 4 16 flags));;
        rk_emit;;
        mret 0
  end.

(** ** Decisions of the exec program *)

(** The key of a file's rule: the identity the kernel reports for its inode. *)
Definition exec_key (e : kenv) (g : rk_gov) (inode : Z) : rk_exec_key :=
  mk_rk_exec_key (g_scope g) 0
    (k_field e super_block_s_dev (k_field e inode_i_sb inode)) (k_field e inode_i_ino inode).

(** An unlinked file is denied unless the profile allows unlinked files; then a
    listed identity is allowed, and the profile's default decides the rest. *)
Definition exec_decision (m : policy_maps) (g : rk_gov) (key : rk_exec_key)
    (unlinked : bool) : Z * Z :=
  if unlinked && negb (g_flags g ∋ RK_PROFILE_EXEC_ALLOW_UNLINKED)
  then (rk_action_val RK_ACTION_DENY, 0)
  else match m_exec_allow m !! key with
       | Some r => (rk_action_val RK_ACTION_ALLOW, er_rule_id r)
       | None => (if g_flags g ∋ RK_PROFILE_EXEC_DENY_DEFAULT
                  then rk_action_val RK_ACTION_DENY else rk_action_val RK_ACTION_ALLOW, 0)
       end.

(** The inode of the file a [linux_binprm] executes. *)
Definition bprm_inode (e : kenv) (bprm : Z) : Z :=
  k_field e file_f_inode (k_field e linux_binprm_file bprm).

Definition bprm_unlinked (e : kenv) (bprm : Z) : bool :=
  k_field e inode_i_nlink (bprm_inode e bprm) =? 0.

Section Decision.
Context `{K : BpfKernel}.

#[export] Instance rk_exec_key_of_read_only g inode : ReadOnly (rk_exec_key_of g inode).
Proof. unfold rk_exec_key_of. solve_read_only. Qed.

#[export] Instance rk_exec_action_read_only g key flags :
  ReadOnly (rk_exec_action g key flags).
Proof. unfold rk_exec_action. solve_read_only. Qed.

Lemma rk_exec_key_of_result g inode w :
  result (rk_exec_key_of g inode) w = exec_key (w_env w) g inode.
Proof. unfold rk_exec_key_of. by sym_exec. Qed.

Lemma rk_exec_action_result g key (unlinked : bool) w :
  result (rk_exec_action g key
    (if unlinked then Z.lor RK_EXEC_DECISION RK_EXEC_UNLINKED else RK_EXEC_DECISION)) w =
  exec_decision (w_maps w) g key unlinked.
Proof.
  unfold rk_exec_action, exec_decision.
  replace ((if unlinked then _ else _) ∋ RK_EXEC_UNLINKED) with unlinked
    by by destruct unlinked.
  destruct (unlinked && _)%bool; [done|]. sym_exec. by destruct (m_exec_allow _ !! _).
Qed.

Lemma exec_check_result bprm ret w :
  result (rk_exec_check bprm ret) w =
  if negb (ret =? 0) then ret
  else match result rk_governance w with
       | None => 0
       | Some g =>
           if rk_enforced_deny g (exec_decision (w_maps w) g
                (exec_key (w_env w) g (bprm_inode (w_env w) bprm))
                (bprm_unlinked (w_env w) bprm)).1
           then -1 else 0
       end.
Proof.
  unfold rk_exec_check. destruct (negb _); [done|].
  rewrite result_read_only by apply _.
  destruct (result rk_governance w) as [g|]; [|done].
  do 2 (rewrite result_bind, final_call, result_call; cbn [handle fst snd]).
  rewrite result_read_only, rk_exec_key_of_result by apply _.
  rewrite result_bind, final_call, result_call; cbn [handle fst snd].
  rewrite result_read_only by apply _.
  rewrite rk_exec_action_result.
  unfold bprm_unlinked, bprm_inode.
  destruct (exec_decision _ _ _ _) as [action rule_id]. by_returns.
Qed.

Lemma exec_record_result p old_pid bprm w : result (rk_exec_record p old_pid bprm) w = 0.
Proof.
  unfold rk_exec_record. rewrite result_read_only by apply _.
  destruct (result rk_governance w) as [g|]; [|done]. by_returns.
Qed.

End Decision.

(** ** Properties of the exec policy *)

(** The exec check is exact: an exec of a governed task is refused precisely when
    the profile enforces and the sensor is gone, or the file was unlinked and the
    profile does not allow that, or its device and inode are not listed and the
    profile denies by default. *)
Lemma exec_check_exact `{K : BpfKernel} bprm w :
  result (rk_exec_check bprm 0) w = -1 <->
  exists g, result rk_governance w = Some g /\ g_mode g = RK_MODE_ENFORCE /\
    (g_stale g <> 0 \/
     bprm_unlinked (w_env w) bprm = true /\
       (g_flags g ∋ RK_PROFILE_EXEC_ALLOW_UNLINKED) = false \/
     m_exec_allow (w_maps w) !! exec_key (w_env w) g (bprm_inode (w_env w) bprm) = None /\
       (g_flags g ∋ RK_PROFILE_EXEC_DENY_DEFAULT) = true).
Proof.
  rewrite exec_check_result. cbn [Z.eqb negb].
  destruct (result rk_governance w) as [g|]; [|split; [done|by intros (? & ? & _)]].
  rewrite exists_Some_eq, enforced_deny_eq. unfold exec_decision.
  destruct (bprm_unlinked (w_env w) bprm), (g_flags g ∋ RK_PROFILE_EXEC_ALLOW_UNLINKED),
    (m_exec_allow (w_maps w) !! _), (g_flags g ∋ RK_PROFILE_EXEC_DENY_DEFAULT);
    cbn [andb negb fst]; case_bool_decide; naive_solver.
Qed.
