(* ===== verification/File.v ===== *)
(** * File access policy ([rk-bpf/src/file.bpf.c])

    The protected-object check with its bounded ancestor walk, and the LSM
    programs for open, unlink, rmdir, rename, link, create, mkdir, symlink, mknod
    and setattr. *)

From S2P Require Import Prelude Abi Bpf Logic Common Governance.
Open Scope Z_scope.

Definition RK_FILE_EPERM : Z := 1.
Definition RK_ATTR_SIZE : Z := 8.
Definition RK_O_TRUNC : Z := 512.
Definition RK_FMODE_READ : Z := 0x1.
Definition RK_FMODE_WRITE : Z := 0x2.
Definition RK_FMODE_EXEC : Z := 0x20.

Definition rk_file_key_of (g : rk_gov) (inode : Z) : prog rk_file_key :=
  sb ← call (CoreRead inode_i_sb inode);
  dev ← call (CoreRead super_block_s_dev sb);
  ino ← call (CoreRead inode_i_ino inode);
  mret (mk_rk_file_key (g_scope g) 0 dev ino).

(** How the ancestor walk of [rk_file_check] ends: [hit_root] set, a subtree rule
    found ([goto decided]), or the loop bound reached. *)
Inductive walk_end : Set :=
| walk_root
| walk_match (rule : rk_file_rule)
| walk_exhausted.

Fixpoint rk_file_walk (g : rk_gov) (access : Z) (n : nat) (curr : Z) : prog walk_end :=
  match n with
  | O => mret walk_exhausted
  | S n =>
      parent ← call (CoreRead dentry_d_parent curr);
      if (parent =? 0) || (parent =? curr) then mret walk_root
      else
        p_inode ← call (CoreRead dentry_d_inode parent);
        if p_inode =? 0 then mret walk_root
        else
          p_key ← rk_file_key_of g p_inode;
          p_rule ← call (LkFileProtect p_key);
          match p_rule with
          | Some r =>
              if (fr_flags r ∋ RK_FILE_SUBTREE) && (fr_deny_mask r ∋ access)
              then mret (walk_match r)
              else rk_file_walk g access n parent
          | None => rk_file_walk g access n parent
          end
  end.

(** The decision of [rk_file_check] up to the label [decided]: action, rule id
    and event flags. *)
Definition rk_file_decide (g : rk_gov) (key : rk_file_key) (start_dentry access : Z)
    : prog (Z * Z * Z) :=
  rule ← call (LkFileProtect key);
  let walk :=
    if start_dentry =? 0 then mret (rk_action_val RK_ACTION_ALLOW, 0, 0)
    else
      e ← rk_file_walk g access RK_FILE_MAX_DEPTH start_dentry;
      mret match e with
           | walk_root => (rk_action_val RK_ACTION_ALLOW, 0, 0)
           | walk_match r =>
               (rk_action_val RK_ACTION_DENY, fr_rule_id r,
                rk_file_event_flag_val RK_FILE_EV_SUBTREE)
           | walk_exhausted =>
               (rk_action_val RK_ACTION_DENY, 0,
                rk_file_event_flag_val RK_FILE_EV_DEPTH_EXCEEDED)
           end in
  match rule with
  | Some r =>
      if fr_deny_mask r ∋ access then
        mret (rk_action_val RK_ACTION_DENY, fr_rule_id r,
              if fr_flags r ∋ RK_FILE_SUBTREE
              then rk_file_event_flag_val RK_FILE_EV_SUBTREE else 0)
      else walk
  | None => walk
  end.

Definition rk_file_emit (g : rk_gov) (key : rk_file_key)
    (name_dentry access hook action rule_id event_flags : Z) : prog unit :=
  if negb (rk_effective_deny g action) then mret tt
  else
    msg ← rk_scratch;
    if negb msg then mret tt
    else
      rk_fill_hdr (g_cgroup_id g) (g_policy_gen g) RK_EV_FILE_DENY
        (rk_reported_verdict g action) (rk_rule g action rule_id);;
      rk_fill_task;;
      call (StMsg (sb_write 0 (replicate 32 0)));;
      call (StMsg (sb_store 8 0 (fk_dev key)));;
      call (StMsg (sb_store 8 8 (fk_ino key)));;
      call (StMsg (sb_store 4 16 access));;
      call (StMsg (sb_store 2 20 hook));;
      call (StMsg (sb_store 1 22 event_flags));;
      call (StMsg (sb_store 2 24 1));;
      call (StMsg (sb_set_payload_len 32));;
      (if negb (name_dentry =? 0) then
         name ← call (CoreRead dentry_d_name_name name_dentry);
         rk_append_kstr name 256
       else
         name ← call AddrEmptyLiteral;
         rk_append_kstr name 1);;
      rk_emit.

Definition rk_file_check (g : rk_gov)
    (inode start_dentry name_dentry access hook : Z) : prog Z :=
  key ← rk_file_key_of g inode;
  '(action, rule_id, event_flags) ← rk_file_decide g key start_dentry access;
  rk_count_decision RK_HOOK_FILE g action;;
  rk_file_emit g key name_dentry access hook action rule_id event_flags;;
  mret (if rk_enforced_deny g action then - RK_FILE_EPERM else 0).

(** The guard every file program starts with: an earlier denial is passed on, an
    ungoverned task is let through. *)
Definition rk_file_guarded (ret : Z) (body : rk_gov -> prog Z) : prog Z :=
  if negb (ret =? 0) then mret ret
  else
    gov ← rk_governance;
    match gov with
    | None => mret 0
    | Some g => body g
    end.

(** The access bits of an open. *)
Definition rk_open_access (f_mode f_flags : Z) : Z :=
  let access := 0 in
  let access := if f_mode ∋ RK_FMODE_READ then Z.lor access RK_FILE_READ else access in
  let access := if f_mode ∋ RK_FMODE_WRITE then Z.lor access RK_FILE_WRITE else access in
  let access := if f_mode ∋ RK_FMODE_EXEC then Z.lor access RK_FILE_EXEC else access in
  if f_flags ∋ RK_O_TRUNC then Z.lor access RK_FILE_TRUNCATE else access.

Definition rk_file_open (file ret : Z) : prog Z :=
  rk_file_guarded ret (fun g =>
    inode ← call (CoreRead file_f_inode file);
    if inode =? 0 then mret 0
    else
      dentry ← call (CoreRead file_f_path_dentry file);
      f_mode ← call (CoreRead file_f_mode file);
      f_flags ← call (CoreRead file_f_flags file);
      let access := rk_open_access f_mode f_flags in
      if access =? 0 then mret 0
      else rk_file_check g inode dentry dentry access RK_FILE_HOOK_OPEN).

Definition rk_file_unlink (dir dentry ret : Z) : prog Z :=
  rk_file_guarded ret (fun g =>
    inode ← call (CoreRead dentry_d_inode dentry);
    if inode =? 0 then mret 0
    else rk_file_check g inode dentry dentry RK_FILE_DELETE RK_FILE_HOOK_UNLINK).

Definition rk_file_rmdir (dir dentry ret : Z) : prog Z :=
  rk_file_guarded ret (fun g =>
    inode ← call (CoreRead dentry_d_inode dentry);
    if inode =? 0 then mret 0
    else rk_file_check g inode dentry dentry RK_FILE_DELETE RK_FILE_HOOK_UNLINK).

Definition rk_dir_create_check (g : rk_gov) (dir dentry hook : Z) : prog Z :=
  if dir =? 0 then mret 0
  else
    dir_dentry ← (if negb (dentry =? 0) then call (CoreRead dentry_d_parent dentry)
                  else mret 0);
    rk_file_check g dir dir_dentry dentry RK_FILE_CREATE hook.

Definition rk_file_rename (old_dir old_dentry new_dir new_dentry ret : Z) : prog Z :=
  rk_file_guarded ret (fun g =>
    old_inode ← call (CoreRead dentry_d_inode old_dentry);
    err ← (if old_inode =? 0 then mret 0
           else rk_file_check g old_inode old_dentry old_dentry RK_FILE_RENAME
                  RK_FILE_HOOK_RENAME);
    if negb (err =? 0) then mret err
    else
      new_inode ← call (CoreRead dentry_d_inode new_dentry);
      err ← (if new_inode =? 0 then mret 0
             else rk_file_check g new_inode new_dentry new_dentry
                    (Z.lor RK_FILE_DELETE RK_FILE_RENAME) RK_FILE_HOOK_RENAME);
      if negb (err =? 0) then mret err
      else rk_dir_create_check g new_dir new_dentry RK_FILE_HOOK_RENAME).

Definition rk_file_link (old_dentry dir new_dentry ret : Z) : prog Z :=
  rk_file_guarded ret (fun g =>
    inode ← call (CoreRead dentry_d_inode old_dentry);
    err ← (if inode =? 0 then mret 0
           else rk_file_check g inode old_dentry old_dentry RK_FILE_LINK
                  RK_FILE_HOOK_LINK);
    if negb (err =? 0) then mret err
    else rk_dir_create_check g dir new_dentry RK_FILE_HOOK_LINK).

Definition rk_create_check (dir dentry ret : Z) : prog Z :=
  rk_file_guarded ret (fun g => rk_dir_create_check g dir dentry RK_FILE_HOOK_CREATE).

Definition rk_file_create (dir dentry mode ret : Z) : prog Z :=
  rk_create_check dir dentry ret.

Definition rk_file_mkdir (dir dentry mode ret : Z) : prog Z :=
  rk_create_check dir dentry ret.

Definition rk_file_symlink (dir dentry old_name ret : Z) : prog Z :=
  rk_create_check dir dentry ret.

Definition rk_file_mknod (dir dentry mode dev ret : Z) : prog Z :=
  rk_create_check dir dentry ret.

(** The access bits of a setattr. *)
Definition rk_setattr_access (ia_valid : Z) : Z :=
  let access := 0 in
  let access := if ia_valid ∋ RK_ATTR_SIZE then Z.lor access RK_FILE_TRUNCATE
                else access in
  if negb (ia_valid ∋ RK_ATTR_SIZE) || (ia_valid ∋ 0x187)
  then Z.lor access RK_FILE_SETATTR else access.

Definition rk_setattr_check (g : rk_gov) (dentry attr : Z) : prog Z :=
  inode ← call (CoreRead dentry_d_inode dentry);
  if inode =? 0 then mret 0
  else
    ia_valid ← call (CoreRead iattr_ia_valid attr);
    rk_file_check g inode dentry dentry (rk_setattr_access ia_valid)
      RK_FILE_HOOK_SETATTR.

Definition rk_file_setattr_v1 (dentry attr ret : Z) : prog Z :=
  rk_file_guarded ret (fun g => rk_setattr_check g dentry attr).

Definition rk_file_setattr_v2 (idmap dentry attr ret : Z) : prog Z :=
  rk_file_guarded ret (fun g => rk_setattr_check g dentry attr).

(** ** Decisions of the file programs *)

Definition file_key (e : kenv) (g : rk_gov) (inode : Z) : rk_file_key :=
  mk_rk_file_key (g_scope g) 0
    (k_field e super_block_s_dev (k_field e inode_i_sb inode)) (k_field e inode_i_ino inode).

(** The directory above a dentry: none at a root or where the dentry has no inode. *)
Definition parent_dentry (e : kenv) (d : Z) : option Z :=
  let p := k_field e dentry_d_parent d in
  if (p =? 0) || (p =? d) || (k_field e dentry_d_inode p =? 0) then None else Some p.

(** [ancestor e k d a]: [a] is [k] levels above [d]. *)
Inductive ancestor (e : kenv) : nat -> Z -> Z -> Prop :=
| ancestor_parent d p : parent_dentry e d = Some p -> ancestor e 1 d p
| ancestor_up k d p a :
    parent_dentry e d = Some p -> ancestor e k p a -> ancestor e (S k) d a.

(** The first [n] directories above [d], nearest first. *)
Fixpoint ancestors (e : kenv) (n : nat) (d : Z) : list Z :=
  match n with
  | O => []
  | S n => match parent_dentry e d with
           | None => []
           | Some p => p :: ancestors e n p
           end
  end.

(** The rule that denies [access] on the object itself. *)
Definition denying_rule (m : policy_maps) (key : rk_file_key) (access : Z)
    : option rk_file_rule :=
  r ← m_file_protect m !! key;
  if fr_deny_mask r ∋ access then Some r else None.

(** The subtree rule of directory [d] that denies [access] below it. *)
Definition subtree_rule (m : policy_maps) (e : kenv) (g : rk_gov) (access d : Z)
    : option rk_file_rule :=
  r ← m_file_protect m !! file_key e g (k_field e dentry_d_inode d);
  if (fr_flags r ∋ RK_FILE_SUBTREE) && (fr_deny_mask r ∋ access) then Some r else None.

(** The object's own rule, the nearest subtree rule above it, and a denial when the
    walk ran out of levels. *)
Definition file_decision (m : policy_maps) (e : kenv) (g : rk_gov)
    (inode start_dentry access : Z) : Z * Z * Z :=
  match denying_rule m (file_key e g inode) access with
  | Some r => (rk_action_val RK_ACTION_DENY, fr_rule_id r,
               if fr_flags r ∋ RK_FILE_SUBTREE
               then rk_file_event_flag_val RK_FILE_EV_SUBTREE else 0)
  | None =>
      let above := if start_dentry =? 0 then []
                   else ancestors e RK_FILE_MAX_DEPTH start_dentry in
      match head (omap (subtree_rule m e g access) above) with
      | Some r => (rk_action_val RK_ACTION_DENY, fr_rule_id r,
                   rk_file_event_flag_val RK_FILE_EV_SUBTREE)
      | None => if (length above <? RK_FILE_MAX_DEPTH)%nat
                then (rk_action_val RK_ACTION_ALLOW, 0, 0)
                else (rk_action_val RK_ACTION_DENY, 0,
                      rk_file_event_flag_val RK_FILE_EV_DEPTH_EXCEEDED)
      end
  end.

Section Decision.
Context `{K : BpfKernel}.

#[export] Instance rk_file_key_of_read_only g inode : ReadOnly (rk_file_key_of g inode).
Proof. unfold rk_file_key_of. solve_read_only. Qed.

#[export] Instance rk_file_walk_read_only g access n d :
  ReadOnly (rk_file_walk g access n d).
Proof. revert d. induction n; intros d; cbn [rk_file_walk]; solve_read_only. Qed.

#[export] Instance rk_file_decide_read_only g key start access :
  ReadOnly (rk_file_decide g key start access).
Proof. unfold rk_file_decide. solve_read_only. Qed.

Lemma rk_file_key_of_result g inode w :
  result (rk_file_key_of g inode) w = file_key (w_env w) g inode.
Proof. unfold rk_file_key_of. by sym_exec. Qed.

(** The loop: the nearest subtree rule, the root, or all levels used up. *)
Lemma file_walk_spec g access n d w :
  result (rk_file_walk g access n d) w =
  match head (omap (subtree_rule (w_maps w) (w_env w) g access)
                (ancestors (w_env w) n d)) with
  | Some r => walk_match r
  | None => if (length (ancestors (w_env w) n d) <? n)%nat then walk_root
            else walk_exhausted
  end.
Proof.
  revert d. induction n as [|n IH]; intros d; [done|].
  cbn [rk_file_walk ancestors]. unfold parent_dentry.
  rewrite result_bind, final_call, result_call; cbn [handle fst snd].
  destruct (_ || _)%bool; [done|].
  rewrite result_bind, final_call, result_call; cbn [handle fst snd orb].
  destruct (k_field (w_env w) dentry_d_inode _ =? 0); [done|].
  rewrite result_read_only, rk_file_key_of_result by apply _.
  rewrite result_bind, final_call, result_call; cbn [handle fst snd].
  cbn [omap list_omap length]. unfold subtree_rule at 1.
  set (p := k_field (w_env w) dentry_d_parent d).
  change (S (length (ancestors (w_env w) n p)) <? S n)%nat
    with (length (ancestors (w_env w) n p) <? n)%nat.
  destruct (m_file_protect _ !! _) as [r|]; cbn [mbind option_bind]; [|apply IH].
  destruct (_ && _)%bool; [done|apply IH].
Qed.

Lemma file_decide_spec g inode start access w :
  result (rk_file_decide g (file_key (w_env w) g inode) start access) w =
  file_decision (w_maps w) (w_env w) g inode start access.
Proof.
  unfold rk_file_decide, file_decision, denying_rule.
  rewrite result_bind, final_call, result_call; cbn [handle fst snd].
  set (walk := if start =? 0 then _ else _). set (above := if start =? 0 then _ else _).
  assert (result walk w =
    match head (omap (subtree_rule (w_maps w) (w_env w) g access) above) with
    | Some r => (rk_action_val RK_ACTION_DENY, fr_rule_id r,
                 rk_file_event_flag_val RK_FILE_EV_SUBTREE)
    | None => if (length above <? RK_FILE_MAX_DEPTH)%nat
              then (rk_action_val RK_ACTION_ALLOW, 0, 0)
              else (rk_action_val RK_ACTION_DENY, 0,
                    rk_file_event_flag_val RK_FILE_EV_DEPTH_EXCEEDED)
    end) as Hwalk.
  { subst walk above. destruct (start =? 0); [done|].
    rewrite result_read_only, file_walk_spec, result_ret by apply _.
    destruct (head _); [done|]. by destruct (_ <? _)%nat. }
  destruct (m_file_protect _ !! _) as [r|]; cbn [mbind option_bind]; [|done].
  by destruct (fr_deny_mask r ∋ access).
Qed.

Lemma file_check_result g inode start name access hook w :
  result (rk_file_check g inode start name access hook) w =
  if rk_enforced_deny g (file_decision (w_maps w) (w_env w) g inode start access).1.1
  then -1 else 0.
Proof.
  unfold rk_file_check. rewrite result_read_only, rk_file_key_of_result by apply _.
  rewrite result_read_only, file_decide_spec by apply _.
  destruct (file_decision _ _ _ _ _ _) as [[action rule_id] flags]. by_returns.
Qed.

#[export] Instance rk_file_check_verdict g inode start name access hook :
  Verdict (rk_file_check g inode start name access hook).
Proof. intros w1 w2 [Hm He]. by rewrite !file_check_result, Hm, He. Qed.

Lemma file_guarded_result ret body w :
  result (rk_file_guarded ret body) w =
  if negb (ret =? 0) then ret
  else match result rk_governance w with None => 0 | Some g => result (body g) w end.
Proof.
  unfold rk_file_guarded. destruct (negb _); [done|].
  rewrite result_read_only by apply _. by destruct (result rk_governance w).
Qed.

End Decision.

(** ** The walk, declaratively *)

Lemma elem_of_ancestors e n d a :
  a ∈ ancestors e n d <-> exists k, (1 <= k <= n)%nat /\ ancestor e k d a.
Proof.
  revert d. induction n as [|n IH]; intros d; cbn [ancestors].
  { split; [set_solver|]. intros (k & ? & _). lia. }
  destruct (parent_dentry e d) as [p|] eqn:Hp.
  - rewrite elem_of_cons, IH. split.
    + intros [->|(k & Hk & Ha)].
      * exists 1%nat. split; [lia|by constructor].
      * exists (S k). split; [lia|by econstructor].
    + intros (k & Hk & Ha). inversion Ha as [|k' ? ? ? Hp' Ha']; simplify_eq; [by left|].
      right. exists k'. split; [|done].
      assert (k' <> 0)%nat by (intros ->; inversion Ha'). lia.
  - split; [set_solver|]. intros (k & _ & Ha). inversion Ha; congruence.
Qed.

Lemma length_ancestors_full e n d :
  (1 <= n)%nat ->
  length (ancestors e n d) = n <-> exists a, ancestor e n d a.
Proof.
  revert d. induction n as [|n IH]; intros d Hn; [lia|]. cbn [ancestors].
  destruct (parent_dentry e d) as [p|] eqn:Hp; cbn [length].
  - destruct (decide (n = 0%nat)) as [->|Hn0].
    + split; [|done]. intros _. exists p. by constructor.
    + split.
      * intros [= Hlen]. apply IH in Hlen as [a Ha]; [|lia]. exists a. by econstructor.
      * intros [a Ha]. f_equal. apply IH; [lia|]. inversion Ha; simplify_eq; eauto.
  - split; [done|]. intros [a Ha]. inversion Ha; congruence.
Qed.

Lemma length_ancestors_le e n d : (length (ancestors e n d) <= n)%nat.
Proof.
  revert d. induction n as [|n IH]; intros d; cbn; [lia|].
  destruct (parent_dentry e d); cbn; [specialize (IH z)|]; lia.
Qed.

Lemma head_omap_is_Some {A B} (f : A -> option B) (l : list A) :
  is_Some (head (omap f l)) <-> exists a, a ∈ l /\ is_Some (f a).
Proof.
  induction l as [|a l IH]; cbn; [split; [by intros []|set_solver]|].
  destruct (f a) as [b|] eqn:Hf; cbn.
  - split; [|done]. intros _. exists a. rewrite Hf. set_solver.
  - rewrite IH. split; [set_solver|].
    intros (a' & [->|?]%elem_of_cons & Hs); [|by exists a'].
    rewrite Hf in Hs. by destruct Hs.
Qed.

(** When an access is denied by the rules. *)
Definition protected (m : policy_maps) (e : kenv) (g : rk_gov)
    (inode start_dentry access : Z) : Prop :=
  is_Some (denying_rule m (file_key e g inode) access) \/
  start_dentry <> 0 /\
  ((exists k a, (1 <= k <= RK_FILE_MAX_DEPTH)%nat /\ ancestor e k start_dentry a /\
      is_Some (subtree_rule m e g access a)) \/
   (exists a, ancestor e RK_FILE_MAX_DEPTH start_dentry a)).

Lemma file_decision_denies m e g inode start access :
  (file_decision m e g inode start access).1.1 = RK_ACTION_DENY <->
  protected m e g inode start access.
Proof.
  unfold file_decision, protected.
  destruct (denying_rule _ _ _) as [r|]; [split; [by left|done]|].
  destruct (Z.eqb_spec start 0) as [->|Hs].
  { cbn. split; [done|]. intros [[? ?]|[? ?]]; done. }
  set (above := ancestors e RK_FILE_MAX_DEPTH start).
  assert (is_Some (head (omap (subtree_rule m e g access) above)) <->
    exists k a, (1 <= k <= RK_FILE_MAX_DEPTH)%nat /\ ancestor e k start a /\
      is_Some (subtree_rule m e g access a)) as <-.
  { rewrite head_omap_is_Some. subst above. setoid_rewrite elem_of_ancestors.
    naive_solver. }
  rewrite <- (length_ancestors_full e RK_FILE_MAX_DEPTH start) by (unfold RK_FILE_MAX_DEPTH; lia).
  pose proof (length_ancestors_le e RK_FILE_MAX_DEPTH start) as Hle.
  fold above in Hle |- *. clearbody above.
  destruct (head _) as [r|]; cbn [fst]; [naive_solver|].
  destruct (Nat.ltb_spec (length above) RK_FILE_MAX_DEPTH) as [Hlt|Hge]; cbn [fst].
  - split; [done|]. intros [[? ?]|[_ [[? ?]|?]]]; try done. lia.
  - split; [|done]. intros _. right. split; [done|]. right. lia.
Qed.

(** ** Properties of the file policy *)

(** C26. The file check is exact: it refuses precisely when the profile enforces and
    the sensor is gone, or a rule on the object denies the access, or a subtree rule
    on one of the 32 directories above it does, or there are 32 directories above it
    and the walk cannot tell. *)
Theorem file_check_exact `{K : BpfKernel} g inode start name access hook w :
  (result (rk_file_check g inode start name access hook) w = -1 <->
   g_mode g = RK_MODE_ENFORCE /\
   (g_stale g <> 0 \/ protected (w_maps w) (w_env w) g inode start access)) /\
  (result (rk_file_check g inode start name access hook) w <> -1 ->
   result (rk_file_check g inode start name access hook) w = 0).
Proof.
  rewrite file_check_result, enforced_deny_eq.
  rewrite <- (file_decision_denies (w_maps w) (w_env w) g inode start access).
  case_bool_decide; split; try done; split; [tauto|done|done|tauto].
Qed.

(** The access an open or a setattr asks for is computed exactly: an open asks for
    read, write, execute and truncate by the file's mode and flags; a setattr always
    asks for something, for truncation precisely when the size is set, and for
    attribute changes precisely when anything but the size (and its times) is. *)
Lemma access_masks_exact f_mode f_flags ia_valid :
  (rk_open_access f_mode f_flags ∋ RK_FILE_READ) = (f_mode ∋ RK_FMODE_READ) /\
  (rk_open_access f_mode f_flags ∋ RK_FILE_WRITE) = (f_mode ∋ RK_FMODE_WRITE) /\
  (rk_open_access f_mode f_flags ∋ RK_FILE_EXEC) = (f_mode ∋ RK_FMODE_EXEC) /\
  (rk_open_access f_mode f_flags ∋ RK_FILE_TRUNCATE) = (f_flags ∋ RK_O_TRUNC) /\
  rk_setattr_access ia_valid <> 0 /\
  (rk_setattr_access ia_valid ∋ RK_FILE_TRUNCATE) = (ia_valid ∋ RK_ATTR_SIZE) /\
  (rk_setattr_access ia_valid ∋ RK_FILE_SETATTR) =
    (negb (ia_valid ∋ RK_ATTR_SIZE) || (ia_valid ∋ 0x187))%bool.
Proof.
  unfold rk_open_access, rk_setattr_access.
  destruct (f_mode ∋ RK_FMODE_READ), (f_mode ∋ RK_FMODE_WRITE), (f_mode ∋ RK_FMODE_EXEC),
    (f_flags ∋ RK_O_TRUNC), (ia_valid ∋ RK_ATTR_SIZE), (ia_valid ∋ 0x187);
    by split_and!.
Qed.
