(* ===== verification/Guard.v ===== *)
(** * Self-protection ([rk-bpf/src/guard.bpf.c])

    Governed tasks may not use bpf(), signal or trace the sensor, or remove pins
    from bpffs. *)

From S2P Require Import Prelude Abi Bpf Logic Common Governance.
Open Scope Z_scope.

Definition RK_GUARD_EPERM : Z := 1.
Definition RK_BPF_FS_MAGIC : Z := 0xcafe4a11.

Definition rk_is_sensor (task : Z) : prog bool :=
  sensor ← call LkGuard;
  match sensor with
  | None => mret false
  | Some s =>
      if gt_tgid s =? 0 then mret false
      else
        tgid ← call (CoreRead task_struct_tgid task);
        if negb (u32 tgid =? gt_tgid s) then mret false
        else
          leader ← call (CoreRead task_struct_group_leader task);
          start ← call (CoreRead task_struct_start_boottime leader);
          mret (start / RK_NSEC_PER_CLOCK_TICK =? gt_start_ticks s)
  end.

Definition rk_guard_decide (g : rk_gov) (hook target_tgid detail : Z) : prog Z :=
  msg ← rk_scratch;
  rk_count_decision RK_HOOK_GUARD g RK_ACTION_DENY;;
  (if negb msg then mret tt
   else
     rk_fill_hdr (g_cgroup_id g) (g_policy_gen g) RK_EV_TAMPER
       (rk_reported_verdict g RK_ACTION_DENY) 0;;
     rk_fill_task;;
     call (StMsg (sb_write 0 (replicate 16 0)));;
     call (StMsg (sb_store 2 0 hook));;
     call (StMsg (sb_store 4 4 target_tgid));;
     call (StMsg (sb_store 8 8 detail));;
     call (StMsg (sb_set_payload_len 16));;
     rk_emit);;
  mret (if rk_enforced_deny g RK_ACTION_DENY then - RK_GUARD_EPERM else 0).

Definition rk_is_bpffs (sb : Z) : prog bool :=
  magic ← call (CoreRead super_block_s_magic sb);
  mret (magic =? RK_BPF_FS_MAGIC).

(** [if (!test || !rk_governance(&g)) return 0;] followed by the decision. *)
Definition rk_guard_when (test : prog bool) (body : rk_gov -> prog Z) : prog Z :=
  b ← test;
  if negb b then mret 0
  else
    gov ← rk_governance;
    match gov with
    | None => mret 0
    | Some g => body g
    end.

Definition rk_guard_bpf (cmd : Z) : prog Z :=
  rk_guard_when (mret true) (fun g => rk_guard_decide g RK_TAMPER_BPF 0 (u64 cmd)).

Definition rk_guard_task_kill (p info sig cred ret : Z) : prog Z :=
  if negb (ret =? 0) then mret ret
  else rk_guard_when (rk_is_sensor p) (fun g =>
    tgid ← call (CoreRead task_struct_tgid p);
    rk_guard_decide g RK_TAMPER_SIGNAL (u32 tgid) (u64 sig)).

Definition rk_guard_ptrace (child mode ret : Z) : prog Z :=
  if negb (ret =? 0) then mret ret
  else rk_guard_when (rk_is_sensor child) (fun g =>
    tgid ← call (CoreRead task_struct_tgid child);
    rk_guard_decide g RK_TAMPER_PTRACE (u32 tgid) (u64 mode)).

Definition rk_guard_pin_unlink (dir dentry ret : Z) : prog Z :=
  if negb (ret =? 0) then mret ret
  else rk_guard_when (sb ← call (CoreRead inode_i_sb dir); rk_is_bpffs sb) (fun g =>
    rk_guard_decide g RK_TAMPER_PIN_UNLINK 0 0).

Definition rk_guard_pin_rename (old_dir old_dentry new_dir new_dentry ret : Z) : prog Z :=
  if negb (ret =? 0) then mret ret
  else rk_guard_when
    (sb ← call (CoreRead inode_i_sb old_dir);
     old ← rk_is_bpffs sb;
     if (old : bool) then mret true
     else
       sb ← call (CoreRead inode_i_sb new_dir);
       rk_is_bpffs sb)
    (fun g => rk_guard_decide g RK_TAMPER_PIN_RENAME 0 0).

Definition rk_guard_pin_rmdir (dir dentry ret : Z) : prog Z :=
  if negb (ret =? 0) then mret ret
  else rk_guard_when (sb ← call (CoreRead inode_i_sb dir); rk_is_bpffs sb) (fun g =>
    rk_guard_decide g RK_TAMPER_PIN_RMDIR 0 0).

Definition rk_guard_umount (mnt flags ret : Z) : prog Z :=
  if negb (ret =? 0) then mret ret
  else rk_guard_when (sb ← call (CoreRead vfsmount_mnt_sb mnt); rk_is_bpffs sb) (fun g =>
    rk_guard_decide g RK_TAMPER_UMOUNT 0 (u64 flags)).

(** ** Decisions of the guard programs *)

(** The task is the sensor: same thread group, started on the same clock tick.
    A recycled pid differs in its start time. *)
Definition is_sensor (m : policy_maps) (e : kenv) (task : Z) : Prop :=
  exists s, m_guard m = Some s /\ gt_tgid s <> 0 /\
    u32 (k_field e task_struct_tgid task) = gt_tgid s /\
    k_field e task_struct_start_boottime (k_field e task_struct_group_leader task) /
      RK_NSEC_PER_CLOCK_TICK = gt_start_ticks s.

#[export] Instance is_sensor_dec m e task : Decision (is_sensor m e task).
Proof.
  unfold is_sensor. destruct (m_guard m) as [s|]; [|right; naive_solver].
  refine (cast_if (decide (gt_tgid s <> 0 /\
    u32 (k_field e task_struct_tgid task) = gt_tgid s /\
    k_field e task_struct_start_boottime (k_field e task_struct_group_leader task) /
      RK_NSEC_PER_CLOCK_TICK = gt_start_ticks s))); naive_solver.
Defined.

Definition on_bpffs (e : kenv) (sb : Z) : bool :=
  k_field e super_block_s_magic sb =? RK_BPF_FS_MAGIC.

Section Decision.
Context `{K : BpfKernel}.

#[export] Instance rk_is_sensor_read_only task : ReadOnly (rk_is_sensor task).
Proof. unfold rk_is_sensor. solve_read_only. Qed.

#[export] Instance rk_is_bpffs_read_only sb : ReadOnly (rk_is_bpffs sb).
Proof. unfold rk_is_bpffs. solve_read_only. Qed.

Lemma is_sensor_spec w task :
  result (rk_is_sensor task) w = bool_decide (is_sensor (w_maps w) (w_env w) task).
Proof.
  apply eq_bool_prop_intro. rewrite bool_decide_spec, Is_true_true. unfold rk_is_sensor, is_sensor. sym_exec.
  destruct (m_guard (w_maps w)) as [s|]; [|naive_solver].
  destruct (Z.eqb_spec (gt_tgid s) 0); [naive_solver|]. sym_exec.
  destruct (Z.eqb_spec (u32 (k_field (w_env w) task_struct_tgid task)) (gt_tgid s));
    cbn [negb]; sym_exec; [|naive_solver].
  rewrite Z.eqb_eq. naive_solver.
Qed.

Lemma is_bpffs_spec w sb : result (rk_is_bpffs sb) w = on_bpffs (w_env w) sb.
Proof. unfold rk_is_bpffs. by sym_exec. Qed.

Lemma guard_decide_result g hook target detail w :
  result (rk_guard_decide g hook target detail) w =
  if rk_enforced_deny g RK_ACTION_DENY then -1 else 0.
Proof. unfold rk_guard_decide. by_returns. Qed.

Lemma guard_when_result (test : prog bool) body w v :
  ReadOnly test ->
  (forall g w', w' ≡ w -> result (body g) w' = v g) ->
  result (rk_guard_when test body) w =
  if result test w then
    match result rk_governance w with None => 0 | Some g => v g end
  else 0.
Proof.
  intros Ht Hb. unfold rk_guard_when. rewrite result_read_only by done.
  destruct (result test w); [|done]. cbn [negb]. rewrite result_read_only by apply _.
  destruct (result rk_governance w) as [g|]; [|done]. by apply Hb.
Qed.

End Decision.

(** ** Properties of the guard *)

(** Signals and traces are refused precisely between a governed task under an
    enforcing profile and the registered sensor process: same thread group id and
    same start tick, so a recycled pid is not protected and an ungoverned operator
    is not stopped. *)
Lemma guard_kill_exact `{K : BpfKernel} p info sig cred w :
  result (rk_guard_task_kill p info sig cred 0) w = -1 <->
  is_sensor (w_maps w) (w_env w) p /\
  exists g, result rk_governance w = Some g /\ g_mode g = RK_MODE_ENFORCE.
Proof.
  unfold rk_guard_task_kill. cbn [Z.eqb negb].
  rewrite (guard_when_result _ _ _ (fun g => if rk_enforced_deny g RK_ACTION_DENY then -1 else 0)).
  - rewrite is_sensor_spec. case_bool_decide; [|split; [done|tauto]].
    destruct (result rk_governance w) as [g|]; [|split; [done|by intros (_ & ? & ? & _)]].
    rewrite exists_Some_eq, enforced_deny_eq. case_bool_decide; naive_solver.
  - apply _.
  - intros g w' _. rewrite result_bind, final_call, result_call. apply guard_decide_result.
Qed.
