(* ===== verification/Selftest.v ===== *)
(** * Selftest programs ([rk-bpf/src/rk_selftest.bpf.c], [rk_probes.bpf.c])

    Loaded only by the sensor's selftest; they build real records with the
    production helpers. *)

From S2P Require Import Prelude Abi Bpf Common Net.
Open Scope Z_scope.

Definition RK_TEST_NET_1 : Z := 0xC0000201.
Definition RK_TEST_RULE_ID : Z := 1.

(** [bpf_htonl] on a little-endian target. *)
Definition bpf_htonl (x : Z) : Z := le_value (rev (le_bytes 4 x)).

Definition rk_test_lsm_open (file ret : Z) : prog Z :=
  if negb (ret =? 0) then mret ret
  else
    count ← call LkLsmCounter;
    match count with
    | Some c => call (StLsmCounter (u64 (c + 1)))
    | None => mret tt
    end;;
    cg ← call GetCgroupId;
    gen ← rk_governed_gen cg;
    if gen =? 0 then mret 0
    else
      msg ← rk_scratch;
      if negb msg then mret 0
      else
        rk_fill_hdr cg gen RK_EV_FILE_OPEN RK_VERDICT_ALLOW 0;;
        rk_fill_task;;
        inode ← call (CoreRead file_f_inode file);
        sb ← call (CoreRead inode_i_sb inode);
        dev ← call (CoreRead super_block_s_dev sb);
        call (StMsg (sb_store 8 0 dev));;
        inode ← call (CoreRead file_f_inode file);
        ino ← call (CoreRead inode_i_ino inode);
        call (StMsg (sb_store 8 8 ino));;
        f_flags ← call (CoreRead file_f_flags file);
        call (StMsg (sb_store 4 16 f_flags));;
        f_mode ← call (CoreRead file_f_mode file);
        call (StMsg (sb_store 4 20 f_mode));;
        call (StMsg (sb_store 2 24 1));;
        call (StMsg (sb_store 2 26 0));;
        call (StMsg (sb_store 4 28 0));;
        call (StMsg (sb_set_payload_len 32));;
        dentry ← call (CoreRead file_f_path_dentry file);
        name ← call (CoreRead dentry_d_name_name dentry);
        rk_append_kstr name 256;;
        rk_emit;;
        mret 0.

Definition rk_test_connect4 (ctx : bpf_sock_addr) : prog Z :=
  let addr := user_ip4 ctx in
  let deny := addr =? bpf_htonl RK_TEST_NET_1 in
  msg ← rk_scratch;
  (if negb msg then mret tt
   else
     rk_fill_hdr 0 0 RK_EV_NET_CONNECT
       (if deny then RK_VERDICT_DENY else RK_VERDICT_ALLOW)
       (if deny then RK_TEST_RULE_ID else 0);;
     call (StMsg (sb_write 0 (replicate 40 0)));;
     call (StMsg (sb_write 26 [0xff]));;
     call (StMsg (sb_write 27 [0xff]));;
     call (StMsg (sb_store 4 28 addr));;
     call (StMsg (sb_store 2 34 (bpf_ntohs (u16 (user_port ctx)))));;
     call (StMsg (sb_store 2 36 RK_AF_INET));;
     call (StMsg (sb_store 1 38 (u8 (sa_protocol ctx))));;
     call (StMsg (sb_set_payload_len 40));;
     rk_emit);;
  mret (if deny then 0 else 1).

Definition rk_probe_sockaddr_cgroup_id (ctx : bpf_sock_addr) : prog Z :=
  cg ← call GetCgroupId;
  mret (if cg =? 0 then 1 else 1).

Definition rk_probe_sockaddr_pid_tgid (ctx : bpf_sock_addr) : prog Z :=
  pid_tgid ← call GetPidTgid;
  mret (if pid_tgid =? 0 then 1 else 1).
