(* ===== verification/Emit.v ===== *)
(** * Building and emitting records

    The scratch message as a growing payload: what the appenders of common.bpf.h
    add to it and where they write, and the bytes [rk_emit] hands to the ring
    buffer. *)

From S2P Require Import Prelude Abi Bpf Scenario Logic Common.
Open Scope Z_scope.

(** The message's buffer has its declared size and the length is in range. *)
Definition msg_ok (m : rk_scratch_buf) : Prop :=
  length (sb_mem m) = 4096%nat /\ 0 <= sb_payload_len m <= RK_SCRATCH_PAYLOAD_MAX.

Definition payload (m : rk_scratch_buf) : list Z :=
  take (Z.to_nat (sb_payload_len m)) (sb_mem m).

(** The tail the verifier's bounds reasoning needs; no program may use it. *)
Definition slack (m : rk_scratch_buf) : list Z :=
  drop (Z.to_nat RK_SCRATCH_PAYLOAD_MAX) (sb_mem m).

(** A record on the ring: header, envelope and payload. *)
Definition event_bytes (h : rk_hdr) (p : list Z) : list Z :=
  rk_hdr_bytes h ++ le_bytes 4 (Z.of_nat (length p)) ++ le_bytes 4 0 ++ p.

(** A string as it is stored in a payload. *)
Definition str_field (s : list Z) : list Z := le_bytes 2 (Z.of_nat (length s)) ++ s.

(** The world with its scratch message replaced. *)
Definition with_msg (m : rk_scratch_buf) (w : world) : world :=
  map_tele (set_scratch (Some m)) w.

Definition has_msg (w : world) (m : rk_scratch_buf) : Prop :=
  t_scratch (w_tele w) = Some m.

Lemma payload_length m : msg_ok m -> Z.of_nat (length (payload m)) = sb_payload_len m.
Proof.
  unfold msg_ok, payload, RK_SCRATCH_PAYLOAD_MAX. intros [Hm Hl]. len.
Qed.

(** Bytes written behind the payload, of which a prefix becomes part of it. *)
Lemma payload_grow off n (bs junk : list Z) m :
  length (sb_mem m) = 4096%nat -> off = sb_payload_len m -> 0 <= off ->
  n = off + Z.of_nat (length bs) ->
  off + Z.of_nat (length bs + length junk) <= 4096 ->
  take (Z.to_nat n) (list_inserts (Z.to_nat off) (bs ++ junk) (sb_mem m)) =
  payload m ++ bs.
Proof.
  intros Hm -> Hoff -> Hn. unfold payload. set (o := Z.to_nat (sb_payload_len m)).
  replace (Z.to_nat _) with (o + length bs)%nat by lia.
  transitivity (take (o + length bs) (take (o + length (bs ++ junk))
    (list_inserts o (bs ++ junk) (sb_mem m)))); [rewrite take_take; f_equal; len|].
  rewrite take_inserts_end by len. rewrite take_app_ge by len.
  replace (o + length bs - length (take o (sb_mem m)))%nat with (length bs) by len.
  by rewrite take_app_length.
Qed.

(** A store inside the payload. *)
Lemma payload_write off bs m :
  msg_ok m -> 0 <= off -> off + Z.of_nat (length bs) <= sb_payload_len m ->
  payload (sb_write off bs m) = list_inserts (Z.to_nat off) bs (payload m).
Proof.
  unfold msg_ok, payload, RK_SCRATCH_PAYLOAD_MAX. intros [Hm Hl] Hoff Hfit.
  cbn [sb_write sb_mem sb_payload_len].
  rewrite <- (take_drop (Z.to_nat (sb_payload_len m)) (sb_mem m)) at 1.
  rewrite inserts_app_prefix by len. rewrite take_app_le by len.
  apply take_ge. len.
Qed.

(** A length written in front of the data that was written first. *)
Lemma inserts_len_first off off' (lb bs mem : list Z) :
  off' = (off + length lb)%nat ->
  list_inserts off lb (list_inserts off' bs mem) = list_inserts off (lb ++ bs) mem.
Proof. intros ->. rewrite <- inserts_comm by lia. by apply inserts_merge. Qed.

(** ** Symbolic execution on the scratch message *)

Section Msg.
Context `{K : BpfKernel}.

Lemma with_msg_id w m : has_msg w m -> with_msg m w = w.
Proof. destruct w as [mp e []]. unfold has_msg. cbn. by intros ->. Qed.

Lemma has_with_msg w m : has_msg (with_msg m w) m.
Proof. done. Qed.

Lemma final_st f m w : final (call (StMsg f)) (with_msg m w) = with_msg (f m) w.
Proof. done. Qed.

Lemma result_ld m w : result (call LdMsg) (with_msg m w) = m.
Proof. done. Qed.

Lemma final_ld w : final (call LdMsg) w = w.
Proof. done. Qed.

Lemma env_with_msg m w : w_env (with_msg m w) = w_env w.
Proof. done. Qed.

(** The header the record carries. *)
Definition event_hdr (e : kenv) (cgroup_id policy_gen type verdict rule_id : Z) : rk_hdr :=
  mk_rk_hdr (k_boot_ns e) cgroup_id policy_gen (u32 (k_pid_tgid e))
    (u32 (Z.shiftr (k_pid_tgid e) 32)) (u32 (k_uid_gid e))
    (u32 (Z.shiftr (k_uid_gid e) 32)) type verdict RK_ABI_VERSION rule_id.

Lemma final_fill m w cg gen type verdict rule_id :
  final (rk_fill_hdr cg gen type verdict rule_id;; rk_fill_task) (with_msg m w) =
  with_msg (sb_set_hdr (fun _ => event_hdr (w_env w) cg gen type verdict rule_id) m) w.
Proof. done. Qed.

(** A scratch lookup that succeeds empties the message. *)
Lemma run_scratch w m :
  has_msg w m ->
  run rk_scratch w = (true, with_msg (sb_set_reserved 0 (sb_set_payload_len 0 m)) w).
Proof.
  intros Hm. rewrite <- (with_msg_id w m Hm) at 1. reflexivity.
Qed.

End Msg.

(** ** The appenders *)

(** [m'] is [m] with [ext] added to its payload and nothing else changed. *)
Definition extends (m m' : rk_scratch_buf) (ext : list Z) : Prop :=
  msg_ok m' /\ sb_hdr m' = sb_hdr m /\ sb_reserved m' = sb_reserved m /\
  slack m' = slack m /\ payload m' = payload m ++ ext.

Lemma extends_trans m m1 m2 e1 e2 :
  extends m m1 e1 -> extends m1 m2 e2 -> extends m m2 (e1 ++ e2).
Proof.
  intros (_ & Hh & Hr & Hs & Hp) (Hok & Hh' & Hr' & Hs' & Hp').
  split_and!; [done|congruence|congruence|congruence|].
  by rewrite Hp', Hp, app_assoc.
Qed.

Lemma extends_length m m' ext :
  msg_ok m -> extends m m' ext ->
  sb_payload_len m' = sb_payload_len m + Z.of_nat (length ext).
Proof.
  intros Hok (Hok' & _ & _ & _ & Hp). apply (f_equal length) in Hp.
  rewrite length_app in Hp. pose proof (payload_length m Hok).
  pose proof (payload_length m' Hok'). lia.
Qed.

(** The string an append stores: what the helper read into the room left, without
    its terminating NUL. *)
Definition kstr (e : kenv) (off max_len src : Z) : list Z :=
  let '(n, bs) := k_str e (Z.min max_len (RK_SCRATCH_PAYLOAD_MAX - 2 - off)) src in
  take (Z.to_nat (n - 1)) bs.

(** The bytes an append of user memory stores. *)
Definition ublob (e : kenv) (off want src : Z) : list Z :=
  let '(r, bs) := k_user e (Z.min want (RK_SCRATCH_PAYLOAD_MAX - 2 - off)) src in
  if r <? 0 then [] else bs.

(** Writing a length-prefixed field behind the payload. *)
Lemma extends_field m lb bs junk n :
  msg_ok m -> length lb = 2%nat -> n = sb_payload_len m + 2 + Z.of_nat (length bs) ->
  sb_payload_len m + 2 + Z.of_nat (length (bs ++ junk)) <= RK_SCRATCH_PAYLOAD_MAX ->
  extends m
    (sb_set_payload_len n
       (sb_write (sb_payload_len m) lb (sb_write (sb_payload_len m + 2) (bs ++ junk) m)))
    (lb ++ bs).
Proof.
  unfold extends, msg_ok, slack, RK_SCRATCH_PAYLOAD_MAX.
  intros [Hm Hl] Hlb -> Hroom. cbn [sb_set_payload_len sb_write sb_mem sb_payload_len sb_hdr sb_reserved].
  rewrite inserts_len_first by lia.
  split_and!; [len|len|len|done|done| |].
  - apply drop_inserts_above. len.
  - unfold payload at 1. cbn [sb_set_payload_len sb_write sb_mem sb_payload_len].
    rewrite inserts_len_first by lia. rewrite app_assoc. apply payload_grow; len.
Qed.

Section Append.
Context `{K : BpfKernel} (w : world) (m : rk_scratch_buf).
Hypothesis Henv : kenv_wf (w_env w).
Hypothesis Hok : msg_ok m.

(** The masks and unsigned conversions of the appenders change nothing. *)
Lemma append_offsets :
  sb_payload_len m <= RK_SCRATCH_PAYLOAD_MAX - 3 ->
  Z.land (sb_payload_len m) RK_PAYLOAD_MASK = sb_payload_len m /\
  u32 (sb_payload_len m + 2) = sb_payload_len m + 2 /\
  Z.land (sb_payload_len m + 2) RK_PAYLOAD_MASK = sb_payload_len m + 2 /\
  u32 (RK_SCRATCH_PAYLOAD_MAX - (sb_payload_len m + 2)) =
    RK_SCRATCH_PAYLOAD_MAX - (sb_payload_len m + 2).
Proof using Hok.
  destruct Hok as [_ Hl]. unfold RK_PAYLOAD_MASK, RK_SCRATCH_PAYLOAD_MAX in *. intros Hoff.
  change (2048 - 1) with (Z.ones 11).
  split_and!; [apply land_mask_small|apply u32_small|apply land_mask_small|apply u32_small]; lia.
Qed.

Lemma append_kstr_full src max_len :
  RK_SCRATCH_PAYLOAD_MAX - 3 < sb_payload_len m ->
  final (rk_append_kstr src max_len) (with_msg m w) = with_msg m w.
Proof.
  intros Hoff. unfold rk_append_kstr.
  rewrite final_bind, result_ld, final_ld, (proj2 (Z.ltb_lt _ _) Hoff). done.
Qed.

Lemma append_kstr_spec src max_len :
  1 <= max_len < 2 ^ 32 -> sb_payload_len m <= RK_SCRATCH_PAYLOAD_MAX - 3 ->
  exists m', final (rk_append_kstr src max_len) (with_msg m w) = with_msg m' w /\
    extends m m' (str_field (kstr (w_env w) (sb_payload_len m) max_len src)).
Proof using Henv Hok.
  intros Hmax Hoff. destruct (append_offsets Hoff) as (Ho1 & Ho2 & Ho3 & Ho4).
  unfold rk_append_kstr. rewrite final_bind, result_ld, final_ld.
  rewrite (proj2 (Z.ltb_ge _ _) Hoff), Ho1, Ho2, Ho3, Ho4. cbv zeta.
  unfold kstr. set (size := Z.land _ RK_PAYLOAD_MASK).
  assert (size = Z.min max_len (RK_SCRATCH_PAYLOAD_MAX - 2 - sb_payload_len m)) as Hsize.
  { subst size. destruct Hok as [_ Hl]. unfold RK_PAYLOAD_MASK, RK_SCRATCH_PAYLOAD_MAX in *.
    change (2048 - 1) with (Z.ones 11).
    destruct (Z.ltb_spec (2048 - (sb_payload_len m + 2)) max_len);
      rewrite land_mask_small by lia; lia. }
  rewrite <- Hsize. clearbody size.
  rewrite final_bind, final_call, result_call. cbn [handle fst snd]. rewrite env_with_msg.
  destruct Henv as [Hstr _]. specialize (Hstr size src).
  destruct (k_str (w_env w) size src) as [n bs].
  destruct Hstr as (Hn & Hlen & _ & Hpos).
  { destruct Hok. unfold RK_SCRATCH_PAYLOAD_MAX in *. lia. }
  rewrite final_bind, final_st.
  assert (sb_payload_len m + 2 + size <= RK_SCRATCH_PAYLOAD_MAX) as Hfit by lia.
  destruct Hok as [Hmem Hl]. unfold RK_SCRATCH_PAYLOAD_MAX in *.
  destruct (Z.leb_spec n 0) as [Hn0|Hn0].
  - rewrite final_bind, !final_st. eexists. split; [done|].
    replace (Z.to_nat (n - 1)) with 0%nat by lia.
    apply (extends_field m (le_bytes 2 0) [] bs); [by split|len|cbn; lia|].
    unfold RK_SCRATCH_PAYLOAD_MAX. cbn [app]. lia.
  - rewrite final_bind, !final_st. eexists. split; [done|].
    specialize (Hpos Hn0).
    pose proof (take_drop (Z.to_nat (n - 1)) bs) as Hbs.
    assert (Z.of_nat (length (take (Z.to_nat (n - 1)) bs)) = n - 1) as Ht by len.
    revert Hbs Ht. generalize (take (Z.to_nat (n - 1)) bs) (drop (Z.to_nat (n - 1)) bs).
    intros s junk <- Ht. rewrite u16_small, (u32_small (n - 1)), u32_small by lia.
    unfold str_field. rewrite Ht.
    apply (extends_field m (le_bytes 2 (n - 1)) s junk); [by split|len|lia|].
    unfold RK_SCRATCH_PAYLOAD_MAX. lia.
Qed.

Lemma append_ublob_spec src want :
  0 <= want < 2 ^ 64 -> sb_payload_len m <= RK_SCRATCH_PAYLOAD_MAX - 3 ->
  exists m', final (rk_append_ublob src want) (with_msg m w) = with_msg m' w /\
    extends m m' (str_field (ublob (w_env w) (sb_payload_len m) want src)) /\
    result (rk_append_ublob src want) (with_msg m w) =
      if (k_user (w_env w) (Z.min want (RK_SCRATCH_PAYLOAD_MAX - 2 - sb_payload_len m)) src).1
           <? 0 then -1
      else if RK_SCRATCH_PAYLOAD_MAX - 2 - sb_payload_len m <? want then 1 else 0.
Proof using Henv Hok.
  intros Hw Hoff. destruct (append_offsets Hoff) as (Ho1 & Ho2 & Ho3 & Ho4).
  unfold rk_append_ublob. rewrite final_bind, result_bind, result_ld, final_ld.
  rewrite (proj2 (Z.ltb_ge _ _) Hoff), Ho1, Ho2, Ho3, Ho4. cbv zeta.
  replace (RK_SCRATCH_PAYLOAD_MAX - (sb_payload_len m + 2))
    with (RK_SCRATCH_PAYLOAD_MAX - 2 - sb_payload_len m) by lia.
  set (room := RK_SCRATCH_PAYLOAD_MAX - 2 - sb_payload_len m).
  unfold ublob. fold room.
  assert (1 <= room <= 2046) as Hroom.
  { destruct Hok. unfold RK_SCRATCH_PAYLOAD_MAX in *. lia. }
  replace (if room <? want then _ else _)
    with (Z.min want room, if room <? want then 1 else 0).
  2: { destruct (Z.ltb_spec room want); rewrite ?u32_small by lia; f_equal; lia. }
  change RK_PAYLOAD_MASK with (Z.ones 11). rewrite land_mask_small by lia.
  set (size := Z.min want room). assert (0 <= size <= room) as Hsize by lia.
  rewrite final_bind, result_bind, final_call, result_call. cbn [handle fst snd].
  rewrite env_with_msg. destruct Henv as (_ & Huser & _). specialize (Huser size src).
  destruct (k_user (w_env w) size src) as [r bs]. destruct Huser as [Hlen _]; [lia|].
  rewrite final_bind, result_bind, final_st. cbn [fst].
  assert (sb_payload_len m + 2 + size <= RK_SCRATCH_PAYLOAD_MAX) as Hfit by lia.
  destruct Hok as [Hmem Hl]. unfold RK_SCRATCH_PAYLOAD_MAX in *.
  destruct (Z.ltb_spec r 0) as [Hr|Hr].
  - rewrite !final_bind, !result_bind, !final_st. eexists. split_and!; [done| |done].
    apply (extends_field m (le_bytes 2 0) [] bs); [by split|len|cbn; lia|].
    unfold RK_SCRATCH_PAYLOAD_MAX. cbn [app]. lia.
  - rewrite !final_bind, !result_bind, !final_st. eexists. split_and!; [done| |done].
    rewrite u16_small, u32_small by lia. unfold str_field. rewrite Hlen.
    rewrite <- (app_nil_r bs) at 1.
    apply (extends_field m (le_bytes 2 size) bs []); [by split|len|lia|].
    rewrite app_nil_r. unfold RK_SCRATCH_PAYLOAD_MAX. lia.
Qed.

End Append.

(** ** Emission *)

(** The wakeup flags: the kernel's default, or batched once the ring holds the
    threshold. *)
Definition wakeup_flags `{K : BpfKernel} (t : telemetry) : Z :=
  if t_wakeup_threshold t =? 0 then 0
  else if t_wakeup_threshold t <=? ringbuf_avail (t_consumed t) (t_ring t)
       then BPF_RB_FORCE_WAKEUP else BPF_RB_NO_WAKEUP.

Definition accepted `{K : BpfKernel} (t : telemetry) (rec : list Z) : bool :=
  negb (ringbuf_output_result (t_consumed t) (t_ring t) rec (wakeup_flags t) <? 0).

(** The ring after one record was offered. *)
Definition published `{K : BpfKernel} (t : telemetry) (rec : list Z) : list (Z * list Z) :=
  t_ring t ++ if accepted t rec then [(wakeup_flags t, rec)] else [].

Definition ring (w : world) : list (Z * list Z) := t_ring (w_tele w).

Lemma take_sb_bytes m :
  msg_ok m -> sb_reserved m = 0 ->
  take (Z.to_nat (48 + 8 + sb_payload_len m)) (sb_bytes m) = event_bytes (sb_hdr m) (payload m).
Proof.
  intros Hok Hr. unfold event_bytes, sb_bytes. rewrite payload_length, Hr by done.
  destruct Hok as [Hm Hl]. unfold RK_SCRATCH_PAYLOAD_MAX in *.
  rewrite !take_app_ge by len.
  do 3 f_equal. unfold payload. f_equal. len.
Qed.

Section Emission.
Context `{K : BpfKernel}.

Lemma count_final idx w :
  exists c, final (rk_count idx) w = map_tele (set_counters c) w.
Proof.
  unfold rk_count. rewrite final_bind, final_call, result_call. cbn [handle fst snd].
  destruct (t_counters (w_tele w) !! idx) as [v|].
  - rewrite final_call. by eexists.
  - exists (t_counters (w_tele w)). by destruct w as [mp e []].
Qed.

Lemma emit_ring m w :
  msg_ok m -> sb_reserved m = 0 ->
  ring (final rk_emit (with_msg m w)) =
  published (w_tele w) (event_bytes (sb_hdr m) (payload m)).
Proof.
  intros Hok Hr. unfold rk_emit. rewrite final_bind, result_ld, final_ld. cbv zeta.
  assert (Z.land (if RK_SCRATCH_PAYLOAD_MAX <? sb_payload_len m then RK_SCRATCH_PAYLOAD_MAX
                  else sb_payload_len m) (2 * RK_SCRATCH_PAYLOAD_MAX - 1) = sb_payload_len m) as ->.
  { destruct Hok as [_ Hl]. rewrite (proj2 (Z.ltb_ge _ _)) by lia.
    unfold RK_SCRATCH_PAYLOAD_MAX in *. change (2 * 2048 - 1) with (Z.ones 12).
    apply land_mask_small; lia. }
  rewrite final_bind, final_call, result_call. cbn [handle fst snd].
  unfold published, accepted. set (fl := wakeup_flags (w_tele w)).
  assert (forall k, final (flags ← (if t_wakeup_threshold (w_tele (with_msg m w)) =? 0 then mret 0
      else avail ← call RingbufQuery;
           mret (if t_wakeup_threshold (w_tele (with_msg m w)) <=? avail
                 then BPF_RB_FORCE_WAKEUP else BPF_RB_NO_WAKEUP)); k flags) (with_msg m w) =
    final (k fl : prog unit) (with_msg m w)) as ->.
  { intros k. subst fl. unfold wakeup_flags.
    change (t_wakeup_threshold (w_tele (with_msg m w))) with (t_wakeup_threshold (w_tele w)).
    by destruct (t_wakeup_threshold (w_tele w) =? 0). }
  rewrite final_bind, result_ld, final_ld, take_sb_bytes by done.
  rewrite final_bind, final_call, result_call. cbn [handle fst snd].
  change (t_consumed (w_tele (with_msg m w))) with (t_consumed (w_tele w)).
  change (t_ring (w_tele (with_msg m w))) with (t_ring (w_tele w)).
  destruct (ringbuf_output_result _ _ _ _ <? 0); cbn [negb].
  - destruct (count_final RK_CNT_RINGBUF_DROP (with_msg m w)) as [c ->].
    by rewrite app_nil_r.
  - done.
Qed.

Lemma final_fill_hdr m w cg gen type verdict rule_id :
  final (rk_fill_hdr cg gen type verdict rule_id) (with_msg m w) =
  with_msg (sb_set_hdr (fun _ => mk_rk_hdr (k_boot_ns (w_env w)) cg gen 0 0
    (u32 (k_uid_gid (w_env w))) (u32 (Z.shiftr (k_uid_gid (w_env w)) 32))
    type verdict RK_ABI_VERSION rule_id) m) w.
Proof. done. Qed.

Lemma final_fill_task m w :
  final rk_fill_task (with_msg m w) =
  with_msg (sb_set_hdr (fun h =>
    mk_rk_hdr (hdr_ts_ns h) (hdr_cgroup_id h) (hdr_policy_gen h) (u32 (k_pid_tgid (w_env w)))
      (u32 (Z.shiftr (k_pid_tgid (w_env w)) 32)) (hdr_uid h) (hdr_gid h) (hdr_type h)
      (hdr_verdict h) (hdr_abi h) (hdr_rule_id h)) m) w.
Proof. done. Qed.

Lemma result_scratch w m : has_msg w m -> result rk_scratch w = true.
Proof. intros Hm. unfold result. by rewrite (run_scratch w m). Qed.

Lemma final_scratch w m :
  has_msg w m ->
  final rk_scratch w = with_msg (sb_set_reserved 0 (sb_set_payload_len 0 m)) w.
Proof. intros Hm. unfold final. by rewrite (run_scratch w m). Qed.

End Emission.

(** ** Properties of the appenders *)

(** C31. Appending a kernel string never leaves the payload: whatever the helper
    reads and however full the message is, the header and the slack tail keep their
    bytes, the payload keeps its old content and stays within its 2048 bytes, and
    it grows by exactly the length-prefixed string, or not at all when fewer than
    three bytes are left. *)
Theorem append_kstr_in_bounds `{K : BpfKernel} w m src max_len :
  kenv_wf (w_env w) -> msg_ok m -> 1 <= max_len < 2 ^ 32 ->
  exists m', final (rk_append_kstr src max_len) (with_msg m w) = with_msg m' w /\
    msg_ok m' /\ sb_hdr m' = sb_hdr m /\ slack m' = slack m /\
    payload m' = payload m ++
      if sb_payload_len m <=? RK_SCRATCH_PAYLOAD_MAX - 3
      then str_field (kstr (w_env w) (sb_payload_len m) max_len src) else [].
Proof.
  intros He Hok Hmax. destruct (Z.leb_spec (sb_payload_len m) (RK_SCRATCH_PAYLOAD_MAX - 3)).
  - destruct (append_kstr_spec w m He Hok src max_len) as (m' & Hf & H1 & H2 & _ & H3 & H4);
      [done..|]. by exists m'.
  - exists m. rewrite append_kstr_full, app_nil_r by done. done.
Qed.

Lemma ex_env_wf : kenv_wf ex_env.
Proof.
  split_and!; [| |done].
  - intros size src Hsz. cbn. unfold ex_str.
    destruct (src =? 99); split_and!; try lia; try len; apply Forall_take;
      by repeat (apply Forall_cons; split).
  - intros size src Hsz. cbn. split; [len|]. by apply Forall_replicate.
Qed.

(** A message with [n] bytes of payload. *)
Definition ex_msg (n : Z) : rk_scratch_buf :=
  mk_rk_scratch_buf (mk_rk_hdr 0 0 0 0 0 0 0 0 0 0 0) n 0 (replicate 4096 170).

Lemma ex_msg_ok n : 0 <= n <= RK_SCRATCH_PAYLOAD_MAX -> msg_ok (ex_msg n).
Proof. intros Hn. split; [cbn [ex_msg sb_mem]; by rewrite length_replicate|done]. Qed.

Lemma append_kstr_in_bounds_witness :
  exists m', final (K:=reference_kernel) (rk_append_kstr 50 256)
      (with_msg (ex_msg 24) (ex_world RK_MODE_ENFORCE 0)) =
    with_msg m' (ex_world RK_MODE_ENFORCE 0) /\
    payload m' = payload (ex_msg 24) ++ [2; 0; 115; 104].
Proof.
  destruct (append_kstr_in_bounds (K:=reference_kernel) (ex_world RK_MODE_ENFORCE 0)
    (ex_msg 24) 50 256) as (m' & Hf & _ & _ & _ & Hp).
  - exact ex_env_wf.
  - apply ex_msg_ok. unfold RK_SCRATCH_PAYLOAD_MAX. lia.
  - lia.
  - exists m'. split; [exact Hf|]. rewrite Hp. reflexivity.
Defined.

Lemma append_ublob_full `{K : BpfKernel} w m src want :
  RK_SCRATCH_PAYLOAD_MAX - 3 < sb_payload_len m ->
  run (rk_append_ublob src want) (with_msg m w) = (1, with_msg m w).
Proof.
  intros Hoff. rewrite run_eq. unfold rk_append_ublob.
  rewrite final_bind, result_bind, result_ld, final_ld, (proj2 (Z.ltb_lt _ _) Hoff). done.
Qed.

(** Appending user memory never leaves the payload either, for every requested
    length: the bytes read are stored behind their length, an unreadable range
    stores an empty string and returns -1, and a request that exceeds the room left
    is cut to it and returns 1. *)
Lemma append_ublob_in_bounds `{K : BpfKernel} w m src want :
  kenv_wf (w_env w) -> msg_ok m -> 0 <= want < 2 ^ 64 ->
  let room := RK_SCRATCH_PAYLOAD_MAX - 2 - sb_payload_len m in
  exists m', run (rk_append_ublob src want) (with_msg m w) =
      (if room <? 1 then 1
       else if (k_user (w_env w) (Z.min want room) src).1 <? 0 then -1
       else if room <? want then 1 else 0, with_msg m' w) /\
    msg_ok m' /\ sb_hdr m' = sb_hdr m /\ slack m' = slack m /\
    payload m' = payload m ++
      if room <? 1 then [] else str_field (ublob (w_env w) (sb_payload_len m) want src).
Proof.
  intros He Hok Hw room. destruct (Z.ltb_spec room 1); subst room.
  - exists m. rewrite append_ublob_full, app_nil_r by lia. done.
  - destruct (append_ublob_spec w m He Hok src want) as (m' & Hf & (H1 & H2 & _ & H3 & H4) & Hr);
      [done|lia|]. exists m'. by rewrite run_eq, Hf, Hr.
Qed.

Lemma append_ublob_in_bounds_witness :
  exists m', run (K:=reference_kernel) (rk_append_ublob 4096 4)
      (with_msg (ex_msg 2044) (ex_world RK_MODE_ENFORCE 0)) =
    (1, with_msg m' (ex_world RK_MODE_ENFORCE 0)) /\
    payload m' = payload (ex_msg 2044) ++ [2; 0; 65; 65].
Proof.
  destruct (append_ublob_in_bounds (K:=reference_kernel) (ex_world RK_MODE_ENFORCE 0)
    (ex_msg 2044) 4096 4) as (m' & Hf & _ & _ & _ & Hp).
  - exact ex_env_wf.
  - apply ex_msg_ok. unfold RK_SCRATCH_PAYLOAD_MAX. lia.
  - lia.
  - exists m'. split; [exact Hf|]. rewrite Hp. reflexivity.
Defined.
