(* ===== verification/Decoder.v ===== *)
(** * The sensor's record decoder ([rk-sensor/src/decoder.rs])

    [decode] validates a ring-buffer record byte by byte and returns a typed event
    or a typed error.  Theorems: it inverts the programs' encoding, and whatever it
    accepts is an encoding. *)

From S2P Require Import Prelude Abi Bpf Common Emit.
Open Scope Z_scope.

Inductive DecodeError : Set :=
| TooShort (needed provided : nat)
| AbiMismatch (expected found : Z)
| ReservedNonZero (v : Z)
| PayloadTooLarge (n : Z)
| LengthMismatch (expected found : nat)
| UnknownType (t : Z)
| UnknownVerdict (v : Z)
| BodyTooShort (needed provided : nat)
| MalformedStrings
| TrailingBytes (n : nat).

(** The metric index of an error kind. *)
Definition kind_index (e : DecodeError) : nat :=
  match e with
  | TooShort _ _ => 0 | AbiMismatch _ _ => 1 | ReservedNonZero _ => 2
  | PayloadTooLarge _ => 3 | LengthMismatch _ _ => 4 | UnknownType _ => 5
  | UnknownVerdict _ => 6 | BodyTooShort _ _ => 7 | MalformedStrings => 8
  | TrailingBytes _ => 9
  end.

Record Strings : Set := mk_Strings { str_data : list Z; str_remaining : Z }.

Inductive Payload : Set :=
| PExec (body : rk_payload_exec) (strings : Strings)
| PFile (body : rk_payload_file) (strings : Strings)
| PNet (body : rk_payload_net)
| PSock (body : rk_payload_sock)
| PTun (body : rk_payload_tun)
| PFileDeny (body : rk_payload_file_deny) (strings : Strings)
| PTamper (body : rk_payload_tamper)
| PRaw (data : list Z).

Record Event : Set := mk_Event { ev_hdr : rk_hdr; ev_payload : Payload }.

(** [Result<A, DecodeError>] and its [?] operator. *)
Definition res (A : Type) : Type := DecodeError + A.
#[export] Instance res_ret : MRet res := fun A a => inr a.
#[export] Instance res_bind : MBind res := fun A B f r =>
  match r with inl e => inl e | inr a => f a end.

(** One [u16 len][bytes] string off the front. *)
Definition split_str (data : list Z) : option (list Z * list Z) :=
  match data with
  | b0 :: b1 :: rest =>
      let len := Z.to_nat (le_value [b0; b1]) in
      if (length rest <? len)%nat then None else Some (take len rest, drop len rest)
  | _ => None
  end.

Definition read_u32 (bytes : list Z) (offset : nat) : option Z :=
  if (length bytes <? offset + 4)%nat then None
  else Some (le_value (take 4 (drop offset bytes))).

(** A body of [size] bytes off the front, read by [of_bytes]. *)
Definition read_body {T} (size : nat) (of_bytes : list Z -> T) (payload : list Z)
    : res (T * list Z) :=
  if (length payload <? size)%nat then inl (BodyTooShort size (length payload))
  else inr (of_bytes (take size payload), drop size payload).

(** [for _ in 0..count] over [split_str]. *)
Fixpoint validate_loop (count : nat) (rest : list Z) : res (list Z) :=
  match count with
  | O => inr rest
  | S count =>
      match split_str rest with
      | None => inl MalformedStrings
      | Some (_, tail) => validate_loop count tail
      end
  end.

Definition validate (data : list Z) (count : Z) : res Strings :=
  rest ← validate_loop (Z.to_nat count) data;
  match rest with
  | [] => mret (mk_Strings data count)
  | _ :: _ => inl (TrailingBytes (length rest))
  end.

(** [Iterator::next] *)
Definition next (s : Strings) : option (list Z * Strings) :=
  if str_remaining s =? 0 then None
  else '(x, rest) ← split_str (str_data s);
       Some (x, mk_Strings rest (str_remaining s - 1)).

(** The strings an iteration yields. *)
Fixpoint collect (fuel : nat) (s : Strings) : list (list Z) :=
  match fuel with
  | O => []
  | S fuel => match next s with
              | None => []
              | Some (x, s) => x :: collect fuel s
              end
  end.

Definition strings_of (s : Strings) : list (list Z) :=
  collect (Z.to_nat (str_remaining s)) s.

Definition RK_ENVELOPE_LEN : nat := 56.
Definition HDR_LEN : nat := 48.
Definition MAX_PAYLOAD : Z := RK_SCRATCH_PAYLOAD_MAX.

(** A body with nothing behind it. *)
Definition fixed_body {T} (size : nat) (of_bytes : list Z -> T) (payload : list Z)
    : res T :=
  '(body, tail) ← read_body size of_bytes payload;
  match tail with
  | [] => mret body
  | _ :: _ => inl (TrailingBytes (length tail))
  end.

(** The match on the event type. *)
Definition decode_payload (type : Z) (payload : list Z) : res Payload :=
  if type =? RK_EV_EXEC then
    '(body, tail) ← read_body 24 rk_payload_exec_of_bytes payload;
    strings ← validate tail (pe_str_count body);
    mret (PExec body strings)
  else if type =? RK_EV_FILE_OPEN then
    '(body, tail) ← read_body 32 rk_payload_file_of_bytes payload;
    strings ← validate tail (pf_str_count body);
    mret (PFile body strings)
  else if (type =? RK_EV_NET_CONNECT) || (type =? RK_EV_SENDMSG) then
    body ← fixed_body 40 rk_payload_net_of_bytes payload;
    mret (PNet body)
  else if type =? RK_EV_SOCK_CREATE then
    body ← fixed_body 16 rk_payload_sock_of_bytes payload;
    mret (PSock body)
  else if type =? RK_EV_TUN then
    body ← fixed_body 8 rk_payload_tun_of_bytes payload;
    mret (PTun body)
  else if type =? RK_EV_TAMPER then
    body ← fixed_body 16 rk_payload_tamper_of_bytes payload;
    mret (PTamper body)
  else if type =? RK_EV_FILE_DENY then
    '(body, tail) ← read_body 32 rk_payload_file_deny_of_bytes payload;
    strings ← validate tail (fd_str_count body);
    mret (PFileDeny body strings)
  else if (type =? RK_EV_UNLINK) || (type =? RK_EV_RENAME) || (type =? RK_EV_FORK) ||
          (type =? RK_EV_EXIT) then mret (PRaw payload)
  else inl (UnknownType type).

Definition decode (bytes : list Z) : res Event :=
  if (length bytes <? RK_ENVELOPE_LEN)%nat
  then inl (TooShort RK_ENVELOPE_LEN (length bytes))
  else
    let hdr := rk_hdr_of_bytes (take HDR_LEN bytes) in
    if negb (hdr_abi hdr =? RK_ABI_VERSION)
    then inl (AbiMismatch RK_ABI_VERSION (hdr_abi hdr))
    else
      match read_u32 bytes HDR_LEN with
      | None => inl (TooShort RK_ENVELOPE_LEN (length bytes))
      | Some payload_len =>
          match read_u32 bytes (HDR_LEN + 4) with
          | None => inl (TooShort RK_ENVELOPE_LEN (length bytes))
          | Some reserved =>
              if negb (reserved =? 0) then inl (ReservedNonZero reserved)
              else if MAX_PAYLOAD <? payload_len then inl (PayloadTooLarge payload_len)
              else if negb (RK_ENVELOPE_LEN + Z.to_nat payload_len =? length bytes)%nat
              then inl (LengthMismatch (RK_ENVELOPE_LEN + Z.to_nat payload_len) (length bytes))
              else if negb ((hdr_verdict hdr =? RK_VERDICT_ALLOW) ||
                            (hdr_verdict hdr =? RK_VERDICT_DENY) ||
                            (hdr_verdict hdr =? RK_VERDICT_AUDIT_WOULD_DENY))
              then inl (UnknownVerdict (hdr_verdict hdr))
              else
                payload ← decode_payload (hdr_type hdr) (drop RK_ENVELOPE_LEN bytes);
                mret (mk_Event hdr payload)
          end
      end.

(** ** Strings *)

Lemma str_field_length s : length (str_field s) = (2 + length s)%nat.
Proof. unfold str_field. len. Qed.

Lemma split_str_field s rest :
  Z.of_nat (length s) < 2 ^ 16 -> split_str (str_field s ++ rest) = Some (s, rest).
Proof.
  intros Hs. unfold str_field. rewrite <- app_assoc.
  change (le_bytes 2 ?v ++ ?l) with (u8 v :: u8 (v / 256) :: l). cbn [split_str].
  change [u8 ?v; u8 (?v / 256)] with (le_bytes 2 v).
  rewrite le_value_bytes_small by (cbn; lia). rewrite Nat2Z.id.
  rewrite (proj2 (Nat.ltb_ge _ _)) by len.
  by rewrite take_app_length, drop_app_length.
Qed.

(** What [split_str] returns is the front of its input. *)
Lemma split_str_inv data s rest :
  Forall byte_ok data -> split_str data = Some (s, rest) ->
  data = str_field s ++ rest /\ Forall byte_ok rest /\ Z.of_nat (length s) < 2 ^ 16.
Proof.
  intros Hb. destruct data as [|b0 [|b1 data]]; [done|done|]. cbn [split_str].
  apply Forall_cons in Hb as [Hb0 [Hb1 Hb]%Forall_cons].
  destruct (Nat.ltb_spec (length data) (Z.to_nat (le_value [b0; b1]))); [done|].
  assert (Forall byte_ok [b0; b1]) as H2 by by rewrite !Forall_cons.
  pose proof (le_value_bound _ H2) as [Hpos Hlt].
  intros [= <- <-]. split_and!; [|by apply Forall_drop|cbn in Hpos, Hlt; len].
  unfold str_field.
  rewrite length_take_le, Z2Nat.id by done.
  pose proof (le_bytes_value _ H2) as Hle. cbn [length] in Hle.
  change (b0 + 256 * (b1 + 256 * 0)) with (le_value [b0; b1]). rewrite Hle.
  cbn [app]. by rewrite take_drop.
Qed.

(** Strings as they lie in a tail. *)
Definition tail_bytes (ss : list (list Z)) : list Z := ss ≫= str_field.

Lemma validate_loop_ok ss rest :
  Forall (fun s => Z.of_nat (length s) < 2 ^ 16) ss ->
  validate_loop (length ss) (tail_bytes ss ++ rest) = inr rest.
Proof.
  induction 1 as [|s ss Hs _ IH]; [done|]. cbn [length validate_loop].
  change (tail_bytes (s :: ss)) with (str_field s ++ tail_bytes ss).
  rewrite <- app_assoc, split_str_field by done. apply IH.
Qed.

Lemma validate_ok ss :
  Forall (fun s => Z.of_nat (length s) < 2 ^ 16) ss ->
  validate (tail_bytes ss) (Z.of_nat (length ss)) =
  inr (mk_Strings (tail_bytes ss) (Z.of_nat (length ss))).
Proof.
  intros Hss. unfold validate. rewrite Nat2Z.id.
  rewrite <- (app_nil_r (tail_bytes ss)) at 1. by rewrite validate_loop_ok.
Qed.

(** A validated tail is exactly the strings its iteration yields. *)
Lemma validate_loop_inv n data :
  Forall byte_ok data -> validate_loop n data = inr [] ->
  exists ss, length ss = n /\ data = tail_bytes ss /\
    collect n (mk_Strings data (Z.of_nat n)) = ss /\
    Forall (fun s => Z.of_nat (length s) < 2 ^ 16) ss.
Proof.
  revert data. induction n as [|n IH]; intros data Hb; cbn [validate_loop collect].
  { intros [= ->]. by exists []. }
  destruct (split_str data) as [[s tail]|] eqn:Hs; [|done]. intros Hv.
  destruct (split_str_inv _ _ _ Hb Hs) as (-> & Ht & Hsl).
  destruct (IH tail Ht Hv) as (ss & Hlen & -> & Hc & Hss). exists (s :: ss).
  split_and!; [by cbn; f_equal|done| |by constructor]. unfold next. cbn [str_remaining str_data].
  rewrite (proj2 (Z.eqb_neq _ _)) by lia. rewrite Hs. cbn [mbind option_bind].
  rewrite Nat2Z.inj_succ. unfold Z.succ. rewrite Z.add_simpl_r. by rewrite Hc.
Qed.

Lemma validate_inv data count s :
  Forall byte_ok data -> 0 <= count -> validate data count = inr s ->
  str_data s = data /\ str_remaining s = count /\
  length (strings_of s) = Z.to_nat count /\ data = tail_bytes (strings_of s) /\
  Forall (fun s => Z.of_nat (length s) < 2 ^ 16) (strings_of s).
Proof.
  intros Hb Hc. unfold validate. cbn [mbind res_bind].
  destruct (validate_loop _ data) as [e|[|? ?]] eqn:Hv; [done| |done].
  intros [= <-]. destruct (validate_loop_inv _ _ Hb Hv) as (ss & Hlen & Hd & Hcol & Hss).
  unfold strings_of. cbn [str_remaining str_data]. rewrite Z2Nat.id in Hcol by done.
  rewrite Hcol. done.
Qed.

(** ** Events as bytes *)

Definition payload_bytes (p : Payload) : list Z :=
  match p with
  | PExec b s => rk_payload_exec_bytes b ++ str_data s
  | PFile b s => rk_payload_file_bytes b ++ str_data s
  | PNet b => rk_payload_net_bytes b
  | PSock b => rk_payload_sock_bytes b
  | PTun b => rk_payload_tun_bytes b
  | PFileDeny b s => rk_payload_file_deny_bytes b ++ str_data s
  | PTamper b => rk_payload_tamper_bytes b
  | PRaw d => d
  end.

Definition encode (ev : Event) : list Z := event_bytes (ev_hdr ev) (payload_bytes (ev_payload ev)).

(** A string tail that holds [count] strings. *)
Definition strings_ok (s : Strings) (count : Z) : Prop :=
  exists ss, s = mk_Strings (tail_bytes ss) count /\ Z.of_nat (length ss) = count /\
    Forall (fun s => Z.of_nat (length s) < 2 ^ 16) ss.

(** The payload is one the event type announces, and its members fit. *)
Definition payload_wf (type : Z) (p : Payload) : Prop :=
  match p with
  | PExec b s => type = RK_EV_EXEC /\ rk_payload_exec_wf b /\ strings_ok s (pe_str_count b)
  | PFile b s => type = RK_EV_FILE_OPEN /\ rk_payload_file_wf b /\ strings_ok s (pf_str_count b)
  | PNet b => (type = RK_EV_NET_CONNECT \/ type = RK_EV_SENDMSG) /\ rk_payload_net_wf b
  | PSock b => type = RK_EV_SOCK_CREATE /\ rk_payload_sock_wf b
  | PTun b => type = RK_EV_TUN /\ rk_payload_tun_wf b
  | PFileDeny b s =>
      type = RK_EV_FILE_DENY /\ rk_payload_file_deny_wf b /\ strings_ok s (fd_str_count b)
  | PTamper b => type = RK_EV_TAMPER /\ rk_payload_tamper_wf b
  | PRaw _ => type = RK_EV_UNLINK \/ type = RK_EV_RENAME \/ type = RK_EV_FORK \/
              type = RK_EV_EXIT
  end.

Definition verdict_known (v : Z) : Prop :=
  v = RK_VERDICT_ALLOW \/ v = RK_VERDICT_DENY \/ v = RK_VERDICT_AUDIT_WOULD_DENY.

Definition event_wf (ev : Event) : Prop :=
  rk_hdr_wf (ev_hdr ev) /\ hdr_abi (ev_hdr ev) = RK_ABI_VERSION /\
  verdict_known (hdr_verdict (ev_hdr ev)) /\
  payload_wf (hdr_type (ev_hdr ev)) (ev_payload ev) /\
  Z.of_nat (length (payload_bytes (ev_payload ev))) <= MAX_PAYLOAD.

Lemma read_body_ok {T} size of_bytes (enc rest : list Z) (b : T) :
  length enc = size -> of_bytes (enc ++ []) = b ->
  read_body size of_bytes (enc ++ rest) = inr (b, rest).
Proof.
  intros <- Hb. rewrite app_nil_r in Hb. unfold read_body.
  rewrite (proj2 (Nat.ltb_ge _ _)) by len.
  by rewrite take_app_length, drop_app_length, Hb.
Qed.

Lemma fixed_body_ok {T} size of_bytes (enc : list Z) (b : T) :
  length enc = size -> of_bytes (enc ++ []) = b ->
  fixed_body size of_bytes enc = inr b.
Proof.
  intros Hl Hb. unfold fixed_body. rewrite <- (app_nil_r enc) at 1.
  by rewrite (read_body_ok size of_bytes enc [] b).
Qed.

Lemma rk_payload_net_bytes_length b :
  rk_payload_net_wf b -> length (rk_payload_net_bytes b) = 40%nat.
Proof. intros (Hs & Hd & _). unfold rk_payload_net_bytes. len. Qed.

(** The three decoders with a string tail. *)
Lemma strings_body_ok {T} size of_bytes (enc : list Z) (b : T) (count : T -> Z)
    (mk : T -> Strings -> Payload) s :
  length enc = size -> of_bytes (enc ++ []) = b -> strings_ok s (count b) ->
  ('(body, tail) ← read_body size of_bytes (enc ++ str_data s);
   strings ← validate tail (count body);
   mret (mk body strings)) = inr (mk b s) :> res Payload.
Proof.
  intros Hl Hb (ss & -> & Hlen & Hss). rewrite (read_body_ok size _ _ _ b) by done.
  cbn [mbind res_bind str_data]. rewrite <- Hlen, validate_ok by done. done.
Qed.

(** Picks the branch of the match on a known event type. *)
Ltac branch := unfold decode_payload; cbn [Z.eqb Pos.eqb orb rk_event_type_val].

Lemma decode_payload_ok type p :
  payload_wf type p -> decode_payload type (payload_bytes p) = inr p.
Proof.
  destruct p as [b s|b s|b|b|b|b s|b|d]; cbn [payload_wf payload_bytes].
  - intros (-> & Hb & Hs). branch.
    by rewrite (strings_body_ok 24 _ _ b pe_str_count PExec) by (done || by auto with rk).
  - intros (-> & Hb & Hs). branch.
    by rewrite (strings_body_ok 32 _ _ b pf_str_count PFile) by (done || by auto with rk).
  - intros (Ht & Hb). pose proof (rk_payload_net_bytes_length b Hb) as Hl.
    destruct Ht as [-> | ->]; branch;
      by rewrite (fixed_body_ok 40 _ _ b) by (done || by auto with rk).
  - intros (-> & Hb). branch. by rewrite (fixed_body_ok 16 _ _ b) by (done || by auto with rk).
  - intros (-> & Hb). branch. by rewrite (fixed_body_ok 8 _ _ b) by (done || by auto with rk).
  - intros (-> & Hb & Hs). branch.
    by rewrite (strings_body_ok 32 _ _ b fd_str_count PFileDeny) by (done || by auto with rk).
  - intros (-> & Hb). branch. by rewrite (fixed_body_ok 16 _ _ b) by (done || by auto with rk).
  - by intros [->|[->|[->| ->]]].
Qed.

(** The parts of a record, read back. *)
Lemma event_bytes_parts h p :
  rk_hdr_wf h -> Z.of_nat (length p) <= MAX_PAYLOAD ->
  length (event_bytes h p) = (56 + length p)%nat /\
  rk_hdr_of_bytes (take HDR_LEN (event_bytes h p)) = h /\
  read_u32 (event_bytes h p) HDR_LEN = Some (Z.of_nat (length p)) /\
  read_u32 (event_bytes h p) (HDR_LEN + 4) = Some 0 /\
  drop RK_ENVELOPE_LEN (event_bytes h p) = p.
Proof.
  intros Hh Hp. unfold MAX_PAYLOAD, RK_SCRATCH_PAYLOAD_MAX in *.
  assert (length (event_bytes h p) = (56 + length p)%nat) as Hlen
    by (unfold event_bytes; len).
  unfold read_u32. rewrite Hlen. cbn [Nat.ltb Nat.leb Nat.add HDR_LEN].
  split_and!; [done| | | |].
  - unfold event_bytes. rewrite take_app_length' by done.
    rewrite <- (app_nil_r (rk_hdr_bytes h)). by apply rk_hdr_round_trip.
  - unfold event_bytes. rewrite drop_app_length' by done.
    rewrite take_app_length' by len. by rewrite le_value_bytes_small by (cbn; lia).
  - unfold event_bytes. rewrite app_assoc. rewrite drop_app_length' by len.
    by rewrite take_app_length' by len.
  - unfold event_bytes, RK_ENVELOPE_LEN. rewrite !app_assoc. by rewrite drop_app_length' by len.
Qed.

(** The envelope: what the checks of [decode] leave of a well-formed record. *)
Lemma decode_envelope h p :
  rk_hdr_wf h -> hdr_abi h = RK_ABI_VERSION -> verdict_known (hdr_verdict h) ->
  Z.of_nat (length p) <= MAX_PAYLOAD ->
  decode (event_bytes h p) =
  (payload ← decode_payload (hdr_type h) p; mret (mk_Event h payload)).
Proof.
  intros Hh Habi Hv Hp. destruct (event_bytes_parts h p Hh Hp) as (Hlen & Hhdr & Hpl & Hres & Hd).
  unfold decode. rewrite Hlen, Hhdr, Hpl, Hres, Hd, Habi. cbn [Nat.ltb Nat.leb Nat.add RK_ENVELOPE_LEN].
  rewrite Z.eqb_refl. cbn [negb Z.eqb]. rewrite (proj2 (Z.ltb_ge _ _)) by done.
  rewrite Nat2Z.id. cbn [Nat.eqb]. rewrite Nat.eqb_refl. cbn [negb].
  by destruct Hv as [-> | [-> | ->]].
Qed.

Lemma decode_encode_wf ev : event_wf ev -> decode (encode ev) = inr ev.
Proof.
  intros (Hh & Ha & Hv & Hp & Hl). unfold encode.
  rewrite decode_envelope, (decode_payload_ok _ (ev_payload ev)) by done.
  by destruct ev.
Qed.

(** ** What the decoder accepts *)

Lemma field_bytes bs off w :
  Forall byte_ok bs -> (off + w <= length bs)%nat ->
  le_bytes w (field bs off w) = take w (drop off bs).
Proof.
  intros Hb Hl. unfold field.
  replace w with (length (take w (drop off bs))) at 1 by len.
  apply le_bytes_value. by apply Forall_take, Forall_drop.
Qed.

Lemma field_fits bs off w :
  Forall byte_ok bs -> (off + w <= length bs)%nat -> fits w (field bs off w).
Proof.
  intros Hb Hl. unfold fits, field.
  assert (length (take w (drop off bs)) = w) as Hw by len.
  assert (Forall byte_ok (take w (drop off bs))) as Ht by (by apply Forall_take, Forall_drop).
  pose proof (le_value_bound _ Ht) as Hv. by rewrite Hw in Hv.
Qed.

(** Decoding then encoding a structure of [size] bytes gives the bytes back, and
    the structure is well formed. *)
Definition faithful {T} (size : nat) (of_bytes : list Z -> T) (bytes : T -> list Z)
    (wf : T -> Prop) : Prop :=
  forall bs, length bs = size -> Forall byte_ok bs ->
    bytes (of_bytes bs) = bs /\ wf (of_bytes bs).

Ltac solve_faithful :=
  let bs := fresh "bs" in let Hl := fresh "Hl" in let Hb := fresh "Hb" in
  intros bs Hl Hb; split;
  [ cbv [rk_hdr_bytes rk_payload_exec_bytes rk_payload_file_bytes rk_payload_net_bytes
         rk_payload_sock_bytes rk_payload_tun_bytes rk_payload_file_deny_bytes
         rk_payload_tamper_bytes rk_hdr_of_bytes rk_payload_exec_of_bytes
         rk_payload_file_of_bytes rk_payload_net_of_bytes rk_payload_sock_of_bytes
         rk_payload_tun_of_bytes rk_payload_file_deny_of_bytes rk_payload_tamper_of_bytes
         hdr_ts_ns hdr_cgroup_id hdr_policy_gen hdr_pid hdr_tgid hdr_uid hdr_gid hdr_type
         hdr_verdict hdr_abi hdr_rule_id
         pe_file_dev pe_file_ino pe_flags pe_str_count pe_pad
         pf_file_dev pf_file_ino pf_open_flags pf_mode pf_str_count pf_pad pf_pad2
         pn_saddr_v6 pn_daddr_v6 pn_sport pn_dport pn_family pn_protocol pn_pad
         ps_family ps_pad ps_type ps_protocol ps_pad2 pt_op pt_pad
         fd_file_dev fd_file_ino fd_access fd_hook fd_flags fd_pad fd_str_count fd_pad2
         fd_pad3 tp_hook tp_pad tp_target_tgid tp_detail];
    rewrite !field_bytes by (done || lia); clear Hb; list_vars bs; reflexivity
  | repeat split; try (by unfold rk_payload_net_of_bytes; cbn [pn_saddr_v6 pn_daddr_v6]; len);
    repeat (apply Forall_cons; split; [apply field_fits; [done|lia]|]); apply Forall_nil_2 ].

Lemma rk_hdr_faithful : faithful 48 rk_hdr_of_bytes rk_hdr_bytes rk_hdr_wf.
Proof. solve_faithful. Qed.

Lemma rk_payload_exec_faithful :
  faithful 24 rk_payload_exec_of_bytes rk_payload_exec_bytes rk_payload_exec_wf.
Proof. solve_faithful. Qed.

Lemma rk_payload_file_faithful :
  faithful 32 rk_payload_file_of_bytes rk_payload_file_bytes rk_payload_file_wf.
Proof. solve_faithful. Qed.

Lemma rk_payload_net_faithful :
  faithful 40 rk_payload_net_of_bytes rk_payload_net_bytes rk_payload_net_wf.
Proof. solve_faithful. Qed.

Lemma rk_payload_sock_faithful :
  faithful 16 rk_payload_sock_of_bytes rk_payload_sock_bytes rk_payload_sock_wf.
Proof. solve_faithful. Qed.

Lemma rk_payload_tun_faithful :
  faithful 8 rk_payload_tun_of_bytes rk_payload_tun_bytes rk_payload_tun_wf.
Proof. solve_faithful. Qed.

Lemma rk_payload_file_deny_faithful :
  faithful 32 rk_payload_file_deny_of_bytes rk_payload_file_deny_bytes rk_payload_file_deny_wf.
Proof. solve_faithful. Qed.

Lemma rk_payload_tamper_faithful :
  faithful 16 rk_payload_tamper_of_bytes rk_payload_tamper_bytes rk_payload_tamper_wf.
Proof. solve_faithful. Qed.

Lemma read_body_inv {T} size of_bytes (bytes : T -> list Z) wf p b tail :
  faithful size of_bytes bytes wf -> Forall byte_ok p ->
  read_body size of_bytes p = inr (b, tail) ->
  p = bytes b ++ tail /\ wf b /\ Forall byte_ok tail.
Proof.
  intros Hf Hp. unfold read_body. destruct (Nat.ltb_spec (length p) size); [done|].
  intros [= <- <-]. destruct (Hf (take size p)) as [Hb Hwf]; [len|by apply Forall_take|].
  rewrite Hb, take_drop. split_and!; [done|done|by apply Forall_drop].
Qed.

Lemma fixed_body_inv {T} size of_bytes (bytes : T -> list Z) wf p b :
  faithful size of_bytes bytes wf -> Forall byte_ok p ->
  fixed_body size of_bytes p = inr b -> p = bytes b /\ wf b.
Proof.
  intros Hf Hp. unfold fixed_body.
  destruct (read_body size of_bytes p) as [e|[b' [|? ?]]] eqn:Hr; [done| |done].
  intros [= <-]. apply (read_body_inv _ _ bytes wf) in Hr as (-> & ? & _); [|done..].
  by rewrite app_nil_r.
Qed.

Lemma strings_body_inv {T} size of_bytes (bytes : T -> list Z) wf (count : T -> Z)
    (mk : T -> Strings -> Payload) p pl :
  faithful size of_bytes bytes wf -> (forall b, wf b -> 0 <= count b) -> Forall byte_ok p ->
  ('(body, tail) ← read_body size of_bytes p;
   strings ← validate tail (count body); mret (mk body strings)) = inr pl ->
  exists b s, pl = mk b s /\ p = bytes b ++ str_data s /\ wf b /\ strings_ok s (count b).
Proof.
  intros Hf Hc Hp. cbn [mbind res_bind].
  destruct (read_body size of_bytes p) as [e|[b tail]] eqn:Hr; [done|].
  apply (read_body_inv _ _ bytes wf) in Hr as (-> & Hwf & Ht); [|done..].
  unfold mbind, res_bind.
  destruct (validate tail (count b)) as [e|s] eqn:Hv; [done|]. intros [= <-].
  apply validate_inv in Hv as (Hd & Hr & Hl & Ht' & Hss); [|done|by apply Hc].
  exists b, s. split_and!; [done|by rewrite Hd|done|]. exists (strings_of s).
  split_and!; [|specialize (Hc b Hwf); lia|done].
  rewrite <- Ht', <- Hd, <- Hr. by destruct s.
Qed.

Lemma decode_payload_inv type p pl :
  Forall byte_ok p -> decode_payload type p = inr pl ->
  payload_bytes pl = p /\ payload_wf type pl.
Proof.
  intros Hp. unfold decode_payload.
  assert (forall b, rk_payload_exec_wf b -> 0 <= pe_str_count b) as Hc1
    by (intros b Hb; unfold rk_payload_exec_wf in Hb; fits_cases; unfold fits in *; lia).
  assert (forall b, rk_payload_file_wf b -> 0 <= pf_str_count b) as Hc2
    by (intros b Hb; unfold rk_payload_file_wf in Hb; fits_cases; unfold fits in *; lia).
  assert (forall b, rk_payload_file_deny_wf b -> 0 <= fd_str_count b) as Hc3
    by (intros b Hb; unfold rk_payload_file_deny_wf in Hb; fits_cases; unfold fits in *; lia).
  destruct (Z.eqb_spec type RK_EV_EXEC) as [->|_].
  { intros H. apply (strings_body_inv _ _ _ _ _ _ _ _ rk_payload_exec_faithful Hc1 Hp) in H
      as (b & s & -> & -> & ? & ?). done. }
  destruct (Z.eqb_spec type RK_EV_FILE_OPEN) as [->|_].
  { intros H. apply (strings_body_inv _ _ _ _ _ _ _ _ rk_payload_file_faithful Hc2 Hp) in H
      as (b & s & -> & -> & ? & ?). done. }
  destruct ((type =? RK_EV_NET_CONNECT) || (type =? RK_EV_SENDMSG))%bool eqn:Hn.
  { intros H. destruct (fixed_body 40 _ p) as [e|b] eqn:Hb; [done|]. injection H as <-.
    apply (fixed_body_inv _ _ _ _ _ _ rk_payload_net_faithful Hp) in Hb as [-> Hwf].
    split; [done|]. split; [|done]. apply orb_true_iff in Hn as [?%Z.eqb_eq|?%Z.eqb_eq]; auto. }
  clear Hn. destruct (Z.eqb_spec type RK_EV_SOCK_CREATE) as [->|_].
  { intros H. destruct (fixed_body 16 _ p) as [e|b] eqn:Hb; [done|]. injection H as <-.
    by apply (fixed_body_inv _ _ _ _ _ _ rk_payload_sock_faithful Hp) in Hb as [-> Hwf]. }
  destruct (Z.eqb_spec type RK_EV_TUN) as [->|_].
  { intros H. destruct (fixed_body 8 _ p) as [e|b] eqn:Hb; [done|]. injection H as <-.
    by apply (fixed_body_inv _ _ _ _ _ _ rk_payload_tun_faithful Hp) in Hb as [-> Hwf]. }
  destruct (Z.eqb_spec type RK_EV_TAMPER) as [->|_].
  { intros H. destruct (fixed_body 16 _ p) as [e|b] eqn:Hb; [done|]. injection H as <-.
    by apply (fixed_body_inv _ _ _ _ _ _ rk_payload_tamper_faithful Hp) in Hb as [-> Hwf]. }
  destruct (Z.eqb_spec type RK_EV_FILE_DENY) as [->|_].
  { intros H. apply (strings_body_inv _ _ _ _ _ _ _ _ rk_payload_file_deny_faithful Hc3 Hp) in H
      as (b & s & -> & -> & ? & ?). done. }
  destruct (_ || _)%bool eqn:Hraw; [|done]. intros [= <-]. split; [done|]. cbn.
  repeat (apply orb_true_iff in Hraw as [Hraw|?%Z.eqb_eq]; [|auto]). apply Z.eqb_eq in Hraw. auto.
Qed.

Lemma read_u32_inv bs off v : read_u32 bs off = Some v -> v = field bs off 4.
Proof. unfold read_u32. destruct (_ <? _)%nat; [done|]. by intros [= <-]. Qed.

(** A record is its header, envelope and payload. *)
Lemma event_split bs :
  Forall byte_ok bs -> (56 <= length bs)%nat -> field bs (48 + 4) 4 = 0 ->
  take 48 bs ++ le_bytes 4 (field bs 48 4) ++ le_bytes 4 0 ++ drop 56 bs = bs.
Proof.
  intros Hb Hl Hz. rewrite <- Hz, !field_bytes by (done || lia).
  replace (drop 56 bs) with (drop 4 (drop 52 bs)) by by rewrite drop_drop.
  change (48 + 4)%nat with 52%nat. rewrite take_drop.
  replace (drop 52 bs) with (drop 4 (drop 48 bs)) by by rewrite drop_drop.
  by rewrite !take_drop.
Qed.

(** Everything [decode] accepts, taken apart. *)
Lemma decode_inv bs ev :
  Forall byte_ok bs -> decode bs = inr ev -> encode ev = bs /\ event_wf ev.
Proof.
  intros Hb. unfold decode.
  destruct (Nat.ltb_spec (length bs) RK_ENVELOPE_LEN) as [|Hlen]; [done|].
  unfold RK_ENVELOPE_LEN, HDR_LEN in *.
  destruct (rk_hdr_faithful (take 48 bs)) as [Hhb Hhwf]; [len|by apply Forall_take|].
  set (h := rk_hdr_of_bytes (take 48 bs)) in *.
  destruct (negb (hdr_abi h =? RK_ABI_VERSION)) eqn:Habi; [done|].
  destruct (read_u32 bs 48) as [plen|] eqn:Hpl; [|done]. apply read_u32_inv in Hpl as ->.
  destruct (read_u32 bs (48 + 4)) as [rv|] eqn:Hres; [|done]. apply read_u32_inv in Hres as ->.
  destruct (negb (field bs (48 + 4) 4 =? 0)) eqn:Hres; [done|].
  destruct (MAX_PAYLOAD <? field bs 48 4) eqn:Hmax; [done|].
  destruct (negb (_ =? length bs)%nat) eqn:Hll; [done|].
  destruct (negb ((hdr_verdict h =? _) || _ || _)) eqn:Hv; [done|].
  destruct (decode_payload (hdr_type h) (drop 56 bs)) as [e|pl] eqn:Hdp; [done|].
  intros [= <-]. apply decode_payload_inv in Hdp as [Hpb Hpwf]; [|by apply Forall_drop].
  bool_to_prop. apply Nat.eqb_eq in Hll.
  assert (0 <= field bs 48 4) by (apply (field_fits bs 48 4); [done|lia]).
  assert (Z.of_nat (length (drop 56 bs)) = field bs 48 4) as Hdl by len.
  unfold encode, event_wf, event_bytes. cbn [ev_hdr ev_payload]. rewrite Hpb, Hhb, Hdl.
  split_and!; [by apply event_split|done|done| |done|lia].
  unfold verdict_known.
  repeat (apply orb_true_iff in Hv as [Hv|?%Z.eqb_eq]; [|auto]). apply Z.eqb_eq in Hv. auto.
Qed.

(** ** Properties of the decoder *)

(** C33. Decoding inverts encoding: every well-formed event, of every type, is read
    back exactly from its bytes. *)
Theorem decode_inverts_encode ev : event_wf ev -> decode (encode ev) = inr ev.
Proof. apply decode_encode_wf. Qed.

Lemma decode_inverts_encode_witness :
  let ev := mk_Event (mk_rk_hdr 5 500 7 1 1 0 0 12 1 2 9) (PTun (mk_rk_payload_tun 2 0)) in
  decode (encode ev) = inr ev.
Proof.
  apply decode_inverts_encode. split_and!; try done.
  - by repeat (apply Forall_cons; split).
  - by right; left.
  - split; [done|]. by repeat (apply Forall_cons; split).
Defined.

(** C34. The decoder accepts encodings only: a byte string it accepts is, byte for
    byte, the encoding of the event it returns, and that event is well formed.  No
    byte of a record is ignored. *)
Theorem decode_accepts_only_encodings bs ev :
  Forall byte_ok bs -> decode bs = inr ev -> bs = encode ev /\ event_wf ev.
Proof. intros Hb Hd. by destruct (decode_inv bs ev Hb Hd) as [<- ?]. Qed.

Lemma decode_accepts_only_encodings_witness :
  let h := mk_rk_hdr 5 500 7 1 1 0 0 12 1 2 9 in
  let bs := event_bytes h [2; 0; 0; 0; 0; 0; 0; 0] in
  bs = encode (mk_Event h (PTun (mk_rk_payload_tun 2 0))) /\
  event_wf (mk_Event h (PTun (mk_rk_payload_tun 2 0))).
Proof.
  apply decode_accepts_only_encodings; [|vm_compute; reflexivity].
  by repeat (apply Forall_cons; split).
Defined.

(** C36. Iterating a decoded event's strings cannot fail: a validated tail yields
    exactly as many strings as the body announces, and they make up the whole
    tail. *)
Theorem validated_strings_iterate data count s :
  Forall byte_ok data -> 0 <= count -> validate data count = inr s ->
  Z.of_nat (length (strings_of s)) = count /\ data = strings_of s ≫= str_field.
Proof.
  intros Hb Hc Hv. destruct (validate_inv data count s Hb Hc Hv) as (_ & _ & Hl & Hd & _).
  split; [lia|done].
Qed.

Lemma validated_strings_iterate_witness :
  let s := mk_Strings [2; 0; 115; 104; 0; 0] 2 in
  Z.of_nat (length (strings_of s)) = 2 /\ [2; 0; 115; 104; 0; 0] = strings_of s ≫= str_field.
Proof.
  apply validated_strings_iterate; [|lia|vm_compute; reflexivity].
  by repeat (apply Forall_cons; split).
Defined.
