(* ===== verification/Events.v ===== *)
(** * The records the programs emit

    For every program that reports: the exact bytes it offers to the ring buffer,
    as the encoding of a typed record, whatever the scratch buffer held before. *)

From S2P Require Import Prelude Abi Bpf Scenario Logic Common Governance.
From S2P Require Import Net Exec File Guard Selftest Emit.
Open Scope Z_scope.

(** The header of a decision's record. *)
Definition decision_hdr (e : kenv) (g : rk_gov) (type : rk_event_type) (action rule_id : Z)
    : rk_hdr :=
  event_hdr e (g_cgroup_id g) (g_policy_gen g) type (rk_reported_verdict g action)
    (rk_rule g action rule_id).

(** A buffer of the declared size. *)
Definition scratch_ok (w : world) (m : rk_scratch_buf) : Prop :=
  has_msg w m /\ length (sb_mem m) = 4096%nat.

(** The payload after the body's stores: [mem] starts with [n] arbitrary bytes. *)
Lemma split_mem n (mem : list Z) :
  length mem = 4096%nat -> (n <= 4096)%nat ->
  exists front rest, mem = front ++ rest /\ length front = n.
Proof.
  intros Hm Hn. exists (take n mem), (drop n mem). rewrite take_drop. split; [done|len].
Qed.

(** ** Programs that leave the recorded exec decisions alone *)

Class KeepsDecided `{K : BpfKernel} {A} (p : prog A) : Prop :=
  keeps_decided : forall w, t_exec_decided (w_tele (final p w)) = t_exec_decided (w_tele w).

Lemma keeps_decided_ret `{K : BpfKernel} {A} (a : A) : KeepsDecided (mret a).
Proof. by intros w. Qed.

Lemma keeps_decided_bind `{K : BpfKernel} {A B} (p : prog A) (f : A -> prog B) :
  KeepsDecided p -> (forall a, KeepsDecided (f a)) -> KeepsDecided (p ≫= f).
Proof. intros Hp Hf w. by rewrite final_bind, Hf, Hp. Qed.

Definition op_no_decided {X : Set} (o : op X) : bool :=
  match o with UpdExecDecided _ _ | DelExecDecided _ => false | _ => true end.

Lemma keeps_decided_call `{K : BpfKernel} {X : Set} (o : op X) :
  op_no_decided o = true -> KeepsDecided (call o).
Proof.
  intros Ho w. rewrite final_call. destruct o; try done. cbn. by destruct (_ <? 0).
Qed.

Ltac keeps_decided_step :=
  match goal with
  | |- KeepsDecided (mbind _ _) => apply keeps_decided_bind; [|intros ?]
  | |- KeepsDecided (mret _) => apply keeps_decided_ret
  | |- KeepsDecided (call _) => apply keeps_decided_call; reflexivity
  | |- KeepsDecided (match ?x with _ => _ end) => destruct x
  | |- KeepsDecided (let '(_, _) := ?x in _) => destruct x
  | |- KeepsDecided (rk_count _) => unfold rk_count
  | |- KeepsDecided rk_scratch => unfold rk_scratch
  | |- KeepsDecided (rk_fill_hdr _ _ _ _ _) => unfold rk_fill_hdr
  | |- KeepsDecided rk_fill_task => unfold rk_fill_task
  | |- KeepsDecided (rk_append_kstr _ _) => unfold rk_append_kstr
  | |- KeepsDecided rk_emit => unfold rk_emit
  end.
Ltac by_keeps_decided :=
  match goal with
  | |- t_exec_decided (w_tele (final ?p ?w)) = _ =>
      let H := fresh in
      assert (H : KeepsDecided p) by (unfold rk_count_decision; repeat keeps_decided_step);
      apply H
  end.

(** Unfolds the stores of a message, and only those. *)
Ltac msg_fields :=
  cbn [sb_set_payload_len sb_payload_len sb_mem sb_store sb_write sb_set_hdr
       sb_set_reserved sb_hdr sb_reserved].

(** A message built by stores alone is well formed. *)
Ltac solve_msg_ok Hmem :=
  split; [msg_fields; rewrite !length_inserts; exact Hmem
         |msg_fields; unfold RK_SCRATCH_PAYLOAD_MAX; lia].

(** Runs a reporting program up to its message: the scratch lookup, the header,
    and the stores of the body. *)
Ltac run_report w m :=
  rewrite final_bind, (result_scratch w m), (final_scratch w m) by done; cbn [negb];
  rewrite !final_bind, final_fill_hdr, final_fill_task, !final_st.

(** The payload of a message whose body is [n] bytes. *)
Ltac body_bytes n m :=
  unfold payload; msg_fields;
  let front := fresh "front" in
  destruct (split_mem n (sb_mem m)) as (front & ? & -> & ?); [done|lia|];
  list_vars front; reflexivity.

Section Events.
Context `{K : BpfKernel}.

Lemma net_emit_ring g type action rule_id addr port family protocol w m :
  scratch_ok w m -> length addr = 16%nat ->
  ring (final (rk_net_emit g type action rule_id addr port family protocol) w) =
  published (w_tele w) (event_bytes (event_hdr (w_env w) (g_cgroup_id g) (g_policy_gen g) type
      (rk_reported_verdict g action) (rk_rule g action rule_id))
    (rk_payload_net_bytes (mk_rk_payload_net (replicate 16 0) addr 0 port family
       (u8 protocol) 0))).
Proof.
  intros [Hmsg Hmem] Haddr. unfold rk_net_emit. run_report w m.
  rewrite emit_ring by first [solve_msg_ok Hmem|done].
  do 2 f_equal. list_vars addr. body_bytes 40%nat m.
Qed.

Lemma count_decision_final hook g action w :
  exists c, final (rk_count_decision hook g action) w = map_tele (set_counters c) w.
Proof.
  unfold rk_count_decision. destruct (_ || _)%bool; [|apply count_final].
  exists (t_counters (w_tele w)). by destruct w as [mp e []].
Qed.

Lemma sock_addr_bytes_length ctx v6 : length (sock_addr_bytes ctx v6) = 16%nat.
Proof. by destruct v6. Qed.

Lemma sock_addr_ring ctx v6 type w m g :
  scratch_ok w m -> result rk_governance w = Some g ->
  let addr := sock_addr_bytes ctx v6 in
  let port := bpf_ntohs (u16 (user_port ctx)) in
  let d := net_decision (w_maps w) g addr port (rk_proto_bit (sa_protocol ctx)) in
  ring (final (rk_net_sock_addr ctx v6 type) w) =
  published (w_tele w) (event_bytes (decision_hdr (w_env w) g type d.1 d.2)
    (rk_payload_net_bytes (mk_rk_payload_net (replicate 16 0) addr 0 port
       (if v6 then RK_AF_INET6 else RK_AF_INET) (u8 (sa_protocol ctx)) 0))).
Proof.
  intros Hs Hg. cbv zeta. unfold rk_net_sock_addr. rewrite final_read_only, Hg by apply _.
  rewrite final_read_only, rk_net_verdict_spec by apply _.
  destruct (net_decision _ _ _ _ _) as [action rule_id].
  rewrite !final_bind.
  match goal with |- context [final (rk_count_decision ?h ?g ?a) w] =>
    destruct (count_decision_final h g a w) as [c ->] end.
  apply (net_emit_ring g type action rule_id _ _ _ _ (map_tele (set_counters c) w) m);
    [exact Hs|apply sock_addr_bytes_length].
Qed.

Lemma socket_create_ring family type protocol w m g :
  scratch_ok w m -> result rk_governance w = Some g ->
  rk_sock_observed family type protocol = false ->
  ring (final (rk_net_socket_create family type protocol 0 0) w) =
  published (w_tele w)
    (event_bytes (decision_hdr (w_env w) g RK_EV_SOCK_CREATE (rk_raw_action g) 0)
       (rk_payload_sock_bytes (mk_rk_payload_sock (u16 family) 0 (u32 type) (u32 protocol) 0))).
Proof.
  intros Hs Hg Ho. unfold rk_net_socket_create. cbn [Z.eqb negb].
  rewrite Ho, final_read_only, Hg by apply _. rewrite final_bind.
  destruct (count_decision_final RK_HOOK_SOCK_CREATE g (rk_raw_action g) w) as [c ->].
  set (w' := map_tele (set_counters c) w).
  assert (scratch_ok w' m) as [Hmsg Hmem] by done.
  run_report w' m. rewrite final_ret, emit_ring by first [solve_msg_ok Hmem|done].
  do 2 f_equal. body_bytes 16%nat m.
Qed.

Lemma tun_ring op w m g :
  scratch_ok w m -> result rk_governance w = Some g ->
  ring (final (rk_net_tun op) w) =
  published (w_tele w) (event_bytes (decision_hdr (w_env w) g RK_EV_TUN (rk_raw_action g) 0)
    (rk_payload_tun_bytes (mk_rk_payload_tun op 0))).
Proof.
  intros Hs Hg. unfold rk_net_tun. rewrite final_read_only, Hg by apply _. rewrite final_bind.
  destruct (count_decision_final RK_HOOK_TUN g (rk_raw_action g) w) as [c ->].
  set (w' := map_tele (set_counters c) w).
  assert (scratch_ok w' m) as [Hmsg Hmem] by done.
  run_report w' m. rewrite final_ret, emit_ring by first [solve_msg_ok Hmem|done].
  do 2 f_equal. body_bytes 8%nat m.
Qed.

Lemma guard_ring g hook target detail w m :
  scratch_ok w m ->
  ring (final (rk_guard_decide g hook target detail) w) =
  published (w_tele w)
    (event_bytes (event_hdr (w_env w) (g_cgroup_id g) (g_policy_gen g) RK_EV_TAMPER
       (rk_reported_verdict g RK_ACTION_DENY) 0)
       (rk_payload_tamper_bytes (mk_rk_payload_tamper hook 0 target detail))).
Proof.
  intros [Hmsg Hmem]. unfold rk_guard_decide.
  rewrite final_bind, (result_scratch w m), (final_scratch w m) by done.
  rewrite final_bind.
  match goal with |- context [final (rk_count_decision ?h ?g ?a) ?w1] =>
    destruct (count_decision_final h g a w1) as [c ->] end.
  set (m1 := sb_set_reserved 0 (sb_set_payload_len 0 m)).
  change (map_tele (set_counters c) (with_msg m1 w))
    with (with_msg m1 (map_tele (set_counters c) w)). cbn [negb].
  rewrite !final_bind, final_fill_hdr, final_fill_task, !final_st, final_ret.
  rewrite emit_ring by first [solve_msg_ok Hmem|done].
  do 2 f_equal. subst m1. body_bytes 16%nat m.
Qed.

(** A record whose last string was just appended. *)
Lemma emit_extended m m' ext w h body :
  extends m m' ext -> sb_reserved m = 0 -> sb_hdr m = h -> payload m = body ->
  ring (final rk_emit (with_msg m' w)) = published (w_tele w) (event_bytes h (body ++ ext)).
Proof.
  intros (Hok & Hh & Hr & _ & Hp) Hr0 <- <-. rewrite emit_ring by congruence.
  by rewrite Hh, Hp.
Qed.

(** The name a file record carries. *)
Definition file_name (e : kenv) (name_dentry : Z) : list Z :=
  if name_dentry =? 0 then []
  else kstr e 32 256 (k_field e dentry_d_name_name name_dentry).

Lemma file_emit_ring g key name_dentry access hook action rule_id event_flags w m :
  scratch_ok w m -> kenv_wf (w_env w) -> rk_effective_deny g action = true ->
  ring (final (rk_file_emit g key name_dentry access hook action rule_id event_flags) w) =
  published (w_tele w)
    (event_bytes (decision_hdr (w_env w) g RK_EV_FILE_DENY action rule_id)
       (rk_payload_file_deny_bytes
          (mk_rk_payload_file_deny (fk_dev key) (fk_ino key) access hook event_flags 0 1 0 0) ++
        str_field (file_name (w_env w) name_dentry))).
Proof.
  intros [Hmsg Hmem] Henv Hd. unfold rk_file_emit. rewrite Hd. cbn [negb].
  run_report w m.
  match goal with |- context [with_msg ?M w] => set (m1 := M) end.
  assert (msg_ok m1) as Hok by (subst m1; solve_msg_ok Hmem).
  unfold file_name. destruct (Z.eqb_spec name_dentry 0) as [->|Hne]; cbn [negb].
  - rewrite final_bind, final_call, result_call. cbn [handle fst snd]. rewrite env_with_msg.
    destruct (append_kstr_spec w m1 Henv Hok (k_empty_literal (w_env w)) 1) as (m' & -> & Hext);
      [lia|by cbn; unfold RK_SCRATCH_PAYLOAD_MAX|].
    unfold kstr in Hext. cbn [sb_payload_len m1 sb_set_payload_len] in Hext.
    change (Z.min 1 (RK_SCRATCH_PAYLOAD_MAX - 2 - 32)) with 1 in Hext.
    destruct Henv as (_ & _ & He). rewrite He in Hext.
    apply (emit_extended m1 m'); [done..|]. subst m1. body_bytes 32%nat m.
  - rewrite final_bind, final_call, result_call. cbn [handle fst snd]. rewrite env_with_msg.
    match goal with |- context [rk_append_kstr ?s 256] =>
      destruct (append_kstr_spec w m1 Henv Hok s 256) as (m' & -> & Hext) end;
      [lia|by cbn; unfold RK_SCRATCH_PAYLOAD_MAX|].
    apply (emit_extended m1 m'); [done..|]. subst m1. body_bytes 32%nat m.
Qed.

Lemma file_check_ring g inode start name access hook w m :
  scratch_ok w m -> kenv_wf (w_env w) ->
  let '(action, rule_id, flags) := file_decision (w_maps w) (w_env w) g inode start access in
  ring (final (rk_file_check g inode start name access hook) w) =
  if rk_effective_deny g action then
    published (w_tele w)
      (event_bytes (decision_hdr (w_env w) g RK_EV_FILE_DENY action rule_id)
         (rk_payload_file_deny_bytes
            (mk_rk_payload_file_deny (fk_dev (file_key (w_env w) g inode))
               (fk_ino (file_key (w_env w) g inode)) access hook flags 0 1 0 0) ++
          str_field (file_name (w_env w) name)))
  else ring w.
Proof.
  intros Hs Henv. unfold rk_file_check.
  rewrite final_read_only, rk_file_key_of_result by apply _.
  rewrite final_read_only, file_decide_spec by apply _.
  destruct (file_decision _ _ _ _ _ _) as [[action rule_id] flags].
  rewrite !final_bind, final_ret.
  destruct (count_decision_final RK_HOOK_FILE g action w) as [c ->].
  destruct (rk_effective_deny g action) eqn:Hd.
  - by apply (file_emit_ring g _ name access hook action rule_id flags
      (map_tele (set_counters c) w) m).
  - unfold rk_file_emit. by rewrite Hd.
Qed.

(** The key and the flags an exec record reports. *)
Definition exec_body (e : kenv) (g : rk_gov) (bprm flags strs : Z) : rk_payload_exec :=
  let key := exec_key e g (bprm_inode e bprm) in
  mk_rk_payload_exec (ek_dev key) (ek_ino key) flags strs 0.

Definition exec_filename (e : kenv) (bprm : Z) : list Z :=
  kstr e 24 256 (k_field e linux_binprm_filename bprm).

Lemma exec_check_ring bprm w m g :
  scratch_ok w m -> kenv_wf (w_env w) -> result rk_governance w = Some g ->
  let d := exec_decision (w_maps w) g (exec_key (w_env w) g (bprm_inode (w_env w) bprm))
             (bprm_unlinked (w_env w) bprm) in
  let flags := if bprm_unlinked (w_env w) bprm
               then Z.lor RK_EXEC_DECISION RK_EXEC_UNLINKED else RK_EXEC_DECISION in
  ring (final (rk_exec_check bprm 0) w) =
  if rk_effective_deny g d.1 then
    published (w_tele w)
      (event_bytes (decision_hdr (w_env w) g RK_EV_EXEC d.1 d.2)
         (rk_payload_exec_bytes (exec_body (w_env w) g bprm flags 1) ++
          str_field (exec_filename (w_env w) bprm)))
  else ring w.
Proof.
  intros Hs Henv Hg. cbv zeta. unfold rk_exec_check. cbn [Z.eqb negb].
  rewrite final_read_only, Hg by apply _.
  do 2 (rewrite final_bind, final_call, result_call; cbn [handle fst snd]).
  rewrite final_read_only, rk_exec_key_of_result by apply _.
  rewrite final_bind, final_call, result_call; cbn [handle fst snd].
  fold (bprm_inode (w_env w) bprm). fold (bprm_unlinked (w_env w) bprm).
  rewrite final_read_only, rk_exec_action_result by apply _.
  destruct (exec_decision _ _ _ _) as [action rule_id]. cbn [fst snd].
  rewrite final_bind, final_call, result_call; cbn [handle fst snd].
  rewrite final_bind, final_call; cbn [handle fst snd].
  match goal with |- context [final _ (map_tele ?f w)] => set (w1 := map_tele f w) end.
  rewrite final_bind. destruct (count_decision_final RK_HOOK_EXEC g action w1) as [c ->].
  set (w2 := map_tele (set_counters c) w1). rewrite final_bind, final_ret.
  destruct (rk_effective_deny g action); cbn [negb]; [|done].
  assert (scratch_ok w2 m) as [Hmsg Hmem] by done.
  run_report w2 m.
  match goal with |- context [with_msg ?M w2] => set (m1 := M) end.
  assert (msg_ok m1) as Hok by (subst m1; solve_msg_ok Hmem).
  rewrite final_call, result_call. cbn [handle fst snd]. rewrite env_with_msg.
  match goal with |- context [rk_append_kstr ?s 256] =>
    destruct (append_kstr_spec w2 m1 Henv Hok s 256) as (m' & -> & Hext) end;
    [lia|by cbn; unfold RK_SCRATCH_PAYLOAD_MAX|].
  change (published (w_tele w)) with (published (w_tele w2)).
  apply (emit_extended m1 m'); [done..|]. subst m1. body_bytes 24%nat m.
Qed.

(** The argument area of the new program. *)
Definition exec_argv_src (e : kenv) (p : Z) : Z :=
  k_field e mm_struct_arg_start (k_field e task_struct_mm p).

Definition exec_argv_end (e : kenv) (p : Z) : Z :=
  k_field e mm_struct_arg_end (k_field e task_struct_mm p).

Definition exec_argv_want (e : kenv) (p : Z) : Z :=
  if exec_argv_src e p <? exec_argv_end e p
  then u64 (exec_argv_end e p - exec_argv_src e p) else 0.

(** Where the second string starts. *)
Definition exec_argv_off (e : kenv) (bprm : Z) : Z :=
  24 + Z.of_nat (length (str_field (exec_filename e bprm))).

Definition exec_argv (e : kenv) (p bprm : Z) : list Z :=
  ublob e (exec_argv_off e bprm) (exec_argv_want e p) (exec_argv_src e p).

(** Truncation and read failure of the arguments, reported as flags. *)
Definition exec_record_flags (e : kenv) (p bprm : Z) : Z :=
  let base := if bprm_unlinked e bprm then rk_exec_flag_val RK_EXEC_UNLINKED else 0 in
  let room := RK_SCRATCH_PAYLOAD_MAX - 2 - exec_argv_off e bprm in
  let want := exec_argv_want e p in
  if (k_user e (Z.min want room) (exec_argv_src e p)).1 <? 0
  then Z.lor base RK_EXEC_ARGV_UNAVAILABLE
  else if room <? want then Z.lor base RK_EXEC_ARGV_TRUNCATED else base.

(** The generation and rule that decided: those recorded for the thread, or the
    ones in force when nothing was recorded. *)
Definition exec_deciding (m : policy_maps) (e : kenv) (decided : option rk_exec_decision)
    (g : rk_gov) (bprm : Z) : Z * Z :=
  match decided with
  | Some d => (ed_policy_gen d, ed_rule_id d)
  | None => (g_policy_gen g,
      match m_exec_allow m !! exec_key e g (bprm_inode e bprm) with
      | Some r => er_rule_id r | None => 0 end)
  end.

Lemma kstr_length e off max_len src :
  kenv_wf e -> 1 <= max_len -> off + 3 <= RK_SCRATCH_PAYLOAD_MAX ->
  Z.of_nat (length (kstr e off max_len src)) < max_len.
Proof.
  intros [Hs _] Hm Ho. unfold kstr.
  specialize (Hs (Z.min max_len (RK_SCRATCH_PAYLOAD_MAX - 2 - off)) src).
  destruct (k_str _ _ _) as [n bs]. destruct Hs as (? & ? & _); [lia|]. len.
Qed.

(** The flags follow from what the append of the arguments returned. *)
Lemma record_flags_eq e p bprm :
  exec_record_flags e p bprm =
  let base := if bprm_unlinked e bprm then rk_exec_flag_val RK_EXEC_UNLINKED else 0 in
  let room := RK_SCRATCH_PAYLOAD_MAX - 2 - exec_argv_off e bprm in
  let copied :=
    if (k_user e (Z.min (exec_argv_want e p) room) (exec_argv_src e p)).1 <? 0 then -1
    else if room <? exec_argv_want e p then 1 else 0 in
  if 0 <? copied then Z.lor base RK_EXEC_ARGV_TRUNCATED
  else if copied <? 0 then Z.lor base RK_EXEC_ARGV_UNAVAILABLE else base.
Proof.
  cbv zeta. unfold exec_record_flags. destruct (_ <? 0); [done|]. by destruct (_ <? _).
Qed.

(** The flags stored into the finished record replace only the flags. *)
Lemma emit_stored_flags m1 m3 ext w h dev ino stale flags :
  extends m1 m3 ext -> sb_payload_len m3 = 24 + Z.of_nat (length ext) ->
  sb_reserved m1 = 0 -> sb_hdr m1 = h ->
  payload m1 = le_bytes 8 dev ++ le_bytes 8 ino ++ stale ++ le_bytes 2 2 ++ le_bytes 2 0 ->
  length stale = 4%nat ->
  ring (final rk_emit (with_msg (sb_store 4 16 flags m3) w)) =
  published (w_tele w) (event_bytes h
    (rk_payload_exec_bytes (mk_rk_payload_exec dev ino flags 2 0) ++ ext)).
Proof.
  intros (Hok & Hh & Hr & _ & Hp) Hl Hr0 <- Hpay Hstale. list_vars stale. rewrite emit_ring.
  - unfold sb_store. rewrite payload_write by (done || len). rewrite Hp, Hpay.
    cbn [sb_write sb_hdr]. rewrite Hh, inserts_app_prefix by (cbn; lia). done.
  - destruct Hok. split; [|done]. unfold sb_store. msg_fields. by rewrite length_inserts.
  - by cbn; rewrite Hr.
Qed.

(** The rest of the record once the header and the fixed part are written: the two
    strings, then the flags. *)
Lemma record_tail p bprm flags w m1 h dev ino stale :
  kenv_wf (w_env w) -> msg_ok m1 -> sb_payload_len m1 = 24 -> sb_reserved m1 = 0 ->
  flags = (if bprm_unlinked (w_env w) bprm then rk_exec_flag_val RK_EXEC_UNLINKED else 0) ->
  sb_hdr m1 = h ->
  payload m1 = le_bytes 8 dev ++ le_bytes 8 ino ++ stale ++ le_bytes 2 2 ++ le_bytes 2 0 ->
  length stale = 4%nat ->
  ring (final
    (filename ← call (CoreRead linux_binprm_filename bprm);
     rk_append_kstr filename 256;;
     mm ← call (CoreRead task_struct_mm p);
     arg_start ← call (CoreRead mm_struct_arg_start mm);
     arg_end ← call (CoreRead mm_struct_arg_end mm);
     copied ← rk_append_ublob arg_start
                (if arg_start <? arg_end then u64 (arg_end - arg_start) else 0);
     let flags :=
       if 0 <? copied then Z.lor flags RK_EXEC_ARGV_TRUNCATED
       else if copied <? 0 then Z.lor flags RK_EXEC_ARGV_UNAVAILABLE
       else flags in
     call (StMsg (sb_store 4 16 flags));;
     rk_emit;;
     mret 0) (with_msg m1 w)) =
  published (w_tele w) (event_bytes h
    (rk_payload_exec_bytes (mk_rk_payload_exec dev ino (exec_record_flags (w_env w) p bprm) 2 0) ++
     str_field (exec_filename (w_env w) bprm) ++ str_field (exec_argv (w_env w) p bprm))).
Proof.
  intros Henv Hok Hlen Hres -> Hhdr Hpay Hstale.
  rewrite final_bind, final_call, result_call. cbn [handle fst snd]. rewrite env_with_msg.
  rewrite final_bind.
  destruct (append_kstr_spec w m1 Henv Hok (k_field (w_env w) linux_binprm_filename bprm) 256)
    as (m2 & -> & Hext); [lia|by rewrite Hlen; unfold RK_SCRATCH_PAYLOAD_MAX|].
  rewrite Hlen in Hext. fold (exec_filename (w_env w) bprm) in Hext.
  do 3 (rewrite final_bind, final_call, result_call; cbn [handle fst snd]; rewrite env_with_msg).
  fold (exec_argv_src (w_env w) p). fold (exec_argv_end (w_env w) p).
  fold (exec_argv_want (w_env w) p).
  assert (sb_payload_len m2 = exec_argv_off (w_env w) bprm) as Hlen2.
  { rewrite (extends_length m1 m2 _ Hok Hext), Hlen. done. }
  assert (exec_argv_off (w_env w) bprm <= RK_SCRATCH_PAYLOAD_MAX - 3) as Hroom.
  { unfold exec_argv_off, str_field, exec_filename, RK_SCRATCH_PAYLOAD_MAX.
    pose proof (kstr_length (w_env w) 24 256 (k_field (w_env w) linux_binprm_filename bprm) Henv).
    unfold RK_SCRATCH_PAYLOAD_MAX in *. len. }
  assert (0 <= exec_argv_want (w_env w) p < 2 ^ 64) as Hwant.
  { unfold exec_argv_want. destruct (_ <? _); [apply u64_bound|lia]. }
  assert (msg_ok m2) as Hok2 by apply Hext.
  destruct (append_ublob_spec w m2 Henv Hok2 (exec_argv_src (w_env w) p)
    (exec_argv_want (w_env w) p)) as (m3 & Hf3 & Hext3 & Hr3); [done|by rewrite Hlen2|].
  rewrite final_bind, Hf3, Hr3. rewrite Hlen2 in *. fold (exec_argv (w_env w) p bprm) in Hext3.
  pose proof (extends_trans _ _ _ _ _ Hext Hext3) as Hext'.
  rewrite !final_bind, final_st, final_ret.
  rewrite <- record_flags_eq.
  apply (emit_stored_flags m1 m3 _ w h dev ino stale); [done| |done..].
  by rewrite (extends_length m1 m3 _ Hok Hext'), Hlen.
Qed.

(** The lookup of the recorded decision, which it consumes. *)
Lemma exec_deciding_run old_pid bprm w m0 g :
  exists w', w_env w' = w_env w /\ published (w_tele w') = published (w_tele w) /\
    run match t_exec_decided (w_tele w) !! u32 old_pid with
        | Some d => call (DelExecDecided (u32 old_pid));; mret (ed_policy_gen d, ed_rule_id d)
        | None =>
            rule ← call (LkExecAllow (exec_key (w_env w) g (bprm_inode (w_env w) bprm)));
            mret (g_policy_gen g, match rule with Some r => er_rule_id r | None => 0 end)
        end (with_msg m0 w) =
    (exec_deciding (w_maps w) (w_env w) (t_exec_decided (w_tele w) !! u32 old_pid) g bprm,
     with_msg m0 w').
Proof.
  unfold exec_deciding. destruct (t_exec_decided (w_tele w) !! u32 old_pid) as [d|].
  - by exists (map_tele (fun t => set_exec_decided (delete (u32 old_pid) (t_exec_decided t)) t) w).
  - by exists w.
Qed.

Lemma exec_record_ring p old_pid bprm w m g :
  scratch_ok w m -> kenv_wf (w_env w) -> result rk_governance w = Some g ->
  let d := exec_deciding (w_maps w) (w_env w)
             (t_exec_decided (w_tele w) !! u32 old_pid) g bprm in
  ring (final (rk_exec_record p old_pid bprm) w) =
  published (w_tele w) (event_bytes
    (event_hdr (w_env w) (g_cgroup_id g) d.1 RK_EV_EXEC RK_VERDICT_ALLOW d.2)
    (rk_payload_exec_bytes (exec_body (w_env w) g bprm (exec_record_flags (w_env w) p bprm) 2) ++
     str_field (exec_filename (w_env w) bprm) ++ str_field (exec_argv (w_env w) p bprm))).
Proof.
  intros [Hmsg Hmem] Henv Hg. cbv zeta. unfold rk_exec_record.
  rewrite final_read_only, Hg by apply _.
  rewrite final_bind, (result_scratch w m), (final_scratch w m) by done. cbn [negb].
  set (m0 := sb_set_reserved 0 (sb_set_payload_len 0 m)).
  do 2 (rewrite final_bind, final_call, result_call; cbn [handle fst snd]; rewrite env_with_msg).
  fold (bprm_inode (w_env w) bprm).
  rewrite final_read_only, rk_exec_key_of_result, env_with_msg by apply _.
  rewrite final_bind, final_call, result_call; cbn [handle fst snd]; rewrite env_with_msg.
  fold (bprm_unlinked (w_env w) bprm).
  rewrite final_bind, final_call, result_call; cbn [handle fst snd].
  change (t_exec_decided (w_tele (with_msg m0 w))) with (t_exec_decided (w_tele w)).
  destruct (exec_deciding_run old_pid bprm w m0 g) as (w' & He & Hpub & Hrun).
  rewrite final_bind. unfold result, final at 2. rewrite Hrun. cbn [fst snd].
  destruct (exec_deciding _ _ _ _ _) as [gen rule_id]. cbn [fst snd].
  rewrite <- Hpub, <- He.
  do 7 rewrite final_bind. rewrite final_fill_hdr, final_fill_task, !final_st.
  match goal with |- context [with_msg ?M w'] => set (m1 := M) end.
  destruct (split_mem 24 (sb_mem m)) as (front & rest & Hfront & Hlen); [done|lia|].
  apply (record_tail p bprm _ w' m1 _ _ _ (take 4 (drop 16 front))); try done.
  - by rewrite He.
  - subst m1 m0. solve_msg_ok Hmem.
  - subst m1 m0. unfold payload. msg_fields. rewrite Hfront. list_vars front. done.
  - len.
Qed.

(** What [rk_exec_check] records for the thread. *)
Lemma exec_check_decided bprm w g :
  result rk_governance w = Some g ->
  let d := exec_decision (w_maps w) g (exec_key (w_env w) g (bprm_inode (w_env w) bprm))
             (bprm_unlinked (w_env w) bprm) in
  t_exec_decided (w_tele (final (rk_exec_check bprm 0) w)) =
  lru_update (t_exec_decided (w_tele w)) (u32 (k_pid_tgid (w_env w)))
    (mk_rk_exec_decision (g_policy_gen g) d.2 0).
Proof.
  intros Hg. cbv zeta. unfold rk_exec_check. cbn [Z.eqb negb].
  rewrite final_read_only, Hg by apply _.
  do 2 (rewrite final_bind, final_call, result_call; cbn [handle fst snd]).
  rewrite final_read_only, rk_exec_key_of_result by apply _.
  rewrite final_bind, final_call, result_call; cbn [handle fst snd].
  fold (bprm_inode (w_env w) bprm). fold (bprm_unlinked (w_env w) bprm).
  rewrite final_read_only, rk_exec_action_result by apply _.
  destruct (exec_decision _ _ _ _) as [action rule_id]. cbn [fst snd].
  rewrite final_bind, final_call, result_call; cbn [handle fst snd].
  rewrite final_bind, final_call; cbn [handle fst snd].
  match goal with |- context [final _ (map_tele ?f w)] => set (w1 := map_tele f w) end.
  change (lru_update _ _ _) with (t_exec_decided (w_tele w1)).
  by_keeps_decided.
Qed.

End Events.

(** ** Properties of the records *)

(** The record of a connect or send is exact: the network programs offer one
    record, holding the governing cgroup and generation, the verdict and rule of
    the decision, and the destination, with no byte of what the scratch buffer held
    before. *)
Lemma network_record_exact `{K : BpfKernel} ctx v6 (type : rk_event_type) w m g :
  scratch_ok w m -> result rk_governance w = Some g ->
  let addr := sock_addr_bytes ctx v6 in
  let port := bpf_ntohs (u16 (user_port ctx)) in
  let d := net_decision (w_maps w) g addr port (rk_proto_bit (sa_protocol ctx)) in
  ring (final (rk_net_sock_addr ctx v6 type) w) =
  published (w_tele w) (event_bytes
    (event_hdr (w_env w) (g_cgroup_id g) (g_policy_gen g) type
       (rk_reported_verdict g d.1) (rk_rule g d.1 d.2))
    (rk_payload_net_bytes (mk_rk_payload_net (replicate 16 0) addr 0 port
       (if v6 then RK_AF_INET6 else RK_AF_INET) (u8 (sa_protocol ctx)) 0))).
Proof. apply sock_addr_ring. Qed.

(** A connect to 10.9.0.1 port 443 over TCP. *)
Definition ex_ctx : bpf_sock_addr :=
  mk_bpf_sock_addr (le_value [10; 9; 0; 1]) 0 0 0 0 (le_value [1; 187]) 6.

Lemma ex_world_scratch mode heartbeat : scratch_ok (ex_world mode heartbeat) (ex_msg 0).
Proof. split; [reflexivity|]. cbn [ex_msg sb_mem]. by rewrite length_replicate. Qed.

Lemma network_record_exact_witness :
  ring (final (K:=reference_kernel) (rk_net_sock_addr ex_ctx false RK_EV_NET_CONNECT)
    (ex_world RK_MODE_ENFORCE 9500000000)) =
  [(0, event_bytes (mk_rk_hdr 10000000000 500 7 4300 4300 1000 100 3 1 2 2)
      (rk_payload_net_bytes (mk_rk_payload_net (replicate 16 0)
         (replicate 10 0 ++ [255; 255; 10; 9; 0; 1]) 0 443 2 6 0)))].
Proof.
  rewrite (network_record_exact (K:=reference_kernel) ex_ctx false RK_EV_NET_CONNECT
    (ex_world RK_MODE_ENFORCE 9500000000) (ex_msg 0) (mk_rk_gov 500 7 (2 ^ 31 + 3) 1 1 3 0)).
  - vm_compute. reflexivity.
  - apply ex_world_scratch.
  - vm_compute. reflexivity.
Defined.

(** The record of a file check is exact: an access that is denied, or would be in
    audit mode, offers one record with the identity of the object, the access, the
    rule and the name; an allowed access offers none. *)
Lemma file_record_exact `{K : BpfKernel} g inode start name access hook w m :
  scratch_ok w m -> kenv_wf (w_env w) ->
  let '(action, rule_id, flags) := file_decision (w_maps w) (w_env w) g inode start access in
  ring (final (rk_file_check g inode start name access hook) w) =
  if rk_effective_deny g action then
    published (w_tele w)
      (event_bytes (event_hdr (w_env w) (g_cgroup_id g) (g_policy_gen g) RK_EV_FILE_DENY
           (rk_reported_verdict g action) (rk_rule g action rule_id))
         (rk_payload_file_deny_bytes
            (mk_rk_payload_file_deny (fk_dev (file_key (w_env w) g inode))
               (fk_ino (file_key (w_env w) g inode)) access hook flags 0 1 0 0) ++
          str_field (file_name (w_env w) name)))
  else ring w.
Proof. apply file_check_ring. Qed.

Lemma file_record_exact_witness :
  let w := ex_world RK_MODE_ENFORCE 9500000000 in
  let g := mk_rk_gov 500 7 (2 ^ 31 + 3) 1 1 3 0 in
  ring (final (K:=reference_kernel) (rk_file_check g 21 30 30 RK_FILE_WRITE RK_FILE_HOOK_OPEN) w) =
  published (K:=reference_kernel) (w_tele w)
    (event_bytes (mk_rk_hdr 10000000000 500 7 4300 4300 1000 100 11 1 2 12)
       (rk_payload_file_deny_bytes (mk_rk_payload_file_deny 66 76 2 1 1 0 1 0 0) ++
        [2; 0; 115; 104])).
Proof.
  exact (file_record_exact (K:=reference_kernel) (mk_rk_gov 500 7 (2 ^ 31 + 3) 1 1 3 0)
    21 30 30 RK_FILE_WRITE RK_FILE_HOOK_OPEN (ex_world RK_MODE_ENFORCE 9500000000) (ex_msg 0)
    (ex_world_scratch _ _) ex_env_wf).
Defined.

(** C32. A reload between the decision and the commit of an exec does not change what
    is recorded: as long as the decision [rk_exec_check] stored in world [w1] is
    still held for the thread in world [w2], the record of [rk_exec_record] in [w2]
    carries the generation and the rule that decided, whatever policy [w2] has. *)
Theorem exec_record_keeps_deciding_policy `{K : BpfKernel} {HK : BpfKernelLaws K}
    p old_pid bprm w1 w2 m g1 g2 :
  result rk_governance w1 = Some g1 -> result rk_governance w2 = Some g2 ->
  scratch_ok w2 m -> kenv_wf (w_env w2) ->
  u32 old_pid = u32 (k_pid_tgid (w_env w1)) ->
  is_Some (t_exec_decided (w_tele w2) !! u32 old_pid) ->
  t_exec_decided (w_tele w2) !! u32 old_pid =
    t_exec_decided (w_tele (final (rk_exec_check bprm 0) w1)) !! u32 old_pid ->
  let d1 := exec_decision (w_maps w1) g1 (exec_key (w_env w1) g1 (bprm_inode (w_env w1) bprm))
              (bprm_unlinked (w_env w1) bprm) in
  ring (final (rk_exec_record p old_pid bprm) w2) =
  published (w_tele w2) (event_bytes
    (event_hdr (w_env w2) (g_cgroup_id g2) (g_policy_gen g1) RK_EV_EXEC RK_VERDICT_ALLOW d1.2)
    (rk_payload_exec_bytes
       (exec_body (w_env w2) g2 bprm (exec_record_flags (w_env w2) p bprm) 2) ++
     str_field (exec_filename (w_env w2) bprm) ++ str_field (exec_argv (w_env w2) p bprm))).
Proof.
  intros Hg1 Hg2 Hs He Hpid [d Hd] Heq d1. rewrite (exec_record_ring p old_pid bprm w2 m g2) by done.
  rewrite Hd. rewrite Hd, (exec_check_decided bprm w1 g1 Hg1) in Heq. symmetry in Heq.
  eapply lookup_weaken in Heq; [|apply lru_update_subseteq].
  rewrite Hpid, lookup_insert_eq in Heq. by injection Heq as <-.
Qed.

Lemma exec_record_keeps_deciding_policy_witness :
  let w1 := ex_world RK_MODE_ENFORCE 9500000000 in
  let w2 := mk_world (ex_maps {[ 500 := mk_rk_binding 9 0 ]} RK_MODE_ENFORCE 9500000000) ex_env
              (w_tele (final (K:=reference_kernel) (rk_exec_check 5 0) w1)) in
  ring (final (K:=reference_kernel) (rk_exec_record 70 4300 5) w2) =
  published (K:=reference_kernel) (w_tele w2)
    (event_bytes (mk_rk_hdr 10000000000 500 7 4300 4300 1000 100 1 0 2 11)
       (rk_payload_exec_bytes (mk_rk_payload_exec 66 1001 0 2 0) ++
        [2; 0; 115; 104] ++ [4; 0; 65; 65; 65; 65])).
Proof.
  intros w1 w2.
  refine (exec_record_keeps_deciding_policy (K:=reference_kernel) (HK:=reference_kernel_laws)
    70 4300 5 w1 w2 (ex_msg 0) (mk_rk_gov 500 7 (2 ^ 31 + 3) 1 1 3 0)
    (mk_rk_gov 500 0 0xffffffff 1 1 3 0) _ _ _ ex_env_wf _ _ _).
  - vm_compute. reflexivity.
  - vm_compute. reflexivity.
  - split; [reflexivity|]. cbn [ex_msg sb_mem]. by rewrite length_replicate.
  - reflexivity.
  - vm_compute. by eexists.
  - reflexivity.
Defined.
