(* ===== verification/Object.v ===== *)
(** * The loaded object ([rk-bpf/src/rk.bpf.c])

    Every enforcement program of the object as one type, with the pure list of
    decisions each of them takes, and what holds of all of them: verdicts follow
    the decisions, are independent of telemetry, and are never worse than the
    profile's mode allows. *)

From S2P Require Import Prelude Abi Bpf Logic Common Governance Net Exec File Guard.
From S2P Require Import Scenario.
Open Scope Z_scope.

Inductive rk_program : Set :=
| Connect4 (ctx : bpf_sock_addr)
| Connect6 (ctx : bpf_sock_addr)
| Sendmsg4 (ctx : bpf_sock_addr)
| Sendmsg6 (ctx : bpf_sock_addr)
| SocketCreate (family type protocol kern ret : Z)
| TunCreate (ret : Z)
| TunOpen (ret : Z)
| TunAttachQueue (ret : Z)
| ExecCheck (bprm ret : Z)
| ExecRecord (p old_pid bprm : Z)
| FileOpen (file ret : Z)
| FileUnlink (dir dentry ret : Z)
| FileRmdir (dir dentry ret : Z)
| FileRename (old_dir old_dentry new_dir new_dentry ret : Z)
| FileLink (old_dentry dir new_dentry ret : Z)
| FileCreate (dir dentry mode ret : Z)
| FileMkdir (dir dentry mode ret : Z)
| FileSymlink (dir dentry old_name ret : Z)
| FileMknod (dir dentry mode dev ret : Z)
| FileSetattrV1 (dentry attr ret : Z)
| FileSetattrV2 (idmap dentry attr ret : Z)
| GuardBpf (cmd : Z)
| GuardTaskKill (p info sig cred ret : Z)
| GuardPtrace (child mode ret : Z)
| GuardPinUnlink (dir dentry ret : Z)
| GuardPinRename (old_dir old_dentry new_dir new_dentry ret : Z)
| GuardPinRmdir (dir dentry ret : Z)
| GuardUmount (mnt flags ret : Z).

Definition entry (p : rk_program) : prog Z :=
  match p with
  | Connect4 ctx => rk_net_connect4 ctx
  | Connect6 ctx => rk_net_connect6 ctx
  | Sendmsg4 ctx => rk_net_sendmsg4 ctx
  | Sendmsg6 ctx => rk_net_sendmsg6 ctx
  | SocketCreate family type protocol kern ret =>
      rk_net_socket_create family type protocol kern ret
  | TunCreate ret => rk_net_tun_create ret
  | TunOpen ret => rk_net_tun_open ret
  | TunAttachQueue ret => rk_net_tun_attach_queue ret
  | ExecCheck bprm ret => rk_exec_check bprm ret
  | ExecRecord p old_pid bprm => rk_exec_record p old_pid bprm
  | FileOpen file ret => rk_file_open file ret
  | FileUnlink dir dentry ret => rk_file_unlink dir dentry ret
  | FileRmdir dir dentry ret => rk_file_rmdir dir dentry ret
  | FileRename old_dir old_dentry new_dir new_dentry ret =>
      rk_file_rename old_dir old_dentry new_dir new_dentry ret
  | FileLink old_dentry dir new_dentry ret => rk_file_link old_dentry dir new_dentry ret
  | FileCreate dir dentry mode ret => rk_file_create dir dentry mode ret
  | FileMkdir dir dentry mode ret => rk_file_mkdir dir dentry mode ret
  | FileSymlink dir dentry old_name ret => rk_file_symlink dir dentry old_name ret
  | FileMknod dir dentry mode dev ret => rk_file_mknod dir dentry mode dev ret
  | FileSetattrV1 dentry attr ret => rk_file_setattr_v1 dentry attr ret
  | FileSetattrV2 idmap dentry attr ret => rk_file_setattr_v2 idmap dentry attr ret
  | GuardBpf cmd => rk_guard_bpf cmd
  | GuardTaskKill p info sig cred ret => rk_guard_task_kill p info sig cred ret
  | GuardPtrace child mode ret => rk_guard_ptrace child mode ret
  | GuardPinUnlink dir dentry ret => rk_guard_pin_unlink dir dentry ret
  | GuardPinRename old_dir old_dentry new_dir new_dentry ret =>
      rk_guard_pin_rename old_dir old_dentry new_dir new_dentry ret
  | GuardPinRmdir dir dentry ret => rk_guard_pin_rmdir dir dentry ret
  | GuardUmount mnt flags ret => rk_guard_umount mnt flags ret
  end.

(** The verdict an earlier LSM already returned, 0 where there is none. *)
Definition earlier (p : rk_program) : Z :=
  match p with
  | SocketCreate _ _ _ _ ret | TunCreate ret | TunOpen ret | TunAttachQueue ret
  | ExecCheck _ ret | FileOpen _ ret | FileUnlink _ _ ret | FileRmdir _ _ ret
  | FileRename _ _ _ _ ret | FileLink _ _ _ ret | FileCreate _ _ _ ret
  | FileMkdir _ _ _ ret | FileSymlink _ _ _ ret | FileMknod _ _ _ _ ret
  | FileSetattrV1 _ _ ret | FileSetattrV2 _ _ _ ret | GuardTaskKill _ _ _ _ ret
  | GuardPtrace _ _ ret | GuardPinUnlink _ _ ret | GuardPinRename _ _ _ _ ret
  | GuardPinRmdir _ _ ret | GuardUmount _ _ ret => ret
  | _ => 0
  end.

(** What the attach point reads as "proceed" and as "refuse with EPERM". *)
Definition permit (p : rk_program) : Z :=
  match p with Connect4 _ | Connect6 _ | Sendmsg4 _ | Sendmsg6 _ => 1 | _ => 0 end.
Definition refuse (p : rk_program) : Z :=
  match p with Connect4 _ | Connect6 _ | Sendmsg4 _ | Sendmsg6 _ => 0 | _ => -1 end.

Section Checks.
Context `{K : BpfKernel} (m : policy_maps) (e : kenv) (g : rk_gov).

Definition net_check (ctx : bpf_sock_addr) (v6 : bool) : Z :=
  (net_decision m g (sock_addr_bytes ctx v6) (bpf_ntohs (u16 (user_port ctx)))
     (rk_proto_bit (sa_protocol ctx))).1.

(** No check where there is no inode. *)
Definition file_checks (inode start access : Z) : list Z :=
  if inode =? 0 then [] else [(file_decision m e g inode start access).1.1].

(** Creating an entry named by [dentry] in [dir]: the walk starts at [dir]. *)
Definition create_checks (dir dentry : Z) : list Z :=
  file_checks dir (if negb (dentry =? 0) then k_field e dentry_d_parent dentry else 0)
    RK_FILE_CREATE.

Definition guard_checks (test : bool) : list Z :=
  if test then [rk_action_val RK_ACTION_DENY] else [].

(** The decisions a program takes for a governed task, in order. *)
Definition checks (p : rk_program) : list Z :=
  match p with
  | Connect4 ctx | Sendmsg4 ctx => [net_check ctx false]
  | Connect6 ctx | Sendmsg6 ctx => [net_check ctx true]
  | SocketCreate family type protocol kern _ =>
      if negb (kern =? 0) || rk_sock_observed family type protocol then []
      else [rk_raw_action g]
  | TunCreate _ | TunOpen _ | TunAttachQueue _ => [rk_raw_action g]
  | ExecCheck bprm _ =>
      [(exec_decision m g (exec_key e g (bprm_inode e bprm)) (bprm_unlinked e bprm)).1]
  | ExecRecord _ _ _ => []
  | FileOpen file _ =>
      let access := rk_open_access (k_field e file_f_mode file) (k_field e file_f_flags file) in
      if access =? 0 then []
      else file_checks (k_field e file_f_inode file) (k_field e file_f_path_dentry file) access
  | FileUnlink _ dentry _ | FileRmdir _ dentry _ =>
      file_checks (k_field e dentry_d_inode dentry) dentry RK_FILE_DELETE
  | FileRename _ old_dentry new_dir new_dentry _ =>
      file_checks (k_field e dentry_d_inode old_dentry) old_dentry RK_FILE_RENAME ++
      file_checks (k_field e dentry_d_inode new_dentry) new_dentry
        (Z.lor RK_FILE_DELETE RK_FILE_RENAME) ++
      create_checks new_dir new_dentry
  | FileLink old_dentry dir new_dentry _ =>
      file_checks (k_field e dentry_d_inode old_dentry) old_dentry RK_FILE_LINK ++
      create_checks dir new_dentry
  | FileCreate dir dentry _ _ | FileMkdir dir dentry _ _ | FileSymlink dir dentry _ _
  | FileMknod dir dentry _ _ _ => create_checks dir dentry
  | FileSetattrV1 dentry attr _ | FileSetattrV2 _ dentry attr _ =>
      file_checks (k_field e dentry_d_inode dentry) dentry
        (rk_setattr_access (k_field e iattr_ia_valid attr))
  | GuardBpf _ => guard_checks true
  | GuardTaskKill p _ _ _ _ | GuardPtrace p _ _ => guard_checks (bool_decide (is_sensor m e p))
  | GuardPinUnlink dir _ _ | GuardPinRmdir dir _ _ =>
      guard_checks (on_bpffs e (k_field e inode_i_sb dir))
  | GuardPinRename old_dir _ new_dir _ _ =>
      guard_checks (on_bpffs e (k_field e inode_i_sb old_dir) ||
                    on_bpffs e (k_field e inode_i_sb new_dir))
  | GuardUmount mnt _ _ => guard_checks (on_bpffs e (k_field e vfsmount_mnt_sb mnt))
  end.

End Checks.

(** ** Every program follows its checks *)

Section Entry.
Context `{K : BpfKernel}.

(** The value an LSM program returns for a governed task. *)
Definition outcome (g : rk_gov) (cs : list Z) : Z :=
  if existsb (rk_enforced_deny g) cs then -1 else 0.

Lemma outcome_one g c : outcome g [c] = if rk_enforced_deny g c then -1 else 0.
Proof. unfold outcome. cbn. by rewrite orb_false_r. Qed.

(** An outcome that holds in every world with the same maps and kernel. *)
Definition has_outcome (p : prog Z) (w : world) (g : rk_gov) (cs : list Z) : Prop :=
  forall w', w' ≡ w -> result p w' = outcome g cs.

Lemma has_outcome_check g inode start name access hook w :
  has_outcome (rk_file_check g inode start name access hook) w g
    [(file_decision (w_maps w) (w_env w) g inode start access).1.1].
Proof. intros w' [Hm He]. by rewrite file_check_result, outcome_one, Hm, He. Qed.

Lemma has_outcome_checks g inode start name access hook w :
  has_outcome (if inode =? 0 then mret 0
               else rk_file_check g inode start name access hook) w g
    (file_checks (w_maps w) (w_env w) g inode start access).
Proof.
  unfold file_checks. destruct (inode =? 0); [done|]. apply has_outcome_check.
Qed.

Lemma has_outcome_create g dir dentry hook w :
  has_outcome (rk_dir_create_check g dir dentry hook) w g
    (create_checks (w_maps w) (w_env w) g dir dentry).
Proof.
  unfold rk_dir_create_check, create_checks, file_checks.
  destruct (dir =? 0); [done|]. intros w' Hw. rewrite result_bind.
  destruct (negb (dentry =? 0)).
  - rewrite result_call, final_call. cbn [handle fst snd].
    destruct Hw as [Hm He]. rewrite He. by apply has_outcome_check.
  - by apply has_outcome_check.
Qed.

Lemma has_outcome_read f x k w g cs :
  has_outcome (k (k_field (w_env w) f x)) w g cs ->
  has_outcome (y ← call (CoreRead f x); k y) w g cs.
Proof.
  intros Hk w' Hw. rewrite result_bind, result_call, final_call. cbn [handle fst snd].
  rewrite (proj2 Hw). by apply Hk.
Qed.

(** [err = p; if (err) return err; return q;] *)
Lemma has_outcome_seq p q w g c1 c2 :
  has_outcome p w g c1 -> has_outcome q w g c2 ->
  has_outcome (err ← p; if negb (err =? 0) then mret err else q) w g (c1 ++ c2).
Proof.
  intros Hp Hq w' Hw. rewrite result_bind, (Hp w') by done.
  assert (final p w' ≡ w) as Hq'%Hq by (by etrans; [apply final_equiv|]).
  unfold outcome in *. rewrite existsb_app.
  destruct (existsb _ c1); [done|]. cbn. by rewrite Hq'.
Qed.

Lemma has_outcome_guard g hook target detail w :
  has_outcome (rk_guard_decide g hook target detail) w g [rk_action_val RK_ACTION_DENY].
Proof. intros w' _. by rewrite guard_decide_result, outcome_one. Qed.

(** [q] behaves as program [p] is meant to: an earlier denial is passed on, an
    ungoverned task proceeds, and a governed one is refused exactly when one of
    the checks of [p] is an enforced denial. *)
Definition follows (q : prog Z) (p : rk_program) (w : world) : Prop :=
  result q w =
  if negb (earlier p =? 0) then earlier p
  else match result rk_governance w with
       | None => permit p
       | Some g =>
           if existsb (rk_enforced_deny g) (checks (w_maps w) (w_env w) g p)
           then refuse p else permit p
       end.

Lemma sock_addr_follows ctx v6 type p w :
  earlier p = 0 -> permit p = 1 -> refuse p = 0 ->
  (forall g, checks (w_maps w) (w_env w) g p = [net_check (w_maps w) g ctx v6]) ->
  follows (rk_net_sock_addr ctx v6 type) p w.
Proof.
  intros He Hp Hr Hc. unfold follows. rewrite sock_addr_result, He, Hp, Hr. cbn [Z.eqb negb].
  destruct (result rk_governance w) as [g|]; [|done].
  rewrite Hc. cbn [existsb]. by rewrite orb_false_r.
Qed.

(** The common shape of the LSM programs. *)
Lemma lsm_follows q p w :
  permit p = 0 -> refuse p = -1 ->
  result q w =
    (if negb (earlier p =? 0) then earlier p
     else match result rk_governance w with
          | None => 0
          | Some g => outcome g (checks (w_maps w) (w_env w) g p)
          end) ->
  follows q p w.
Proof. intros Hp Hr Hq. unfold follows. by rewrite Hp, Hr, Hq. Qed.

Lemma file_follows body p w :
  permit p = 0 -> refuse p = -1 ->
  (forall g, has_outcome (body g) w g (checks (w_maps w) (w_env w) g p)) ->
  follows (rk_file_guarded (earlier p) body) p w.
Proof.
  intros Hp Hr Hb. apply lsm_follows; [done..|]. rewrite file_guarded_result.
  destruct (negb _); [done|]. destruct (result rk_governance w); [by apply Hb|done].
Qed.

Lemma guard_follows test body p w (b : bool) :
  permit p = 0 -> refuse p = -1 -> ReadOnly test -> result test w = b ->
  (forall g, checks (w_maps w) (w_env w) g p = guard_checks b) ->
  (forall g, has_outcome (body g) w g [rk_action_val RK_ACTION_DENY]) ->
  follows (if negb (earlier p =? 0) then mret (earlier p) else rk_guard_when test body) p w.
Proof.
  intros Hp Hr Ht Hb Hc Hbody. apply lsm_follows; [done..|].
  destruct (negb _); [done|].
  rewrite (guard_when_result _ _ _ (fun g => outcome g [rk_action_val RK_ACTION_DENY])) by auto.
  rewrite Hb. destruct (result rk_governance w) as [g|]; [|by destruct b].
  rewrite Hc. by destruct b.
Qed.

Lemma tun_follows op p w :
  (p = TunCreate (earlier p) \/ p = TunOpen (earlier p) \/ p = TunAttachQueue (earlier p)) ->
  follows (if negb (earlier p =? 0) then mret (earlier p) else rk_net_tun op) p w.
Proof.
  intros Hp. assert (permit p = 0 /\ refuse p = -1 /\
    forall g, checks (w_maps w) (w_env w) g p = [rk_raw_action g]) as (Hpe & Hre & Hc)
    by by destruct Hp as [->|[->| ->]].
  apply lsm_follows; [done..|]. destruct (negb _); [done|]. rewrite tun_result.
  destruct (result rk_governance w); [|done]. by rewrite Hc, <- outcome_one.
Qed.

Lemma socket_create_follows family type protocol kern ret w :
  follows (rk_net_socket_create family type protocol kern ret)
    (SocketCreate family type protocol kern ret) w.
Proof.
  apply lsm_follows; [done..|]. rewrite socket_create_result. cbn [earlier checks].
  destruct (negb (ret =? 0)); [done|].
  destruct (_ || _)%bool; destruct (result rk_governance w); try done.
  by rewrite <- outcome_one.
Qed.

Lemma exec_follows bprm ret w : follows (rk_exec_check bprm ret) (ExecCheck bprm ret) w.
Proof.
  apply lsm_follows; [done..|]. rewrite exec_check_result. cbn [earlier checks].
  destruct (negb _); [done|]. destruct (result rk_governance w); [|done].
  by rewrite <- outcome_one.
Qed.

Lemma record_follows p old_pid bprm w :
  follows (rk_exec_record p old_pid bprm) (ExecRecord p old_pid bprm) w.
Proof.
  apply lsm_follows; [done..|]. rewrite exec_record_result.
  by destruct (result rk_governance w).
Qed.

Lemma open_follows file ret w : follows (rk_file_open file ret) (FileOpen file ret) w.
Proof.
  apply (file_follows _ (FileOpen file ret)); [done..|]. intros g. apply has_outcome_read.
  cbn [checks]. unfold file_checks.
  destruct (k_field _ file_f_inode file =? 0); [by destruct (_ =? 0)|].
  do 3 apply has_outcome_read. destruct (rk_open_access _ _ =? 0); [done|].
  apply has_outcome_check.
Qed.

Lemma rename_follows old_dir old_dentry new_dir new_dentry ret w :
  follows (rk_file_rename old_dir old_dentry new_dir new_dentry ret)
    (FileRename old_dir old_dentry new_dir new_dentry ret) w.
Proof.
  apply (file_follows _ (FileRename old_dir old_dentry new_dir new_dentry ret)); [done..|].
  intros g. apply has_outcome_read, has_outcome_seq; [apply has_outcome_checks|].
  apply has_outcome_read, has_outcome_seq; [apply has_outcome_checks|].
  apply has_outcome_create.
Qed.

Lemma setattr_outcome g dentry attr w :
  has_outcome (rk_setattr_check g dentry attr) w g
    (file_checks (w_maps w) (w_env w) g (k_field (w_env w) dentry_d_inode dentry) dentry
       (rk_setattr_access (k_field (w_env w) iattr_ia_valid attr))).
Proof.
  apply has_outcome_read. unfold file_checks. destruct (_ =? 0); [done|].
  apply has_outcome_read, has_outcome_check.
Qed.

Ltac by_file p := apply (file_follows _ p); [done..|intros g].
Ltac by_guard p b :=
  apply (guard_follows _ _ p _ b); [done|done|solve_read_only| |done|intros g].

Lemma kill_follows p info sig cred ret w :
  follows (rk_guard_task_kill p info sig cred ret) (GuardTaskKill p info sig cred ret) w.
Proof.
  by_guard (GuardTaskKill p info sig cred ret) (bool_decide (is_sensor (w_maps w) (w_env w) p)).
  - apply is_sensor_spec.
  - apply has_outcome_read, has_outcome_guard.
Qed.

Lemma ptrace_follows child mode ret w :
  follows (rk_guard_ptrace child mode ret) (GuardPtrace child mode ret) w.
Proof.
  by_guard (GuardPtrace child mode ret) (bool_decide (is_sensor (w_maps w) (w_env w) child)).
  - apply is_sensor_spec.
  - apply has_outcome_read, has_outcome_guard.
Qed.

Lemma read_bpffs f x w :
  result (sb ← call (CoreRead f x); rk_is_bpffs sb) w =
  on_bpffs (w_env w) (k_field (w_env w) f x).
Proof. rewrite result_bind, final_call, result_call. apply is_bpffs_spec. Qed.

Lemma pin_rename_follows old_dir old_dentry new_dir new_dentry ret w :
  follows (rk_guard_pin_rename old_dir old_dentry new_dir new_dentry ret)
    (GuardPinRename old_dir old_dentry new_dir new_dentry ret) w.
Proof.
  by_guard (GuardPinRename old_dir old_dentry new_dir new_dentry ret)
    (on_bpffs (w_env w) (k_field (w_env w) inode_i_sb old_dir) ||
     on_bpffs (w_env w) (k_field (w_env w) inode_i_sb new_dir))%bool;
    [|apply has_outcome_guard].
  rewrite result_bind, final_call, result_call. cbn [handle fst snd].
  rewrite result_read_only, is_bpffs_spec by apply _.
  destruct (on_bpffs _ _); [done|]. apply read_bpffs.
Qed.

(** Every program of the object does what its checks say. *)
Lemma entry_follows p w : follows (entry p) p w.
Proof.
  destruct p; cbn [entry].
  - by apply (sock_addr_follows ctx false _ (Connect4 ctx)).
  - by apply (sock_addr_follows ctx true _ (Connect6 ctx)).
  - by apply (sock_addr_follows ctx false _ (Sendmsg4 ctx)).
  - by apply (sock_addr_follows ctx true _ (Sendmsg6 ctx)).
  - apply socket_create_follows.
  - apply (tun_follows _ (TunCreate ret)). by left.
  - apply (tun_follows _ (TunOpen ret)). by right; left.
  - apply (tun_follows _ (TunAttachQueue ret)). by right; right.
  - apply exec_follows.
  - apply record_follows.
  - apply open_follows.
  - by_file (FileUnlink dir dentry ret). apply has_outcome_read, has_outcome_checks.
  - by_file (FileRmdir dir dentry ret). apply has_outcome_read, has_outcome_checks.
  - apply rename_follows.
  - by_file (FileLink old_dentry dir new_dentry ret). apply has_outcome_read, has_outcome_seq; [apply has_outcome_checks|].
    apply has_outcome_create.
  - by_file (FileCreate dir dentry mode ret). apply has_outcome_create.
  - by_file (FileMkdir dir dentry mode ret). apply has_outcome_create.
  - by_file (FileSymlink dir dentry old_name ret). apply has_outcome_create.
  - by_file (FileMknod dir dentry mode dev ret). apply has_outcome_create.
  - by_file (FileSetattrV1 dentry attr ret). apply setattr_outcome.
  - by_file (FileSetattrV2 idmap dentry attr ret). apply setattr_outcome.
  - by_guard (GuardBpf cmd) true; [done|apply has_outcome_guard].
  - apply kill_follows.
  - apply ptrace_follows.
  - by_guard (GuardPinUnlink dir dentry ret)
      (on_bpffs (w_env w) (k_field (w_env w) inode_i_sb dir));
      [apply read_bpffs|apply has_outcome_guard].
  - apply pin_rename_follows.
  - by_guard (GuardPinRmdir dir dentry ret)
      (on_bpffs (w_env w) (k_field (w_env w) inode_i_sb dir));
      [apply read_bpffs|apply has_outcome_guard].
  - by_guard (GuardUmount mnt flags ret)
      (on_bpffs (w_env w) (k_field (w_env w) vfsmount_mnt_sb mnt));
      [apply read_bpffs|apply has_outcome_guard].
Qed.

(** ** Ungoverned tasks are left alone *)

Lemma guard_when_ungoverned test body w :
  ReadOnly test -> result rk_governance w = None -> final (rk_guard_when test body) w = w.
Proof.
  intros Ht Hg. unfold rk_guard_when. rewrite final_read_only by done.
  destruct (negb _); [done|]. by rewrite final_read_only, Hg by apply _.
Qed.

Lemma file_guarded_ungoverned ret body w :
  result rk_governance w = None -> final (rk_file_guarded ret body) w = w.
Proof.
  intros Hg. unfold rk_file_guarded. destruct (negb _); [done|].
  by rewrite final_read_only, Hg by apply _.
Qed.

Lemma tun_ungoverned op w : result rk_governance w = None -> final (rk_net_tun op) w = w.
Proof. intros Hg. unfold rk_net_tun. by rewrite final_read_only, Hg by apply _. Qed.

Lemma entry_ungoverned p w : result rk_governance w = None -> final (entry p) w = w.
Proof.
  intros Hg. destruct p; cbn [entry];
    try (by apply file_guarded_ungoverned);
    try (unfold rk_net_connect4, rk_net_connect6, rk_net_sendmsg4, rk_net_sendmsg6,
           rk_net_sock_addr, rk_exec_record;
         by rewrite final_read_only, Hg by apply _);
    try (destruct (negb (ret =? 0)) eqn:Hr;
         unfold rk_net_tun_create, rk_net_tun_open, rk_net_tun_attach_queue,
           rk_guard_task_kill, rk_guard_ptrace, rk_guard_pin_unlink, rk_guard_pin_rmdir,
           rk_guard_pin_rename, rk_guard_umount;
         rewrite Hr; first [done | by apply tun_ungoverned
                           | apply guard_when_ungoverned; [solve_read_only|done]]).
  - unfold rk_net_socket_create. do 2 (destruct (negb _); [done|]).
    destruct (rk_sock_observed _ _ _); [done|]. by rewrite final_read_only, Hg by apply _.
  - apply guard_when_ungoverned; [apply _|done].
Qed.

End Entry.
