(* ===== verification/Enforcement.v ===== *)
(** * Enforcement properties of the whole object

    What holds of every program of the object, whatever its attach point: verdicts
    follow the decisions, do not depend on telemetry, never deny in audit mode or
    outside governance, and fail closed when the sensor is gone or the policy was
    never applied. *)

From S2P Require Import Prelude Abi Bpf Lpm Scenario Logic Common Governance.
From S2P Require Import Net Exec File Guard Object.
Open Scope Z_scope.

Lemma governance_stale `{K : BpfKernel} w g :
  bindings_wf (w_maps w) -> result rk_governance w = Some g ->
  g_mode g = RK_MODE_ENFORCE -> g_stale g = result rk_heartbeat_stale w.
Proof.
  intros Hwf. rewrite governance_spec by done.
  destruct (result (rk_governed_binding _) w) as [[b governed]|]; [|done].
  intros [= <-]. unfold governance_context. destruct (live_profile _ _) as [p|]; [|done].
  cbn. intros ->. done.
Qed.

Lemma existsb_all {A} (f : A -> bool) (l : list A) :
  l <> [] -> (forall a, f a = true) -> existsb f l = true.
Proof. intros Hl Hf. destruct l; [done|]. cbn. by rewrite Hf. Qed.

Lemma existsb_none {A} (f : A -> bool) (l : list A) :
  (forall a, a ∈ l -> f a = false) -> existsb f l = false.
Proof.
  intros Hf. induction l as [|a l IH]; [done|]. cbn.
  rewrite (Hf a) by set_solver. apply IH. set_solver.
Qed.

(** C5. Refinement: every program of the object passes an earlier LSM's denial on,
    lets an ungoverned task proceed, and refuses a governed one exactly when one of
    its decisions, computed by the pure specification [checks] from the policy maps
    and the kernel objects, is an enforced denial. *)
Theorem programs_implement_checks `{K : BpfKernel} p w :
  result (entry p) w =
  if negb (earlier p =? 0) then earlier p
  else match result rk_governance w with
       | None => permit p
       | Some g =>
           if existsb (rk_enforced_deny g) (checks (w_maps w) (w_env w) g p)
           then refuse p else permit p
       end.
Proof. apply entry_follows. Qed.

(** C25. Telemetry never reaches a verdict: the counters, the scratch buffer, the
    ring buffer, the recorded exec decisions and whatever they hold cannot change
    what any program returns. *)
Theorem verdict_ignores_telemetry `{K : BpfKernel} p w t :
  result (entry p) (mk_world (w_maps w) (w_env w) t) = result (entry p) w.
Proof.
  rewrite !entry_follows. cbn [w_maps w_env].
  by rewrite (rk_governance_verdict (mk_world (w_maps w) (w_env w) t) w).
Qed.

(** A task with no bound cgroup on its path pays nothing and changes nothing:
    every program lets it proceed and leaves the whole world as it was. *)
Lemma ungoverned_task_untouched `{K : BpfKernel} p w path :
  bindings_wf (w_maps w) -> cgroup_path (w_env w) path ->
  levels_published (w_maps w) path ->
  (forall id, id ∈ path -> m_cgroup_profile (w_maps w) !! id = None) ->
  run (entry p) w = (if earlier p =? 0 then permit p else earlier p, w).
Proof.
  intros Hwf Hpath Hpub Hun.
  assert (result rk_governance w = None) as Hg.
  { rewrite (governance_nearest w path) by done.
    rewrite (proj2 (first_bound_None _ _)); [done|]. intros id Hid. apply Hun.
    destruct Hpath as ((ancs & ->) & _). unfold governing_order in Hid.
    apply elem_of_cons in Hid as [->|Hid]; [set_solver|].
    apply list_elem_of_In, in_rev, list_elem_of_In in Hid.
    apply elem_of_take in Hid as (i & Hi & _). rewrite lookup_drop in Hi.
    by eapply list_elem_of_lookup_2. }
  rewrite run_eq, entry_ungoverned, entry_follows, Hg by done.
  by destruct (earlier p =? 0).
Qed.

Lemma ungoverned_task_untouched_witness :
  run (K:=reference_kernel) (entry (ExecCheck 5 0)) ex_unbound = (0, ex_unbound).
Proof.
  rewrite (ungoverned_task_untouched (K:=reference_kernel) (ExecCheck 5 0) ex_unbound ex_path).
  - reflexivity.
  - intros id b. cbn. by rewrite lookup_empty.
  - apply ex_path_ok.
  - intros level id _ _ [b Hb]. cbn in Hb. by rewrite lookup_empty in Hb.
  - intros id _. apply lookup_empty.
Defined.

(** Audit mode never denies: unless the profile enforces, no program refuses
    anything, whatever the rules and the heartbeat say. *)
Lemma audit_mode_never_denies `{K : BpfKernel} p w g :
  result rk_governance w = Some g -> g_mode g <> RK_MODE_ENFORCE -> earlier p = 0 ->
  result (entry p) w = permit p.
Proof.
  intros Hg Hm He. rewrite entry_follows, Hg, He. cbn [Z.eqb negb].
  rewrite existsb_none; [done|]. intros a _. by apply enforced_deny_audit.
Qed.

Lemma audit_mode_never_denies_witness :
  result (K:=reference_kernel) (entry (TunCreate 0)) (ex_world RK_MODE_AUDIT 0) = 0.
Proof.
  apply (audit_mode_never_denies (K:=reference_kernel) (TunCreate 0) (ex_world RK_MODE_AUDIT 0)
    (mk_rk_gov 500 7 (2 ^ 31 + 3) 0 1 3 0)).
  - vm_compute. reflexivity.
  - cbn. lia.
  - reflexivity.
Defined.

Lemma stale_denies `{K : BpfKernel} p w g :
  bindings_wf (w_maps w) -> clock_wf w ->
  result rk_governance w = Some g -> g_mode g = RK_MODE_ENFORCE ->
  ~ heartbeat_fresh (w_maps w) (k_boot_ns (w_env w)) ->
  earlier p = 0 -> checks (w_maps w) (w_env w) g p <> [] ->
  result (entry p) w = refuse p.
Proof.
  intros Hwf Hc Hg Hm Hh He Hcs. rewrite entry_follows, Hg, He. cbn [Z.eqb negb].
  rewrite existsb_all; [done..|]. intros a. apply enforced_deny_stale; [done|].
  rewrite (governance_stale w) by done. by rewrite heartbeat_stale_spec.
Qed.

(** C18. Fail closed without the sensor: under an enforcing profile, once the
    heartbeat is missing or older than the configured timeout, every program that
    takes a decision refuses. *)
Theorem stale_heartbeat_denies `{K : BpfKernel} p w g :
  bindings_wf (w_maps w) -> clock_wf w ->
  result rk_governance w = Some g -> g_mode g = RK_MODE_ENFORCE ->
  ~ heartbeat_fresh (w_maps w) (k_boot_ns (w_env w)) ->
  earlier p = 0 -> checks (w_maps w) (w_env w) g p <> [] ->
  result (entry p) w = refuse p.
Proof. apply stale_denies. Qed.

Lemma stale_heartbeat_denies_witness :
  result (K:=reference_kernel) (entry (FileOpen 12 0)) (ex_world RK_MODE_ENFORCE 0) = -1.
Proof.
  apply (stale_heartbeat_denies (K:=reference_kernel) (FileOpen 12 0) (ex_world RK_MODE_ENFORCE 0)
    (mk_rk_gov 500 7 (2 ^ 31 + 3) 1 1 3 1)).
  - by apply ex_bindings_wf.
  - apply ex_clock_wf. lia.
  - vm_compute. reflexivity.
  - reflexivity.
  - intros (l & c & Hl & _ & Hnz & _). cbn in Hl. injection Hl as <-. by apply Hnz.
  - reflexivity.
  - vm_compute. discriminate.
Defined.

(** With the sensor alive, an enforcing profile refuses exactly what its rules
    deny: a program refuses if and only if one of its decisions is a denial. *)
Lemma fresh_enforcement_exact `{K : BpfKernel} p w g :
  bindings_wf (w_maps w) -> clock_wf w ->
  result rk_governance w = Some g -> g_mode g = RK_MODE_ENFORCE ->
  heartbeat_fresh (w_maps w) (k_boot_ns (w_env w)) -> earlier p = 0 ->
  result (entry p) w = refuse p <->
  rk_action_val RK_ACTION_DENY ∈ checks (w_maps w) (w_env w) g p.
Proof.
  intros Hwf Hc Hg Hm Hh He. rewrite entry_follows, Hg, He. cbn [Z.eqb negb].
  assert (forall a, rk_enforced_deny g a = (a =? RK_ACTION_DENY)) as Hd.
  { intros a. apply enforced_deny_fresh; [done|].
    rewrite (governance_stale w) by done. by apply heartbeat_stale_spec. }
  destruct (existsb _ _) eqn:Hex.
  - split; [intros _|done]. apply existsb_exists in Hex as (a & Hin & Ha).
    rewrite Hd in Ha. apply Z.eqb_eq in Ha as ->. by apply list_elem_of_In.
  - split; [by destruct p|]. intros Hin. exfalso. apply not_true_iff_false in Hex.
    apply Hex, existsb_exists. eexists. split; [by apply list_elem_of_In|].
    by rewrite Hd.
Qed.

Lemma fresh_enforcement_exact_witness :
  result (K:=reference_kernel) (entry (FileOpen 12 0))
    (ex_world RK_MODE_ENFORCE 9500000000) = -1.
Proof.
  apply (fresh_enforcement_exact (K:=reference_kernel) (FileOpen 12 0)
    (ex_world RK_MODE_ENFORCE 9500000000) (mk_rk_gov 500 7 (2 ^ 31 + 3) 1 1 3 0)).
  - by apply ex_bindings_wf.
  - apply ex_clock_wf. lia.
  - vm_compute. reflexivity.
  - reflexivity.
  - exists 9500000000, (mk_rk_config 2000000000 4). cbn. split_and!; lia || done.
  - reflexivity.
  - vm_compute. by constructor.
Defined.

(** ** Bound, but never applied *)

(** Rules are stored under the scopes the sensor builds: a slot and a profile. *)
Definition stored_scope (s : Z) : Prop :=
  exists slot profile, 0 <= slot <= 1 /\ 0 <= profile < RK_MAX_PROFILES /\
    s = scope_of slot profile.

Definition rules_scoped (m : policy_maps) : Prop :=
  (forall k r, (k, r) ∈ m_net_deny m \/ (k, r) ∈ m_net_allow m ->
     stored_scope (nk_scope k) /\ 32 <= nk_prefixlen k) /\
  (forall k r, m_exec_allow m !! k = Some r -> stored_scope (ek_scope k)) /\
  (forall k r, m_file_protect m !! k = Some r -> stored_scope (fk_scope k)).

Definition is_file (p : rk_program) : bool :=
  match p with
  | FileOpen _ _ | FileUnlink _ _ _ | FileRmdir _ _ _ | FileRename _ _ _ _ _
  | FileLink _ _ _ _ | FileCreate _ _ _ _ | FileMkdir _ _ _ _ | FileSymlink _ _ _ _
  | FileMknod _ _ _ _ _ | FileSetattrV1 _ _ _ | FileSetattrV2 _ _ _ _ => true
  | _ => false
  end.

Lemma stored_scope_foreign s :
  stored_scope s -> s <> 0xffffffff /\ 0 <= s < 2 ^ 32.
Proof.
  intros (slot & profile & Hs & Hp & ->). split; [by apply scope_of_not_fail_closed|].
  rewrite scope_of_eq by done. unfold RK_MAX_PROFILES in *. lia.
Qed.

Section FailClosed.
Context `{K : BpfKernel} {HK : BpfKernelLaws K}.
Context (m : policy_maps) (e : kenv) (governed stale : Z).
Hypothesis Hscoped : rules_scoped m.
Local Abbreviation g := (fail_closed_gov governed stale).

Lemma fail_closed_lpm t addr :
  (forall k r, (k, r) ∈ t -> stored_scope (nk_scope k) /\ 32 <= nk_prefixlen k) ->
  lpm_lookup t (mk_rk_net_key 160 0xffffffff addr) = None.
Proof using HK.
  intros Ht. apply lpm_lookup_foreign; [done|by unfold scope_ok; cbn|].
  intros k r [Hs%stored_scope_foreign Hp]%Ht. unfold scope_ok. cbn [nk_scope]. tauto.
Qed.

Lemma fail_closed_net addr port proto :
  net_decision m g addr port proto = (rk_action_val RK_ACTION_DENY, 0).
Proof using HK Hscoped.
  unfold net_decision. cbn [g_scope fail_closed_gov].
  by rewrite !fail_closed_lpm by (intros k r ?; apply (proj1 Hscoped k r); tauto).
Qed.

Lemma fail_closed_exec inode unlinked :
  exec_decision m g (exec_key e g inode) unlinked = (rk_action_val RK_ACTION_DENY, 0).
Proof using Hscoped.
  unfold exec_decision. destruct (unlinked && _)%bool; [done|].
  destruct (m_exec_allow m !! _) as [r|] eqn:Hr; [|done]. exfalso.
  apply (proj1 (proj2 Hscoped)) in Hr as [Hs _]%stored_scope_foreign. by apply Hs.
Qed.

Lemma fail_closed_file_rule inode :
  m_file_protect m !! file_key e g inode = None.
Proof using Hscoped.
  destruct (m_file_protect m !! _) as [r|] eqn:Hr; [|done]. exfalso.
  apply (proj2 (proj2 Hscoped)) in Hr as [Hs _]%stored_scope_foreign. by apply Hs.
Qed.

Lemma fail_closed_file inode start access :
  (forall a, ~ ancestor e RK_FILE_MAX_DEPTH start a) ->
  (file_decision m e g inode start access).1.1 <> RK_ACTION_DENY.
Proof using Hscoped.
  intros Hd. rewrite file_decision_denies. unfold protected, denying_rule, subtree_rule.
  rewrite fail_closed_file_rule. intros [[? ?]|[_ [(k & a & _ & _ & Hs)|(a & Ha)]]]; [done| |].
  - rewrite fail_closed_file_rule in Hs. by destruct Hs.
  - by apply Hd in Ha.
Qed.

Lemma fail_closed_checks p (c : Z) :
  is_file p = false -> c ∈ checks m e g p -> c = RK_ACTION_DENY.
Proof using HK Hscoped.
  intros Hf Hc.
  destruct p; try discriminate Hf; cbn [checks] in Hc; unfold net_check, guard_checks in Hc;
    rewrite ?fail_closed_net, ?fail_closed_exec in Hc;
    repeat case_match; set_solver.
Qed.

Lemma fail_closed_file_checks p (c : Z) :
  (forall d a, ~ ancestor e RK_FILE_MAX_DEPTH d a) ->
  is_file p = true -> c ∈ checks m e g p -> c <> RK_ACTION_DENY.
Proof using Hscoped.
  clear HK. intros Hd Hf Hc.
  assert (forall inode start access (c : Z), c ∈ file_checks m e g inode start access ->
    c <> RK_ACTION_DENY) as Hfc.
  { intros inode start access c'. unfold file_checks. destruct (inode =? 0); [set_solver|].
    intros ->%list_elem_of_singleton. by apply fail_closed_file. }
  destruct p; try discriminate Hf; cbn [checks] in Hc; unfold create_checks in Hc;
    repeat case_match; rewrite ?elem_of_app in Hc; try set_solver.
Qed.

End FailClosed.

Lemma unapplied_governance `{K : BpfKernel} w b governed :
  bindings_wf (w_maps w) ->
  result (rk_governed_binding (k_cgroup_id (w_env w))) w = Some (b, governed) ->
  live_profile (w_maps w) b = None ->
  result rk_governance w =
    Some (fail_closed_gov governed (result rk_heartbeat_stale w)).
Proof.
  intros Hwf Hb Hl. rewrite governance_spec, Hb by done. unfold governance_context.
  by rewrite Hl.
Qed.

Lemma ex_rules_scoped bindings mode heartbeat :
  rules_scoped (ex_maps bindings mode heartbeat).
Proof.
  assert (stored_scope ex_scope) as Hs by (exists 1, 3; unfold RK_MAX_PROFILES; split_and!; [lia..|done]).
  split_and!; cbn.
  - intros k r [[= -> ->]%list_elem_of_singleton|[= -> ->]%list_elem_of_singleton];
      (split; [done|cbn; lia]).
  - intros k r [<- _]%lookup_singleton_Some. done.
  - intros k r [<- _]%lookup_singleton_Some. done.
Qed.

Lemma ex_parent d p :
  parent_dentry ex_env d = Some p -> d = 30 /\ p = 31 \/ d = 31 /\ p = 32.
Proof.
  unfold parent_dentry. cbn.
  destruct (Z.eqb_spec d 30) as [->|]; [cbn; naive_solver|].
  destruct (Z.eqb_spec d 31) as [->|]; [cbn; naive_solver|].
  by destruct (Z.eqb_spec d 32) as [->|].
Qed.

Lemma ex_shallow d a : ~ ancestor ex_env RK_FILE_MAX_DEPTH d a.
Proof.
  intros H. inversion H as [|? ? p1 ? H1 H']; subst. apply ex_parent in H1.
  inversion H' as [|? ? p2 ? H2 H'']; subst. apply ex_parent in H2.
  inversion H'' as [|? ? p3 ? H3 _]; subst. apply ex_parent in H3. lia.
Qed.

(** C30. Bound but never applied: while the live slot holds no profile for the
    binding, every network, socket, TUN, exec and self-protection program that
    takes a decision refuses, with the sensor alive or not. *)
Theorem unapplied_profile_denies `{K : BpfKernel} {HK : BpfKernelLaws K} p w b governed :
  bindings_wf (w_maps w) -> rules_scoped (w_maps w) ->
  result (rk_governed_binding (k_cgroup_id (w_env w))) w = Some (b, governed) ->
  live_profile (w_maps w) b = None ->
  is_file p = false -> earlier p = 0 ->
  checks (w_maps w) (w_env w) (fail_closed_gov governed (result rk_heartbeat_stale w)) p <> [] ->
  result (entry p) w = refuse p.
Proof.
  intros Hwf Hs Hb Hl Hf He Hcs.
  rewrite entry_follows, (unapplied_governance w b governed), He by done. cbn [Z.eqb negb].
  destruct (checks _ _ _ p) as [|c cs] eqn:Hc; [done|]. cbn [existsb].
  rewrite (fail_closed_checks _ _ _ _ Hs p c) by (done || rewrite Hc; set_solver).
  done.
Qed.

Lemma unapplied_profile_denies_witness :
  result (K:=reference_kernel) (entry (ExecCheck 5 0)) ex_unapplied = -1.
Proof.
  apply (unapplied_profile_denies (K:=reference_kernel) (HK:=reference_kernel_laws)
    (ExecCheck 5 0) ex_unapplied (mk_rk_binding 9 0) 500).
  - by apply ex_bindings_wf.
  - apply ex_rules_scoped.
  - vm_compute. reflexivity.
  - vm_compute. reflexivity.
  - reflexivity.
  - reflexivity.
  - vm_compute. discriminate.
Defined.

(** C35. The file programs are the exception: under the same conditions and with the
    sensor alive they permit every access whose path is shorter than the walk's
    bound, because no rule is stored under the fail-closed scope. *)
Theorem unapplied_profile_permits_files `{K : BpfKernel} p w b governed :
  bindings_wf (w_maps w) -> rules_scoped (w_maps w) -> clock_wf w ->
  result (rk_governed_binding (k_cgroup_id (w_env w))) w = Some (b, governed) ->
  live_profile (w_maps w) b = None ->
  heartbeat_fresh (w_maps w) (k_boot_ns (w_env w)) ->
  (forall d a, ~ ancestor (w_env w) RK_FILE_MAX_DEPTH d a) ->
  is_file p = true -> earlier p = 0 ->
  result (entry p) w = permit p.
Proof.
  intros Hwf Hs Hc Hb Hl Hh Hd Hf He.
  rewrite entry_follows, (unapplied_governance w b governed), He by done. cbn [Z.eqb negb].
  rewrite (proj2 (heartbeat_stale_spec w Hc) Hh).
  rewrite existsb_none; [done|]. intros c Hin.
  rewrite enforced_deny_fresh by done. apply Z.eqb_neq.
  by eapply fail_closed_file_checks.
Qed.

Lemma unapplied_profile_permits_files_witness :
  result (K:=reference_kernel) (entry (FileUnlink 22 30 0)) ex_unapplied = 0.
Proof.
  apply (unapplied_profile_permits_files (K:=reference_kernel)
    (FileUnlink 22 30 0) ex_unapplied (mk_rk_binding 9 0) 500).
  - by apply ex_bindings_wf.
  - apply ex_rules_scoped.
  - apply ex_clock_wf. lia.
  - vm_compute. reflexivity.
  - vm_compute. reflexivity.
  - exists 9500000000, (mk_rk_config 2000000000 4). cbn. split_and!; lia || done.
  - apply ex_shallow.
  - reflexivity.
  - reflexivity.
Defined.
