(* ===== verification/Records.v ===== *)
(** * Every record decodes

    End to end between the two languages: whatever a program of the object offers
    to the ring buffer is accepted by the sensor's decoder, as an event of the
    governing cgroup. *)

From S2P Require Import Prelude Abi Bpf Lpm Scenario CoreRead Logic Common Governance.
From S2P Require Import Net Exec File Guard Emit Decoder Events Object Enforcement.
Open Scope Z_scope.

(** Every value is in the range of its C type. *)
Record env_typed (e : kenv) : Prop := mk_env_typed {
  et_boot : fits 8 (k_boot_ns e);
  et_cgroup : fits 8 (k_cgroup_id e);
  et_ancestor : forall level, fits 8 (k_ancestor_cgroup_id e level);
  et_core : core_typed e }.

Lemma et_dev e sb : env_typed e -> fits 8 (k_field e super_block_s_dev sb).
Proof.
  intros He. destruct (core_identity_fits e sb 0 (et_core e He)) as [Hd _].
  unfold fits in *. cbn in *. lia.
Qed.

Lemma et_ino e inode : env_typed e -> fits 8 (k_field e inode_i_ino inode).
Proof. intros He. apply (core_identity_fits e 0 inode (et_core e He)). Qed.

Record maps_typed (m : policy_maps) : Prop := mk_maps_typed {
  mt_gen : forall i p, m_profiles m !! i = Some p -> fits 8 (prof_policy_gen p);
  mt_net : forall k r, (k, r) ∈ m_net_deny m \/ (k, r) ∈ m_net_allow m ->
    Forall (fun rg => fits 4 (nr_rule_id rg)) (rule_ranges r);
  mt_exec : forall k r, m_exec_allow m !! k = Some r -> fits 4 (er_rule_id r);
  mt_file : forall k r, m_file_protect m !! k = Some r -> fits 4 (fr_rule_id r);
  mt_bind : bindings_wf m }.

Definition decided_typed (t : telemetry) : Prop :=
  forall tid d, t_exec_decided t !! tid = Some d ->
    fits 8 (ed_policy_gen d) /\ fits 4 (ed_rule_id d).

(** ** The scratch buffer stays *)

Definition scratch_ready (w : world) : Prop := exists m, scratch_ok w m.

Class KeepsScratch `{K : BpfKernel} {A} (p : prog A) : Prop :=
  keeps_scratch : forall w, scratch_ready w -> scratch_ready (final p w).

Section Keeps.
Context `{K : BpfKernel}.

Lemma keeps_ret {A} (a : A) : KeepsScratch (mret a).
Proof. by intros w. Qed.

Lemma keeps_bind {A B} (p : prog A) (f : A -> prog B) :
  KeepsScratch p -> (forall a, KeepsScratch (f a)) -> KeepsScratch (p ≫= f).
Proof. intros Hp Hf w Hw. rewrite final_bind. by apply Hf, Hp. Qed.

Lemma keeps_read_only {A} (p : prog A) : ReadOnly p -> KeepsScratch p.
Proof. intros Hp w Hw. by rewrite Hp. Qed.

Lemma keeps_st f :
  (forall m, length (sb_mem (f m)) = length (sb_mem m)) -> KeepsScratch (call (StMsg f)).
Proof.
  intros Hf w (m & Hm & Hl). exists (f m). split; [|by rewrite Hf].
  unfold has_msg in *. rewrite final_call. cbn. by rewrite Hm.
Qed.

(** Calls that do not touch the scratch buffer. *)
Definition op_no_scratch {X : Set} (o : op X) : bool :=
  match o with StMsg _ => false | _ => true end.

Lemma keeps_call {X : Set} (o : op X) : op_no_scratch o = true -> KeepsScratch (call o).
Proof.
  intros Ho w (m & Hm & Hl). exists m. split; [|done]. rewrite final_call.
  unfold has_msg in *. destruct o; try done. cbn. by destruct (_ <? 0).
Qed.

End Keeps.

Ltac keeps_step :=
  match goal with
  | |- KeepsScratch (mbind _ _) => apply keeps_bind; [|intros ?]
  | |- KeepsScratch (mret _) => apply keeps_ret
  | |- KeepsScratch (call (StMsg _)) =>
      apply keeps_st; intros ?; msg_fields; rewrite ?length_inserts; reflexivity
  | |- KeepsScratch (call _) => apply keeps_call; reflexivity
  | |- KeepsScratch (match ?x with _ => _ end) => destruct x
  | |- KeepsScratch (let '(_, _) := ?x in _) => destruct x
  | |- KeepsScratch _ => solve [eauto with rk typeclass_instances]
  end.
Ltac solve_keeps := intros; repeat keeps_step.

Section KeepsInst.
Context `{K : BpfKernel}.

#[export] Instance rk_count_keeps idx : KeepsScratch (rk_count idx).
Proof. unfold rk_count. solve_keeps. Qed.

#[export] Instance rk_scratch_keeps : KeepsScratch rk_scratch.
Proof. unfold rk_scratch. solve_keeps. Qed.

#[export] Instance rk_fill_hdr_keeps a b c d e : KeepsScratch (rk_fill_hdr a b c d e).
Proof. unfold rk_fill_hdr. solve_keeps. Qed.

#[export] Instance rk_fill_task_keeps : KeepsScratch rk_fill_task.
Proof. unfold rk_fill_task. solve_keeps. Qed.

#[export] Instance rk_append_kstr_keeps src n : KeepsScratch (rk_append_kstr src n).
Proof. unfold rk_append_kstr. solve_keeps. Qed.

#[export] Instance rk_emit_keeps : KeepsScratch rk_emit.
Proof. unfold rk_emit. solve_keeps. Qed.

#[export] Instance rk_file_check_keeps g inode start name access hook :
  KeepsScratch (rk_file_check g inode start name access hook).
Proof.
  unfold rk_file_check. apply keeps_bind; [apply keeps_read_only; apply _|intros key].
  apply keeps_bind; [apply keeps_read_only; apply _|intros [[action rule_id] flags]].
  unfold rk_count_decision, rk_file_emit. solve_keeps.
Qed.

End KeepsInst.

(** ** Records of a governed task *)

(** The decoder accepts the record, as an event of the cgroup that governs. *)
Definition decodes_for (g : rk_gov) (rec : list Z) : Prop :=
  exists ev, decode rec = inr ev /\ hdr_cgroup_id (ev_hdr ev) = g_cgroup_id g.

(** The ring grew by records the decoder accepts. *)
Definition grew (g : rk_gov) (w w' : world) : Prop :=
  exists recs, ring w' = ring w ++ recs /\ Forall (fun r => decodes_for g r.2) recs.

Lemma grew_refl g w : grew g w w.
Proof. exists []. by rewrite app_nil_r. Qed.

Lemma grew_trans g w1 w2 w3 : grew g w1 w2 -> grew g w2 w3 -> grew g w1 w3.
Proof.
  intros (r1 & H1 & F1) (r2 & H2 & F2). exists (r1 ++ r2).
  rewrite H2, H1, app_assoc. split; [done|by apply Forall_app].
Qed.

Lemma grew_published `{K : BpfKernel} g w w' rec :
  ring w' = published (w_tele w) rec -> decodes_for g rec -> grew g w w'.
Proof.
  intros Hr Hd. unfold published in Hr. eexists. split; [exact Hr|].
  destruct (accepted _ _); [|constructor]. by constructor.
Qed.

Section Typed.
Context `{K : BpfKernel} {HK : BpfKernelLaws K}.
Context (m : policy_maps) (e : kenv) (g : rk_gov).
Hypothesis Hmaps : maps_typed m.
Hypothesis Henv : env_typed e.
Hypothesis Hgov : fits 8 (g_cgroup_id g) /\ fits 8 (g_policy_gen g).

Lemma reported_verdict_known action : verdict_known (rk_reported_verdict g action).
Proof using.
  unfold rk_reported_verdict, verdict_known. destruct (negb _); [auto|].
  destruct (_ =? _); auto.
Qed.

Lemma verdict_known_fits v : verdict_known v -> fits 1 v.
Proof using. unfold fits. by intros [-> | [-> | ->]]. Qed.

Lemma rk_rule_fits action rule_id : fits 4 rule_id -> fits 4 (rk_rule g action rule_id).
Proof using. unfold rk_rule. destruct (_ && _)%bool; [by unfold fits|done]. Qed.

Lemma fits_u32 x : fits 4 (u32 x).
Proof using. apply u32_bound. Qed.

Lemma event_hdr_wf gen (type : rk_event_type) verdict rule_id :
  fits 8 gen -> verdict_known verdict -> fits 4 rule_id ->
  rk_hdr_wf (event_hdr e (g_cgroup_id g) gen type verdict rule_id).
Proof using Henv Hgov.
  intros Hgen Hv Hr. unfold rk_hdr_wf, event_hdr. cbn [hdr_ts_ns hdr_cgroup_id hdr_policy_gen
    hdr_pid hdr_tgid hdr_uid hdr_gid hdr_type hdr_verdict hdr_abi hdr_rule_id].
  repeat (apply Forall_cons; split; cbn [fst snd]); try apply fits_u32; try done.
  - apply Henv.
  - apply Hgov.
  - by destruct type.
  - by apply verdict_known_fits.
Qed.

(** A record is accepted when its payload is the one its type announces. *)
Lemma record_decodes gen (type : rk_event_type) verdict rule_id pl :
  fits 8 gen -> verdict_known verdict -> fits 4 rule_id -> payload_wf type pl ->
  Z.of_nat (length (payload_bytes pl)) <= MAX_PAYLOAD ->
  decodes_for g (event_bytes (event_hdr e (g_cgroup_id g) gen type verdict rule_id)
    (payload_bytes pl)).
Proof using Henv Hgov.
  intros. set (ev := mk_Event (event_hdr e (g_cgroup_id g) gen type verdict rule_id) pl).
  exists ev. split; [|reflexivity]. apply (decode_encode_wf ev). split_and!; try done. by apply event_hdr_wf.
Qed.

Lemma decision_decodes (type : rk_event_type) action rule_id pl :
  fits 4 rule_id -> payload_wf type pl ->
  Z.of_nat (length (payload_bytes pl)) <= MAX_PAYLOAD ->
  decodes_for g (event_bytes (decision_hdr e g type action rule_id) (payload_bytes pl)).
Proof using Henv Hgov.
  intros. apply record_decodes; [apply Hgov|apply reported_verdict_known| |done..].
  by apply rk_rule_fits.
Qed.

(** Rule ids that reach a record come from the maps. *)
Lemma first_range_fits port proto r id :
  Forall (fun rg => fits 4 (nr_rule_id rg)) (rule_ranges r) ->
  first_range port proto r = Some id -> fits 4 id.
Proof using.
  intros Hr. unfold first_range. intros (rg & Hh & ->)%fmap_Some.
  apply head_Some_elem_of in Hh. apply list_elem_of_filter in Hh as [_ Hin].
  apply elem_of_take in Hin as (i & Hi & _). by eapply Forall_lookup_1 in Hr.
Qed.

Lemma net_decision_fits addr port proto : fits 4 (net_decision m g addr port proto).2.
Proof using HK Hmaps.
  unfold net_decision.
  assert (forall t id, t = m_net_deny m \/ t = m_net_allow m ->
    lpm_lookup t (mk_rk_net_key 160 (g_scope g) addr) ≫= first_range port proto = Some id ->
    fits 4 id) as Ht.
  { intros t id Ht (r & Hl & Hf)%bind_Some.
    apply lpm_lookup_Some in Hl as (k & Hin & _); [|done].
    eapply first_range_fits; [|done]. apply (mt_net _ Hmaps k r).
    destruct Ht as [-> | ->]; auto. }
  destruct (lpm_lookup (m_net_deny m) _ ≫= _) as [id|] eqn:Hd.
  { apply (Ht _ id (or_introl eq_refl) Hd). }
  destruct (lpm_lookup (m_net_allow m) _ ≫= _) as [id|] eqn:Ha; [|done].
  apply (Ht _ id (or_intror eq_refl) Ha).
Qed.

Lemma exec_decision_fits key unlinked : fits 4 (exec_decision m g key unlinked).2.
Proof using Hmaps.
  unfold exec_decision. destruct (_ && _)%bool; [done|].
  destruct (m_exec_allow m !! key) eqn:Hk; [|done]. by eapply mt_exec.
Qed.

Lemma file_decision_fits inode start access :
  let '(_, rule_id, flags) := file_decision m e g inode start access in
  fits 4 rule_id /\ fits 1 flags.
Proof using Hmaps.
  assert (forall d r, subtree_rule m e g access d = Some r -> fits 4 (fr_rule_id r)) as Hs.
  { intros d r (r' & Hl & Hr)%bind_Some. destruct (_ && _)%bool; [|done].
    injection Hr as <-. by eapply mt_file. }
  unfold file_decision. destruct (denying_rule _ _ _) as [r|] eqn:Hd.
  - unfold denying_rule in Hd. apply bind_Some in Hd as (r' & Hl & Hr).
    destruct (_ ∋ _); [|done]. injection Hr as <-. split; [by eapply mt_file|].
    by destruct (_ ∋ _).
  - destruct (head _) as [r|] eqn:Hh.
    + apply head_Some_elem_of, list_elem_of_omap in Hh as (d & _ & Hr).
      split; [by eapply Hs|done].
    + by destruct (_ <? _)%nat.
Qed.

End Typed.

(** ** Programs whose records decode *)

Section Programs.
Context `{K : BpfKernel} {HK : BpfKernelLaws K}.

Definition reports (p : prog Z) (w : world) (g : rk_gov) : Prop :=
  forall w', w' ≡ w -> scratch_ready w' ->
    scratch_ready (final p w') /\ grew g w' (final p w').

Lemma reports_ret v w g : reports (mret v) w g.
Proof. intros w' _ Hs. split; [done|apply grew_refl]. Qed.

Lemma reports_read f x k w g :
  reports (k (k_field (w_env w) f x)) w g ->
  reports (y ← call (CoreRead f x); k y) w g.
Proof.
  intros Hk w' Hw Hs. rewrite final_bind, result_call, final_call. cbn [handle fst snd].
  rewrite (proj2 Hw). by apply Hk.
Qed.

Lemma reports_seq p q w g :
  reports p w g -> reports q w g ->
  reports (err ← p; if negb (err =? 0) then mret err else q) w g.
Proof.
  intros Hp Hq w' Hw Hs. rewrite final_bind. destruct (Hp w' Hw Hs) as [Hs1 Hg1].
  destruct (negb _); [done|].
  destruct (Hq (final p w')) as [Hs2 Hg2]; [by etrans; [apply final_equiv|]|done|].
  split; [done|by eapply grew_trans].
Qed.

Lemma governed_walk_id w levels self ls b id :
  result (rk_governed_walk levels self ls) w = Some (b, id) ->
  exists level, id = k_ancestor_cgroup_id (w_env w) level.
Proof.
  induction ls as [|l ls IH]; [done|]. cbn [rk_governed_walk].
  destruct (negb _); [done|]. sym_exec. destruct (_ || _)%bool; [done|]. sym_exec.
  destruct (m_cgroup_profile (w_maps w) !! k_ancestor_cgroup_id _ _) eqn:E; [|done].
  rewrite result_ret. intros [= <- <-]. by exists l.
Qed.

Lemma governance_typed w g :
  maps_typed (w_maps w) -> env_typed (w_env w) -> result rk_governance w = Some g ->
  fits 8 (g_cgroup_id g) /\ fits 8 (g_policy_gen g).
Proof.
  intros Hm He. rewrite governance_spec by apply Hm.
  destruct (result (rk_governed_binding _) w) as [[b id]|] eqn:Hb; [|done].
  assert (fits 8 id) as Hid.
  { unfold rk_governed_binding in Hb. rewrite result_bind, final_call, result_call in Hb.
    cbn [handle fst snd] in Hb. destruct (m_cgroup_profile _ !! _).
    { injection Hb as <- <-. apply He. }
    rewrite result_bind, final_call, result_call in Hb. cbn [handle fst snd] in Hb.
    destruct (_ =? 0); [done|]. apply governed_walk_id in Hb as [l ->]. apply He. }
  intros [= <-]. unfold governance_context. destruct (live_profile _ _) as [p|] eqn:Hp; [|done].
  split; [done|]. unfold live_profile in Hp. destruct (_ <=? _); [done|].
  apply bind_Some in Hp as (p' & Hl & Hp). destruct (_ =? 0); [done|]. injection Hp as <-.
  by eapply mt_gen.
Qed.

Lemma strings_ok_one s :
  Z.of_nat (length s) < 2 ^ 16 -> strings_ok (mk_Strings (str_field s) 1) 1.
Proof.
  intros Hs. exists [s]. split_and!; [|done|by constructor].
  unfold tail_bytes. cbn. by rewrite app_nil_r.
Qed.

Lemma strings_ok_two s1 s2 :
  Z.of_nat (length s1) < 2 ^ 16 -> Z.of_nat (length s2) < 2 ^ 16 ->
  strings_ok (mk_Strings (str_field s1 ++ str_field s2) 2) 2.
Proof.
  intros H1 H2. exists [s1; s2]. split_and!; [|done|by repeat constructor].
  unfold tail_bytes. cbn. by rewrite app_nil_r.
Qed.

Lemma file_name_length e d : kenv_wf e -> Z.of_nat (length (file_name e d)) < 256.
Proof.
  intros He. unfold file_name. destruct (d =? 0); [done|].
  apply kstr_length; [done|lia|by unfold RK_SCRATCH_PAYLOAD_MAX].
Qed.

Section Governed.
Context (w : world) (g : rk_gov).
Hypothesis Hmaps : maps_typed (w_maps w).
Hypothesis Henv : env_typed (w_env w).
Hypothesis Hkenv : kenv_wf (w_env w).
Hypothesis Hgov : fits 8 (g_cgroup_id g) /\ fits 8 (g_policy_gen g).

Lemma reports_check inode start name access hook :
  fits 4 access -> fits 2 hook ->
  reports (rk_file_check g inode start name access hook) w g.
Proof using Hmaps Henv Hkenv Hgov.
  intros Ha Hh w' [Hm He] [m Hs]. split; [by apply rk_file_check_keeps; exists m|].
  pose proof (file_check_ring g inode start name access hook w' m Hs) as Hr.
  rewrite Hm, He in Hr. specialize (Hr Hkenv).
  pose proof (file_decision_fits (w_maps w) (w_env w) g Hmaps inode start access) as Hf.
  destruct (file_decision _ _ _ _ _ _) as [[action rule_id] flags]. destruct Hf as [Hf1 Hf2].
  destruct (rk_effective_deny g action); [|by exists []; rewrite app_nil_r].
  eapply grew_published; [exact Hr|].
  pose proof (file_name_length (w_env w) name Hkenv) as Hn.
  apply (decision_decodes (w_env w) g Henv Hgov RK_EV_FILE_DENY action rule_id
    (PFileDeny (mk_rk_payload_file_deny (fk_dev (file_key (w_env w) g inode))
               (fk_ino (file_key (w_env w) g inode)) access hook flags 0 1 0 0)
       (mk_Strings (str_field (file_name (w_env w) name)) 1))); [done| |].
  - split_and!; [done| |apply strings_ok_one; lia].
    repeat (apply Forall_cons; split; cbn [fst snd]); try done;
      [by apply et_dev|by apply et_ino].
  - cbn [payload_bytes str_data]. rewrite length_app, str_field_length.
    unfold MAX_PAYLOAD, RK_SCRATCH_PAYLOAD_MAX. cbn. lia.
Qed.

Lemma reports_checks inode start name access hook :
  fits 4 access -> fits 2 hook ->
  reports (if inode =? 0 then mret 0
           else rk_file_check g inode start name access hook) w g.
Proof using Hmaps Henv Hkenv Hgov.
  intros. destruct (inode =? 0); [apply reports_ret|by apply reports_check].
Qed.

Lemma reports_create dir dentry hook :
  fits 2 hook -> reports (rk_dir_create_check g dir dentry hook) w g.
Proof using Hmaps Henv Hkenv Hgov.
  intros Hh. unfold rk_dir_create_check. destruct (dir =? 0); [apply reports_ret|].
  destruct (negb (dentry =? 0)).
  - apply reports_read. by apply reports_check.
  - by apply reports_check.
Qed.

Lemma open_access_fits f_mode f_flags : fits 4 (rk_open_access f_mode f_flags).
Proof using.
  unfold rk_open_access. by do 4 (destruct (_ ∋ _)).
Qed.

Lemma setattr_access_fits ia_valid : fits 4 (rk_setattr_access ia_valid).
Proof using. unfold rk_setattr_access. by destruct (_ ∋ _), (_ ∋ _). Qed.

Lemma reports_setattr dentry attr : reports (rk_setattr_check g dentry attr) w g.
Proof using Hmaps Henv Hkenv Hgov.
  apply reports_read. destruct (_ =? 0); [apply reports_ret|].
  apply reports_read. apply reports_check; [apply setattr_access_fits|done].
Qed.

Lemma reports_rename old_dentry new_dir new_dentry :
  reports
    (old_inode ← call (CoreRead dentry_d_inode old_dentry);
     err ← (if old_inode =? 0 then mret 0
            else rk_file_check g old_inode old_dentry old_dentry RK_FILE_RENAME
                   RK_FILE_HOOK_RENAME);
     if negb (err =? 0) then mret err
     else
       new_inode ← call (CoreRead dentry_d_inode new_dentry);
       err ← (if new_inode =? 0 then mret 0
              else rk_file_check g new_inode new_dentry new_dentry
                     (Z.lor RK_FILE_DELETE RK_FILE_RENAME) RK_FILE_HOOK_RENAME);
       if negb (err =? 0) then mret err
       else rk_dir_create_check g new_dir new_dentry RK_FILE_HOOK_RENAME) w g.
Proof using Hmaps Henv Hkenv Hgov.
  apply reports_read, reports_seq; [by apply reports_checks|].
  apply reports_read, reports_seq; [by apply reports_checks|by apply reports_create].
Qed.

(** *** Programs that report at most once *)

Lemma bpf_ntohs_fits x : fits 2 (bpf_ntohs x).
Proof using.
  unfold fits, bpf_ntohs. change 0xff with (Z.ones 8).
  pose proof (land_mask_bound x 8). pose proof (land_mask_bound (Z.shiftr x 8) 8).
  rewrite lor_shiftl_small by lia. cbn [Z.mul Z.of_nat Pos.mul Pos.of_succ_nat Pos.succ]. lia.
Qed.

Lemma net_body_wf ctx v6 :
  rk_payload_net_wf (mk_rk_payload_net (replicate 16 0) (sock_addr_bytes ctx v6) 0
    (bpf_ntohs (u16 (user_port ctx))) (if v6 then RK_AF_INET6 else RK_AF_INET)
    (u8 (sa_protocol ctx)) 0).
Proof using.
  split_and!; [done|apply sock_addr_bytes_length|].
  repeat (apply Forall_cons; split; cbn [fst snd]); try done.
  - apply bpf_ntohs_fits.
  - by destruct v6.
  - apply u8_bound.
Qed.

Context (m : rk_scratch_buf).
Hypothesis Hs : scratch_ok w m.
Hypothesis Hg : result rk_governance w = Some g.

Lemma sock_addr_grew ctx v6 (type : rk_event_type) :
  type = RK_EV_NET_CONNECT \/ type = RK_EV_SENDMSG ->
  grew g w (final (rk_net_sock_addr ctx v6 type) w).
Proof using HK Hmaps Henv Hgov Hs Hg.
  intros Ht. eapply grew_published; [by apply (sock_addr_ring ctx v6 type w m g)|].
  set (addr := sock_addr_bytes ctx v6). set (port := bpf_ntohs _).
  apply (decision_decodes (w_env w) g Henv Hgov type _ _
    (PNet (mk_rk_payload_net (replicate 16 0) addr 0 port
       (if v6 then RK_AF_INET6 else RK_AF_INET) (u8 (sa_protocol ctx)) 0))).
  - by apply net_decision_fits.
  - split; [destruct Ht as [-> | ->]; auto|apply net_body_wf].
  - cbn [payload_bytes]. by rewrite rk_payload_net_bytes_length by apply net_body_wf.
Qed.

Lemma socket_create_grew family type protocol kern ret :
  grew g w (final (rk_net_socket_create family type protocol kern ret) w).
Proof using Henv Hgov Hs Hg.
  destruct (Z.eqb_spec ret 0) as [->|Hr].
  2: { unfold rk_net_socket_create. rewrite (proj2 (Z.eqb_neq _ _) Hr). apply grew_refl. }
  destruct (Z.eqb_spec kern 0) as [->|Hk].
  2: { unfold rk_net_socket_create. rewrite (proj2 (Z.eqb_neq _ _) Hk). apply grew_refl. }
  destruct (rk_sock_observed family type protocol) eqn:Ho.
  { unfold rk_net_socket_create. rewrite Ho. apply grew_refl. }
  eapply grew_published; [by apply (socket_create_ring _ _ _ w m g)|].
  apply (decision_decodes (w_env w) g Henv Hgov RK_EV_SOCK_CREATE _ _
    (PSock (mk_rk_payload_sock (u16 family) 0 (u32 type) (u32 protocol) 0))); [done| |done].
  split; [done|].
  repeat (apply Forall_cons; split; cbn [fst snd]); try done; try apply fits_u32.
  apply u16_bound.
Qed.

Lemma tun_grew (op : rk_tun_op) : grew g w (final (rk_net_tun op) w).
Proof using Henv Hgov Hs Hg.
  eapply grew_published; [by apply (tun_ring _ w m g)|].
  apply (decision_decodes (w_env w) g Henv Hgov RK_EV_TUN _ _
    (PTun (mk_rk_payload_tun op 0))); [done| |done].
  split; [done|]. repeat (apply Forall_cons; split; cbn [fst snd]); try done. by destruct op.
Qed.

Lemma guard_grew (hook : rk_tamper_hook) target detail :
  fits 4 target -> fits 8 detail ->
  grew g w (final (rk_guard_decide g hook target detail) w).
Proof using Henv Hgov Hs.
  intros Ht Hd. eapply grew_published; [by apply (guard_ring _ _ _ _ w m)|].
  apply (record_decodes (w_env w) g Henv Hgov (g_policy_gen g) RK_EV_TAMPER _ _
    (PTamper (mk_rk_payload_tamper hook 0 target detail)));
    [apply Hgov|apply reported_verdict_known|done| |done].
  split; [done|]. repeat (apply Forall_cons; split; cbn [fst snd]); try done. by destruct hook.
Qed.

Lemma exec_body_wf bprm flags n :
  fits 4 flags -> fits 2 n -> rk_payload_exec_wf (exec_body (w_env w) g bprm flags n).
Proof using Henv.
  intros. repeat (apply Forall_cons; split; cbn [fst snd]); try done;
      [by apply et_dev|by apply et_ino].
Qed.

Lemma exec_filename_length bprm : Z.of_nat (length (exec_filename (w_env w) bprm)) < 256.
Proof using Hkenv.
  apply kstr_length; [done|lia|by unfold RK_SCRATCH_PAYLOAD_MAX].
Qed.

Lemma exec_check_grew bprm ret : grew g w (final (rk_exec_check bprm ret) w).
Proof using Hmaps Henv Hkenv Hgov Hs Hg.
  destruct (Z.eqb_spec ret 0) as [->|Hr].
  2: { unfold rk_exec_check. rewrite (proj2 (Z.eqb_neq _ _) Hr). apply grew_refl. }
  pose proof (exec_check_ring bprm w m g Hs Hkenv Hg) as Hring. cbv zeta in Hring.
  destruct (rk_effective_deny g _); [|by exists []; rewrite app_nil_r].
  eapply grew_published; [exact Hring|].
  pose proof (exec_filename_length bprm) as Hl.
  set (flags := if bprm_unlinked (w_env w) bprm then _ else _).
  apply (decision_decodes (w_env w) g Henv Hgov RK_EV_EXEC _ _
    (PExec (exec_body (w_env w) g bprm flags 1)
       (mk_Strings (str_field (exec_filename (w_env w) bprm)) 1))).
  - by apply exec_decision_fits.
  - split_and!; [done| |apply strings_ok_one; lia]. apply exec_body_wf; [|done].
    subst flags. by destruct (bprm_unlinked _ _).
  - cbn [payload_bytes str_data]. rewrite length_app, str_field_length.
    unfold MAX_PAYLOAD, RK_SCRATCH_PAYLOAD_MAX. cbn. lia.
Qed.

Lemma exec_argv_length p bprm :
  exec_argv_off (w_env w) bprm + 2 + Z.of_nat (length (exec_argv (w_env w) p bprm)) <=
  RK_SCRATCH_PAYLOAD_MAX.
Proof using Hkenv.
  pose proof (exec_filename_length bprm) as Hf.
  assert (0 <= exec_argv_want (w_env w) p) as Hw.
  { unfold exec_argv_want. destruct (_ <? _); [apply u64_bound|lia]. }
  assert (24 <= exec_argv_off (w_env w) bprm <= 1000) as Ho
    by (unfold exec_argv_off; rewrite str_field_length; lia).
  unfold exec_argv, ublob, RK_SCRATCH_PAYLOAD_MAX in *. destruct Hkenv as (_ & Hu & _).
  specialize (Hu (Z.min (exec_argv_want (w_env w) p) (2048 - 2 - exec_argv_off (w_env w) bprm))
    (exec_argv_src (w_env w) p)).
  destruct (k_user _ _ _) as [r bs]. destruct Hu as [Hlen _]; [lia|].
  destruct (r <? 0); cbn [length]; lia.
Qed.

Lemma exec_record_grew p old_pid bprm :
  decided_typed (w_tele w) -> grew g w (final (rk_exec_record p old_pid bprm) w).
Proof using Hmaps Henv Hkenv Hgov Hs Hg.
  intros Hd. eapply grew_published; [by apply (exec_record_ring p old_pid bprm w m g)|].
  pose proof (exec_filename_length bprm) as Hl. pose proof (exec_argv_length p bprm) as Hl2.
  assert (24 <= exec_argv_off (w_env w) bprm) by (unfold exec_argv_off; lia).
  unfold RK_SCRATCH_PAYLOAD_MAX in *.
  apply (record_decodes (w_env w) g Henv Hgov _ RK_EV_EXEC RK_VERDICT_ALLOW _
    (PExec (exec_body (w_env w) g bprm (exec_record_flags (w_env w) p bprm) 2)
       (mk_Strings (str_field (exec_filename (w_env w) bprm) ++
                    str_field (exec_argv (w_env w) p bprm)) 2))).
  - unfold exec_deciding. destruct (_ !! u32 old_pid) as [d|] eqn:Hdec; [|apply Hgov].
    by apply Hd in Hdec as [? _].
  - by left.
  - unfold exec_deciding. destruct (_ !! u32 old_pid) as [d|] eqn:Hdec.
    + by apply Hd in Hdec as [_ ?].
    + destruct (m_exec_allow _ !! _) eqn:Hr; [by eapply mt_exec|done].
  - split_and!; [done| |apply strings_ok_two; lia]. apply exec_body_wf; [|done].
    unfold exec_record_flags. destruct (bprm_unlinked _ _), (_ <? 0); try done; by destruct (_ <? _).
  - cbn [payload_bytes str_data]. rewrite !length_app, !str_field_length.
    unfold exec_argv_off in *. rewrite str_field_length in *.
    unfold MAX_PAYLOAD, RK_SCRATCH_PAYLOAD_MAX. cbn. lia.
Qed.

Lemma file_guarded_grew ret body :
  (forall g, result rk_governance w = Some g -> reports (body g) w g) ->
  grew g w (final (rk_file_guarded ret body) w).
Proof using Hs Hg.
  intros Hb. unfold rk_file_guarded. destruct (negb _); [apply grew_refl|].
  rewrite final_read_only, Hg by apply _.
  apply (Hb g Hg w); [done|by exists m].
Qed.

Lemma guard_when_grew test body :
  ReadOnly test -> grew g w (final (body g) w) ->
  grew g w (final (rk_guard_when test body) w).
Proof using Hg.
  intros Ht Hb. unfold rk_guard_when. rewrite final_read_only by done.
  destruct (negb _); [apply grew_refl|]. by rewrite final_read_only, Hg by apply _.
Qed.

End Governed.

Lemma file_entry_grew p w g m :
  maps_typed (w_maps w) -> env_typed (w_env w) -> kenv_wf (w_env w) ->
  scratch_ok w m -> result rk_governance w = Some g -> is_file p = true ->
  grew g w (final (entry p) w).
Proof.
  intros Hm He Hk Hs Hg Hf.
  assert (forall g, result rk_governance w = Some g ->
    fits 8 (g_cgroup_id g) /\ fits 8 (g_policy_gen g)) as Hty by (intros; by eapply governance_typed).
  destruct p; try discriminate Hf; cbn [entry];
    apply (file_guarded_grew w g m Hs Hg); intros g' Hg'; specialize (Hty g' Hg').
  - apply reports_read. destruct (_ =? 0); [apply reports_ret|]. do 3 apply reports_read.
    destruct (rk_open_access _ _ =? 0); [apply reports_ret|].
    apply reports_check; try done. apply open_access_fits.
  - apply reports_read. by apply reports_checks.
  - apply reports_read. by apply reports_checks.
  - by apply reports_rename.
  - apply reports_read, reports_seq; [by apply reports_checks|by apply reports_create].
  - by apply reports_create.
  - by apply reports_create.
  - by apply reports_create.
  - by apply reports_create.
  - by apply reports_setattr.
  - by apply reports_setattr.
Qed.

Definition is_guard (p : rk_program) : bool :=
  match p with
  | GuardBpf _ | GuardTaskKill _ _ _ _ _ | GuardPtrace _ _ _ | GuardPinUnlink _ _ _
  | GuardPinRename _ _ _ _ _ | GuardPinRmdir _ _ _ | GuardUmount _ _ _ => true
  | _ => false
  end.

Lemma guard_entry_grew p w g m :
  env_typed (w_env w) -> fits 8 (g_cgroup_id g) /\ fits 8 (g_policy_gen g) ->
  scratch_ok w m -> result rk_governance w = Some g -> is_guard p = true ->
  grew g w (final (entry p) w).
Proof.
  intros He Hty Hs Hg Hp.
  destruct p; try discriminate Hp; cbn [entry];
    unfold rk_guard_bpf, rk_guard_task_kill, rk_guard_ptrace, rk_guard_pin_unlink,
      rk_guard_pin_rename, rk_guard_pin_rmdir, rk_guard_umount;
    try (destruct (negb _); [apply grew_refl|]);
    (apply (guard_when_grew w g Hg); [solve_read_only|]);
    rewrite ?final_bind, ?final_call, ?result_call; cbn [handle fst snd];
    (apply (guard_grew w g He Hty m Hs); first [apply u32_bound|apply u64_bound|done]).
Qed.

Lemma entry_grew p w g m :
  maps_typed (w_maps w) -> env_typed (w_env w) -> kenv_wf (w_env w) ->
  decided_typed (w_tele w) -> scratch_ok w m -> result rk_governance w = Some g ->
  grew g w (final (entry p) w).
Proof using HK.
  intros Hm He Hk Hd Hs Hg.
  pose proof (governance_typed w g Hm He Hg) as Hty.
  destruct (is_file p) eqn:Hf; [by eapply file_entry_grew|].
  destruct (is_guard p) eqn:Hgd; [by eapply guard_entry_grew|].
  destruct p; try discriminate Hf; try discriminate Hgd; cbn [entry].
  1-4: unfold rk_net_connect4, rk_net_connect6, rk_net_sendmsg4, rk_net_sendmsg6.
  1-4: apply (sock_addr_grew w g Hm He Hty m Hs Hg); by auto.
  - apply (socket_create_grew w g He Hty m Hs Hg).
  - unfold rk_net_tun_create. destruct (negb _); [apply grew_refl|].
    apply (tun_grew w g He Hty m Hs Hg).
  - unfold rk_net_tun_open. destruct (negb _); [apply grew_refl|].
    apply (tun_grew w g He Hty m Hs Hg).
  - unfold rk_net_tun_attach_queue. destruct (negb _); [apply grew_refl|].
    apply (tun_grew w g He Hty m Hs Hg).
  - apply (exec_check_grew w g Hm He Hk Hty m Hs Hg).
  - by apply (exec_record_grew w g Hm He Hk Hty m Hs Hg).
Qed.

End Programs.

(** C21. The two languages agree: whatever a program offers to the ring buffer for a
    governed task, in any state of the scratch buffer, is a record that the
    sensor's decoder accepts, as an event of the governing cgroup. *)
Theorem program_records_decode `{K : BpfKernel} {HK : BpfKernelLaws K} p w g m :
  maps_typed (w_maps w) -> env_typed (w_env w) -> kenv_wf (w_env w) ->
  decided_typed (w_tele w) -> scratch_ok w m -> result rk_governance w = Some g ->
  exists recs, ring (final (entry p) w) = ring w ++ recs /\
    Forall (fun r => exists ev, decode r.2 = inr ev /\
                       hdr_cgroup_id (ev_hdr ev) = g_cgroup_id g) recs.
Proof. intros. by apply (entry_grew p w g m). Qed.

(** The scenario's values are in range. *)
Lemma ex_typed bindings mode heartbeat :
  (forall id b, bindings !! id = Some b -> 0 <= bind_profile b < 2 ^ 32) ->
  maps_typed (ex_maps bindings mode heartbeat) /\ env_typed ex_env /\ kenv_wf ex_env.
Proof.
  intros Hb. split_and!.
  - split; cbn.
    + intros i p [_ <-]%lookup_singleton_Some. by unfold fits.
    + intros k r [[= -> ->]%list_elem_of_singleton|[= -> ->]%list_elem_of_singleton];
        by repeat (apply Forall_cons; split).
    + by intros k r [_ <-]%lookup_singleton_Some.
    + by intros k r [_ <-]%lookup_singleton_Some.
    + done.
  - split; cbn; try done.
    + intros level. by destruct (Z.to_nat level) as [|[|[|[|[|]]]]].
    + intros f p. by destruct f; cbn; repeat destruct (_ =? _).
  - apply ex_env_wf.
Qed.

Lemma ex_scratch_ok mode heartbeat : exists m, scratch_ok (ex_world mode heartbeat) m.
Proof. eexists. split; [reflexivity|]. cbn [sb_mem]. by rewrite length_replicate. Qed.

Lemma program_records_decode_witness :
  exists recs, ring (final (K:=reference_kernel) (entry (FileOpen 12 0))
      (ex_world RK_MODE_ENFORCE 9500000000)) = ring (ex_world RK_MODE_ENFORCE 9500000000) ++ recs /\
    Forall (fun r => exists ev, decode r.2 = inr ev /\ hdr_cgroup_id (ev_hdr ev) = 500) recs.
Proof.
  destruct (ex_typed ex_bindings RK_MODE_ENFORCE 9500000000) as (Hm & He & Hk).
  { unfold ex_bindings. intros id b [_ <-]%lookup_singleton_Some. cbn. lia. }
  destruct (ex_scratch_ok RK_MODE_ENFORCE 9500000000) as [m Hs].
  apply (program_records_decode (K:=reference_kernel) (HK:=reference_kernel_laws)
    (FileOpen 12 0) (ex_world RK_MODE_ENFORCE 9500000000)
    (mk_rk_gov 500 7 (2 ^ 31 + 3) 1 1 3 0) m Hm He Hk).
  - intros tid d Hd. cbn in Hd. by rewrite lookup_empty in Hd.
  - exact Hs.
  - vm_compute. reflexivity.
Defined.
