(* ===== verification/Counting.v ===== *)
(** * Decision counters

    Every decision a program takes is counted once, under its hook and its reported
    verdict, and nothing else touches the decision counters. *)

From S2P Require Import Prelude Abi Bpf Scenario Logic Common Governance.
From S2P Require Import Net Exec File Guard Emit Object Enforcement.
Open Scope Z_scope.

Definition counters (w : world) : gmap Z Z := t_counters (w_tele w).

(** The counter of a decision. *)
Definition decision_index (hook : Z) (g : rk_gov) (action : Z) : Z :=
  RK_CNT_DECISION_BASE + hook * RK_VERDICTS + rk_reported_verdict g action.

(** One more decision. *)
Definition bump (hook : Z) (g : rk_gov) (c : gmap Z Z) (action : Z) : gmap Z Z :=
  alter (fun v => u64 (v + 1)) (decision_index hook g action) c.

(** Counters that agree on all decisions. *)
Definition same_decisions (c1 c2 : gmap Z Z) : Prop :=
  forall i, RK_CNT_DECISION_BASE <= i -> c1 !! i = c2 !! i.

#[export] Instance same_decisions_equivalence : Equivalence same_decisions.
Proof.
  split.
  - by intros c i.
  - intros c1 c2 H i Hi. by rewrite H.
  - intros c1 c2 c3 H1 H2 i Hi. by rewrite H1, H2.
Qed.

#[export] Instance bump_proper hook g :
  Proper (same_decisions ==> (=) ==> same_decisions) (bump hook g).
Proof.
  intros c1 c2 H a ? <- i Hi. unfold bump.
  destruct (decide (i = decision_index hook g a)) as [->|Hne].
  - by rewrite !lookup_alter_eq, H.
  - rewrite !lookup_alter_ne by done. by apply H.
Qed.

Class KeepsDecisions `{K : BpfKernel} {A} (p : prog A) : Prop :=
  keeps_decisions : forall w, same_decisions (counters (final p w)) (counters w).

Section Keeps.
Context `{K : BpfKernel}.

Lemma keeps_decisions_ret {A} (a : A) : KeepsDecisions (mret a).
Proof. by intros w. Qed.

Lemma keeps_decisions_bind {A B} (p : prog A) (f : A -> prog B) :
  KeepsDecisions p -> (forall a, KeepsDecisions (f a)) -> KeepsDecisions (p ≫= f).
Proof. intros Hp Hf w. rewrite final_bind. etrans; [apply Hf|apply Hp]. Qed.

Lemma keeps_decisions_read_only {A} (p : prog A) : ReadOnly p -> KeepsDecisions p.
Proof. intros Hp w. by rewrite Hp. Qed.

Definition op_no_counter {X : Set} (o : op X) : bool :=
  match o with StCounter _ _ => false | _ => true end.

Lemma keeps_decisions_call {X : Set} (o : op X) :
  op_no_counter o = true -> KeepsDecisions (call o).
Proof.
  intros Ho w. rewrite final_call. destruct o; try done. cbn. by destruct (_ <? 0).
Qed.

Lemma count_counters idx w :
  counters (final (rk_count idx) w) = alter (fun v => u64 (v + 1)) idx (counters w).
Proof.
  unfold rk_count. rewrite final_bind, final_call, result_call. cbn [handle fst snd].
  unfold counters. destruct (t_counters (w_tele w) !! idx) as [v|] eqn:Hv.
  - rewrite final_call. cbn. apply map_eq. intros i.
    destruct (decide (i = idx)) as [->|].
    + by rewrite lookup_insert_eq, lookup_alter_eq, Hv.
    + by rewrite lookup_insert_ne, lookup_alter_ne by done.
  - rewrite final_ret. apply map_eq. intros i.
    destruct (decide (i = idx)) as [->|].
    + by rewrite lookup_alter_eq, Hv.
    + by rewrite lookup_alter_ne by done.
Qed.

#[export] Instance rk_count_keeps_decisions idx :
  idx < RK_CNT_DECISION_BASE -> KeepsDecisions (rk_count idx).
Proof.
  intros Hi w i Hb. rewrite count_counters, lookup_alter_ne by lia. done.
Qed.

(** The verdict index stays below [RK_VERDICTS]. *)
Lemma reported_verdict_range g action :
  0 <= rk_reported_verdict g action < RK_VERDICTS.
Proof.
  unfold rk_reported_verdict. destruct (negb _); [done|]. by destruct (_ =? _).
Qed.

Lemma count_decision_counters (hook : Z) g action w :
  hook < RK_HOOK_MAX ->
  counters (final (rk_count_decision hook g action) w) = bump hook g (counters w) action.
Proof.
  intros Hh. unfold rk_count_decision. pose proof (reported_verdict_range g action).
  rewrite (proj2 (Z.leb_gt _ _)), (proj2 (Z.leb_gt _ _)) by lia. apply count_counters.
Qed.

End Keeps.

Ltac keeps_decisions_step :=
  match goal with
  | |- KeepsDecisions (mbind _ _) => apply keeps_decisions_bind; [|intros ?]
  | |- KeepsDecisions (mret _) => apply keeps_decisions_ret
  | |- KeepsDecisions (call _) => apply keeps_decisions_call; reflexivity
  | |- KeepsDecisions (match ?x with _ => _ end) => destruct x
  | |- KeepsDecisions (let '(_, _) := ?x in _) => destruct x
  | |- KeepsDecisions (rk_count _) => apply rk_count_keeps_decisions; reflexivity
  | |- KeepsDecisions rk_scratch => unfold rk_scratch
  | |- KeepsDecisions (rk_fill_hdr _ _ _ _ _) => unfold rk_fill_hdr
  | |- KeepsDecisions rk_fill_task => unfold rk_fill_task
  | |- KeepsDecisions (rk_append_kstr _ _) => unfold rk_append_kstr
  | |- KeepsDecisions (rk_append_ublob _ _) => unfold rk_append_ublob
  | |- KeepsDecisions rk_emit => unfold rk_emit
  | |- KeepsDecisions (rk_net_emit _ _ _ _ _ _ _ _) => unfold rk_net_emit
  | |- KeepsDecisions (rk_file_emit _ _ _ _ _ _ _ _) => unfold rk_file_emit
  | |- KeepsDecisions (rk_exec_key_of _ _) =>
      apply keeps_decisions_read_only; apply _
  end.
Ltac solve_keeps_decisions := repeat keeps_decisions_step.

(** ** What each program counts *)

(** The decisions a program gets to: those up to the first enforced denial. *)
Fixpoint taken (g : rk_gov) (cs : list Z) : list Z :=
  match cs with
  | [] => []
  | c :: cs => c :: if rk_enforced_deny g c then [] else taken g cs
  end.

#[export] Instance rk_hook_eq_dec : EqDecision rk_hook.
Proof. solve_decision. Defined.

Definition hook_of (p : rk_program) : rk_hook :=
  match p with
  | Connect4 _ => RK_HOOK_CONNECT4 | Connect6 _ => RK_HOOK_CONNECT6
  | Sendmsg4 _ => RK_HOOK_SENDMSG4 | Sendmsg6 _ => RK_HOOK_SENDMSG6
  | SocketCreate _ _ _ _ _ => RK_HOOK_SOCK_CREATE
  | TunCreate _ | TunOpen _ | TunAttachQueue _ => RK_HOOK_TUN
  | ExecCheck _ _ | ExecRecord _ _ _ => RK_HOOK_EXEC
  | GuardBpf _ | GuardTaskKill _ _ _ _ _ | GuardPtrace _ _ _ | GuardPinUnlink _ _ _
  | GuardPinRename _ _ _ _ _ | GuardPinRmdir _ _ _ | GuardUmount _ _ _ => RK_HOOK_GUARD
  | _ => RK_HOOK_FILE
  end.

Definition counted (hook : Z) (g : rk_gov) (cs : list Z) (c : gmap Z Z) : gmap Z Z :=
  foldl (bump hook g) c (taken g cs).

#[export] Instance counted_proper hook g cs :
  Proper (same_decisions ==> same_decisions) (counted hook g cs).
Proof.
  unfold counted. induction (taken g cs) as [|a l IH]; intros c1 c2 H; [done|].
  cbn. apply IH. by apply bump_proper.
Qed.

Lemma taken_one g c : taken g [c] = [c].
Proof. cbn. by destruct (rk_enforced_deny g c). Qed.

Lemma taken_app g c1 c2 :
  taken g (c1 ++ c2) = taken g c1 ++ if existsb (rk_enforced_deny g) c1 then [] else taken g c2.
Proof.
  induction c1 as [|c c1 IH]; [done|]. cbn. destruct (rk_enforced_deny g c); [done|].
  cbn. by rewrite IH.
Qed.

Section Counts.
Context `{K : BpfKernel}.

(** [p] counts exactly the checks [cs] under [hook], in worlds like [w]. *)
Definition counts (p : prog Z) (w : world) (hook : Z) (g : rk_gov) (cs : list Z) : Prop :=
  forall w', w' ≡ w ->
    same_decisions (counters (final p w')) (counted hook g cs (counters w')).

Lemma counts_ret v w hook g : counts (mret v) w hook g [].
Proof. by intros w' _. Qed.

Lemma counts_read f x k w hook g cs :
  counts (k (k_field (w_env w) f x)) w hook g cs ->
  counts (y ← call (CoreRead f x); k y) w hook g cs.
Proof.
  intros Hk w' Hw. rewrite final_bind, result_call, final_call. cbn [handle fst snd].
  rewrite (proj2 Hw). by apply Hk.
Qed.

Lemma counts_seq p q w hook g c1 c2 :
  has_outcome p w g c1 -> counts p w hook g c1 -> counts q w hook g c2 ->
  counts (err ← p; if negb (err =? 0) then mret err else q) w hook g (c1 ++ c2).
Proof.
  intros Ho Hp Hq w' Hw. rewrite final_bind, (Ho w' Hw). unfold outcome, counted.
  rewrite taken_app, foldl_app. specialize (Hp w' Hw).
  destruct (existsb _ c1); cbn; [by apply Hp|].
  assert (final p w' ≡ w) as Hw2 by (by etrans; [apply final_equiv|]).
  etrans; [by apply Hq|]. by apply (counted_proper hook g c2).
Qed.

(** A decision that is counted, then only reported. *)
Lemma counts_one (hook : Z) g action (rest : prog Z) w :
  hook < RK_HOOK_MAX -> KeepsDecisions rest ->
  counts (rk_count_decision hook g action;; rest) w hook g [action].
Proof.
  intros Hh Hr w' _. rewrite final_bind. unfold counted. rewrite taken_one. cbn.
  etrans; [apply Hr|]. by rewrite count_decision_counters.
Qed.

Lemma counts_read_only {A} (p : prog A) (f : A -> prog Z) w hook g cs :
  ReadOnly p -> Verdict p -> counts (f (result p w)) w hook g cs ->
  counts (p ≫= f) w hook g cs.
Proof.
  intros Hp Hv Hf w' Hw. rewrite final_bind, Hp. rewrite (Hv w' w Hw). by apply Hf.
Qed.

#[export] Instance rk_file_key_of_verdict g inode : Verdict (rk_file_key_of g inode).
Proof. unfold rk_file_key_of. solve_verdict. Qed.

#[export] Instance rk_file_walk_verdict g access n d : Verdict (rk_file_walk g access n d).
Proof. revert d. induction n; intros d; cbn [rk_file_walk]; solve_verdict. Qed.

#[export] Instance rk_file_decide_verdict g key start access :
  Verdict (rk_file_decide g key start access).
Proof. unfold rk_file_decide. solve_verdict. Qed.

#[export] Instance rk_exec_key_of_verdict g inode : Verdict (rk_exec_key_of g inode).
Proof. unfold rk_exec_key_of. solve_verdict. Qed.

#[export] Instance rk_exec_action_verdict g key flags : Verdict (rk_exec_action g key flags).
Proof. unfold rk_exec_action. solve_verdict. Qed.

#[export] Instance rk_net_verdict_verdict g addr port proto :
  Verdict (rk_net_verdict g addr port proto).
Proof. unfold rk_net_verdict, rk_net_match. solve_verdict. Qed.

Lemma file_check_counts g inode start name access hook w :
  counts (rk_file_check g inode start name access hook) w RK_HOOK_FILE g
    [(file_decision (w_maps w) (w_env w) g inode start access).1.1].
Proof.
  unfold rk_file_check. apply counts_read_only; [apply _..|]. rewrite rk_file_key_of_result.
  apply counts_read_only; [apply _..|]. rewrite file_decide_spec.
  destruct (file_decision _ _ _ _ _ _) as [[action rule_id] flags].
  apply counts_one; [done|]. solve_keeps_decisions.
Qed.

Lemma file_checks_counts g inode start name access hook w :
  counts (if inode =? 0 then mret 0
          else rk_file_check g inode start name access hook) w RK_HOOK_FILE g
    (file_checks (w_maps w) (w_env w) g inode start access).
Proof.
  unfold file_checks. destruct (inode =? 0); [apply counts_ret|apply file_check_counts].
Qed.

Lemma create_counts g dir dentry hook w :
  counts (rk_dir_create_check g dir dentry hook) w RK_HOOK_FILE g
    (create_checks (w_maps w) (w_env w) g dir dentry).
Proof.
  unfold rk_dir_create_check, create_checks, file_checks.
  destruct (dir =? 0); [apply counts_ret|].
  destruct (negb (dentry =? 0)); [apply counts_read|]; apply file_check_counts.
Qed.

Lemma setattr_counts g dentry attr w :
  counts (rk_setattr_check g dentry attr) w RK_HOOK_FILE g
    (file_checks (w_maps w) (w_env w) g (k_field (w_env w) dentry_d_inode dentry) dentry
       (rk_setattr_access (k_field (w_env w) iattr_ia_valid attr))).
Proof.
  apply counts_read. unfold file_checks. destruct (_ =? 0); [apply counts_ret|].
  apply counts_read, file_check_counts.
Qed.

Lemma file_guarded_counts body w g cs :
  result rk_governance w = Some g -> counts (body g) w RK_HOOK_FILE g cs ->
  counts (rk_file_guarded 0 body) w RK_HOOK_FILE g cs.
Proof.
  intros Hg Hb. unfold rk_file_guarded. cbn [Z.eqb negb].
  apply counts_read_only; [apply _..|]. by rewrite Hg.
Qed.

Lemma file_entry_counts p w g :
  result rk_governance w = Some g -> is_file p = true -> earlier p = 0 ->
  counts (entry p) w RK_HOOK_FILE g (checks (w_maps w) (w_env w) g p).
Proof.
  intros Hg Hf He. destruct p; try discriminate Hf; cbn [earlier] in He; subst ret;
    cbn [entry checks]; apply file_guarded_counts; try done;
    try apply create_counts; try apply setattr_counts.
  - apply counts_read. unfold file_checks.
    destruct (k_field _ file_f_inode file =? 0); [by destruct (_ =? 0); apply counts_ret|].
    do 3 apply counts_read. destruct (rk_open_access _ _ =? 0); [apply counts_ret|].
    apply file_check_counts.
  - apply counts_read, file_checks_counts.
  - apply counts_read, file_checks_counts.
  - apply counts_read, counts_seq; [apply has_outcome_checks|apply file_checks_counts|].
    apply counts_read, counts_seq; [apply has_outcome_checks|apply file_checks_counts|].
    apply create_counts.
  - apply counts_read, counts_seq; [apply has_outcome_checks|apply file_checks_counts|].
    apply create_counts.
Qed.

(** What comes before a decision and counts nothing. *)
Lemma counts_after {A} (p : prog A) (f : A -> prog Z) w hook g cs :
  KeepsDecisions p -> (forall a, counts (f a) w hook g cs) -> counts (p ≫= f) w hook g cs.
Proof.
  intros Hp Hf w' Hw. rewrite final_bind.
  assert (final p w' ≡ w) as Hw2 by (by etrans; [apply final_equiv|]).
  etrans; [by apply Hf|]. apply counted_proper, Hp.
Qed.

Lemma counts_none p w hook g : KeepsDecisions p -> counts p w hook g [].
Proof. intros Hp w' _. apply Hp. Qed.

Lemma sock_addr_counts ctx v6 (type : rk_event_type) w g :
  result rk_governance w = Some g ->
  counts (rk_net_sock_addr ctx v6 type) w
    (if rk_event_type_val type =? RK_EV_NET_CONNECT
     then (if v6 then RK_HOOK_CONNECT6 else RK_HOOK_CONNECT4)
     else (if v6 then RK_HOOK_SENDMSG6 else RK_HOOK_SENDMSG4))
    g [net_check (w_maps w) g ctx v6].
Proof.
  intros Hg. unfold rk_net_sock_addr, net_check.
  apply counts_read_only; [apply _..|]. rewrite Hg.
  apply counts_read_only; [apply _..|]. rewrite rk_net_verdict_spec.
  destruct (net_decision _ _ _ _ _) as [action rule_id].
  apply counts_one; [by destruct (_ =? _), v6|solve_keeps_decisions].
Qed.

Lemma socket_create_counts family type protocol kern w g :
  result rk_governance w = Some g ->
  counts (rk_net_socket_create family type protocol kern 0) w RK_HOOK_SOCK_CREATE g
    (checks (w_maps w) (w_env w) g (SocketCreate family type protocol kern 0)).
Proof.
  intros Hg. unfold rk_net_socket_create. cbn [Z.eqb negb checks].
  destruct (negb (kern =? 0)); [apply counts_ret|].
  destruct (rk_sock_observed _ _ _); [apply counts_ret|]. cbn [orb].
  apply counts_read_only; [apply _..|]. rewrite Hg.
  apply counts_one; [done|solve_keeps_decisions].
Qed.

Lemma tun_counts op w g :
  result rk_governance w = Some g ->
  counts (rk_net_tun op) w RK_HOOK_TUN g [rk_raw_action g].
Proof.
  intros Hg. unfold rk_net_tun. apply counts_read_only; [apply _..|]. rewrite Hg.
  apply counts_one; [done|solve_keeps_decisions].
Qed.

Lemma exec_check_counts bprm w g :
  result rk_governance w = Some g ->
  counts (rk_exec_check bprm 0) w RK_HOOK_EXEC g
    (checks (w_maps w) (w_env w) g (ExecCheck bprm 0)).
Proof.
  intros Hg. unfold rk_exec_check. cbn [Z.eqb negb checks].
  apply counts_read_only; [apply _..|]. rewrite Hg. do 2 apply counts_read.
  apply counts_read_only; [apply _..|]. rewrite rk_exec_key_of_result.
  apply counts_read. fold (bprm_inode (w_env w) bprm). fold (bprm_unlinked (w_env w) bprm).
  apply counts_read_only; [apply _..|]. rewrite rk_exec_action_result.
  destruct (exec_decision _ _ _ _) as [action rule_id]. cbn [fst].
  do 2 (apply counts_after; [apply keeps_decisions_call; done|intros ?]).
  apply counts_one; [done|solve_keeps_decisions].
Qed.

Lemma exec_record_counts p old_pid bprm w g :
  counts (rk_exec_record p old_pid bprm) w RK_HOOK_EXEC g [].
Proof.
  apply counts_none. unfold rk_exec_record.
  apply keeps_decisions_bind; [apply keeps_decisions_read_only, _|intros [g'|]].
  all: solve_keeps_decisions.
Qed.

Lemma guard_decide_counts g hook target detail w :
  counts (rk_guard_decide g hook target detail) w RK_HOOK_GUARD g
    [rk_action_val RK_ACTION_DENY].
Proof.
  unfold rk_guard_decide. apply counts_after; [solve_keeps_decisions|intros msg].
  apply counts_one; [done|solve_keeps_decisions].
Qed.

Lemma guard_when_counts test body w g (b : bool) :
  ReadOnly test -> Verdict test -> result test w = b -> result rk_governance w = Some g ->
  counts (body g) w RK_HOOK_GUARD g [rk_action_val RK_ACTION_DENY] ->
  counts (rk_guard_when test body) w RK_HOOK_GUARD g (guard_checks b).
Proof.
  intros Ht Hv Hb Hg Hc. unfold rk_guard_when. apply counts_read_only; [done..|].
  rewrite Hb. destruct b; [|apply counts_ret]. cbn [negb].
  apply counts_read_only; [apply _..|]. by rewrite Hg.
Qed.

Ltac guard_counts b :=
  apply (guard_when_counts _ _ _ _ b); [solve_read_only|solve_verdict| |done|].

#[export] Instance rk_is_sensor_verdict task : Verdict (rk_is_sensor task).
Proof. unfold rk_is_sensor. solve_verdict. Qed.

#[export] Instance rk_is_bpffs_verdict sb : Verdict (rk_is_bpffs sb).
Proof. unfold rk_is_bpffs. solve_verdict. Qed.

Lemma guard_entry_counts p w g :
  result rk_governance w = Some g -> hook_of p = RK_HOOK_GUARD -> earlier p = 0 ->
  counts (entry p) w RK_HOOK_GUARD g (checks (w_maps w) (w_env w) g p).
Proof.
  intros Hg Hh He. destruct p; try discriminate Hh; cbn [earlier] in He; try subst ret;
    cbn [entry checks].
  - guard_counts true; [done|apply guard_decide_counts].
  - guard_counts (bool_decide (is_sensor (w_maps w) (w_env w) p));
      [apply is_sensor_spec|apply counts_read, guard_decide_counts].
  - guard_counts (bool_decide (is_sensor (w_maps w) (w_env w) child));
      [apply is_sensor_spec|apply counts_read, guard_decide_counts].
  - guard_counts (on_bpffs (w_env w) (k_field (w_env w) inode_i_sb dir));
      [apply read_bpffs|apply guard_decide_counts].
  - guard_counts (on_bpffs (w_env w) (k_field (w_env w) inode_i_sb old_dir) ||
       on_bpffs (w_env w) (k_field (w_env w) inode_i_sb new_dir))%bool;
      [|apply guard_decide_counts].
    rewrite result_bind, final_call, result_call. cbn [handle fst snd].
    rewrite result_read_only, is_bpffs_spec by apply _.
    destruct (on_bpffs _ _); [done|]. apply read_bpffs.
  - guard_counts (on_bpffs (w_env w) (k_field (w_env w) inode_i_sb dir));
      [apply read_bpffs|apply guard_decide_counts].
  - guard_counts (on_bpffs (w_env w) (k_field (w_env w) vfsmount_mnt_sb mnt));
      [apply read_bpffs|apply guard_decide_counts].
Qed.

Lemma entry_counts p w g :
  result rk_governance w = Some g -> earlier p = 0 ->
  counts (entry p) w (hook_of p) g (checks (w_maps w) (w_env w) g p).
Proof.
  intros Hg He. destruct (is_file p) eqn:Hf.
  { replace (hook_of p) with RK_HOOK_FILE by by destruct p. by apply file_entry_counts. }
  destruct (decide (hook_of p = RK_HOOK_GUARD)) as [Hh|Hh].
  { rewrite Hh. by apply guard_entry_counts. }
  destruct p; try discriminate Hf; try (by destruct Hh); cbn [earlier] in He; try subst ret;
    cbn [entry hook_of].
  - by apply (sock_addr_counts ctx false RK_EV_NET_CONNECT).
  - by apply (sock_addr_counts ctx true RK_EV_NET_CONNECT).
  - by apply (sock_addr_counts ctx false RK_EV_SENDMSG).
  - by apply (sock_addr_counts ctx true RK_EV_SENDMSG).
  - by apply socket_create_counts.
  - by apply tun_counts.
  - by apply tun_counts.
  - by apply tun_counts.
  - by apply exec_check_counts.
  - apply exec_record_counts.
Qed.

End Counts.

(** C38. Decisions are counted exactly: each decision a program gets to, up to and
    including the first enforced denial, adds one (modulo 2^64) to the counter of
    its hook and reported verdict, and no other decision counter changes. *)
Theorem decisions_counted_once `{K : BpfKernel} p w g i :
  result rk_governance w = Some g -> earlier p = 0 -> RK_CNT_DECISION_BASE <= i ->
  counters (final (entry p) w) !! i =
  foldl (fun c action =>
           alter (fun v => u64 (v + 1))
             (RK_CNT_DECISION_BASE + hook_of p * RK_VERDICTS + rk_reported_verdict g action) c)
    (counters w) (taken g (checks (w_maps w) (w_env w) g p)) !! i.
Proof. intros Hg He Hi. by apply (entry_counts p w g Hg He w). Qed.

Lemma decisions_counted_once_witness :
  counters (final (K:=reference_kernel) (entry (FileOpen 12 0))
    (ex_world RK_MODE_ENFORCE 9500000000)) !! 21 = Some 1.
Proof.
  rewrite (decisions_counted_once (K:=reference_kernel) (FileOpen 12 0)
    (ex_world RK_MODE_ENFORCE 9500000000) (mk_rk_gov 500 7 (2 ^ 31 + 3) 1 1 3 0) 21).
  - vm_compute. reflexivity.
  - vm_compute. reflexivity.
  - reflexivity.
  - cbn. lia.
Defined.

(** The counter array has exactly one slot per hook and verdict: indices stay
    between the two general counters and the end of the array, and different hooks
    or verdicts never share one. *)
Lemma decision_index_exact (h1 h2 : rk_hook) g1 g2 a1 a2 :
  h1 <> RK_HOOK_MAX -> h2 <> RK_HOOK_MAX ->
  RK_CNT_DECISION_BASE <= decision_index h1 g1 a1 < RK_CNT_MAX /\
  (decision_index h1 g1 a1 = decision_index h2 g2 a2 <->
   (h1 = h2 :> rk_hook) /\ rk_reported_verdict g1 a1 = rk_reported_verdict g2 a2).
Proof.
  intros H1 H2. pose proof (reported_verdict_range g1 a1) as R1.
  pose proof (reported_verdict_range g2 a2) as R2.
  unfold decision_index, RK_VERDICTS in *. cbn [rk_counter_val].
  generalize dependent (rk_reported_verdict g1 a1). generalize dependent (rk_reported_verdict g2 a2).
  intros v2 R2 v1 R1. split; [by destruct h1; cbn; try lia|].
  split; [|by intros [-> ->]]. intros Heq.
  assert (rk_hook_val h1 = rk_hook_val h2 /\ v1 = v2) as [Hh ->] by lia.
  split; [|done]. by destruct h1, h2.
Qed.

Lemma decision_index_exact_witness :
  let g := mk_rk_gov 500 7 3 1 1 3 0 in
  RK_CNT_DECISION_BASE <= decision_index RK_HOOK_TUN g 1 < RK_CNT_MAX /\
  (decision_index RK_HOOK_TUN g 1 = decision_index RK_HOOK_FILE g 1 <->
   (RK_HOOK_TUN = RK_HOOK_FILE :> rk_hook) /\ rk_reported_verdict g 1 = rk_reported_verdict g 1).
Proof.
  apply (decision_index_exact RK_HOOK_TUN RK_HOOK_FILE (mk_rk_gov 500 7 3 1 1 3 0)
    (mk_rk_gov 500 7 3 1 1 3 0) 1 1); discriminate.
Defined.
