(* ===== verification/Ipnet.v ===== *)
(** * IPv6 prefixes

    The policy compiler represents destinations with the [Ipv6Net] type of the
    [ipnet] crate.  The crate is an interface here: its operations as a class, what
    the compiler relies on as laws, and an instance that evaluates. *)

From S2P Require Import Prelude Abi Bpf Lpm.
Open Scope Z_scope.

(** The 16 octets of an [Ipv6Addr]. *)
Definition octets_ok (a : list Z) : Prop := length a = 16%nat /\ Forall byte_ok a.

#[export] Instance byte_ok_dec b : Decision (byte_ok b).
Proof. unfold byte_ok. apply _. Defined.

#[export] Instance octets_ok_dec a : Decision (octets_ok a).
Proof. unfold octets_ok. apply _. Defined.

(** [net_addr] is [Ipv6Net::addr().octets()], [net_new] is [Ipv6Net::new], which
    fails on a prefix length above 128; the others keep the crate's names.
    [contains] is overloaded there on addresses and prefixes. *)
Class Ipnet := {
  Ipv6Net : Set;
  Ipv6Net_eq_dec :: EqDecision Ipv6Net;
  net_addr : Ipv6Net -> list Z;
  prefix_len : Ipv6Net -> Z;
  net_new : list Z -> Z -> option Ipv6Net;
  network : Ipv6Net -> list Z;
  trunc : Ipv6Net -> Ipv6Net;
  contains_addr : Ipv6Net -> list Z -> bool;
  contains_net : Ipv6Net -> Ipv6Net -> bool }.

(** The leading bits of the address that the prefix fixes. *)
Definition prefix_bits `{Ipnet} (n : Ipv6Net) : list bool :=
  take (Z.to_nat (prefix_len n)) (bits (net_addr n)).

Class IpnetLaws (I : Ipnet) := {
  net_ext n m : net_addr n = net_addr m -> prefix_len n = prefix_len m -> n = m;
  net_addr_ok n : octets_ok (net_addr n);
  prefix_len_bound n : 0 <= prefix_len n <= 128;
  net_new_Some a p n :
    net_new a p = Some n -> net_addr n = a /\ prefix_len n = p;
  net_new_is_Some a p : octets_ok a -> 0 <= p <= 128 -> is_Some (net_new a p);
  network_ok n : octets_ok (network n);
  network_bits n :
    bits (network n) =
    prefix_bits n ++ replicate (128 - Z.to_nat (prefix_len n)) false;
  net_addr_trunc n : net_addr (trunc n) = network n;
  prefix_len_trunc n : prefix_len (trunc n) = prefix_len n;
  contains_addr_iff n a :
    octets_ok a -> contains_addr n a = true <-> prefix_bits n `prefix_of` bits a;
  contains_net_iff n m :
    contains_net n m = true <-> prefix_bits n `prefix_of` prefix_bits m }.

Section Laws.
Context `{I : Ipnet, L : !IpnetLaws I}.

Lemma length_prefix_bits n : length (prefix_bits n) = Z.to_nat (prefix_len n).
Proof using L.
  unfold prefix_bits. rewrite length_take, length_bits.
  destruct (net_addr_ok n) as [-> _]. pose proof (prefix_len_bound n). lia.
Qed.

(** A prefix without host bits is determined by the bits it fixes. *)
Lemma prefix_bits_inj n m :
  trunc n = n -> trunc m = m -> prefix_bits n = prefix_bits m -> n = m.
Proof using L.
  intros Hn Hm Hb.
  assert (prefix_len n = prefix_len m) as Hp.
  { apply (f_equal length) in Hb. rewrite !length_prefix_bits in Hb.
    pose proof (prefix_len_bound n). pose proof (prefix_len_bound m). lia. }
  apply net_ext; [|done].
  rewrite <- Hn, <- Hm, !net_addr_trunc.
  destruct (network_ok n), (network_ok m). apply bits_inj; [done..|congruence|].
  by rewrite !network_bits, Hb, Hp.
Qed.

(** Of two prefixes of one address, the shorter contains the longer. *)
Lemma contains_net_of_addr n m a :
  octets_ok a -> contains_addr n a = true -> contains_addr m a = true ->
  prefix_len n <= prefix_len m -> contains_net n m = true.
Proof using L.
  intros Ha Hn Hm Hle. apply contains_addr_iff in Hn, Hm; [|done..].
  apply contains_net_iff. destruct (prefix_weak_total _ _ _ Hn Hm) as [|Hp]; [done|].
  rewrite (prefix_length_eq _ _ Hp); [done|].
  rewrite !length_prefix_bits. lia.
Qed.

(** ... and they are the same when their lengths agree. *)
Lemma contained_same_length n m a :
  octets_ok a -> trunc n = n -> trunc m = m ->
  contains_addr n a = true -> contains_addr m a = true ->
  prefix_len n = prefix_len m -> n = m.
Proof using L.
  intros Ha Htn Htm Hn Hm Hp. apply prefix_bits_inj; [done..|].
  assert (contains_net n m = true) as Hc%contains_net_iff
    by (eapply contains_net_of_addr; [done..|lia]).
  apply prefix_length_eq; [done|]. rewrite !length_prefix_bits. lia.
Qed.

Lemma contains_net_trans n m a :
  octets_ok a -> contains_net n m = true -> contains_addr m a = true ->
  contains_addr n a = true.
Proof using L.
  intros Ha Hn Hm. apply contains_net_iff in Hn. apply contains_addr_iff in Hm; [|done].
  apply contains_addr_iff; [done|]. by trans (prefix_bits m).
Qed.

Lemma contains_net_length n m :
  contains_net n m = true -> prefix_len n <= prefix_len m.
Proof using L.
  intros Hp%contains_net_iff%prefix_length. rewrite !length_prefix_bits in Hp.
  pose proof (prefix_len_bound n). pose proof (prefix_len_bound m). lia.
Qed.

End Laws.

(** ** An instance *)

Definition byte_of_bits (bs : list bool) : Z :=
  foldl (fun z b => 2 * z + b2z b) 0 bs.

(** The bytes of a multiple of eight bits. *)
Fixpoint bytes_of_bits (n : nat) (bs : list bool) : list Z :=
  match n with
  | O => []
  | S n => byte_of_bits (take 8 bs) :: bytes_of_bits n (drop 8 bs)
  end.

Lemma byte_of_bits_spec bs :
  length bs = 8%nat -> byte_ok (byte_of_bits bs) /\ byte_bits (byte_of_bits bs) = bs.
Proof.
  intros Hl. do 8 (destruct bs as [|[] bs]; [done|..]).
  all: destruct bs; [|done]; split; [unfold byte_ok; cbn; lia|reflexivity].
Qed.

Lemma length_bytes_of_bits n bs : length (bytes_of_bits n bs) = n.
Proof. revert bs. induction n; intros bs; cbn; auto. Qed.

Lemma bytes_of_bits_spec n bs :
  length bs = (8 * n)%nat ->
  Forall byte_ok (bytes_of_bits n bs) /\ bits (bytes_of_bits n bs) = bs.
Proof.
  revert bs. induction n as [|n IH]; intros bs Hl; cbn [bytes_of_bits].
  { destruct bs; [by split|done]. }
  destruct (byte_of_bits_spec (take 8 bs)) as [Hok Hb]; [rewrite length_take; lia|].
  destruct (IH (drop 8 bs)) as [Hoks Hbs]; [rewrite length_drop; lia|].
  split; [by constructor|]. by rewrite bits_cons, Hb, Hbs, take_drop.
Qed.

Definition net_check (p : list Z * Z) : bool :=
  bool_decide (octets_ok p.1) && (0 <=? p.2) && (p.2 <=? 128).

Lemma net_check_true p : net_check p = true <-> octets_ok p.1 /\ 0 <= p.2 <= 128.
Proof.
  unfold net_check. rewrite !andb_true_iff, bool_decide_eq_true, !Z.leb_le. tauto.
Qed.

(** The octets with the host bits cleared. *)
Definition mask_octets (a : list Z) (p : Z) : list Z :=
  bytes_of_bits 16 (take (Z.to_nat p) (bits a) ++
                    replicate (128 - Z.to_nat p) false).

Lemma mask_octets_spec a p :
  octets_ok a -> 0 <= p <= 128 ->
  octets_ok (mask_octets a p) /\
  bits (mask_octets a p) =
  take (Z.to_nat p) (bits a) ++ replicate (128 - Z.to_nat p) false.
Proof.
  intros [Hl _] Hp. unfold mask_octets.
  destruct (bytes_of_bits_spec 16 (take (Z.to_nat p) (bits a) ++
    replicate (128 - Z.to_nat p) false)) as [Hok Hb].
  { rewrite length_app, length_take, length_bits, length_replicate, Hl. lia. }
  split; [|done]. split; [apply length_bytes_of_bits|done].
Qed.

Lemma mask_check p : net_check p = true -> net_check (mask_octets p.1 p.2, p.2) = true.
Proof.
  rewrite !net_check_true. intros [Ha Hp]. by destruct (mask_octets_spec p.1 p.2).
Qed.

Definition ref_net : Set := { p : list Z * Z | net_check p = true }.

Definition ref_prefix (n : ref_net) : list bool :=
  take (Z.to_nat (`n).2) (bits (`n).1).

#[export] Instance reference_ipnet : Ipnet := {
  Ipv6Net := ref_net;
  net_addr n := (`n).1;
  prefix_len n := (`n).2;
  net_new a p :=
    match decide (net_check (a, p) = true) with
    | left H => Some ((a, p) ↾ H)
    | right _ => None
    end;
  network n := mask_octets (`n).1 (`n).2;
  trunc n := (mask_octets (`n).1 (`n).2, (`n).2) ↾ mask_check (`n) (proj2_sig n);
  contains_addr n a := bool_decide (ref_prefix n `prefix_of` bits a);
  contains_net n m := bool_decide (ref_prefix n `prefix_of` ref_prefix m) }.

#[export] Instance reference_ipnet_laws : IpnetLaws reference_ipnet.
Proof.
  split; cbn.
  - intros [[a p] Hn] [[b q] Hm]; cbn. intros -> ->. by apply (sig_eq_pi _).
  - intros [p Hn]; cbn. by pose proof (proj1 (net_check_true _) Hn) as [? ?].
  - intros [p Hn]; cbn. by pose proof (proj1 (net_check_true _) Hn) as [? ?].
  - intros a p n. destruct (decide _); [|done]. by intros [= <-].
  - intros a p Ha Hp. destruct (decide _) as [|Hno]; [done|].
    destruct Hno. by apply net_check_true.
  - intros [p Hn]; cbn. pose proof (proj1 (net_check_true _) Hn) as [? ?].
    by apply mask_octets_spec.
  - intros [p Hn]; cbn. pose proof (proj1 (net_check_true _) Hn) as [? ?].
    by apply mask_octets_spec.
  - done.
  - done.
  - intros n a _. apply bool_decide_eq_true.
  - intros n m. apply bool_decide_eq_true.
Qed.
