(* ===== verification/Addr.v ===== *)
(** * Reading IP addresses

    [IpAddr::from_str] of Rust's standard library, function by function.  A reader
    consumes a prefix of its input or fails without consuming. *)

From S2P Require Import Prelude Text Abi Bpf Lpm Ipnet.
Open Scope Z_scope.

Inductive IpAddr : Set := V4 (octets : list Z) | V6 (octets : list Z).

Definition reader (A : Type) : Type := list ascii -> option (A * list ascii).

Definition read_given_char (c : ascii) : reader unit := fun l =>
  match l with
  | a :: l => if decide (a = c) then Some (tt, l) else None
  | [] => None
  end.

(** Before every element but the first there is a separator. *)
Definition read_separator {A} (sep : ascii) (index : nat) (inner : reader A)
    : reader A := fun l =>
  match index with
  | O => inner l
  | S _ => '(_, l) ← read_given_char sep l; inner l
  end.

(** [char::to_digit]. *)
Definition to_digit (radix : Z) (c : ascii) : option Z :=
  let code := Z.of_nat (nat_of_ascii c) in
  let d := if is_ascii_digit c then Some (code - 48)
           else if is_ascii_lowercase c then Some (code - 87)
           else if is_ascii_uppercase c then Some (code - 55)
           else None in
  d ← d; if d <? radix then Some d else None.

Fixpoint read_digits (radix : Z) (max_digits count : nat) (result : Z) (l : list ascii)
    : option (Z * nat * list ascii) :=
  match l with
  | [] => Some (result, count, [])
  | c :: l' =>
      match to_digit radix c with
      | None => Some (result, count, l)
      | Some digit =>
          if (max_digits <? S count)%nat then None
          else read_digits radix max_digits (S count) (result * radix + digit) l'
      end
  end.

(** At a type with largest value [max]. *)
Definition read_number (radix : Z) (max_digits : nat) (allow_zero_prefix : bool) (max : Z)
    : reader Z := fun l =>
  '(result, count, rest) ← read_digits radix max_digits 0 0 l;
  if (count =? 0)%nat then None
  else if negb allow_zero_prefix && bool_decide (head l = Some "0"%char) && (1 <? count)%nat
  then None
  else if max <? result then None
  else Some (result, rest).

(** [n] more octets, the next being number [i]. *)
Fixpoint read_octets (n i : nat) : reader (list Z) := fun l =>
  match n with
  | O => Some ([], l)
  | S n =>
      '(octet, l) ← read_separator "." i (read_number 10 3 false 255) l;
      '(octets, l) ← read_octets n (S i) l;
      Some (octet :: octets, l)
  end.

Definition read_ipv4_addr : reader (list Z) := read_octets 4 0.

Definition be_octets (group : Z) : list Z := [group / 256; group mod 256].

(** [n] groups are left of those asked for, the next being number [i]; returns the
    octets of the groups read and whether an IPv4 address ended them. *)
Fixpoint read_groups (n i : nat) (l : list ascii) : list Z * bool * list ascii :=
  match n with
  | O => ([], false, l)
  | S n' =>
      match (if (1 <? n)%nat then read_separator ":" i read_ipv4_addr l else None) with
      | Some (v4, l) => (v4, true, l)
      | None =>
          match read_separator ":" i (read_number 16 4 true 65535) l with
          | Some (g, l) =>
              let '(gs, v4, l) := read_groups n' (S i) l in (be_octets g ++ gs, v4, l)
          | None => ([], false, l)
          end
      end
  end.

Definition read_ipv6_addr : reader (list Z) := fun l =>
  let '(front, front_v4, l) := read_groups 8 0 l in
  if (length front =? 16)%nat then Some (front, l)
  else if front_v4 then None
  else
    '(_, l) ← read_given_char ":" l;
    '(_, l) ← read_given_char ":" l;
    let '(back, _, l) := read_groups (8 - (length front / 2 + 1)) 0 l in
    Some (front ++ replicate (16 - length front - length back) 0 ++ back, l).

Definition read_ip_addr : reader IpAddr := fun l =>
  match read_ipv4_addr l with
  | Some (a, l) => Some (V4 a, l)
  | None => '(a, l) ← read_ipv6_addr l; Some (V6 a, l)
  end.

(** [s.parse::<IpAddr>()]: the whole string is an address. *)
Definition parse_ip_addr (s : string) : option IpAddr :=
  match read_ip_addr (chars s) with
  | Some (a, []) => Some a
  | _ => None
  end.

(** ** What is read is an address *)

Lemma to_digit_nonneg radix c d : to_digit radix c = Some d -> 0 <= d.
Proof.
  unfold to_digit, is_ascii_digit, is_ascii_lowercase, is_ascii_uppercase, in_range.
  cbn [nat_of_ascii]. set (code := nat_of_ascii c).
  change (nat_of_ascii "0") with 48%nat. change (nat_of_ascii "9") with 57%nat.
  change (nat_of_ascii "a") with 97%nat. change (nat_of_ascii "z") with 122%nat.
  change (nat_of_ascii "A") with 65%nat. change (nat_of_ascii "Z") with 90%nat.
  intros H. repeat case_match; simplify_eq/=;
    repeat case_match; simplify_eq/=; rewrite ?andb_true_iff, ?Nat.leb_le in *; lia.
Qed.

Lemma read_digits_nonneg radix max_digits count result l r n rest :
  0 <= radix -> 0 <= result ->
  read_digits radix max_digits count result l = Some (r, n, rest) -> 0 <= r.
Proof.
  intros Hr. revert count result. induction l as [|c l IH]; intros count result H0.
  { by intros [= <- _ _]. }
  cbn [read_digits]. destruct (to_digit radix c) as [d|] eqn:Hd; [|by intros [= <- _ _]].
  apply to_digit_nonneg in Hd. case_match; [done|]. apply IH. nia.
Qed.

Lemma read_number_bound radix k allow max l r rest :
  0 <= radix -> read_number radix k allow max l = Some (r, rest) -> 0 <= r <= max.
Proof.
  intros Hr. unfold read_number.
  destruct (read_digits _ _ _ _ _) as [[[v n] l']|] eqn:Hd; [|done]. cbn.
  apply read_digits_nonneg in Hd; [|lia..].
  destruct (n =? 0)%nat; [done|]. destruct (_ && _); [done|].
  destruct (Z.ltb_spec max v); [done|]. intros [= <- _]. lia.
Qed.

Lemma read_separator_Some {A} sep i (inner : reader A) l x rest :
  read_separator sep i inner l = Some (x, rest) -> exists l', inner l' = Some (x, rest).
Proof.
  destruct i; cbn; [eauto|]. destruct (read_given_char sep l) as [[[] l']|]; [|done].
  cbn. eauto.
Qed.

Lemma read_octets_ok n i l octets rest :
  read_octets n i l = Some (octets, rest) -> length octets = n /\ Forall byte_ok octets.
Proof.
  revert i l octets rest. induction n as [|n IH]; intros i l octets rest; cbn [read_octets].
  { by intros [= <- _]. }
  destruct (read_separator "." i _ l) as [[o l1]|] eqn:Ho; [|done]. cbn.
  destruct (read_octets n (S i) l1) as [[os l2]|] eqn:Hos; [|done]. cbn.
  intros [= <- _]. apply IH in Hos as [<- Hos].
  apply read_separator_Some in Ho as [l' Ho]. apply read_number_bound in Ho; [|lia].
  split; [done|]. constructor; [unfold byte_ok; lia|done].
Qed.

Lemma read_groups_ok n i l octets v4 rest :
  read_groups n i l = (octets, v4, rest) ->
  (length octets <= 2 * n)%nat /\ Nat.Even (length octets) /\ Forall byte_ok octets.
Proof.
  revert i l octets v4 rest. induction n as [|n IH]; intros i l octets v4 rest.
  { intros [= <- _ _]. cbn. split_and!; [lia|by exists 0%nat|done]. }
  cbn [read_groups]. destruct (if _ : bool then _ else _) as [[a l1]|] eqn:Ha.
  { intros [= <- _ _]. destruct (Nat.ltb_spec 1 (S n)); [|done].
    apply read_separator_Some in Ha as [l' Ha]. apply read_octets_ok in Ha as [-> Hb].
    split_and!; [lia|by exists 2%nat|done]. }
  destruct (read_separator ":" i (read_number _ _ _ _) l) as [[g l1]|] eqn:Hg.
  2:{ intros [= <- _ _]. cbn. split_and!; [lia|by exists 0%nat|done]. }
  destruct (read_groups n (S i) l1) as [[gs w4] l2] eqn:Hgs. intros [= <- _ _].
  apply IH in Hgs as (Hlen & [k Hk] & Hok).
  apply read_separator_Some in Hg as [l' Hg]. apply read_number_bound in Hg; [|lia].
  cbn. split_and!; [lia|exists (S k); lia|].
  repeat constructor; [..|done]; cbv beta; pose proof (Z.mod_pos_bound g 256);
    pose proof (Z.div_pos g 256); pose proof (Z.div_lt_upper_bound g 256 256); lia.
Qed.

Definition addr_ok (a : IpAddr) : Prop :=
  match a with
  | V4 o => length o = 4%nat /\ Forall byte_ok o
  | V6 o => octets_ok o
  end.

Lemma read_ipv6_addr_ok l octets rest :
  read_ipv6_addr l = Some (octets, rest) -> octets_ok octets.
Proof.
  unfold read_ipv6_addr. destruct (read_groups 8 0 l) as [[front v4] l1] eqn:Hf.
  apply read_groups_ok in Hf as (Hlen & [k Hk] & Hok).
  destruct (Nat.eqb_spec (length front) 16); [by intros [= <- _]|].
  destruct v4; [done|].
  destruct (read_given_char ":" l1) as [[[] l2]|]; [|done]; cbn [mbind option_bind].
  destruct (read_given_char ":" l2) as [[[] l3]|]; [|done]; cbn [mbind option_bind].
  destruct (read_groups _ 0 l3) as [[back v4] l4] eqn:Hb. intros [= <- _].
  apply read_groups_ok in Hb as (Hlb & _ & Hbok).
  assert (length front / 2 = k)%nat as Hd by (rewrite Hk, Nat.mul_comm; by apply Nat.div_mul).
  rewrite Hd in Hlb. split.
  - rewrite !length_app, length_replicate. lia.
  - rewrite !Forall_app. split_and!; [done| |done]. apply Forall_replicate.
    unfold byte_ok. lia.
Qed.

Lemma parse_ip_addr_ok s a : parse_ip_addr s = Some a -> addr_ok a.
Proof.
  unfold parse_ip_addr, read_ip_addr.
  destruct (read_ipv4_addr (chars s)) as [[o l]|] eqn:H4.
  - destruct l; [|done]. intros [= <-]. by apply read_octets_ok in H4.
  - destruct (read_ipv6_addr (chars s)) as [[o l]|] eqn:H6; [|done]. cbn.
    destruct l; [|done]. intros [= <-]. by apply read_ipv6_addr_ok in H6.
Qed.
