(* ===== verification/Policy.v ===== *)
(** * The network policy compiler ([rk-policy/src/net.rs])

    The policy data, the reference semantics [evaluate], and [compile], which flattens
    overlapping prefixes into trie entries so that one longest-prefix lookup decides.
    The theorems say that the compiled tries decide as [evaluate] does. *)

From stdpp Require Import sorting.
From S2P Require Import Prelude Text Abi Bpf Lpm Ipnet Addr.
Open Scope Z_scope.

Definition MAX_RANGES : nat := 8.
Definition PROTO_TCP : Z := 1.
Definition PROTO_UDP : Z := 2.
Definition PROTO_OTHER : Z := 4.
Definition PROTO_ANY : Z := Z.lor (Z.lor PROTO_TCP PROTO_UDP) PROTO_OTHER.
Definition FLAG_DENY_RAW_SOCKETS : Z := 1.
Definition FLAG_EXEC_DENY_DEFAULT : Z := 2.
Definition FLAG_EXEC_ALLOW_UNLINKED : Z := 4.
Definition PROTECT_EXEC_MASK : Z :=
  Z.lor (Z.lor (Z.lor (Z.lor (Z.lor 2 64) 16) 32) 128) 256.

Inductive Mode : Set := Audit | Enforce.
Inductive Action : Set := Allow | Deny.

#[export] Instance Action_eq_dec : EqDecision Action.
Proof. solve_decision. Defined.

Record PortRange : Set := mk_PortRange { pr_lo : Z; pr_hi : Z }.

Definition PortRange_contains (p : PortRange) (port : Z) : bool :=
  (pr_lo p <=? port) && (port <=? pr_hi p).

Inductive ExecPathKind : Set := PathFile | PathDir.

Record ExecAllow : Set := mk_ExecAllow {
  xa_id : Z; xa_path : string; xa_kind : ExecPathKind }.

Record ExecPolicy : Set := mk_ExecPolicy {
  xp_default : Action; xp_allow_unlinked : bool; xp_allow : list ExecAllow }.

Record FileRule : Set := mk_FileRule {
  fl_id : Z; fl_path : string; fl_subtree : bool; fl_deny_mask : Z;
  fl_optional : bool }.

Record FilePolicy : Set := mk_FilePolicy {
  fp_rules : list FileRule; fp_protect_exec_allowlist : bool }.

(** What a compiled file rule points at. *)
Inductive FileTarget : Set :=
| TargetPath (subtree optional : bool)
| TargetExec (kind : ExecPathKind).

Record CompiledFile : Set := mk_CompiledFile {
  cf_profile : Z; cf_rule_id : Z; cf_path : string; cf_target : FileTarget;
  cf_deny_mask : Z }.

Record CompiledExec : Set := mk_CompiledExec {
  ce_profile : Z; ce_rule_id : Z; ce_path : string; ce_kind : ExecPathKind }.

Record CompiledRange : Set := mk_CompiledRange {
  cr_rule_id : Z; cr_lo : Z; cr_hi : Z; cr_proto : Z }.

Definition covers (k other : CompiledRange) : bool :=
  (Z.land (cr_proto k) (cr_proto other) =? cr_proto other) &&
  (cr_lo k <=? cr_lo other) && (cr_hi other <=? cr_hi k).

Record Entry : Set := mk_Entry {
  en_profile : Z; en_prefix_len : Z; en_addr : list Z;
  en_ranges : list CompiledRange }.

#[export] Instance CompiledRange_eq_dec : EqDecision CompiledRange.
Proof. solve_decision. Defined.

#[export] Instance Entry_eq_dec : EqDecision Entry.
Proof. solve_decision. Defined.

Record CompiledProfile : Set := mk_CompiledProfile {
  cp_id : Z; cp_mode : Mode; cp_net_default : Action; cp_flags : Z }.

Record Compiled : Set := mk_Compiled {
  co_generation : Z; co_profiles : list CompiledProfile;
  co_deny : list Entry; co_allow : list Entry;
  co_exec : list CompiledExec; co_files : list CompiledFile }.

(** The rule id is 0 when the profile default decided. *)
Record NetDecision : Set := mk_NetDecision { d_action : Action; d_rule_id : Z }.

(** A local user or group allowed to launch agents under a profile. *)
Inductive Principal : Set :=
| User (name : string)
| Group (name : string)
| Uid (uid : Z)
| Gid (gid : Z).

(** Where a rule id came from. *)
Record RuleOrigin : Set := mk_RuleOrigin {
  ro_id : Z; ro_profile : string; ro_origin : string }.

Record NamespaceRule : Set := mk_NamespaceRule {
  ns_default : option string; ns_allowed : list string }.

(** [to_ipv6_mapped] is [::ffff:a.b.c.d]. *)
Definition normalize (addr : IpAddr) : list Z :=
  match addr with
  | V4 a => replicate 10 0 ++ [0xff; 0xff] ++ a
  | V6 a => a
  end.

(** Rust's [Ordering::then]. *)
Definition ord_then (a b : comparison) : comparison :=
  match a with Eq => b | _ => a end.

(** [Iterator::max_by]: the last of the elements that compare as maximal. *)
Definition max_by {A} (compare : A -> A -> comparison) (l : list A) : option A :=
  match l with
  | [] => None
  | x :: l =>
      Some (foldl (fun x y => match compare x y with Gt => x | _ => y end) x l)
  end.

(** [sort_by_key] is stable: an element goes in front of those with equal keys
    that follow it. *)
Fixpoint insert_by_key {A} (key : A -> Z) (x : A) (l : list A) : list A :=
  match l with
  | [] => [x]
  | y :: l => if key x <=? key y then x :: y :: l else y :: insert_by_key key x l
  end.

Definition sort_by_key {A} (key : A -> Z) (l : list A) : list A :=
  foldr (insert_by_key key) [] l.

Section Compiler.
Context `{I : Ipnet}.

(** The messages of the errors, by what they say, with what they print. *)
Inductive Message : Set :=
| GenerationReserved
| TooManyRanges (net : Ipv6Net) (n : nat) (action : Action)
| TomlError (e : string)
| QuarantineRedefined
| BadName
| TooManyProfiles
| NotCidr (s : string)
| NotAddress (s : string)
| HostBits (s : string)
| PrefixTooLong
| NotPort (p : string)
| ReversedPorts (p : string)
| UnknownList (name : string)
| UnknownFilesList (name : string)
| InvalidList (name e : string)
| MisnamedList (name declared : string)
| BadPrincipal (s : string)
| NotNumeric (s v : string)
| OutsideRoot (path : string)
| BadSegment (path segment : string)
| BoundTwice (cgroup : string)
| UnknownProfile (name : string)
| BadNamespace
| EmptyAllowed
| NoProfiles
| DefaultNotAllowed (name : string)
| NoAccess
| UnknownAccess (a : string)
| NotAbsolute (path : string)
| HashRequired
| NoDefault (namespace : string) (allowed : list string)
| NotAllowed (name namespace : string) (allowed : list string).

(** A policy error, with the location in the policy that caused it. *)
Record PolicyError : Set := mk_PolicyError {
  pe_context : string; pe_message : Message }.

Record Rule : Set := mk_Rule {
  r_id : Z; r_action : Action; r_net : Ipv6Net; r_ports : list PortRange;
  r_proto : Z }.

Record Profile : Set := mk_Profile {
  p_id : Z; p_name : string; p_mode : Mode; p_net_default : Action;
  p_deny_raw_sockets : bool; p_rules : list Rule; p_exec : option ExecPolicy;
  p_files : FilePolicy; p_launchable_by : list Principal }.

(** [cgroup] is relative to the cgroup root. *)
Record Binding : Set := mk_Binding { b_cgroup : string; b_profile : Z }.

Record Policy : Set := mk_Policy {
  po_profiles : list Profile; po_bindings : list Binding;
  po_origins : list RuleOrigin; po_namespaces : gmap string NamespaceRule }.

Definition policy_profile (policy : Policy) (id : Z) : option Profile :=
  head (filter (fun p => p_id p = id) (po_profiles policy)).

Definition policy_origin (policy : Policy) (rule_id : Z) : option RuleOrigin :=
  head (filter (fun o => ro_id o = rule_id) (po_origins policy)).

(** ** Reference semantics *)

Definition rule_applies (action : Action) (addr : list Z) (port proto : Z) (r : Rule)
    : bool :=
  bool_decide (r_action r = action) && contains_addr (r_net r) addr &&
  (r_proto r ∋ proto) && existsb (fun p => PortRange_contains p port) (r_ports r).

(** The longer prefix is greater, then the earlier rule. *)
Definition rule_cmp (a b : nat * Rule) : comparison :=
  ord_then (Z.compare (prefix_len (r_net a.2)) (prefix_len (r_net b.2)))
    (Nat.compare b.1 a.1).

Definition best_rule (prof : Profile) (action : Action) (addr : list Z)
    (port proto : Z) : option Rule :=
  snd <$> max_by rule_cmp
    (filter (fun ir => rule_applies action addr port proto ir.2 = true)
       (imap pair (p_rules prof))).

Definition evaluate (policy : Policy) (profile : Z) (addr : IpAddr)
    (port proto : Z) : option NetDecision :=
  prof ← policy_profile policy profile;
  let addr := normalize addr in
  match best_rule prof Deny addr port proto with
  | Some r => Some (mk_NetDecision Deny (r_id r))
  | None =>
      match best_rule prof Allow addr port proto with
      | Some r => Some (mk_NetDecision Allow (r_id r))
      | None => Some (mk_NetDecision (p_net_default prof) 0)
      end
  end.

(** ** Compilation *)

Definition profile_flags (prof : Profile) : Z :=
  let flags := if p_deny_raw_sockets prof then FLAG_DENY_RAW_SOCKETS else 0 in
  match p_exec prof with
  | None => Z.lor flags FLAG_EXEC_ALLOW_UNLINKED
  | Some exec =>
      let flags := if decide (xp_default exec = Deny)
                   then Z.lor flags FLAG_EXEC_DENY_DEFAULT else flags in
      if xp_allow_unlinked exec then Z.lor flags FLAG_EXEC_ALLOW_UNLINKED else flags
  end.

Abbreviation group := (Ipv6Net * list Rule)%type.

(** One step of the grouping loop: the rule joins the first group of its prefix, or
    starts one at the end. *)
Fixpoint add_rule (groups : list group) (rule : Rule) : list group :=
  match groups with
  | [] => [(r_net rule, [rule])]
  | (n, rules) :: groups =>
      if decide (n = r_net rule) then (n, rules ++ [rule]) :: groups
      else (n, rules) :: add_rule groups rule
  end.

Definition group_rules (rules : list Rule) : list group := foldl add_rule [] rules.

Definition ancestors_of (groups : list group) (net : Ipv6Net) : list group :=
  sort_by_key (fun g => - prefix_len g.1)
    (filter (fun g => g.1 <> net /\ contains_net g.1 net = true) groups).

(** The rules of an entry in priority order: its own, then its ancestors'. *)
Definition ordered_rules (groups : list group) (g : group) : list Rule :=
  g.2 ++ concat (snd <$> ancestors_of groups g.1).

Definition rule_ranges_of (rule : Rule) : list CompiledRange :=
  (fun p => mk_CompiledRange (r_id rule) (pr_lo p) (pr_hi p) (r_proto rule)) <$>
    r_ports rule.

Definition push_range (ranges : list CompiledRange) (r : CompiledRange)
    : list CompiledRange :=
  if existsb (fun k => covers k r) ranges then ranges else ranges ++ [r].

Definition entry_ranges (groups : list group) (g : group) : list CompiledRange :=
  foldl push_range [] (ordered_rules groups g ≫= rule_ranges_of).

(** The loop over the groups. *)
Fixpoint compile_groups (prof : Profile) (action : Action) (groups todo : list group)
    : PolicyError + list Entry :=
  match todo with
  | [] => inr []
  | g :: todo =>
      let ranges := entry_ranges groups g in
      if (MAX_RANGES <? length ranges)%nat
      then inl (mk_PolicyError ("profile `" +:+ p_name prof +:+ "`")
                  (TooManyRanges g.1 (length ranges) action))
      else
        match compile_groups prof action groups todo with
        | inl e => inl e
        | inr entries =>
            inr (mk_Entry (p_id prof) (prefix_len g.1) (network g.1) ranges :: entries)
        end
  end.

Definition compile_trie (prof : Profile) (action : Action)
    : PolicyError + list Entry :=
  let groups := group_rules (filter (fun r => r_action r = action) (p_rules prof)) in
  compile_groups prof action groups groups.

Definition compile_files (prof : Profile) : list CompiledFile :=
  ((fun r => mk_CompiledFile (p_id prof) (fl_id r) (fl_path r)
               (TargetPath (fl_subtree r) (fl_optional r)) (fl_deny_mask r)) <$>
     fp_rules (p_files prof)) ++
  match fp_protect_exec_allowlist (p_files prof), p_exec prof with
  | true, Some exec =>
      (fun a => mk_CompiledFile (p_id prof) (xa_id a) (xa_path a)
                  (TargetExec (xa_kind a)) PROTECT_EXEC_MASK) <$> xp_allow exec
  | _, _ => []
  end.

Definition compile_exec (prof : Profile) : list CompiledExec :=
  match p_exec prof with
  | Some exec =>
      (fun a => mk_CompiledExec (p_id prof) (xa_id a) (xa_path a) (xa_kind a)) <$>
        xp_allow exec
  | None => []
  end.

Definition compile_profile (prof : Profile) : CompiledProfile :=
  mk_CompiledProfile (p_id prof) (p_mode prof) (p_net_default prof)
    (profile_flags prof).

(** The body of the loop over the profiles. *)
Definition compile_step (out : Compiled) (prof : Profile) : PolicyError + Compiled :=
  match compile_trie prof Deny with
  | inl e => inl e
  | inr deny =>
      match compile_trie prof Allow with
      | inl e => inl e
      | inr allow =>
          inr (mk_Compiled (co_generation out)
                 (co_profiles out ++ [compile_profile prof])
                 (co_deny out ++ deny) (co_allow out ++ allow)
                 (co_exec out ++ compile_exec prof)
                 (co_files out ++ compile_files prof))
      end
  end.

Fixpoint compile_profiles (out : Compiled) (profiles : list Profile)
    : PolicyError + Compiled :=
  match profiles with
  | [] => inr out
  | prof :: profiles =>
      match compile_step out prof with
      | inl e => inl e
      | inr out => compile_profiles out profiles
      end
  end.

Definition compile (policy : Policy) (generation : Z) : PolicyError + Compiled :=
  if generation =? 0 then inl (mk_PolicyError "compile" GenerationReserved)
  else compile_profiles (mk_Compiled generation [] [] [] [] []) (po_profiles policy).

(** ** The compiled form's own lookup *)

Definition Entry_contains (e : Entry) (addr : list Z) : bool :=
  match net_new (en_addr e) (en_prefix_len e) with
  | Some n => contains_addr n addr
  | None => false
  end.

Definition range_applies (port proto : Z) (r : CompiledRange) : bool :=
  (cr_proto r ∋ proto) && (cr_lo r <=? port) && (port <=? cr_hi r).

(** [max_by_key] is [max_by] on the keys. *)
Definition trie_lookup (trie : list Entry) (profile : Z) (addr : list Z)
    (port proto : Z) : option CompiledRange :=
  entry ← max_by (fun a b => Z.compare (en_prefix_len a) (en_prefix_len b))
    (filter (fun e => en_profile e = profile /\ Entry_contains e addr = true) trie);
  head (filter (fun r => range_applies port proto r = true) (en_ranges entry)).

Definition lookup (c : Compiled) (profile : Z) (addr : IpAddr) (port proto : Z)
    : option NetDecision :=
  prof ← head (filter (fun p => cp_id p = profile) (co_profiles c));
  let addr := normalize addr in
  match trie_lookup (co_deny c) profile addr port proto with
  | Some r => Some (mk_NetDecision Deny (cr_rule_id r))
  | None =>
      match trie_lookup (co_allow c) profile addr port proto with
      | Some r => Some (mk_NetDecision Allow (cr_rule_id r))
      | None => Some (mk_NetDecision (cp_net_default prof) 0)
      end
  end.

End Compiler.

(** ** Maxima *)

(** The first element with the largest key. *)
Definition first_max {A} (key : A -> Z) (l : list A) : option A :=
  match l with
  | [] => None
  | x :: l => Some (foldl (fun x y => if key x <? key y then y else x) x l)
  end.

Lemma first_max_foldl {A} (key : A -> Z) x l r :
  foldl (fun x y => if key x <? key y then y else x) x l = r <->
  (forall y, y ∈ x :: l -> key y <= key r) /\
  head (filter (fun y => key y = key r) (x :: l)) = Some r.
Proof.
  revert x. induction l as [|y l IH]; intros x; cbn [foldl].
  - rewrite filter_cons, filter_nil. split.
    + intros ->. split; [intros y ->%list_elem_of_singleton; lia|].
      by rewrite decide_True.
    + intros [_ H]. case_decide; [by injection H|done].
  - rewrite IH. destruct (Z.ltb_spec (key x) (key y)).
    + split; intros [Hmax Hh]; split.
      * intros z [->|Hz]%elem_of_cons; [|auto].
        pose proof (Hmax y (list_elem_of_here _ _)). lia.
      * rewrite filter_cons, decide_False; [done|].
        pose proof (Hmax y (list_elem_of_here _ _)). lia.
      * intros z Hz. apply Hmax. by right.
      * rewrite filter_cons, decide_False in Hh; [done|].
        pose proof (Hmax y ltac:(right; left)). lia.
    + split; intros [Hmax Hh]; split.
      * intros z [->|[->|Hz]%elem_of_cons]%elem_of_cons.
        -- apply Hmax. left.
        -- pose proof (Hmax x (list_elem_of_here _ _)). lia.
        -- apply Hmax. by right.
      * revert Hh. rewrite !filter_cons. case_decide as Hx; [done|].
        rewrite (decide_False (P := key y = key r)); [done|].
        pose proof (Hmax x (list_elem_of_here _ _)). lia.
      * intros z [->|Hz]%elem_of_cons; apply Hmax; [left|by do 2 right].
      * revert Hh. rewrite !filter_cons. case_decide as Hx; [done|].
        rewrite (decide_False (P := key y = key r)); [done|].
        pose proof (Hmax x (list_elem_of_here _ _)). lia.
Qed.

Lemma first_max_Some {A} (key : A -> Z) l r :
  first_max key l = Some r <->
  (forall y, y ∈ l -> key y <= key r) /\
  head (filter (fun y => key y = key r) l) = Some r.
Proof.
  destruct l as [|x l]; [cbn; naive_solver|]. cbn [first_max].
  rewrite (inj_iff Some). apply first_max_foldl.
Qed.

Lemma first_max_None {A} (key : A -> Z) l : first_max key l = None <-> l = [].
Proof. by destruct l. Qed.

(** [max_by] with the index as a tie-break keeps the first of the maxima. *)
Lemma max_by_index {A} (key : A -> Z) (l : list (nat * A)) :
  StronglySorted (fun a b => (a.1 < b.1)%nat) l ->
  max_by (fun a b => ord_then (Z.compare (key a.2) (key b.2)) (Nat.compare b.1 a.1)) l =
  first_max (fun a => key a.2) l.
Proof.
  destruct l as [|x l]; [done|]. cbn [max_by first_max]. intros Hs. f_equal.
  revert x Hs. induction l as [|y l IH]; intros x Hs; cbn [foldl]; [done|].
  inversion Hs as [|? ? Hs' Hx]; subst. inversion Hx as [|? ? Hxy Hxl]; subst.
  inversion Hs' as [|? ? Hs'' Hy]; subst.
  unfold ord_then. destruct (Z.compare_spec (key x.2) (key y.2)).
  - rewrite (proj2 (Nat.compare_gt_iff y.1 x.1)) by lia.
    rewrite (proj2 (Z.ltb_ge _ _)) by lia. apply IH. by constructor.
  - rewrite (proj2 (Z.ltb_lt _ _)) by lia. by apply IH.
  - rewrite (proj2 (Z.ltb_ge _ _)) by lia. apply IH. by constructor.
Qed.

