(* ===== verification/Cidr.v ===== *)
(** * Prefixes in policy files ([rk-policy/src/net.rs])

    [parse_cidr] and [nat64_equivalent].  The ipnet crate's reader and its IPv4 prefixes
    are an interface, like its IPv6 prefixes in [Ipnet]. *)

From stdpp Require Import pretty.
From S2P Require Import Prelude Text Abi Bpf Lpm Ipnet Addr Policy.
Open Scope Z_scope.

Inductive IpNet (A B : Set) : Set := NetV4 (n : A) | NetV6 (n : B).
Arguments NetV4 {A B}.
Arguments NetV6 {A B}.

#[export] Instance IpNet_eq_dec (A B : Set) `{EqDecision A, EqDecision B} :
  EqDecision (IpNet A B).
Proof. solve_decision. Defined.

(** [net4_from] and [net6_from] are [IpNet::from] on the two kinds of address,
    [net_from_str] is [str::parse::<IpNet>]. *)
Class IpnetStr (I : Ipnet) := {
  Ipv4Net : Set;
  Ipv4Net_eq_dec :: EqDecision Ipv4Net;
  net4_addr : Ipv4Net -> list Z;
  net4_prefix_len : Ipv4Net -> Z;
  net4_network : Ipv4Net -> list Z;
  net4_trunc : Ipv4Net -> Ipv4Net;
  net4_from : list Z -> Ipv4Net;
  net6_from : list Z -> Ipv6Net;
  net_from_str : string -> option (IpNet Ipv4Net Ipv6Net) }.

Class IpnetStrLaws (I : Ipnet) (S : IpnetStr I) := {
  net4_network_ok n : length (net4_network n) = 4%nat /\ Forall byte_ok (net4_network n);
  net4_prefix_len_bound n : 0 <= net4_prefix_len n <= 32;
  net4_network_bits n :
    bits (net4_network n) =
    take (Z.to_nat (net4_prefix_len n)) (bits (net4_addr n)) ++
    replicate (32 - Z.to_nat (net4_prefix_len n)) false;
  net4_addr_trunc n : net4_addr (net4_trunc n) = net4_network n;
  net_from_str_v4 text o p :
    parse_ip_addr text = Some (V4 o) -> 0 <= p <= 32 ->
    exists n, net_from_str (text +:+ "/" +:+ pretty p) = Some (NetV4 n) /\
              net4_addr n = o /\ net4_prefix_len n = p;
  net_from_str_v6 text o p :
    parse_ip_addr text = Some (V6 o) -> 0 <= p <= 128 ->
    exists n, net_from_str (text +:+ "/" +:+ pretty p) = Some (NetV6 n) /\
              net_addr n = o /\ prefix_len n = p }.

Section Cidr.
Context {I : Ipnet} {S : IpnetStr I}.

Definition IpNet_trunc (net : IpNet Ipv4Net Ipv6Net) : IpNet Ipv4Net Ipv6Net :=
  match net with
  | NetV4 n => NetV4 (net4_trunc n)
  | NetV6 n => NetV6 (trunc n)
  end.

Definition IpNet_from (addr : IpAddr) : IpNet Ipv4Net Ipv6Net :=
  match addr with
  | V4 a => NetV4 (net4_from a)
  | V6 a => NetV6 (net6_from a)
  end.

Definition parse_cidr (s : string) : Message + Ipv6Net :=
  let s := trim s in
  let net :=
    if contains_char "/" s then
      match net_from_str s with
      | Some net => inr net
      | None => inl (NotCidr s)
      end
    else
      match parse_ip_addr s with
      | Some addr => inr (IpNet_from addr)
      | None => inl (NotAddress s)
      end in
  match net with
  | inl e => inl e
  | inr net =>
      if decide (IpNet_trunc net = net) then
        match net with
        | NetV4 n =>
            match net_new (normalize (V4 (net4_network n))) (96 + net4_prefix_len n) with
            | Some n => inr n
            | None => inl PrefixTooLong
            end
        | NetV6 n => inr n
        end
      else inl (HostBits s)
  end.

(** The octets of [::ffff:0:0] and of [64:ff9b::] before the IPv4 address. *)
Definition mapped_prefix : list Z := replicate 10 0 ++ [0xff; 0xff].
Definition nat64_prefix : list Z := [0; 0x64; 0xff; 0x9b] ++ replicate 8 0.

(** The constant prefix is valid; [expect] panics otherwise. *)
Definition mapped_v4_space : option Ipv6Net := net_new (mapped_prefix ++ [0; 0; 0; 0]) 96.

Definition nat64_equivalent (net : Ipv6Net) : option Ipv6Net :=
  space ← mapped_v4_space;
  if contains_net space net then
    net_new (nat64_prefix ++ drop 12 (network net)) (prefix_len net)
  else None.

(** ** Prefixes that embed an IPv4 prefix *)

Context {L : IpnetLaws I} {SL : IpnetStrLaws I S}.

Lemma trunc_iff n :
  trunc n = n <->
  bits (net_addr n) = prefix_bits n ++ replicate (128 - Z.to_nat (prefix_len n)) false.
Proof using L.
  rewrite <- network_bits. split; intros H.
  - by rewrite <- net_addr_trunc, H.
  - apply net_ext; [|apply prefix_len_trunc]. rewrite net_addr_trunc.
    destruct (network_ok n), (net_addr_ok n). apply bits_inj; congruence.
Qed.

Lemma embedded_prefix_bits n pre o p :
  net_addr n = pre ++ o -> length pre = 12%nat -> prefix_len n = 96 + p -> 0 <= p ->
  prefix_bits n = bits pre ++ take (Z.to_nat p) (bits o).
Proof.
  intros Ha Hpre Hp H0. unfold prefix_bits. rewrite Ha, Hp, bits_app, take_app_ge.
  - rewrite length_bits, Hpre. do 2 f_equal. lia.
  - rewrite length_bits, Hpre. lia.
Qed.

Lemma embedded_trunc n pre o p :
  net_addr n = pre ++ o -> length pre = 12%nat -> prefix_len n = 96 + p -> 0 <= p ->
  bits o = take (Z.to_nat p) (bits o) ++ replicate (32 - Z.to_nat p) false ->
  trunc n = n.
Proof using L.
  intros Ha Hpre Hp H0 Ho. apply trunc_iff.
  rewrite (embedded_prefix_bits n pre o p), Ha, bits_app, Ho at 1 by done.
  rewrite <- app_assoc, Hp. do 3 f_equal. lia.
Qed.

Lemma embedded_contains n pre o p pre' o' :
  net_addr n = pre ++ o -> octets_ok (pre ++ o) -> octets_ok (pre' ++ o') ->
  length pre = 12%nat -> length pre' = 12%nat -> prefix_len n = 96 + p -> 0 <= p ->
  contains_addr n (pre' ++ o') = true <->
  pre = pre' /\ take (Z.to_nat p) (bits o) `prefix_of` bits o'.
Proof using L.
  intros Ha Hok Hok' Hpre Hpre' Hp H0. rewrite contains_addr_iff by done.
  rewrite (embedded_prefix_bits n pre o p) by done. rewrite bits_app.
  destruct Hok as [_ [Hbp _]%Forall_app], Hok' as [_ [Hbp' _]%Forall_app]. split.
  - intros [k Hk]. rewrite <- app_assoc in Hk.
    apply app_inj_1 in Hk as [Heq Hk]; [|by rewrite !length_bits, Hpre, Hpre'].
    split; [|by exists k]. symmetry. apply bits_inj; congruence.
  - intros [-> [k ->]]. exists k. by rewrite app_assoc.
Qed.

(** A prefix inside the IPv4-mapped space embeds an IPv4 prefix. *)
Lemma mapped_inv space n :
  mapped_v4_space = Some space -> contains_net space n = true ->
  exists o p,
    network n = mapped_prefix ++ o /\ length o = 4%nat /\ Forall byte_ok o /\
    prefix_len n = 96 + p /\ 0 <= p <= 32 /\
    bits o = take (Z.to_nat p) (bits o) ++ replicate (32 - Z.to_nat p) false /\
    prefix_bits n = bits mapped_prefix ++ take (Z.to_nat p) (bits o).
Proof using L.
  intros [Hsa Hsp]%net_new_Some Hc. pose proof (contains_net_length _ _ Hc) as Hle.
  apply contains_net_iff in Hc. rewrite (embedded_prefix_bits space _ _ 0 Hsa) in Hc
    by (done || lia).
  cbn [take Z.to_nat] in Hc. rewrite app_nil_r in Hc.
  pose proof (prefix_len_bound n) as Hb. destruct Hc as [k Hk].
  destruct (network_ok n) as [Hnl Hnb].
  assert (take 12 (network n) = mapped_prefix) as Hm.
  { apply bits_inj.
    - by apply Forall_take.
    - by repeat constructor.
    - by rewrite length_take, Hnl.
    - pose proof (network_bits n) as Hn. rewrite Hk in Hn.
      rewrite <- (take_drop 12 (network n)), bits_app in Hn.
      rewrite <- app_assoc in Hn. apply app_inj_1 in Hn as [? _]; [done|].
      by rewrite !length_bits, length_take, Hnl. }
  set (o := drop 12 (network n)). set (p := prefix_len n - 96).
  assert (network n = mapped_prefix ++ o) as Ho by (rewrite <- Hm; symmetry; apply take_drop).
  assert (Z.to_nat (prefix_len n) = 96 + Z.to_nat p)%nat as Hp by lia.
  assert (length o = 4%nat) as Hol by (unfold o; rewrite length_drop, Hnl; done).
  assert (length k = Z.to_nat p) as Hlk.
  { apply (f_equal length) in Hk. rewrite length_prefix_bits, length_app, length_bits in Hk.
    cbn in Hk. lia. }
  assert (bits o = k ++ replicate (32 - Z.to_nat p) false) as Hbo.
  { pose proof (network_bits n) as Hn. rewrite Ho, Hk, bits_app, <- app_assoc in Hn.
    apply app_inv_head in Hn. rewrite Hn. do 2 f_equal. lia. }
  assert (take (Z.to_nat p) (bits o) = k) as Htk.
  { rewrite Hbo, <- Hlk. apply take_app_length. }
  exists o, p. rewrite Htk. split_and!; try done; [|lia..].
  unfold o. by apply Forall_drop.
Qed.

Lemma mapped_space : exists space, mapped_v4_space = Some space.
Proof using L.
  apply net_new_is_Some; [|lia]. split; [done|]. by repeat constructor.
Qed.

Lemma nat64_inv n m :
  nat64_equivalent n = Some m ->
  exists o p,
    network n = mapped_prefix ++ o /\ length o = 4%nat /\ Forall byte_ok o /\
    prefix_len n = 96 + p /\ 0 <= p <= 32 /\
    bits o = take (Z.to_nat p) (bits o) ++ replicate (32 - Z.to_nat p) false /\
    prefix_bits n = bits mapped_prefix ++ take (Z.to_nat p) (bits o) /\
    net_addr m = nat64_prefix ++ o /\ prefix_len m = 96 + p.
Proof using L.
  unfold nat64_equivalent. destruct mapped_v4_space as [space|] eqn:Hs; [|done].
  cbn [mbind option_bind]. destruct (contains_net space n) eqn:Hc; [|done].
  intros [Ha Hp]%net_new_Some.
  destruct (mapped_inv space n Hs Hc) as (o & p & Hn & Hl & Hb & Hpn & ? & Hz & Hbits).
  rewrite Hn in Ha. change (drop 12 (mapped_prefix ++ o)) with o in Ha.
  exists o, p. split_and!; try done; lia.
Qed.

Lemma nat64_trunc n m : nat64_equivalent n = Some m -> trunc m = m.
Proof using L.
  intros (o & p & _ & _ & _ & _ & Hp & Hz & _ & Hm & Hlen)%nat64_inv.
  eapply embedded_trunc; [done|done|done|lia|done].
Qed.

(** What [parse_cidr] returns has no host bits. *)
Lemma parse_cidr_trunc s n : parse_cidr s = inr n -> trunc n = n.
Proof using L SL.
  unfold parse_cidr. cbv zeta.
  destruct (if contains_char _ _ then _ else _) as [e|net]; [done|].
  case_decide as Ht; [|done]. destruct net as [n4|n6].
  2:{ injection Ht as Ht. by intros [= <-]. }
  destruct (net_new _ _) as [m|] eqn:Hm; [|done]. intros [= <-].
  apply net_new_Some in Hm as [Ha Hp].
  pose proof (net4_prefix_len_bound n4) as Hb. pose proof (net4_network_bits n4) as Hz.
  injection Ht as Ht. apply (f_equal net4_addr) in Ht. rewrite net4_addr_trunc in Ht.
  rewrite <- Ht in Hz.
  by apply (embedded_trunc m mapped_prefix (net4_network n4) (net4_prefix_len n4));
    [|done..|lia|].
Qed.

Lemma nat64_None n space :
  mapped_v4_space = Some space ->
  nat64_equivalent n = None <-> contains_net space n = false.
Proof using L.
  intros Hs. unfold nat64_equivalent. rewrite Hs. cbn [mbind option_bind].
  destruct (contains_net space n) eqn:Hc; [|done].
  destruct (mapped_inv space n Hs Hc) as (o & p & Hn & Hl & Hb & Hpn & ? & _).
  rewrite Hn. change (drop 12 (mapped_prefix ++ o)) with o.
  assert (octets_ok (nat64_prefix ++ o)) as Ho.
  { split; [by rewrite length_app, Hl|]. apply Forall_app. split; [by repeat constructor|done]. }
  destruct (net_new_is_Some _ (prefix_len n) Ho) as [m ->]; [lia|done].
Qed.

(** The NAT64 form of a prefix stands for exactly the same hosts: a prefix inside the
    IPv4-mapped space has one, and it contains exactly the addresses [64:ff9b::a.b.c.d]
    whose [a.b.c.d] the prefix contains; other prefixes have none. *)
Lemma nat64_equivalent_exact space n (Hs : mapped_v4_space = Some space) :
  (nat64_equivalent n = None <-> contains_net space n = false) /\
  forall m, nat64_equivalent n = Some m ->
  forall a, octets_ok a ->
  contains_addr m a = true <->
  exists o, a = nat64_prefix ++ o /\ contains_addr n (mapped_prefix ++ o) = true.
Proof using L.
  split; [by apply nat64_None|].
  intros m (o & p & _ & Hl & Hb & Hpn & Hp & _ & Hbits & Hm & Hpm)%nat64_inv a Ha.
  assert (forall pre o', Forall byte_ok pre -> length pre = 12%nat -> length o' = 4%nat ->
    Forall byte_ok o' -> octets_ok (pre ++ o')) as Hemb.
  { intros pre o' ? Hl1 Hl2 ?. split; [by rewrite length_app, Hl1, Hl2|by apply Forall_app]. }
  assert (Forall byte_ok nat64_prefix /\ Forall byte_ok mapped_prefix) as [? ?]
    by (split; by repeat constructor).
  assert (forall o', length o' = 4%nat -> Forall byte_ok o' ->
    contains_addr n (mapped_prefix ++ o') = true <->
    take (Z.to_nat p) (bits o) `prefix_of` bits o') as Hcn.
  { intros o' ? ?. rewrite contains_addr_iff, Hbits, bits_app by auto. split.
    - intros [k Hk]. rewrite <- app_assoc in Hk. apply app_inv_head in Hk. by exists k.
    - intros [k ->]. exists k. by rewrite app_assoc. }
  destruct Ha as [Hal Hab].
  assert (exists pre o', a = pre ++ o' /\ length pre = 12%nat /\ length o' = 4%nat /\
    Forall byte_ok pre /\ Forall byte_ok o') as (pre & o' & -> & Hlp & Hlo & Hbp & Hbo).
  { exists (take 12 a), (drop 12 a). rewrite take_drop, length_take, length_drop, Hal.
    split_and!; try done; [by apply Forall_take|by apply Forall_drop]. }
  rewrite (embedded_contains m nat64_prefix o p pre o') by (auto; lia). split.
  - intros [<- Hpre]. exists o'. split; [done|]. by apply Hcn.
  - intros (o2 & Heq & Hc). apply app_inj_1 in Heq as [-> ->]; [|done].
    split; [done|]. by apply Hcn.
Qed.

End Cidr.

(** ** An instance of the reader *)

Definition net4_check (p : list Z * Z) : bool :=
  bool_decide (length p.1 = 4%nat /\ Forall byte_ok p.1) && (0 <=? p.2) && (p.2 <=? 32).

Definition mask4_octets (a : list Z) (p : Z) : list Z :=
  bytes_of_bits 4 (take (Z.to_nat p) (bits a) ++ replicate (32 - Z.to_nat p) false).

Lemma net4_check_true p :
  net4_check p = true <->
  (length p.1 = 4%nat /\ Forall byte_ok p.1) /\ 0 <= p.2 <= 32.
Proof.
  unfold net4_check. rewrite !andb_true_iff, bool_decide_eq_true, !Z.leb_le. tauto.
Qed.

Lemma mask4_octets_spec a p :
  length a = 4%nat -> 0 <= p <= 32 ->
  (length (mask4_octets a p) = 4%nat /\ Forall byte_ok (mask4_octets a p)) /\
  bits (mask4_octets a p) =
  take (Z.to_nat p) (bits a) ++ replicate (32 - Z.to_nat p) false.
Proof.
  intros Hl Hp. unfold mask4_octets.
  destruct (bytes_of_bits_spec 4 (take (Z.to_nat p) (bits a) ++
    replicate (32 - Z.to_nat p) false)) as [Hok Hb].
  { rewrite length_app, length_take, length_bits, length_replicate, Hl. lia. }
  split; [|done]. split; [apply length_bytes_of_bits|done].
Qed.

Lemma mask4_check p : net4_check p = true -> net4_check (mask4_octets p.1 p.2, p.2) = true.
Proof.
  rewrite !net4_check_true. intros [[Ha _] Hp]. by destruct (mask4_octets_spec p.1 p.2).
Qed.

Definition ref_net4 : Set := { p : list Z * Z | net4_check p = true }.

Definition ref_net4_new (a : list Z) (p : Z) : option ref_net4 :=
  match decide (net4_check (a, p) = true) with
  | left H => Some ((a, p) ↾ H)
  | right _ => None
  end.

Definition ref_net4_any : ref_net4 := ([0; 0; 0; 0], 32) ↾ eq_refl.
Definition ref_net_any : ref_net := (replicate 16 0, 128) ↾ eq_refl.

(** The address and the length around the last slash. *)
Definition ref_split (s : string) : option (string * string) :=
  (fun '(p, a) => (text (reverse a), text (reverse p))) <$>
    split_once_loop "/" [] (reverse (chars s)).

#[export] Instance reference_ipnet_str : IpnetStr reference_ipnet := {
  Ipv4Net := ref_net4;
  net4_addr n := (`n).1;
  net4_prefix_len n := (`n).2;
  net4_network n := mask4_octets (`n).1 (`n).2;
  net4_trunc n := (mask4_octets (`n).1 (`n).2, (`n).2) ↾ mask4_check (`n) (proj2_sig n);
  net4_from a := default ref_net4_any (ref_net4_new a 32);
  net6_from a := default ref_net_any (net_new (Ipnet:=reference_ipnet) a 128);
  net_from_str s :=
    '(a, p) ← ref_split s;
    a ← parse_ip_addr a;
    p ← parse_uint 255 p;
    match a with
    | V4 o => NetV4 <$> ref_net4_new o p
    | V6 o => NetV6 <$> net_new (Ipnet:=reference_ipnet) o p
    end }.

Lemma split_once_loop_app c seg l1 l2 :
  c ∉ l1 -> split_once_loop c seg (l1 ++ c :: l2) = Some (seg ++ l1, l2).
Proof.
  revert seg. induction l1 as [|a l1 IH]; intros seg; cbn [split_once_loop app].
  - intros _. by rewrite decide_True, app_nil_r.
  - intros [Hne Hin]%not_elem_of_cons. rewrite decide_False by done.
    by rewrite IH, <- app_assoc.
Qed.

(** Lengths are printed as they are read, without a slash. *)
Lemma pretty_length p :
  0 <= p <= 128 -> "/"%char ∉ chars (pretty p) /\ parse_uint 255 (pretty p) = Some p.
Proof.
  intros Hp.
  assert (Forall (fun p => "/"%char ∉ chars (pretty p) /\ parse_uint 255 (pretty p) = Some p)
    (seqZ 0 129)) as HF by (apply (bool_decide_unpack _); by vm_compute).
  rewrite Forall_forall in HF. apply HF, elem_of_seqZ. lia.
Qed.

Lemma ref_split_length a p :
  0 <= p <= 128 -> ref_split (a +:+ "/" +:+ pretty p) = Some (a, pretty p).
Proof.
  intros [Hs _]%pretty_length. unfold ref_split.
  rewrite !chars_app, !reverse_app. cbn [chars list_ascii_of_string reverse].
  change (reverse ["/"%char]) with ["/"%char]. rewrite <- app_assoc. cbn [app].
  rewrite split_once_loop_app by (by rewrite elem_of_reverse).
  cbn [fmap option_fmap option_map app].
  by rewrite !reverse_involutive, !text_chars.
Qed.

#[export] Instance reference_ipnet_str_laws :
  IpnetStrLaws reference_ipnet reference_ipnet_str.
Proof.
  split; cbn.
  - intros [p Hp]; cbn. apply net4_check_true in Hp as [[? _] ?]. by apply mask4_octets_spec.
  - intros [p Hp]; cbn. by apply net4_check_true in Hp as [? ?].
  - intros [p Hp]; cbn. apply net4_check_true in Hp as [[? _] ?]. by apply mask4_octets_spec.
  - done.
  - intros a o p Ha Hp. rewrite ref_split_length by lia. cbn. rewrite Ha. cbn.
    destruct (pretty_length p) as [_ ->]; [lia|]. cbn. apply parse_ip_addr_ok in Ha.
    unfold ref_net4_new. destruct (decide _) as [|Hn]; [by eexists|].
    destruct Hn. by apply net4_check_true.
  - intros a o p Ha Hp. rewrite ref_split_length by lia. cbn. rewrite Ha. cbn.
    destruct (pretty_length p) as [_ ->]; [lia|]. cbn. apply parse_ip_addr_ok in Ha.
    destruct (decide _) as [|Hn]; [by eexists|].
    destruct Hn. by apply net_check_true.
Qed.
