(* ===== verification/Parse.v ===== *)
(** * Parsing a policy file ([rk-policy/src/net.rs])

    [parse] turns a deserialised policy file into a validated policy.  Reading TOML is an
    interface; everything after it is here, in the order of the source, so that the first
    error is the source's. *)

From stdpp Require Import pretty.
From S2P Require Import Prelude Text Abi Bpf Lpm Ipnet Addr Policy Cidr.
Open Scope string_scope.
Open Scope list_scope.
Open Scope Z_scope.

Definition MAX_PROFILES : Z := 1024.
Definition QUARANTINE : string := "quarantine".
Definition CGROUP_ROOT : string := "rk.slice".

Definition FILE_READ : Z := 1.
Definition FILE_WRITE : Z := 2.
Definition FILE_EXEC : Z := 4.
Definition FILE_CREATE : Z := 8.
Definition FILE_DELETE : Z := 16.
Definition FILE_RENAME : Z := 32.
Definition FILE_TRUNCATE : Z := 64.
Definition FILE_LINK : Z := 128.
Definition FILE_SETATTR : Z := 256.
Definition FILE_ALL : Z := 511.

Inductive Proto : Set := Tcp | Udp | OtherProto | AnyProto.

Definition Proto_mask (p : Proto) : Z :=
  match p with
  | Tcp => PROTO_TCP
  | Udp => PROTO_UDP
  | OtherProto => PROTO_OTHER
  | AnyProto => PROTO_ANY
  end.

(** ** The file format *)

Record RuleFile : Set := mk_RuleFile {
  rl_cidr : string; rl_ports : list string; rl_proto : list Proto }.

Record NetworkFile : Set := mk_NetworkFile {
  nf_default : Action; nf_include : list string; nf_nat64_equivalence : bool;
  nf_deny_raw_sockets : bool; nf_allow : list RuleFile; nf_deny : list RuleFile }.

Definition NetworkFile_default : NetworkFile :=
  mk_NetworkFile Deny ["cloud-metadata"] true true [] [].

Record ExecFile : Set := mk_ExecFile {
  ef_default : Action; ef_allow : list string; ef_allow_dirs : list string;
  ef_allow_unlinked : bool; ef_require_hash : bool }.

Record FileRuleFile : Set := mk_FileRuleFile {
  fr_path : string; fr_subtree : bool; fr_access : list string }.

Record FilesFile : Set := mk_FilesFile {
  ff_include : list string; ff_protect_exec_allowlist : option bool;
  ff_deny : list FileRuleFile }.

Definition FilesFile_default : FilesFile := mk_FilesFile ["credentials"] None [].

Record ProfileFile : Set := mk_ProfileFile {
  pf_mode : Mode; pf_network : NetworkFile; pf_exec : option ExecFile;
  pf_files : FilesFile; pf_launchable_by : list string }.

Record BindingFile : Set := mk_BindingFile { bf_cgroup : string; bf_profile : string }.

Record NamespaceFile : Set := mk_NamespaceFile {
  nsf_default : option string; nsf_allowed : option (list string) }.

(** A BTreeMap is the list of its entries in the order of its iteration. *)
Record PolicyFile : Set := mk_PolicyFile {
  plf_profiles : list (string * ProfileFile); plf_bindings : list BindingFile;
  plf_namespaces : list (string * NamespaceFile) }.

Record ListRule : Set := mk_ListRule {
  lr_cidr : string; lr_ports : list string; lr_proto : list Proto;
  lr_source : string; lr_note : string }.

Record ListFile : Set := mk_ListFile {
  lf_name : string; lf_description : string; lf_deny : list ListRule }.

Record FileListFile : Set := mk_FileListFile {
  flf_name : string; flf_description : string; flf_deny : list FileRuleFile }.

(** [toml::from_str] at the three types the parser reads, and the two files it embeds
    with [include_str!]. *)
Class Toml := {
  policy_from_str : string -> string + PolicyFile;
  list_from_str : string -> string + ListFile;
  file_list_from_str : string -> string + FileListFile;
  cloud_metadata_toml : string;
  credentials_toml : string }.

(** The built-in lists, [deploy/policy/cloud-metadata.toml] and [credentials.toml]. *)
Definition metadata_rule (cidr note source : string) : ListRule :=
  mk_ListRule cidr [] [] source note.

Definition cloud_metadata : ListFile :=
  mk_ListFile "cloud-metadata" "Cloud instance-metadata and credential endpoints"
    [metadata_rule "169.254.169.254/32"
       "IMDS on AWS EC2, Google Compute Engine, Azure, Oracle OCI, DigitalOcean, OpenStack and others"
       "https://docs.aws.amazon.com/AWSEC2/latest/UserGuide/instancedata-data-retrieval.html";
     metadata_rule "fd00:ec2::254/128" "AWS EC2 IMDS over IPv6"
       "https://docs.aws.amazon.com/AWSEC2/latest/UserGuide/instancedata-data-retrieval.html";
     metadata_rule "169.254.170.2/32" "AWS ECS task metadata and task IAM role credentials"
       "https://docs.aws.amazon.com/AmazonECS/latest/developerguide/task-iam-roles.html";
     metadata_rule "169.254.170.23/32" "AWS EKS Pod Identity agent"
       "https://docs.aws.amazon.com/eks/latest/userguide/pod-id-how-it-works.html";
     metadata_rule "fd00:ec2::23/128" "AWS EKS Pod Identity agent over IPv6"
       "https://docs.aws.amazon.com/eks/latest/userguide/pod-id-how-it-works.html";
     metadata_rule "fd20:ce::254/128" "Google Compute Engine metadata server over IPv6"
       "https://cloud.google.com/compute/docs/metadata/querying-metadata";
     metadata_rule "168.63.129.16/32" "Azure WireServer (host agent, health probes, DNS)"
       "https://learn.microsoft.com/azure/virtual-network/what-is-ip-address-168-63-129-16";
     metadata_rule "100.100.100.200/32" "Alibaba Cloud ECS metadata"
       "https://www.alibabacloud.com/help/en/ecs/user-guide/view-instance-metadata";
     metadata_rule "169.254.0.23/32" "Tencent Cloud CVM metadata"
       "https://www.tencentcloud.com/document/product/213/4934"].

Definition credentials : FileListFile :=
  mk_FileListFile "credentials" "Local password, sudo and SSH credential stores"
    [mk_FileRuleFile "/etc/shadow" false ["all"];
     mk_FileRuleFile "/etc/gshadow" false ["all"];
     mk_FileRuleFile "/etc/sudoers" false ["all"];
     mk_FileRuleFile "/etc/sudoers.d" true ["all"];
     mk_FileRuleFile "/etc/ssh" true ["all"];
     mk_FileRuleFile "/root/.ssh" true ["all"]].

(** Tables have unique keys, and the embedded files are what they say. *)
Class TomlLaws (T : Toml) := {
  profile_keys text file :
    policy_from_str text = inr file -> NoDup (plf_profiles file).*1;
  namespace_keys text file :
    policy_from_str text = inr file -> NoDup (plf_namespaces file).*1;
  cloud_metadata_reads : list_from_str cloud_metadata_toml = inr cloud_metadata;
  credentials_reads : file_list_from_str credentials_toml = inr credentials }.

(** ** Validation of single values *)

Definition port_ALL : PortRange := mk_PortRange 0 65535.

Definition valid_name (name : string) : bool :=
  negb (bool_decide (name = EmptyString)) && (length (chars name) <=? 64)%nat &&
  forallb (fun c => is_ascii_alphanumeric c || bool_decide (c ∈ ["-"; "_"; "."]%char))
    (chars name).

Definition valid_namespace (name : string) : bool :=
  negb (bool_decide (name = EmptyString)) && (length (chars name) <=? 63)%nat &&
  forallb (fun c => is_ascii_lowercase c || is_ascii_digit c || bool_decide (c = "-"%char))
    (chars name) &&
  negb (starts_with_char "-" name) && negb (ends_with_char "-" name).

Definition proto_mask (l : list Proto) : Z :=
  match l with
  | [] => PROTO_ANY
  | _ => foldl (fun m p => Z.lor m (Proto_mask p)) 0 l
  end.

(** Profile ids, allocated by name. *)
Record ProfileIds : Set := mk_ProfileIds { pi_ids : gmap string Z; pi_next : Z }.

(** [Result]'s operations: [?] on a message, [map_err], and [collect]. *)
Definition try_bind {E A B} (r : E + A) (f : A -> E + B) : E + B :=
  match r with
  | inl e => inl e
  | inr a => f a
  end.

Fixpoint collect {E A} (l : list (E + A)) : E + list A :=
  match l with
  | [] => inr []
  | r :: l => try_bind r (fun a => try_bind (collect l) (fun l => inr (a :: l)))
  end.

Section Parse.
Context {I : Ipnet} {S : IpnetStr I} {T : Toml}.

Definition parse_port (p : string) : Message + PortRange :=
  let p := trim p in
  if decide (p = "*") then inr port_ALL
  else
    let '(lo, hi) := match split_once "-" p with
                     | Some (lo, hi) => (trim lo, trim hi)
                     | None => (p, p)
                     end in
    match parse_uint 65535 lo, parse_uint 65535 hi with
    | Some lo, Some hi =>
        if hi <? lo then inl (ReversedPorts p) else inr (mk_PortRange lo hi)
    | _, _ => inl (NotPort p)
    end.

Definition parse_ports (l : list string) : Message + list PortRange :=
  match l with
  | [] => inr [port_ALL]
  | _ => collect (parse_port <$> l)
  end.

Definition parse_principal (s : string) : Message + Principal :=
  let s := trim s in
  if decide (s = "root") then inr (User "root")
  else
    match split_once ":" s with
    | None => inl (BadPrincipal s)
    | Some (kind, value) =>
        let number := match parse_uint (2 ^ 32 - 1) value with
                      | Some n => inr n
                      | None => inl (NotNumeric s value)
                      end in
        if bool_decide (kind = "user") && valid_name value then inr (User value)
        else if bool_decide (kind = "group") && valid_name value then inr (Group value)
        else if decide (kind = "uid") then try_bind number (fun n => inr (Uid n))
        else if decide (kind = "gid") then try_bind number (fun n => inr (Gid n))
        else inl (BadPrincipal s)
    end.

Definition bad_segment (segment : string) : bool :=
  bool_decide (segment = EmptyString) || bool_decide (segment = ".") ||
  bool_decide (segment = "..") || negb (valid_name segment).

Definition validate_cgroup (path : string) : Message + string :=
  let path := trim_end_char "/" (trim path) in
  match r ← strip_prefix CGROUP_ROOT path; strip_prefix "/" r with
  | None => inl (OutsideRoot path)
  | Some rest =>
      match head (filter (fun s => bad_segment s = true) (split "/" rest)) with
      | Some segment => inl (BadSegment path segment)
      | None => inr path
      end
  end.

Definition access_bit (a : string) : option Z :=
  if decide (a = "read") then Some FILE_READ
  else if decide (a = "write") then Some FILE_WRITE
  else if decide (a = "exec") then Some FILE_EXEC
  else if decide (a = "create") then Some FILE_CREATE
  else if decide (a = "delete") then Some FILE_DELETE
  else if decide (a = "rename") then Some FILE_RENAME
  else if decide (a = "truncate") then Some FILE_TRUNCATE
  else if decide (a = "link") then Some FILE_LINK
  else if decide (a = "setattr") then Some FILE_SETATTR
  else if decide (a = "all") then Some FILE_ALL
  else None.

Fixpoint access_mask (mask : Z) (l : list string) : Message + Z :=
  match l with
  | [] => inr mask
  | a :: l =>
      match access_bit a with
      | Some bit => access_mask (Z.lor mask bit) l
      | None => inl (UnknownAccess a)
      end
  end.

Definition parse_access (l : list string) : Message + Z :=
  match l with
  | [] => inl NoAccess
  | _ => access_mask 0 l
  end.

Definition BUILTIN_LISTS : list (string * string) :=
  [("cloud-metadata", cloud_metadata_toml)].
Definition FILE_LISTS : list (string * string) := [("credentials", credentials_toml)].

Definition find_list (name : string) (lists : list (string * string)) : option string :=
  snd <$> head (filter (fun e => e.1 = name) lists).

Definition builtin_list (name : string) : Message + ListFile :=
  match find_list name BUILTIN_LISTS with
  | None => inl (UnknownList name)
  | Some text =>
      match list_from_str text with
      | inl e => inl (InvalidList name e)
      | inr l =>
          if decide (lf_name l = name) then inr l
          else inl (MisnamedList name (lf_name l))
      end
  end.

Definition files_list (name : string) : Message + FileListFile :=
  match find_list name FILE_LISTS with
  | None => inl (UnknownFilesList name)
  | Some text =>
      match file_list_from_str text with
      | inl e => inl (InvalidList name e)
      | inr l =>
          if decide (flf_name l = name) then inr l
          else inl (MisnamedList name (flf_name l))
      end
  end.

(** ** Validation of the file

    The parser's state: the id allocator, which outlives the call, and the local
    [next_rule] and [origins]. *)

Record pstate : Set := mk_pstate {
  ps_ids : ProfileIds; ps_next_rule : Z; ps_origins : list RuleOrigin }.

Definition parser (A : Type) : Type := pstate -> (PolicyError + A) * pstate.

#[local] Instance parser_ret : MRet parser := fun A a st => (inr a, st).

#[local] Instance parser_bind : MBind parser := fun A B f m st =>
  match m st with
  | (inl e, st) => (inl e, st)
  | (inr a, st) => f a st
  end.

Definition raise {A} (ctx : string) (e : Message) : parser A := fun st =>
  (inl (mk_PolicyError ctx e), st).

(** [r.map_err(|m| PolicyError::new(ctx, m))?] *)
Definition lift {A} (ctx : string) (r : Message + A) : parser A :=
  match r with
  | inl e => raise ctx e
  | inr a => mret a
  end.

(** A loop over the enumerated elements, collecting what each adds. *)
Fixpoint for_enumerate {A B} (f : nat -> A -> parser (list B)) (i : nat) (l : list A)
    : parser (list B) :=
  match l with
  | [] => mret []
  | x :: l =>
      xs ← f i x;
      rest ← for_enumerate f (i + 1)%nat l;
      mret (xs ++ rest)
  end.

(** The loop over [include], which visits each name once. *)
Fixpoint for_lists {A} (f : string -> parser (list A)) (seen names : list string)
    : parser (list A) :=
  match names with
  | [] => mret []
  | name :: names =>
      if decide (name ∈ seen) then for_lists f seen names
      else
        xs ← f name;
        rest ← for_lists f (name :: seen) names;
        mret (xs ++ rest)
  end.

Definition id_of (ids : ProfileIds) (name : string) : (PolicyError + Z) * ProfileIds :=
  match pi_ids ids !! name with
  | Some id => (inr id, ids)
  | None =>
      if MAX_PROFILES <=? pi_next ids
      then (inl (mk_PolicyError ("profile `" +:+ name +:+ "`") TooManyProfiles), ids)
      else (inr (pi_next ids),
            mk_ProfileIds (<[name := pi_next ids]> (pi_ids ids)) (u32 (pi_next ids + 1)))
  end.

Definition profile_id (name : string) : parser Z := fun st =>
  let '(r, ids) := id_of (ps_ids st) name in
  (r, mk_pstate ids (ps_next_rule st) (ps_origins st)).

(** Takes [next_rule] and records its origin. *)
Definition new_rule (profile origin : string) : parser Z := fun st =>
  (inr (ps_next_rule st),
   mk_pstate (ps_ids st) (u32 (ps_next_rule st + 1))
     (ps_origins st ++ [mk_RuleOrigin (ps_next_rule st) profile origin])).

Definition index_label (key : string) (i : nat) : string :=
  key +:+ "[" +:+ pretty i +:+ "]".

Definition absolute (path : string) : bool :=
  starts_with_char "/" path && negb (contains_char "000" path).

Definition push (ctx name : string) (nat64 : bool) (action : Action) (cidr : string)
    (ports : list string) (proto : list Proto) (origin : string) : parser (list Rule) :=
  let rctx := ctx +:+ ", " +:+ origin in
  net ← lift rctx (parse_cidr cidr);
  ports ← lift rctx (parse_ports ports);
  id ← new_rule name origin;
  let rule net := mk_Rule id action net ports (proto_mask proto) in
  mret ((if bool_decide (action = Deny) && nat64 then
           match nat64_equivalent net with
           | Some n => [rule n]
           | None => []
           end
         else []) ++ [rule net]).

Definition list_label (r : ListRule) : string :=
  if decide (lr_note r = EmptyString) then lr_cidr r
  else lr_cidr r +:+ " (" +:+ lr_note r +:+ ")".

Definition push_list (ctx name : string) (nat64 : bool) (list_name : string)
    : parser (list Rule) :=
  l ← lift ctx (builtin_list list_name);
  for_enumerate (fun i r =>
    push ctx name nat64 Deny (lr_cidr r) (lr_ports r) (lr_proto r)
      (index_label list_name i +:+ " " +:+ list_label r)) 0 (lf_deny l).

Definition push_rules (ctx name : string) (nat64 : bool) (action : Action) (key : string)
    (rules : list RuleFile) : parser (list Rule) :=
  for_enumerate (fun i r =>
    push ctx name nat64 action (rl_cidr r) (rl_ports r) (rl_proto r)
      (index_label key i +:+ " " +:+ rl_cidr r)) 0 rules.

Definition parse_network (ctx name : string) (net : NetworkFile) : parser (list Rule) :=
  let nat64 := nf_nat64_equivalence net in
  listed ← for_lists (push_list ctx name nat64) [] (nf_include net);
  deny ← push_rules ctx name nat64 Deny "network.deny" (nf_deny net);
  allow ← push_rules ctx name nat64 Allow "network.allow" (nf_allow net);
  mret (listed ++ deny ++ allow).

Definition push_file (ctx profile : string) (optional : bool) (r : FileRuleFile)
    (origin : string) : parser (list FileRule) :=
  let rctx := ctx +:+ ", " +:+ origin in
  if negb (absolute (fr_path r)) then raise rctx (NotAbsolute (fr_path r))
  else
    deny_mask ← lift rctx (parse_access (fr_access r));
    id ← new_rule profile origin;
    mret [mk_FileRule id (fr_path r) (fr_subtree r) deny_mask optional].

Definition push_files_list (ctx profile list_name : string) : parser (list FileRule) :=
  l ← lift ctx (files_list list_name);
  for_enumerate (fun i r => push_file ctx profile true r
    (index_label list_name i +:+ " " +:+ fr_path r)) 0 (flf_deny l).

Definition parse_files (ff : FilesFile) (has_exec : bool) (ctx profile : string)
    : parser FilePolicy :=
  listed ← for_lists (push_files_list ctx profile) [] (ff_include ff);
  own ← for_enumerate (fun i r => push_file ctx profile false r
    (index_label "files.deny" i +:+ " " +:+ fr_path r)) 0 (ff_deny ff);
  mret (mk_FilePolicy (listed ++ own)
          (default has_exec (ff_protect_exec_allowlist ff))).

Definition push_exec_paths (ctx profile key : string) (kind : ExecPathKind)
    (paths : list string) : parser (list ExecAllow) :=
  for_enumerate (fun i path =>
    if negb (absolute path)
    then raise (ctx +:+ ", " +:+ index_label key i) (NotAbsolute path)
    else
      id ← new_rule profile (index_label key i +:+ " " +:+ path);
      mret [mk_ExecAllow id path kind]) 0 paths.

Definition parse_exec (ef : ExecFile) (ctx profile : string) : parser ExecPolicy :=
  if ef_require_hash ef then raise ctx HashRequired
  else
    files ← push_exec_paths ctx profile "exec.allow" PathFile (ef_allow ef);
    dirs ← push_exec_paths ctx profile "exec.allow_dirs" PathDir (ef_allow_dirs ef);
    mret (mk_ExecPolicy (ef_default ef) (ef_allow_unlinked ef) (files ++ dirs)).

Definition profile_ctx (name : string) : string := "profile `" +:+ name +:+ "`".

Definition parse_exec_section (exec : option ExecFile) (ctx name : string)
    : parser (option ExecPolicy) :=
  match exec with
  | None => mret None
  | Some ef => x ← parse_exec ef ctx name; mret (Some x)
  end.

(** The body of the loop over the profiles. *)
Definition parse_profile (name : string) (pf : ProfileFile) : parser Profile :=
  let ctx := profile_ctx name in
  if decide (name = QUARANTINE) then raise ctx QuarantineRedefined
  else if negb (valid_name name) then raise ctx BadName
  else
    id ← profile_id name;
    rules ← parse_network ctx name (pf_network pf);
    exec ← parse_exec_section (pf_exec pf) ctx name;
    files ← parse_files (pf_files pf) (bool_decide (is_Some exec)) ctx name;
    launchable_by ← lift (ctx +:+ ", launchable_by")
      (collect (parse_principal <$> pf_launchable_by pf));
    mret (mk_Profile id name (pf_mode pf) (nf_default (pf_network pf))
            (nf_deny_raw_sockets (pf_network pf)) rules exec files launchable_by).

Definition quarantine_profile : parser Profile :=
  id ← profile_id QUARANTINE;
  files ← parse_files FilesFile_default true (profile_ctx QUARANTINE) QUARANTINE;
  mret (mk_Profile id QUARANTINE Enforce Deny true []
          (Some (mk_ExecPolicy Deny false [])) files []).

Definition parse_profiles (file : PolicyFile) : parser (list Profile) :=
  own ← for_enumerate (fun _ '(name, pf) => p ← parse_profile name pf; mret [p]) 0
    (plf_profiles file);
  quarantine ← quarantine_profile;
  mret (own ++ [quarantine]).

Definition find_profile (profiles : list Profile) (name : string) : option Profile :=
  head (filter (fun p => p_name p = name) profiles).

(** The loop over the bindings, from index [i] on. *)
Fixpoint parse_bindings (profiles : list Profile) (seen : list string) (i : nat)
    (bindings : list BindingFile) : parser (list Binding) :=
  match bindings with
  | [] => mret []
  | b :: bindings =>
      let ctx := index_label "bindings" i in
      cgroup ← lift ctx (validate_cgroup (bf_cgroup b));
      if decide (cgroup ∈ seen) then raise ctx (BoundTwice cgroup)
      else
        match find_profile profiles (bf_profile b) with
        | None => raise ctx (UnknownProfile (bf_profile b))
        | Some p =>
            rest ← parse_bindings profiles (cgroup :: seen) (i + 1)%nat bindings;
            mret (mk_Binding cgroup (p_id p) :: rest)
        end
  end.

(** Not a profile a pod may run under. *)
Definition unlaunchable (profiles : list Profile) (name : string) : bool :=
  bool_decide (name = QUARANTINE) ||
  negb (existsb (fun p => bool_decide (p_name p = name)) profiles).

Definition namespace_allowed (rule : NamespaceFile) : Message + list string :=
  match nsf_allowed rule, nsf_default rule with
  | Some [], _ => inl EmptyAllowed
  | Some l, _ => inr l
  | None, Some d => inr [d]
  | None, None => inl NoProfiles
  end.

Definition parse_namespace (profiles : list Profile) (ns : string) (rule : NamespaceFile)
    : Message + NamespaceRule :=
  if negb (valid_namespace ns) then inl BadNamespace
  else
    try_bind (namespace_allowed rule) (fun allowed =>
      let names := option_list (nsf_default rule) ++ allowed in
      match head (filter (fun n => unlaunchable profiles n = true) names) with
      | Some name => inl (UnknownProfile name)
      | None =>
          match nsf_default rule with
          | Some d =>
              if decide (d ∈ allowed) then inr (mk_NamespaceRule (nsf_default rule) allowed)
              else inl (DefaultNotAllowed d)
          | None => inr (mk_NamespaceRule None allowed)
          end
      end).

Fixpoint parse_namespaces (profiles : list Profile) (out : gmap string NamespaceRule)
    (namespaces : list (string * NamespaceFile)) : parser (gmap string NamespaceRule) :=
  match namespaces with
  | [] => mret out
  | (ns, rule) :: namespaces =>
      rule ← lift ("kubernetes.namespaces." +:+ ns) (parse_namespace profiles ns rule);
      parse_namespaces profiles (<[ns := rule]> out) namespaces
  end.

Definition get_origins : parser (list RuleOrigin) := fun st => (inr (ps_origins st), st).

Definition parse_file (file : PolicyFile) : parser Policy :=
  profiles ← parse_profiles file;
  bindings ← parse_bindings profiles [] 0 (plf_bindings file);
  namespaces ← parse_namespaces profiles ∅ (plf_namespaces file);
  origins ← get_origins;
  mret (mk_Policy profiles bindings origins namespaces).

Definition parse (text : string) (ids : ProfileIds) : (PolicyError + Policy) * ProfileIds :=
  match policy_from_str text with
  | inl e => (inl (mk_PolicyError "policy file" (TomlError e)), ids)
  | inr file =>
      let '(r, st) := parse_file file (mk_pstate ids 1 []) in (r, ps_ids st)
  end.

(** ** Pods *)

Definition resolve_pod_profile (policy : Policy) (namespace : string)
    (annotation : option string) : Message + option string :=
  let rule := po_namespaces policy !! namespace in
  match annotation with
  | None =>
      match rule with
      | None => inr None
      | Some (mk_NamespaceRule (Some d) _) => inr (Some d)
      | Some r => inl (NoDefault namespace (ns_allowed r))
      end
  | Some name =>
      if unlaunchable (po_profiles policy) name then inl (UnknownProfile name)
      else
        match rule with
        | Some r =>
            if existsb (fun a => bool_decide (a = name)) (ns_allowed r) then inr (Some name)
            else inl (NotAllowed name namespace (ns_allowed r))
        | None => inr (Some name)
        end
  end.

End Parse.
