(* ===== verification/Flatten.v ===== *)
(** * Correctness of the policy compiler

    One longest-prefix lookup in a compiled trie finds the rule that [evaluate]
    chooses: grouping keeps file order, flattening appends the rules of every
    enclosing prefix in order of specificity, and dropping covered ranges never
    changes which range matches first. *)

From stdpp Require Import sorting.
From S2P Require Import Prelude Abi Bpf Lpm Ipnet Addr Policy.
Open Scope Z_scope.

(** ** Lists *)

Lemma first_max_fmap {A B} (key : B -> Z) (f : A -> B) l :
  f <$> first_max (fun a => key (f a)) l = first_max key (f <$> l).
Proof.
  destruct l as [|x l]; [done|]. cbn. f_equal.
  revert x. induction l as [|y l IH]; intros x; cbn [foldl fmap list_fmap]; [done|].
  rewrite IH. by destruct (key (f x) <? key (f y)).
Qed.

Lemma imap_pair_sorted {A} (l : list A) :
  StronglySorted (fun a b => (a.1 < b.1)%nat) (imap pair l).
Proof.
  enough (forall k, StronglySorted (fun a b => (a.1 < b.1)%nat)
            (imap (fun i x => (k + i, x)%nat) l)) as H by apply (H 0%nat).
  induction l as [|x l IH]; intros k; cbn [imap]; constructor.
  - rewrite (imap_ext _ (fun i y => (S k + i, y)%nat)); [apply IH|].
    intros i y _. cbn. f_equal. lia.
  - apply Forall_forall. intros [i y] (j & z & [= -> ->] & _)%elem_of_lookup_imap. cbn. lia.
Qed.

Lemma StronglySorted_filter {A} (R : A -> A -> Prop) (P : A -> Prop)
    `{!forall x, Decision (P x)} (l : list A) :
  StronglySorted R l -> StronglySorted R (filter P l).
Proof.
  induction 1 as [|x l _ IH Hx]; [constructor|].
  rewrite filter_cons. case_decide; [|done]. constructor; [done|].
  rewrite Forall_forall in *. intros y [_ Hy]%list_elem_of_filter. auto.
Qed.

Lemma filter_fmap {A B} (f : A -> B) (P : B -> Prop) `{!forall x, Decision (P x)} (l : list A) :
  filter P (f <$> l) = f <$> filter (fun x => P (f x)) l.
Proof.
  induction l as [|x l IH]; [done|]. rewrite fmap_cons, !filter_cons, IH.
  by case_decide.
Qed.

Lemma filter_filter_and {A} (P Q R : A -> Prop) `{!forall x, Decision (P x)}
    `{!forall x, Decision (Q x)} `{!forall x, Decision (R x)} (l : list A) :
  (forall x, x ∈ l -> R x <-> P x /\ Q x) -> filter P (filter Q l) = filter R l.
Proof.
  induction l as [|x l IH]; intros HR; [done|]. rewrite !filter_cons.
  pose proof (HR x (list_elem_of_here _ _)).
  rewrite <- IH by (intros y Hy; apply HR; by right).
  destruct (decide (Q x)); [rewrite filter_cons|]; repeat case_decide; tauto.
Qed.

Lemma filter_ext_in {A} (P Q : A -> Prop) `{!forall x, Decision (P x)}
    `{!forall x, Decision (Q x)} (l : list A) :
  (forall x, x ∈ l -> P x <-> Q x) -> filter P l = filter Q l.
Proof.
  induction l as [|x l IH]; intros HPQ; [done|]. rewrite !filter_cons.
  rewrite (decide_ext (P x) (Q x)) by (apply HPQ; left).
  rewrite IH; [done|]. intros y Hy. apply HPQ. by right.
Qed.

Lemma StronglySorted_mono {A} (R S : A -> A -> Prop) l :
  (forall x y, R x y -> S x y) -> StronglySorted R l -> StronglySorted S l.
Proof.
  intros HRS. induction 1; constructor; [done|]. eapply Forall_impl; [done|auto].
Qed.

Lemma snd_filter_imap {A} (P : A -> Prop) `{!forall x, Decision (P x)} (l : list A) :
  snd <$> filter (fun ir => P ir.2) (imap pair l) = filter P l.
Proof.
  rewrite <- (filter_fmap snd P). f_equal. rewrite fmap_imap.
  change (imap (const id) l = l). by rewrite imap_const, list_fmap_id.
Qed.

(** ** Sorting *)

Lemma insert_by_key_perm {A} (key : A -> Z) x l : insert_by_key key x l ≡ₚ x :: l.
Proof.
  induction l as [|y l IH]; cbn; [done|]. destruct (key x <=? key y); [done|].
  rewrite IH. constructor.
Qed.

Lemma sort_by_key_perm {A} (key : A -> Z) l : sort_by_key key l ≡ₚ l.
Proof.
  induction l as [|x l IH]; cbn; [done|]. by rewrite insert_by_key_perm, IH.
Qed.

Lemma insert_by_key_sorted {A} (key : A -> Z) x l :
  StronglySorted (fun a b => key a <= key b) l ->
  StronglySorted (fun a b => key a <= key b) (insert_by_key key x l).
Proof.
  induction 1 as [|y l Hs IH Hy]; cbn [insert_by_key]; [repeat constructor|].
  destruct (Z.leb_spec (key x) (key y)).
  - constructor; [by constructor|]. constructor; [done|].
    eapply Forall_impl; [done|]. cbn. lia.
  - constructor; [done|]. rewrite insert_by_key_perm. constructor; [lia|done].
Qed.

Lemma sort_by_key_sorted {A} (key : A -> Z) l :
  StronglySorted (fun a b => key a <= key b) (sort_by_key key l).
Proof. induction l; [constructor|]. by apply insert_by_key_sorted. Qed.

Section Flatten.
Context `{I : Ipnet, L : !IpnetLaws I}.

Abbreviation rule_len := (fun r => prefix_len (r_net r)).
Abbreviation of_net n rs := (filter (fun r => r_net r = n) rs).

Lemma best_rule_eq prof action addr port proto :
  best_rule prof action addr port proto =
  first_max rule_len
    (filter (fun r => rule_applies action addr port proto r = true) (p_rules prof)).
Proof.
  unfold best_rule, rule_cmp.
  rewrite (max_by_index rule_len) by apply StronglySorted_filter, imap_pair_sorted.
  rewrite (first_max_fmap rule_len snd). f_equal.
  exact (snd_filter_imap (fun r => rule_applies action addr port proto r = true) (p_rules prof)).
Qed.

(** ** Grouping *)

(** The distinct prefixes of a list of rules, in order of first appearance. *)
Definition nets_of (rs : list Rule) : list Ipv6Net :=
  foldl (fun ns r => if decide (r_net r ∈ ns) then ns else ns ++ [r_net r]) [] rs.

Lemma nets_of_snoc rs r :
  nets_of (rs ++ [r]) =
  if decide (r_net r ∈ nets_of rs) then nets_of rs else nets_of rs ++ [r_net r].
Proof. unfold nets_of. by rewrite foldl_snoc. Qed.

Lemma elem_of_nets_of rs n : n ∈ nets_of rs <-> exists r, r ∈ rs /\ r_net r = n.
Proof.
  induction rs as [|r rs IH] using rev_ind.
  { split; [by intros ?%elem_of_nil|by intros (? & ?%elem_of_nil & _)]. }
  rewrite nets_of_snoc.
  assert ((exists r', r' ∈ rs ++ [r] /\ r_net r' = n) <->
    n ∈ nets_of rs \/ r_net r = n) as ->.
  { rewrite IH. setoid_rewrite elem_of_app. setoid_rewrite list_elem_of_singleton.
    naive_solver. }
  case_decide; [naive_solver|]. rewrite elem_of_app, list_elem_of_singleton. naive_solver.
Qed.

Lemma NoDup_nets_of rs : NoDup (nets_of rs).
Proof.
  induction rs as [|r rs IH] using rev_ind; [constructor|].
  rewrite nets_of_snoc. case_decide as Hin; [done|].
  apply NoDup_app. split_and!; [done| |apply NoDup_singleton].
  by intros n Hn ->%list_elem_of_singleton.
Qed.

Lemma of_net_snoc_ne n rs r : n <> r_net r -> of_net n (rs ++ [r]) = of_net n rs.
Proof.
  intros Hne. rewrite filter_app, filter_cons, decide_False by done.
  by rewrite filter_nil, app_nil_r.
Qed.

Lemma of_net_snoc_eq rs r : of_net (r_net r) (rs ++ [r]) = of_net (r_net r) rs ++ [r].
Proof. by rewrite filter_app, filter_cons, decide_True. Qed.

Lemma add_rule_groups ns rs r :
  NoDup ns -> r_net r ∈ ns \/ of_net (r_net r) rs = [] ->
  add_rule ((fun n => (n, of_net n rs)) <$> ns) r =
  (fun n => (n, of_net n (rs ++ [r]))) <$>
    (if decide (r_net r ∈ ns) then ns else ns ++ [r_net r]).
Proof.
  induction ns as [|n ns IH]; intros Hnd Hr.
  - destruct Hr as [?%elem_of_nil|Hr]; [done|]. rewrite decide_False by apply not_elem_of_nil.
    cbn. by rewrite of_net_snoc_eq, Hr.
  - apply NoDup_cons in Hnd as [Hn Hnd]. cbn [fmap list_fmap add_rule].
    destruct (decide (n = r_net r)) as [->|Hne].
    + rewrite decide_True by left. cbn. rewrite of_net_snoc_eq. f_equal.
      apply list_fmap_ext. intros i n' Hi%list_elem_of_lookup_2.
      rewrite of_net_snoc_ne; [done|]. by intros ->.
    + rewrite IH; [|done|].
      2:{ destruct Hr as [[?|?]%elem_of_cons|?]; [by destruct Hne|by left|by right]. }
      rewrite <- (of_net_snoc_ne n rs r) by done.
      destruct (decide (r_net r ∈ ns)).
      * by rewrite decide_True by (by right).
      * rewrite decide_False; [done|]. by intros [?|?]%elem_of_cons.
Qed.

(** Each prefix carries its own rules in file order. *)
Lemma group_rules_eq rs :
  group_rules rs = (fun n => (n, of_net n rs)) <$> nets_of rs.
Proof.
  induction rs as [|r rs IH] using rev_ind; [done|].
  unfold group_rules in *. rewrite foldl_snoc, IH, nets_of_snoc.
  apply add_rule_groups; [apply NoDup_nets_of|].
  destruct (decide (r_net r ∈ nets_of rs)) as [|Hno]; [by left|right].
  apply elem_of_nil_inv. intros r' [Hn Hr']%list_elem_of_filter.
  apply Hno, elem_of_nets_of. eauto.
Qed.

Lemma elem_of_group_rules g rs :
  g ∈ group_rules rs <-> g.2 = of_net g.1 rs /\ exists r, r ∈ rs /\ r_net r = g.1.
Proof.
  rewrite group_rules_eq, list_elem_of_fmap. setoid_rewrite elem_of_nets_of.
  destruct g as [n own]. cbn. split.
  - by intros (n' & [= -> ->] & ?).
  - intros [-> ?]. eauto.
Qed.

(** ** Flattening *)

(** Blocks of rules in order of specificity: the first rule that applies is the one
    with the longest prefix, and the earliest among those. *)
Lemma first_of_blocks (M : Rule -> bool) rs (blocks : list (Ipv6Net * list Rule)) :
  StronglySorted (fun g h => prefix_len h.1 <= prefix_len g.1) blocks ->
  (forall g, g ∈ blocks -> g.2 = of_net g.1 rs) ->
  (forall g h, g ∈ blocks -> h ∈ blocks -> prefix_len g.1 = prefix_len h.1 -> g.1 = h.1) ->
  (forall r, r ∈ rs -> M r = true -> exists g, g ∈ blocks /\ g.1 = r_net r) ->
  first_max rule_len (filter (fun r => M r = true) rs) =
  head (filter (fun r => M r = true) (concat (snd <$> blocks))).
Proof.
  induction blocks as [|b blocks IH]; intros Hs Hown Hinj Hall.
  { apply first_max_None, elem_of_nil_inv. intros r [HM Hr]%list_elem_of_filter.
    by destruct (Hall r Hr HM) as (? & ?%elem_of_nil & _). }
  inversion Hs as [|? ? Hs' Hb]; subst. rewrite Forall_forall in Hb.
  cbn [fmap list_fmap concat]. rewrite filter_app, head_app.
  rewrite (Hown b) by left.
  destruct (head (filter (fun r => M r = true) (of_net b.1 rs))) as [r|] eqn:Hh.
  - pose proof (head_Some_elem_of _ _ Hh) as [HM [Hr Hin]%list_elem_of_filter]%list_elem_of_filter.
    apply first_max_Some. split.
    + intros y [HMy Hy]%list_elem_of_filter. destruct (Hall y Hy HMy) as (g & Hg & <-).
      rewrite Hr. apply elem_of_cons in Hg as [->|Hg]; [done|auto].
    + rewrite <- Hh. f_equal.
      trans (filter (fun x => M x = true /\ r_net x = b.1) rs).
      * apply filter_filter_and. intros y Hy. split; [intros [? ->]; by rewrite Hr|].
        intros [Hlen HMy]. split; [done|]. destruct (Hall y Hy HMy) as (g & Hg & Hn).
        rewrite <- Hn. apply Hinj; [done|left|]. by rewrite Hn, Hlen, Hr.
      * symmetry. by apply filter_filter_and.
  - apply IH; [done| | |].
    + intros g Hg. apply Hown. by right.
    + intros g h Hg Hh'. apply Hinj; by right.
    + intros r Hr HM. destruct (Hall r Hr HM) as (g & [->|Hg]%elem_of_cons & Hn); [|eauto].
      exfalso. apply head_None in Hh. apply (not_elem_of_nil r). rewrite <- Hh.
      by rewrite !list_elem_of_filter.
Qed.

(** A covered range never matches before the one that covers it. *)
Lemma covers_applies port proto k r :
  covers k r = true -> range_applies port proto r = true -> range_applies port proto k = true.
Proof.
  unfold covers, range_applies, has_bits. intros Hc Hr. bool_to_prop.
  rewrite !andb_true_iff, negb_true_iff, Z.eqb_neq, !Z.leb_le.
  split_and!; [|lia..]. intros Hz.
  assert (Z.land (cr_proto r) proto = 0); [|done].
  replace (cr_proto r) with (Z.land (cr_proto k) (cr_proto r)) by done.
  by rewrite (Z.land_comm (cr_proto k)), <- Z.land_assoc, Hz, Z.land_0_r.
Qed.

Lemma push_range_first port proto acc l :
  head (filter (fun r => range_applies port proto r = true) (foldl push_range acc l)) =
  head (filter (fun r => range_applies port proto r = true) (acc ++ l)).
Proof.
  revert acc. induction l as [|r l IH]; intros acc; cbn [foldl]; [by rewrite app_nil_r|].
  rewrite IH. unfold push_range. destruct (existsb _ acc) eqn:Hc.
  - apply existsb_exists in Hc as (k & Hk%list_elem_of_In & Hc).
    rewrite !filter_app, !head_app, filter_cons.
    destruct (head (filter _ acc)) eqn:Hacc; [done|].
    rewrite decide_False; [done|]. intros Hr. apply head_None in Hacc.
    apply (not_elem_of_nil k). rewrite <- Hacc. apply list_elem_of_filter.
    split; [by eapply covers_applies|done].
  - by rewrite <- app_assoc.
Qed.

(** A rule applies to a port and protocol when one of its ranges does. *)
Definition ports_apply (port proto : Z) (r : Rule) : bool :=
  (r_proto r ∋ proto) && existsb (fun p => PortRange_contains p port) (r_ports r).

Lemma rule_ranges_first port proto r :
  cr_rule_id <$> head (filter (fun x => range_applies port proto x = true)
                         (rule_ranges_of r)) =
  if ports_apply port proto r then Some (r_id r) else None.
Proof.
  unfold rule_ranges_of, ports_apply. rewrite filter_fmap. cbn [range_applies].
  unfold range_applies. cbn [cr_proto cr_lo cr_hi].
  induction (r_ports r) as [|p ps IH]; [by rewrite andb_false_r|].
  rewrite filter_cons. cbn [existsb]. unfold PortRange_contains at 1.
  destruct (r_proto r ∋ proto); cbn [andb] in *; [|exact IH].
  destruct ((pr_lo p <=? port) && (port <=? pr_hi p)); [done|exact IH].
Qed.

Lemma ranges_first port proto rs :
  cr_rule_id <$> head (filter (fun x => range_applies port proto x = true)
                         (rs ≫= rule_ranges_of)) =
  r_id <$> head (filter (fun r => ports_apply port proto r = true) rs).
Proof.
  induction rs as [|r rs IH]; [done|].
  change ((r :: rs) ≫= rule_ranges_of) with (rule_ranges_of r ++ (rs ≫= rule_ranges_of)).
  rewrite filter_app, head_app, filter_cons.
  pose proof (rule_ranges_first port proto r) as Hr.
  destruct (head (filter _ (rule_ranges_of r))), (ports_apply port proto r); try done.
Qed.

(** ** The compiled entries *)

Definition entry_of (prof : Profile) (groups : list (Ipv6Net * list Rule))
    (g : Ipv6Net * list Rule) : Entry :=
  mk_Entry (p_id prof) (prefix_len g.1) (network g.1) (entry_ranges groups g).

Lemma compile_groups_inr prof action groups todo es :
  compile_groups prof action groups todo = inr es <->
  es = entry_of prof groups <$> todo /\
  Forall (fun g => (length (entry_ranges groups g) <= MAX_RANGES)%nat) todo.
Proof.
  revert es. induction todo as [|g todo IH]; intros es; cbn [compile_groups fmap list_fmap].
  { split; [by intros [= <-]|by intros [-> _]]. }
  rewrite Forall_cons. destruct (Nat.ltb_spec MAX_RANGES (length (entry_ranges groups g))).
  { split; [done|]. intros (_ & ? & _). lia. }
  destruct (compile_groups prof action groups todo) as [e|es'].
  - split; [done|]. intros (-> & _ & Hf).
    discriminate (proj2 (IH (entry_of prof groups <$> todo)) (conj eq_refl Hf)).
  - destruct (proj1 (IH es') eq_refl) as [-> Hf].
    split; [by intros [= <-]|by intros (-> & _)].
Qed.

Abbreviation rules_for prof action :=
  (filter (fun r => r_action r = action) (p_rules prof)).

(** Parsed rules have no host bits set. *)
Definition rules_truncated (prof : Profile) : Prop :=
  forall r, r ∈ p_rules prof -> trunc (r_net r) = r_net r.

Section Trie.
Context (prof : Profile) (action : Action) (addr : list Z) (port proto : Z).
Context (Ht : rules_truncated prof) (Ha : octets_ok addr).

Abbreviation groups := (group_rules (rules_for prof action)).

Lemma group_trunc g : g ∈ groups -> trunc g.1 = g.1.
Proof using Ht.
  intros [_ (r & [_ Hr]%list_elem_of_filter & <-)]%elem_of_group_rules. by apply Ht.
Qed.

Lemma rule_applies_in r :
  r ∈ rules_for prof action ->
  rule_applies action addr port proto r =
  contains_addr (r_net r) addr && ports_apply port proto r.
Proof.
  intros [Hr _]%list_elem_of_filter. unfold rule_applies, ports_apply.
  rewrite bool_decide_true by done. cbn [andb]. by rewrite andb_assoc.
Qed.

Lemma applying_rules :
  filter (fun r => rule_applies action addr port proto r = true) (p_rules prof) =
  filter (fun r => contains_addr (r_net r) addr && ports_apply port proto r = true)
    (rules_for prof action).
Proof.
  symmetry. apply filter_filter_and. intros r Hr. unfold rule_applies, ports_apply.
  rewrite !andb_true_iff, bool_decide_eq_true. tauto.
Qed.

(** No prefix of the trie contains the address: no rule applies. *)
Lemma no_group_no_rule :
  (forall g, g ∈ groups -> contains_addr g.1 addr = false) ->
  best_rule prof action addr port proto = None.
Proof.
  intros Hno. rewrite best_rule_eq, applying_rules. apply first_max_None, elem_of_nil_inv.
  intros r [[Hc _]%andb_true_iff Hr]%list_elem_of_filter.
  enough (contains_addr (r_net r) addr = false) by congruence.
  apply (Hno (r_net r, of_net (r_net r) (rules_for prof action))).
  apply elem_of_group_rules. split; [done|eauto].
Qed.

Section Longest.
Context (g : Ipv6Net * list Rule) (Hg : g ∈ groups).
Context (Hc : contains_addr g.1 addr = true).
Context (Hmax : forall h, h ∈ groups -> contains_addr h.1 addr = true ->
                  prefix_len h.1 <= prefix_len g.1).

Abbreviation blocks := (g :: ancestors_of groups g.1).

Lemma elem_of_enclosing h :
  h ∈ ancestors_of groups g.1 <-> h ∈ groups /\ h.1 <> g.1 /\ contains_net h.1 g.1 = true.
Proof.
  unfold ancestors_of. rewrite sort_by_key_perm, list_elem_of_filter. tauto.
Qed.

Lemma elem_of_blocks h :
  h ∈ blocks <-> h ∈ groups /\ contains_addr h.1 addr = true.
Proof using L Ht Ha Hg Hc Hmax.
  rewrite elem_of_cons, elem_of_enclosing. split.
  - intros [->|(Hh & _ & Hn)]; [done|]. split; [done|]. by eapply contains_net_trans.
  - intros [Hh Hch]. destruct (decide (h.1 = g.1)) as [He|Hne].
    + left. apply elem_of_group_rules in Hh as [Hh _].
      pose proof (proj1 (elem_of_group_rules _ _) Hg) as [Hg' _].
      by rewrite (surjective_pairing h), (surjective_pairing g), Hh, Hg', He.
    + right. split_and!; [done..|]. eapply contains_net_of_addr; [done..|auto].
Qed.

Lemma blocks_sorted :
  StronglySorted (fun a b => prefix_len b.1 <= prefix_len a.1) blocks.
Proof using L.
  constructor.
  - eapply StronglySorted_mono; [|apply sort_by_key_sorted]. cbn. intros. lia.
  - apply Forall_forall. intros h (_ & _ & Hn)%elem_of_enclosing.
    by apply contains_net_length.
Qed.

(** The entry of the longest prefix that contains the address finds the rule that
    the reference semantics chooses. *)
Lemma longest_entry_decides :
  cr_rule_id <$> head (filter (fun x => range_applies port proto x = true)
                         (entry_ranges groups g)) =
  r_id <$> best_rule prof action addr port proto.
Proof using L Ht Ha Hg Hc Hmax.
  unfold entry_ranges. rewrite push_range_first, app_nil_l, ranges_first.
  rewrite best_rule_eq, applying_rules. f_equal.
  rewrite (first_of_blocks _ _ blocks blocks_sorted).
  - unfold ordered_rules. cbn [fmap list_fmap concat]. f_equal.
    apply filter_ext_in. intros r Hr. rewrite andb_true_iff.
    enough (contains_addr (r_net r) addr = true) by tauto.
    change (r ∈ concat (snd <$> blocks)) in Hr.
    apply list_elem_of_In, in_concat in Hr as (rs & Hin & Hr%list_elem_of_In).
    apply list_elem_of_In, list_elem_of_fmap in Hin as ([n rs'] & -> & Hh).
    pose proof (proj1 (elem_of_blocks _) Hh) as [[Hown _]%elem_of_group_rules Hch].
    cbn in *. subst. by apply list_elem_of_filter in Hr as [-> _].
  - intros h [[Hh _]%elem_of_group_rules _]%elem_of_blocks. done.
  - intros h1 h2 [H1 Hc1]%elem_of_blocks [H2 Hc2]%elem_of_blocks Hlen.
    eapply contained_same_length; eauto using group_trunc.
  - intros r Hr [Hcr _]%andb_true_iff.
    exists (r_net r, of_net (r_net r) (rules_for prof action)). split; [|done].
    apply elem_of_blocks. split; [|done]. apply elem_of_group_rules. eauto.
Qed.

End Longest.
End Trie.

(** ** Tries *)

(** The entries of one profile and action. *)
Definition trie_entries (prof : Profile) (action : Action) : list Entry :=
  let groups := group_rules (rules_for prof action) in
  entry_of prof groups <$> groups.

(** No prefix needs more ranges than a rule of the kernel holds. *)
Definition trie_fits (prof : Profile) (action : Action) : Prop :=
  Forall (fun e => (length (en_ranges e) <= MAX_RANGES)%nat) (trie_entries prof action).

#[export] Instance trie_fits_dec prof action : Decision (trie_fits prof action).
Proof. unfold trie_fits. apply _. Defined.

Lemma compile_trie_inr prof action es :
  compile_trie prof action = inr es <-> es = trie_entries prof action /\ trie_fits prof action.
Proof.
  unfold compile_trie, trie_fits, trie_entries.
  by rewrite compile_groups_inr, Forall_fmap.
Qed.

Lemma entry_contains_group prof groups g addr :
  octets_ok addr -> Entry_contains (entry_of prof groups g) addr = contains_addr g.1 addr.
Proof using L.
  intros Ha. unfold Entry_contains. cbn [entry_of en_addr en_prefix_len].
  destruct (net_new_is_Some (network g.1) (prefix_len g.1)) as [n Hn];
    [apply network_ok|apply prefix_len_bound|].
  rewrite Hn. apply net_new_Some in Hn as [Hn Hp].
  apply eq_true_iff_eq. rewrite !contains_addr_iff by done.
  replace (prefix_bits n) with (prefix_bits g.1); [done|].
  unfold prefix_bits at 2. rewrite Hn, Hp, network_bits.
  by rewrite take_app_length' by (by rewrite length_prefix_bits).
Qed.

Section Decides.
Context (prof : Profile) (action : Action) (addr : list Z) (port proto : Z).
Context (Ht : rules_truncated prof) (Ha : octets_ok addr).

Lemma trie_silent :
  (forall e, e ∈ trie_entries prof action -> Entry_contains e addr = false) ->
  best_rule prof action addr port proto = None.
Proof using L Ha.
  intros Hno. apply no_group_no_rule. intros g Hg.
  rewrite <- (entry_contains_group prof (group_rules (rules_for prof action)) g addr) by done.
  apply Hno. by apply list_elem_of_fmap_2.
Qed.

Lemma trie_decides e :
  e ∈ trie_entries prof action -> Entry_contains e addr = true ->
  (forall e', e' ∈ trie_entries prof action -> Entry_contains e' addr = true ->
     en_prefix_len e' <= en_prefix_len e) ->
  cr_rule_id <$> head (filter (fun x => range_applies port proto x = true) (en_ranges e)) =
  r_id <$> best_rule prof action addr port proto.
Proof using L Ht Ha.
  intros (g & -> & Hg)%list_elem_of_fmap Hc Hmax.
  rewrite entry_contains_group in Hc by done.
  apply longest_entry_decides; [done..|]. intros h Hh Hch.
  apply (Hmax (entry_of prof (group_rules (rules_for prof action)) h)).
  - by apply list_elem_of_fmap_2.
  - by rewrite entry_contains_group.
Qed.

End Decides.

(** ** The whole policy *)

Definition compiled_of (policy : Policy) (generation : Z) : Compiled :=
  mk_Compiled generation
    (compile_profile <$> po_profiles policy)
    (po_profiles policy ≫= fun p => trie_entries p Deny)
    (po_profiles policy ≫= fun p => trie_entries p Allow)
    (po_profiles policy ≫= compile_exec)
    (po_profiles policy ≫= compile_files).

Lemma compile_step_inr out prof out' :
  compile_step out prof = inr out' <->
  (trie_fits prof Deny /\ trie_fits prof Allow) /\
  out' = mk_Compiled (co_generation out) (co_profiles out ++ [compile_profile prof])
           (co_deny out ++ trie_entries prof Deny) (co_allow out ++ trie_entries prof Allow)
           (co_exec out ++ compile_exec prof) (co_files out ++ compile_files prof).
Proof.
  unfold compile_step.
  pose proof (compile_trie_inr prof Deny) as HD. pose proof (compile_trie_inr prof Allow) as HA.
  destruct (compile_trie prof Deny) as [e|es].
  { split; [done|]. intros [[Hf _] _]. discriminate (proj2 (HD _) (conj eq_refl Hf)). }
  destruct (proj1 (HD es) eq_refl) as [-> Hd].
  destruct (compile_trie prof Allow) as [e|es'].
  { split; [done|]. intros [[_ Hf] _]. discriminate (proj2 (HA _) (conj eq_refl Hf)). }
  destruct (proj1 (HA es') eq_refl) as [-> Hf].
  split; [by intros [= <-]|by intros [_ ->]].
Qed.

Lemma compile_profiles_inr out ps c :
  compile_profiles out ps = inr c <->
  (forall p, p ∈ ps -> trie_fits p Deny /\ trie_fits p Allow) /\
  c = mk_Compiled (co_generation out) (co_profiles out ++ (compile_profile <$> ps))
        (co_deny out ++ (ps ≫= fun p => trie_entries p Deny))
        (co_allow out ++ (ps ≫= fun p => trie_entries p Allow))
        (co_exec out ++ (ps ≫= compile_exec)) (co_files out ++ (ps ≫= compile_files)).
Proof.
  revert out. induction ps as [|p ps IH]; intros out; cbn [compile_profiles].
  { cbn. rewrite !app_nil_r. destruct out. cbn. split.
    - intros [= <-]. split; [by intros p ?%elem_of_nil|done].
    - by intros [_ ->]. }
  pose proof (compile_step_inr out p) as Hs. destruct (compile_step out p) as [e|out'].
  { split; [done|]. intros [Hf _].
    discriminate (proj2 (Hs _) (conj (Hf p ltac:(left)) eq_refl)). }
  destruct (proj1 (Hs out') eq_refl) as [Hp ->]. rewrite IH.
  cbn [co_generation co_profiles co_deny co_allow co_exec co_files].
  cbn [mbind list_bind fmap list_fmap]. rewrite <- !app_assoc. cbn [app].
  setoid_rewrite elem_of_cons. naive_solver.
Qed.

Lemma compile_inr policy generation c :
  compile policy generation = inr c <->
  generation <> 0 /\
  (forall p, p ∈ po_profiles policy -> trie_fits p Deny /\ trie_fits p Allow) /\
  c = compiled_of policy generation.
Proof.
  unfold compile. destruct (Z.eqb_spec generation 0); [naive_solver|].
  rewrite compile_profiles_inr. cbn. tauto.
Qed.

(** What parsing establishes: profile ids are distinct, prefixes have no host bits. *)
Definition policy_wf (policy : Policy) : Prop :=
  NoDup (p_id <$> po_profiles policy) /\
  forall p, p ∈ po_profiles policy -> rules_truncated p.

Lemma policy_profile_Some policy id prof :
  policy_profile policy id = Some prof -> prof ∈ po_profiles policy /\ p_id prof = id.
Proof. intros [? ?]%head_Some_elem_of%list_elem_of_filter. done. Qed.

(** The entries of a profile id are those compiled from that profile. *)
Lemma elem_of_compiled_trie policy id prof action e :
  policy_wf policy -> policy_profile policy id = Some prof ->
  e ∈ (po_profiles policy ≫= fun p => trie_entries p action) /\ en_profile e = id <->
  e ∈ trie_entries prof action.
Proof.
  intros [Hnd _] [Hp Hid]%policy_profile_Some. rewrite list_elem_of_bind.
  assert (forall p, e ∈ trie_entries p action -> en_profile e = p_id p) as Hprof
    by (by intros p (g & -> & _)%list_elem_of_fmap).
  split.
  - intros [(p & He & Hin) Hen]. enough (p = prof) as -> by done.
    apply list_elem_of_lookup in Hp as [i Hi], Hin as [j Hj].
    assert (i = j) as ->; [|congruence].
    apply (NoDup_lookup _ _ _ (p_id prof) Hnd); rewrite list_lookup_fmap.
    + by rewrite Hi.
    + rewrite Hj. cbn. by rewrite <- (Hprof p), Hen, Hid.
  - intros He. split; [by exists prof|]. by rewrite (Hprof prof).
Qed.

Lemma max_by_key_Some {A} (key : A -> Z) l x :
  max_by (fun a b => Z.compare (key a) (key b)) l = Some x ->
  x ∈ l /\ forall y, y ∈ l -> key y <= key x.
Proof.
  destruct l as [|a l]; [done|]. cbn [max_by]. intros [= <-].
  revert a. induction l as [|b l IH]; intros a; cbn [foldl].
  { split; [left|]. by intros y ->%list_elem_of_singleton. }
  destruct (Z.compare_spec (key a) (key b));
    match goal with |- context [foldl _ ?c l] => destruct (IH c) as [Hin Hmax] end;
    (split; [apply elem_of_cons in Hin; rewrite !elem_of_cons; tauto|];
     intros y [->|[->|Hy]%elem_of_cons]%elem_of_cons;
     [|..|apply Hmax; by right]).
  all: try (apply Hmax; left).
  all: etrans; [|apply Hmax; left]; lia.
Qed.

Lemma max_by_None {A} (cmp : A -> A -> comparison) l : max_by cmp l = None <-> l = [].
Proof. by destruct l. Qed.

Lemma trie_lookup_decides policy id prof action addr port proto :
  policy_wf policy -> policy_profile policy id = Some prof -> octets_ok addr ->
  cr_rule_id <$>
    trie_lookup (po_profiles policy ≫= fun p => trie_entries p action) id addr port proto =
  r_id <$> best_rule prof action addr port proto.
Proof using L.
  intros Hwf Hp Ha. unfold trie_lookup.
  pose proof (fun e => elem_of_compiled_trie policy id prof action e Hwf Hp) as Hin.
  assert (rules_truncated prof) as Ht by (apply Hwf; by apply policy_profile_Some in Hp as []).
  destruct (max_by _ _) as [e|] eqn:Hm; cbn [mbind option_bind].
  - apply (max_by_key_Some en_prefix_len) in Hm as [[[Hid Hc] He]%list_elem_of_filter Hmax].
    apply trie_decides; [done..|by apply Hin|done|].
    intros e' [He' Hid']%Hin Hc'. apply Hmax. by apply list_elem_of_filter.
  - apply max_by_None in Hm. rewrite trie_silent; [done..|].
    intros e [He Hid]%Hin. apply not_true_iff_false. intros Hc.
    apply (not_elem_of_nil e). rewrite <- Hm. by apply list_elem_of_filter.
Qed.

Lemma compiled_profile_eq policy generation id :
  head (filter (fun p => cp_id p = id) (co_profiles (compiled_of policy generation))) =
  compile_profile <$> policy_profile policy id.
Proof.
  unfold policy_profile. cbn [compiled_of co_profiles]. rewrite filter_fmap.
  cbn [compile_profile cp_id]. by destruct (filter _ (po_profiles policy)).
Qed.

End Flatten.

Section Theorems.
Context `{I : Ipnet, L : !IpnetLaws I}.

(** C22. Flattening is sound and complete: for every profile of a compiled policy,
    one longest-prefix lookup and a scan of at most eight ranges give the decision and
    the rule id of the reference semantics, in which deny rules win over allow rules,
    then the most specific prefix, then file order. *)
Theorem compiled_lookup_is_evaluate (policy : Policy) generation c profile addr port proto
    (Hc : compile policy generation = inr c) (Hwf : policy_wf policy)
    (Ha : octets_ok (normalize addr)) :
  lookup c profile addr port proto = evaluate policy profile addr port proto.
Proof using L.
  apply compile_inr in Hc as (_ & _ & ->). unfold lookup, evaluate.
  rewrite compiled_profile_eq.
  destruct (policy_profile policy profile) as [prof|] eqn:Hp; [|done].
  cbn [fmap option_fmap option_map mbind option_bind compiled_of co_deny co_allow].
  pose proof (trie_lookup_decides policy profile prof Deny (normalize addr) port proto Hwf Hp Ha).
  pose proof (trie_lookup_decides policy profile prof Allow (normalize addr) port proto Hwf Hp Ha).
  destruct (trie_lookup _ _ _ _ _), (best_rule _ Deny _ _ _); simplify_eq/=; [congruence|].
  destruct (trie_lookup _ _ _ _ _), (best_rule _ Allow _ _ _); simplify_eq/=; congruence.
Qed.

(** A policy compiles exactly when its generation is not the reserved 0 and no
    prefix, together with the prefixes that enclose it, needs more than eight port and
    protocol ranges. *)
Lemma compile_succeeds_exactly (policy : Policy) generation :
  (exists c, compile policy generation = inr c) <->
  generation <> 0 /\
  forall p action, p ∈ po_profiles policy -> trie_fits p action.
Proof.
  setoid_rewrite compile_inr. split.
  - intros (c & Hg & Hf & _). split; [done|]. intros p [] Hp; by apply Hf.
  - intros [Hg Hf]. eauto 10.
Qed.

End Theorems.
