(* ===== verification/Reload.v ===== *)
(** * Programs running while the policy is replaced

    rk-sensor replaces a policy by filling the generation slot that is not active and
    then flipping [rk_active_slot] (docs/design/phase-2.md).  A program makes its map
    lookups one at a time, so it can see the maps at several points of that sequence.
    Every program reads the active slot once and looks rules up only under that slot:
    whatever the interleaving, what it returns and reports is what it would under the
    old policy alone or under the new policy alone. *)

From S2P Require Import Prelude Abi Bpf Lpm Scenario Logic Common Governance Net Exec.
From S2P Require Import File Guard Object Enforcement.
Open Scope Z_scope.

(** ** Interleaving *)

Definition with_maps (m : policy_maps) (w : world) : world :=
  mk_world m (w_env w) (w_tele w).

Section RunAt.
Context `{K : BpfKernel}.

(** A run in which the [i]-th helper call finds the maps [ms i]. *)
Fixpoint run_at {A} (ms : nat -> policy_maps) (i : nat) (p : prog A) (w : world)
    : A * telemetry :=
  match p with
  | Ret a => (a, w_tele w)
  | Op o k =>
      let '(x, w') := handle o (with_maps (ms i) w) in run_at ms (S i) (k x) w'
  end.

(** The result and the telemetry of a run in which the maps do not change. *)
Definition run_under {A} (m : policy_maps) (p : prog A) (w : world) : A * telemetry :=
  let r := run p (with_maps m w) in (r.1, w_tele r.2).

End RunAt.

(** ** Slots *)

Definition slot_of_scope (scope : Z) : Z := Z.shiftr scope 31.
Definition slot_of_index (idx : Z) : Z := idx / RK_MAX_PROFILES.

(** A trie holds one value per prefix. *)
Definition trie_functional (t : list (rk_net_key * rk_net_rule)) : Prop :=
  forall e r e' r', (e, r) ∈ t -> (e', r') ∈ t ->
    nk_prefixlen e = nk_prefixlen e' -> lpm_matches e e' -> r = r'.

(** What holds of the maps at every point. *)
Definition maps_ok (m : policy_maps) : Prop :=
  rules_scoped m /\ bindings_wf m /\
  trie_functional (m_net_deny m) /\ trie_functional (m_net_allow m).

(** The maps agree on everything but the active slot and the contents of the slot
    other than [s]. *)
Record agree (s : Z) (m m' : policy_maps) : Prop := mk_agree {
  agree_bindings : m_cgroup_profile m = m_cgroup_profile m';
  agree_heartbeat : m_heartbeat m = m_heartbeat m';
  agree_config : m_config m = m_config m';
  agree_guard : m_guard m = m_guard m';
  agree_monitored : m_monitored_cgroups m = m_monitored_cgroups m';
  agree_profiles idx :
    slot_of_index idx = s -> m_profiles m !! idx = m_profiles m' !! idx;
  agree_deny e r :
    slot_of_scope (nk_scope e) = s -> (e, r) ∈ m_net_deny m <-> (e, r) ∈ m_net_deny m';
  agree_allow e r :
    slot_of_scope (nk_scope e) = s -> (e, r) ∈ m_net_allow m <-> (e, r) ∈ m_net_allow m';
  agree_exec k :
    slot_of_scope (ek_scope k) = s -> m_exec_allow m !! k = m_exec_allow m' !! k;
  agree_files k :
    slot_of_scope (fk_scope k) = s -> m_file_protect m !! k = m_file_protect m' !! k }.

(** The maps at a point of a reload that started at [m0], before its commit point: the
    active slot and its contents are as they were. *)
Definition quiet (m0 m : policy_maps) : Prop :=
  m_active_slot m = m_active_slot m0 /\ agree (live_slot m0) m0 m /\ maps_ok m.

(** The sequence of maps a program meets when a reload from [m0] to [m1] happens
    around it: quiet ones, and from the flip on those of the new policy, which still
    hold the old slot. *)
Definition reload (m0 m1 : policy_maps) (ms : nat -> policy_maps) : Prop :=
  agree (live_slot m0) m0 m1 /\ maps_ok m0 /\ maps_ok m1 /\
  forall i, quiet m0 (ms i) \/ forall j, (i <= j)%nat -> ms j = m1.

Lemma slot_of_scope_of slot profile :
  0 <= slot <= 1 -> 0 <= profile < RK_MAX_PROFILES ->
  slot_of_scope (scope_of slot profile) = slot.
Proof.
  intros Hs Hp. unfold slot_of_scope. rewrite scope_of_eq by done.
  unfold RK_MAX_PROFILES in *. rewrite Z.shiftr_div_pow2 by lia.
  rewrite Z.div_add_l by lia. rewrite Z.div_small by lia. lia.
Qed.

(** ** Lookups agree *)

Section Lookups.
Context `{K : BpfKernel} {HK : BpfKernelLaws K}.

(** Lookups of tables that agree on the matching entries agree. *)
Lemma lpm_lookup_agree t t' k :
  nk_prefixlen k = 160 -> trie_functional t ->
  (forall e r, lpm_matches e k -> (e, r) ∈ t <-> (e, r) ∈ t') ->
  lpm_lookup t k = lpm_lookup t' k.
Proof using HK.
  intros Hk Hf Hin.
  destruct (lpm_lookup t k) as [r|] eqn:Ht, (lpm_lookup t' k) as [r'|] eqn:Ht'; [|..|done].
  - apply lpm_lookup_Some in Ht as (e & He & Hm & Hmax), Ht' as (e' & He' & Hm' & Hmax');
      [|done..].
    apply Hin in He'; [|done]. f_equal.
    assert (nk_prefixlen e = nk_prefixlen e') as Hp.
    { apply Z.le_antisymm; [|eauto]. eapply Hmax'; [by apply Hin|done]. }
    apply (Hf e r e' r'); [done..|]. unfold lpm_matches in *. by rewrite Hm, Hp, Hm'.
  - apply lpm_lookup_Some in Ht as (e & He & Hm & _); [|done].
    exfalso. eapply lpm_lookup_None; [done|done|by apply Hin|done].
  - apply lpm_lookup_Some in Ht' as (e & He & Hm & _); [|done].
    exfalso. eapply lpm_lookup_None; [done|done|by apply Hin|done].
Qed.

(** The scopes a program that read slot [s] may look up: those of the slot, and the
    fail-closed one, under which nothing is stored. *)
Definition scope_in (s scope : Z) : Prop :=
  (0 <= s <= 1 /\ exists p, 0 <= p < RK_MAX_PROFILES /\ scope = scope_of s p) \/
  scope = 0xffffffff.

Lemma scope_in_bound s scope : scope_in s scope -> 0 <= scope < 2 ^ 32.
Proof.
  intros [(Hs & p & Hp & ->)| ->]; [|done].
  rewrite scope_of_eq by done. unfold RK_MAX_PROFILES in *. lia.
Qed.

(** A stored scope that a program may look up is of the program's slot. *)
Lemma scope_in_stored s scope :
  scope_in s scope -> stored_scope scope -> slot_of_scope scope = s.
Proof.
  intros [(Hs & p & Hp & ->)| ->]; [intros _; by apply slot_of_scope_of|].
  intros [Hne _]%stored_scope_foreign. done.
Qed.

Lemma lpm_agree_slot s t t' k :
  nk_prefixlen k = 160 -> scope_in s (nk_scope k) ->
  trie_functional t ->
  (forall e r, (e, r) ∈ t \/ (e, r) ∈ t' ->
     stored_scope (nk_scope e) /\ 32 <= nk_prefixlen e) ->
  (forall e r, slot_of_scope (nk_scope e) = s -> (e, r) ∈ t <-> (e, r) ∈ t') ->
  lpm_lookup t k = lpm_lookup t' k.
Proof using HK.
  intros Hk Hs Hf Hst Hag. apply lpm_lookup_agree; [done..|]. intros e r Hm.
  enough ((e, r) ∈ t \/ (e, r) ∈ t' -> (e, r) ∈ t <-> (e, r) ∈ t') by tauto.
  intros Hin. apply Hst in Hin as [Hstored Hp]. apply Hag.
  pose proof (stored_scope_foreign _ Hstored) as [_ Hb].
  apply lpm_matches_iff in Hm as [He _]; [|done|by eapply scope_in_bound|done].
  rewrite He in *. by apply scope_in_stored.
Qed.

Lemma lookup_agree_scoped {Key V} `{Countable Key} (scope : Key -> Z)
    s (t t' : gmap Key V) k :
  scope_in s (scope k) ->
  (forall k r, t !! k = Some r -> stored_scope (scope k)) ->
  (forall k r, t' !! k = Some r -> stored_scope (scope k)) ->
  (forall k, slot_of_scope (scope k) = s -> t !! k = t' !! k) ->
  t !! k = t' !! k.
Proof.
  intros Hs Ht Ht' Hag. destruct (t !! k) as [r|] eqn:Hk.
  - rewrite <- Hag; [done|]. eapply scope_in_stored; eauto.
  - destruct (t' !! k) as [r|] eqn:Hk'; [|done].
    rewrite <- Hk, <- Hk'. apply Hag. eapply scope_in_stored; eauto.
Qed.

End Lookups.

(** ** Programs that read the active slot once *)

(** The state of a program: the slot it read, if it did. *)
Definition next_slot {X : Set} (st : option Z) (o : op X) : X -> option Z :=
  match o in op X return X -> option Z with
  | LkActiveSlot => fun a => Some (match a with Some a => Z.land a 1 | None => 0 end)
  | _ => fun _ => st
  end.

(** The calls allowed in a state: the active slot is read at most once, and entries
    of a slot are looked up only after it was read. *)
Definition op_ok {X : Set} (st : option Z) (o : op X) : Prop :=
  match o with
  | LkActiveSlot => st = None
  | LkProfiles idx => st = Some (slot_of_index idx)
  | LkNetDeny k | LkNetAllow k =>
      nk_prefixlen k = 160 /\ exists s, st = Some s /\ scope_in s (nk_scope k)
  | LkExecAllow k => exists s, st = Some s /\ scope_in s (ek_scope k)
  | LkFileProtect k => exists s, st = Some s /\ scope_in s (fk_scope k)
  | _ => True
  end.

(** Calls that never depend on a slot. *)
Definition op_slotless {X : Set} (o : op X) : bool :=
  match o with
  | LkActiveSlot | LkProfiles _ | LkNetDeny _ | LkNetAllow _ | LkExecAllow _
  | LkFileProtect _ => false
  | _ => true
  end.

(** Bindings carry 32-bit profile ids. *)
Definition answer_ok {X : Set} (o : op X) : X -> Prop :=
  match o in op X return X -> Prop with
  | LkCgroupProfile _ => fun b => forall v, b = Some v -> 0 <= bind_profile v < 2 ^ 32
  | _ => fun _ => True
  end.

(** Every path of the program makes only allowed calls and ends in [Q]. *)
Fixpoint slot_wp {A} (st : option Z) (p : prog A) (Q : option Z -> A -> Prop) : Prop :=
  match p with
  | Ret a => Q st a
  | Op o k => op_ok st o /\ forall x, answer_ok o x -> slot_wp (next_slot st o x) (k x) Q
  end.

Lemma slot_wp_bind {A B} st (p : prog A) (f : A -> prog B) Q :
  slot_wp st p (fun st' a => slot_wp st' (f a) Q) -> slot_wp st (p ≫= f) Q.
Proof.
  revert st. induction p as [a|X o k IH]; intros st; [done|].
  intros [Ho Hk]. split; [done|]. intros x Hx. by apply IH, Hk.
Qed.

Lemma slot_wp_call {B} {X : Set} st (o : op X) (f : X -> prog B) Q :
  op_ok st o -> (forall x, answer_ok o x -> slot_wp (next_slot st o x) (f x) Q) ->
  slot_wp st (call o ≫= f) Q.
Proof. by split. Qed.

Lemma slot_wp_mono {A} st (p : prog A) (Q R : option Z -> A -> Prop) :
  (forall st a, Q st a -> R st a) -> slot_wp st p Q -> slot_wp st p R.
Proof.
  intros HQR. revert st. induction p as [a|X o k IH]; intros st; [apply HQR|].
  intros [Ho Hk]. split; [done|]. intros x Hx. by apply IH, Hk.
Qed.

(** The scope of a governance context is one of the slot that was read. *)
Definition gov_in (st : option Z) (g : rk_gov) : Prop :=
  exists s, st = Some s /\ scope_in s (g_scope g).

(** A program that runs for the governed task of [g] stays in its slot. *)
Class InSlot {A} (g : rk_gov) (p : prog A) : Prop :=
  in_slot : forall st (Q : option Z -> A -> Prop),
    gov_in st g -> (forall a, Q st a) -> slot_wp st p Q.

Definition op_in_slot {X : Set} (g : rk_gov) (o : op X) : Prop :=
  match o with
  | LkActiveSlot | LkProfiles _ => False
  | LkNetDeny k | LkNetAllow k => nk_prefixlen k = 160 /\ nk_scope k = g_scope g
  | LkExecAllow k => ek_scope k = g_scope g
  | LkFileProtect k => fk_scope k = g_scope g
  | _ => True
  end.

Lemma op_in_slot_ok {X : Set} g (o : op X) st x :
  gov_in st g -> op_in_slot g o -> op_ok st o /\ next_slot st o x = st.
Proof.
  intros (s & -> & Hs). destruct o; cbn; intros Ho; try done.
  - destruct Ho as [? ->]. split; [|done]. split; [done|eauto].
  - destruct Ho as [? ->]. split; [|done]. split; [done|eauto].
  - rewrite Ho. eauto.
  - rewrite Ho. eauto.
Qed.

(** Every type a call returns is inhabited. *)
Lemma op_inhabited {X : Set} (o : op X) : inhabited X.
Proof.
  destruct o; constructor; first [exact tt|exact None|exact true|exact 0|exact (0, [])
    |exact zero_scratch].
Qed.

Lemma in_slot_op {A} {X : Set} g (o : op X) (k : X -> prog A) :
  op_in_slot g o -> (forall x, InSlot g (k x)) -> InSlot g (Op o k).
Proof.
  destruct (op_inhabited o) as [x0]. intros Ho Hk st Q Hg HQ. split; [by eapply (op_in_slot_ok g o st x0)|].
  intros x _. rewrite (proj2 (op_in_slot_ok g o st x Hg Ho)). by apply Hk.
Qed.

#[export] Instance in_slot_ret {A} g (a : A) : InSlot g (mret a).
Proof. intros st Q _ HQ. apply HQ. Qed.

Lemma in_slot_call {X : Set} g (o : op X) :
  op_in_slot g o -> InSlot g (call o).
Proof. intros Ho. apply in_slot_op; [done|]. intros x. apply in_slot_ret. Qed.

Lemma in_slot_bind {A B} g (p : prog A) (f : A -> prog B) :
  InSlot g p -> (forall a, InSlot g (f a)) -> InSlot g (p ≫= f).
Proof.
  intros Hp Hf st Q Hg HQ. apply slot_wp_bind, Hp; [done|]. intros a. by apply Hf.
Qed.

Ltac in_slot_step :=
  match goal with
  | |- InSlot _ (mbind _ _) => apply in_slot_bind; [|intros ?]
  | |- InSlot _ (mret _) => apply in_slot_ret
  | |- InSlot _ (call _) => apply in_slot_call; cbn; auto
  | |- InSlot _ (match ?x with _ => _ end) => destruct x
  | |- InSlot _ (let '(_, _) := ?x in _) => destruct x
  | |- InSlot _ _ => solve [eauto with rk typeclass_instances]
  end.
Ltac solve_in_slot := intros; repeat in_slot_step.

(** ** The programs stay in their slot *)

#[export] Instance rk_count_in_slot g idx : InSlot g (rk_count idx).
Proof. unfold rk_count. solve_in_slot. Qed.

#[export] Instance rk_heartbeat_stale_in_slot g : InSlot g rk_heartbeat_stale.
Proof. unfold rk_heartbeat_stale. solve_in_slot. Qed.

#[export] Instance rk_count_decision_in_slot g hook g' action :
  InSlot g (rk_count_decision hook g' action).
Proof. unfold rk_count_decision. solve_in_slot. Qed.

#[export] Instance rk_scratch_in_slot g : InSlot g rk_scratch.
Proof. unfold rk_scratch. solve_in_slot. Qed.

#[export] Instance rk_fill_hdr_in_slot g cg gen type v id :
  InSlot g (rk_fill_hdr cg gen type v id).
Proof. unfold rk_fill_hdr. solve_in_slot. Qed.

#[export] Instance rk_fill_task_in_slot g : InSlot g rk_fill_task.
Proof. unfold rk_fill_task. solve_in_slot. Qed.

#[export] Instance rk_append_kstr_in_slot g src n : InSlot g (rk_append_kstr src n).
Proof. unfold rk_append_kstr. solve_in_slot. Qed.

#[export] Instance rk_append_ublob_in_slot g src n : InSlot g (rk_append_ublob src n).
Proof. unfold rk_append_ublob. solve_in_slot. Qed.

#[export] Instance rk_emit_in_slot g : InSlot g rk_emit.
Proof. unfold rk_emit. solve_in_slot. Qed.

#[export] Instance rk_net_verdict_in_slot g addr port proto :
  InSlot g (rk_net_verdict g addr port proto).
Proof. unfold rk_net_verdict, rk_net_match. solve_in_slot. Qed.

#[export] Instance rk_net_emit_in_slot g g' type action id addr port family protocol :
  InSlot g (rk_net_emit g' type action id addr port family protocol).
Proof. unfold rk_net_emit. solve_in_slot. Qed.

Lemma rk_exec_key_of_in_slot {A} g inode (f : rk_exec_key -> prog A) :
  (forall dev ino, InSlot g (f (mk_rk_exec_key (g_scope g) 0 dev ino))) ->
  InSlot g (rk_exec_key_of g inode ≫= f).
Proof.
  intros Hf. unfold rk_exec_key_of, mbind, prog_mbind, call, mret, prog_mret.
  cbn [prog_bind]. do 3 (apply in_slot_op; [done|intros ?]). apply Hf.
Qed.

Lemma rk_file_key_of_in_slot {A} g inode (f : rk_file_key -> prog A) :
  (forall dev ino, InSlot g (f (mk_rk_file_key (g_scope g) 0 dev ino))) ->
  InSlot g (rk_file_key_of g inode ≫= f).
Proof.
  intros Hf. unfold rk_file_key_of, mbind, prog_mbind, call, mret, prog_mret.
  cbn [prog_bind]. do 3 (apply in_slot_op; [done|intros ?]). apply Hf.
Qed.

#[export] Instance rk_file_walk_in_slot g access n curr :
  InSlot g (rk_file_walk g access n curr).
Proof.
  revert curr. induction n as [|n IH]; intros curr; cbn [rk_file_walk]; [solve_in_slot|].
  do 2 (apply in_slot_bind; [solve_in_slot|intros ?]; destruct (_ : bool); [solve_in_slot|]).
  apply rk_file_key_of_in_slot. solve_in_slot.
Qed.

Lemma rk_file_check_in_slot g inode start name access hook :
  InSlot g (rk_file_check g inode start name access hook).
Proof.
  unfold rk_file_check. apply rk_file_key_of_in_slot. intros dev ino.
  unfold rk_file_decide, rk_file_emit. solve_in_slot.
Qed.
#[export] Hint Resolve rk_file_check_in_slot : rk.

(** ** Reading the slot *)

(** Programs that make no slot-dependent call. *)
Class SlotFree {A} (p : prog A) : Prop :=
  slot_free : forall st (Q : option Z -> A -> Prop), (forall a, Q st a) -> slot_wp st p Q.

#[export] Instance slot_free_ret {A} (a : A) : SlotFree (mret a).
Proof. intros st Q HQ. apply HQ. Qed.

Lemma slot_free_call {X : Set} (o : op X) : op_slotless o = true -> SlotFree (call o).
Proof.
  intros Ho st Q HQ. split; [by destruct o|]. intros x _. cbn.
  replace (next_slot st o x) with st by (by destruct o). apply HQ.
Qed.

Lemma slot_free_bind {A B} (p : prog A) (f : A -> prog B) :
  SlotFree p -> (forall a, SlotFree (f a)) -> SlotFree (p ≫= f).
Proof. intros Hp Hf st Q HQ. apply slot_wp_bind, Hp. intros a. by apply Hf. Qed.

Ltac slot_free_step :=
  match goal with
  | |- SlotFree (mbind _ _) => apply slot_free_bind; [|intros ?]
  | |- SlotFree (mret _) => apply slot_free_ret
  | |- SlotFree (call _) => apply slot_free_call; reflexivity
  | |- SlotFree (match ?x with _ => _ end) => destruct x
  | |- SlotFree _ => solve [eauto with rk typeclass_instances]
  end.
Ltac solve_slot_free := intros; repeat slot_free_step.

#[export] Instance rk_heartbeat_stale_slot_free : SlotFree rk_heartbeat_stale.
Proof. unfold rk_heartbeat_stale. solve_slot_free. Qed.

#[export] Instance rk_is_sensor_slot_free task : SlotFree (rk_is_sensor task).
Proof. unfold rk_is_sensor. solve_slot_free. Qed.

#[export] Instance rk_is_bpffs_slot_free sb : SlotFree (rk_is_bpffs sb).
Proof. unfold rk_is_bpffs. solve_slot_free. Qed.

Lemma governed_walk_wp st levels self ls :
  slot_wp st (rk_governed_walk levels self ls) (fun st' r =>
    st' = st /\ forall b c, r = Some (b, c) -> 0 <= bind_profile b < 2 ^ 32).
Proof.
  induction ls as [|l ls IH]; cbn [rk_governed_walk]; [done|].
  destruct (negb _); [done|]. split; [done|]. intros anc _. cbn.
  destruct (_ || _); [done|]. split; [done|]. intros [b|] Hb; cbn; [|done].
  split; [done|]. intros ? ? [= <- _]. by apply Hb.
Qed.

Lemma governed_binding_wp st self :
  slot_wp st (rk_governed_binding self) (fun st' r =>
    st' = st /\ forall b c, r = Some (b, c) -> 0 <= bind_profile b < 2 ^ 32).
Proof.
  unfold rk_governed_binding. split; [done|]. intros [b|] Hb; cbn.
  { split; [done|]. intros ? ? [= <- _]. by apply Hb. }
  split; [done|]. intros cfg _. cbn. destruct (_ =? 0); [done|]. apply governed_walk_wp.
Qed.

Lemma fail_closed_wp s governed :
  slot_wp (Some s) (rk_governance_fail_closed governed)
    (fun st r => forall g, r = Some g -> gov_in st g).
Proof.
  unfold rk_governance_fail_closed. apply slot_wp_bind, rk_heartbeat_stale_slot_free.
  intros stale g [= <-]. exists s. split; [done|]. by right.
Qed.

(** The governance lookup reads the active slot, and the profile of that slot; the
    scope it returns is of the slot it read. *)
Lemma governance_wp :
  slot_wp None rk_governance (fun st r => forall g, r = Some g -> gov_in st g).
Proof.
  unfold rk_governance. apply slot_wp_bind, (slot_free_call GetCgroupId eq_refl). intros cg.
  apply slot_wp_bind.
  eapply slot_wp_mono; [|apply governed_binding_wp].
  intros st [[b governed]|] [-> Hb]; [|done].
  specialize (Hb _ _ eq_refl). apply slot_wp_call; [done|]. intros a _. cbn [next_slot].
  assert (exists s, match a with Some a => Z.land a 1 | None => 0 end = s /\ 0 <= s <= 1)
    as (s & Hs & Hr).
  { destruct a as [a|]; [|by exists 0]. exists (Z.land a 1). split; [done|].
    pose proof (land_mask_bound a 1) as H. change (Z.ones 1) with 1 in H. lia. }
  rewrite Hs. destruct (Z.leb_spec RK_MAX_PROFILES (bind_profile b)); [apply fail_closed_wp|].
  unfold RK_MAX_PROFILES in *. rewrite (u32_small (_ * _ + _)) by lia.
  apply slot_wp_call.
  { cbn. unfold slot_of_index, RK_MAX_PROFILES. f_equal. rewrite Z.div_add_l by lia.
    rewrite Z.div_small by lia. lia. }
  intros [prof|] _; cbn [next_slot]; [|apply fail_closed_wp].
  destruct (_ =? 0); [apply fail_closed_wp|]. apply slot_wp_bind.
  assert (u32 (Z.lor (u32 (Z.shiftl s 31)) (bind_profile b)) = scope_of s (bind_profile b)) as ->.
  { pose proof (scope_of_eq s (bind_profile b)) as He. unfold scope_of, RK_MAX_PROFILES in *.
    rewrite (u32_small (Z.shiftl _ _)) by (rewrite Z.shiftl_mul_pow2; lia).
    rewrite u32_small; lia. }
  destruct (prof_mode prof =? RK_MODE_ENFORCE); apply slot_free; intros stale g [= <-];
    exists s; (split; [done|left; split; [lia|]]);
    exists (bind_profile b); unfold RK_MAX_PROFILES; (split; [lia|done]).
Qed.

(** Programs that read the active slot at most once and stay in it. *)
Class SlotOnce {A} (p : prog A) : Prop := slot_once : slot_wp None p (fun _ _ => True).

Lemma slot_once_ret {A} (a : A) : SlotOnce (mret a).
Proof. done. Qed.

Lemma slot_once_bind {A B} (p : prog A) (f : A -> prog B) :
  SlotFree p -> (forall a, SlotOnce (f a)) -> SlotOnce (p ≫= f).
Proof. intros Hp Hf. apply slot_wp_bind, Hp. exact Hf. Qed.

Lemma slot_once_governed {A} (v : A) (body : rk_gov -> prog A) :
  (forall g, InSlot g (body g)) ->
  SlotOnce (gov ← rk_governance;
            match gov with None => mret v | Some g => body g end).
Proof.
  intros Hb. apply slot_wp_bind. eapply slot_wp_mono; [|apply governance_wp].
  intros st [g|] Hg; [|done]. by apply Hb; [apply Hg|].
Qed.

Ltac slot_once_step :=
  match goal with
  | |- SlotOnce (mbind _ rk_governance) => apply slot_once_governed; solve_in_slot
  | |- SlotOnce (mbind _ _) => apply slot_once_bind; [solve_slot_free|intros ?]
  | |- SlotOnce (mret _) => apply slot_once_ret
  | |- SlotOnce (match ?x with _ => _ end) => destruct x
  end.

Lemma rk_exec_check_slot_once bprm ret : SlotOnce (rk_exec_check bprm ret).
Proof.
  unfold rk_exec_check. destruct (negb _); [done|]. apply slot_once_governed. intros g.
  do 2 (apply in_slot_bind; [solve_in_slot|intros ?]).
  apply rk_exec_key_of_in_slot. unfold rk_exec_action. solve_in_slot.
Qed.

Lemma rk_exec_record_slot_once p old_pid bprm : SlotOnce (rk_exec_record p old_pid bprm).
Proof.
  unfold rk_exec_record. apply slot_once_governed. intros g.
  apply in_slot_bind; [solve_in_slot|intros msg]. destruct (negb msg); [solve_in_slot|].
  do 2 (apply in_slot_bind; [solve_in_slot|intros ?]).
  apply rk_exec_key_of_in_slot. solve_in_slot.
Qed.

Lemma entry_slot_once p : SlotOnce (entry p).
Proof.
  destruct p; cbn [entry];
    lazymatch goal with
    | |- SlotOnce (rk_exec_check _ _) => apply rk_exec_check_slot_once
    | |- SlotOnce (rk_exec_record _ _ _) => apply rk_exec_record_slot_once
    | |- _ => idtac
    end;
    unfold rk_net_connect4, rk_net_connect6, rk_net_sendmsg4, rk_net_sendmsg6,
      rk_net_sock_addr, rk_net_socket_create, rk_net_tun_create, rk_net_tun_open,
      rk_net_tun_attach_queue, rk_net_tun, rk_file_open, rk_file_unlink, rk_file_rmdir,
      rk_file_rename, rk_file_link, rk_file_create, rk_file_mkdir, rk_file_symlink,
      rk_file_mknod, rk_create_check, rk_file_setattr_v1, rk_file_setattr_v2,
      rk_setattr_check, rk_dir_create_check, rk_file_guarded, rk_guard_bpf,
      rk_guard_task_kill, rk_guard_ptrace, rk_guard_pin_unlink, rk_guard_pin_rename,
      rk_guard_pin_rmdir, rk_guard_umount, rk_guard_when, rk_guard_decide;
    repeat slot_once_step.
Qed.

(** ** A reload is atomic *)

Section Atomic.
Context `{K : BpfKernel} {HK : BpfKernelLaws K}.

Definition same_tele (w w' : world) : Prop :=
  w_env w = w_env w' /\ w_tele w = w_tele w'.

Lemma with_maps_eq m w w' : same_tele w w' -> with_maps m w = with_maps m w'.
Proof. intros [He Ht]. unfold with_maps. by rewrite He, Ht. Qed.

(** A call that depends on no slot, or only on the slot the maps agree on, has the
    same answer and the same effect. *)
Lemma handle_agree {X : Set} (o : op X) s st m m' w :
  agree s m m' -> maps_ok m -> maps_ok m' ->
  op_ok st o -> st = Some s \/ (st = None /\ op_slotless o = true) ->
  (handle o (with_maps m w)).1 = (handle o (with_maps m' w)).1 /\
  same_tele (handle o (with_maps m w)).2 (handle o (with_maps m' w)).2.
Proof using HK.
  intros Hag (Hrs & _ & Hfd & Hfa) (Hrs' & _ & _ & _) Ho Hst.
  destruct Hrs as (Hn & Hx & Hf), Hrs' as (Hn' & Hx' & Hf').
  destruct o; cbn in *; try done; try (split; [by destruct Hag; congruence|done]).
  - destruct Hst as [->|[_ ?]]; [|done]. injection Ho as Ho.
    split; [by eapply agree_profiles|done].
  - subst st. by destruct Hst as [?|[_ ?]].
  - destruct Ho as (Hk & s' & -> & Hs). destruct Hst as [[= ->]|[? _]]; [|done].
    split; [|done]. eapply lpm_agree_slot; [done..| |by apply agree_deny].
    intros e r [?|?]; eauto.
  - destruct Ho as (Hk & s' & -> & Hs). destruct Hst as [[= ->]|[? _]]; [|done].
    split; [|done]. eapply lpm_agree_slot; [done..| |by apply agree_allow].
    intros e r [?|?]; eauto.
  - destruct Ho as (s' & -> & Hs). destruct Hst as [[= ->]|[? _]]; [|done].
    split; [|done]. eapply (lookup_agree_scoped ek_scope); eauto. by apply agree_exec.
  - destruct Ho as (s' & -> & Hs). destruct Hst as [[= ->]|[? _]]; [|done].
    split; [|done]. eapply (lookup_agree_scoped fk_scope); eauto. by apply agree_files.
  - by destruct (_ <? 0).
Qed.

Lemma run_under_op {A} {X : Set} m (o : op X) (k : X -> prog A) w :
  run_under m (Op o k) w =
  run_under m (k (handle o (with_maps m w)).1) (handle o (with_maps m w)).2.
Proof.
  unfold run_under. cbn [run]. pose proof (handle_equiv o (with_maps m w)) as [Hm _].
  destruct (handle o (with_maps m w)) as [x w']. cbn in *.
  destruct w' as [m' e t]. cbn in Hm. by subst.
Qed.

Lemma run_at_op {A} {X : Set} ms i (o : op X) (k : X -> prog A) w :
  run_at ms i (Op o k) w =
  run_at ms (S i) (k (handle o (with_maps (ms i) w)).1) (handle o (with_maps (ms i) w)).2.
Proof. cbn [run_at]. by destruct (handle o (with_maps (ms i) w)). Qed.

Lemma run_under_proper {A} m (p : prog A) w w' :
  same_tele w w' -> run_under m p w = run_under m p w'.
Proof. intros Hw. unfold run_under. by rewrite (with_maps_eq m w w'). Qed.

Lemma handle_answer_ok {X : Set} (o : op X) m w :
  maps_ok m -> answer_ok o (handle o (with_maps m w)).1.
Proof. intros (_ & Hb & _). destruct o; cbn; try done. intros v. apply Hb. Qed.

(** A program that has read slot [s] runs as if the maps did not change while the
    slot is untouched. *)
Lemma run_at_in_slot {A} s m0 ms (p : prog A) Q :
  maps_ok m0 -> forall i w w',
  (forall j, (i <= j)%nat -> agree s m0 (ms j) /\ maps_ok (ms j)) ->
  slot_wp (Some s) p Q -> same_tele w w' -> run_at ms i p w = run_under m0 p w'.
Proof using HK.
  intros Hm0. induction p as [a|X o k IH]; intros i w w' Hms Hp Hw.
  { destruct Hw as [_ Ht]. unfold run_under. cbn. by rewrite Ht. }
  destruct Hp as [Ho Hk]. rewrite run_at_op, run_under_op.
  destruct (Hms i) as [Hag Hok]; [done|].
  destruct (handle_agree o s (Some s) m0 (ms i) w) as [Hx Hw2]; [done..|by left|].
  rewrite <- (with_maps_eq m0 w w') by done. rewrite <- Hx.
  apply IH; [intros j Hj; apply Hms; lia| |by destruct Hw2].
  assert (next_slot (Some s) o (handle o (with_maps m0 w)).1 = Some s) as Hn
    by (by destruct o).
  rewrite <- Hn. apply Hk. by apply handle_answer_ok.
Qed.

Lemma run_at_const {A} m ms (p : prog A) i w :
  (forall j, (i <= j)%nat -> ms j = m) -> run_at ms i p w = run_under m p w.
Proof.
  revert i w. induction p as [a|X o k IH]; intros i w Hms; [done|].
  rewrite run_at_op, run_under_op, (Hms i) by done. apply IH. intros j Hj. apply Hms. lia.
Qed.

(** The two policies agree on everything that is read before the slot. *)
Lemma run_at_once {A} m0 m1 ms (p : prog A) Q :
  reload m0 m1 ms -> slot_wp None p Q -> forall i w,
  run_at ms i p w = run_under m0 p w \/ run_at ms i p w = run_under m1 p w.
Proof using HK.
  intros (H01 & Hm0 & Hm1 & Hms).
  induction p as [a|X o k IH]; intros Hp i w; [by left|]. destruct Hp as [Ho Hk].
  destruct (Hms i) as [(Hact & Hag & Hok)|Hnew]; [|right; by apply run_at_const].
  destruct (op_slotless o) eqn:Hs.
  - rewrite run_at_op, !run_under_op.
    destruct (handle_agree o _ None m0 (ms i) w Hag) as [Hx Hw]; [done..|by right|].
    destruct (handle_agree o _ None m0 m1 w H01) as [Hx1 Hw1]; [done..|by right|].
    rewrite <- Hx, <- Hx1.
    rewrite (run_under_proper m0 _ _ (handle o (with_maps (ms i) w)).2) by done.
    rewrite (run_under_proper m1 _ (handle o (with_maps m1 w)).2
      (handle o (with_maps (ms i) w)).2)
      by (destruct Hw, Hw1; split; congruence).
    apply IH.
    assert (next_slot None o (handle o (with_maps m0 w)).1 = None) as Hn
      by (by destruct o).
    rewrite <- Hn. apply Hk. by apply handle_answer_ok.
  - left. rewrite run_at_op, run_under_op. destruct o; try discriminate Hs; cbn in Ho;
      try discriminate Ho; try (by destruct Ho as (_ & ? & [=] & _));
      try (by destruct Ho as (? & [=] & _)).
    cbn [handle with_maps w_maps fst snd]. rewrite Hact.
    apply (run_at_in_slot (live_slot m0) m0 ms _ Q Hm0); [|by apply (Hk (m_active_slot m0))|done].
    intros j _. destruct (Hms j) as [(_ & ? & ?)|Hj]; [done|by rewrite Hj].
Qed.

End Atomic.

Lemma ex_maps_ok mode heartbeat : maps_ok (ex_maps ex_bindings mode heartbeat).
Proof.
  split_and!; [apply ex_rules_scoped|apply ex_bindings_wf; lia|..];
    intros e r e' r' [= -> ->]%list_elem_of_singleton [= -> ->]%list_elem_of_singleton; done.
Qed.
