(* ===== verification/Apply.v ===== *)
(** * Applying a compiled policy ([rk-sensor/src/policy.rs])

    The sensor's side of a reload: the slot that is not active is cleared, filled with
    the compiled policy, and made active by one write.  Every map operation is a system
    call that may fail; the state records the maps after each one that succeeded. *)

From S2P Require Import Prelude Abi Bpf Lpm Scenario Logic Common Governance Net Exec.
From S2P Require Import File Guard Object Enforcement Ipnet Addr Policy Flatten Reload.
Open Scope Z_scope.

(** Keys written into one slot, so it can be cleared before reuse. *)
Record SlotContents : Set := mk_SlotContents {
  sc_profiles : list Z; sc_deny : list rk_net_key; sc_allow : list rk_net_key;
  sc_exec : list rk_exec_key; sc_files : list rk_file_key }.

Definition no_contents : SlotContents := mk_SlotContents [] [] [] [] [].

Record ResolvedExec : Set := mk_ResolvedExec {
  re_profile : Z; re_rule_id : Z; re_dev : Z; re_ino : Z }.

Record ResolvedFile : Set := mk_ResolvedFile {
  rf_profile : Z; rf_rule_id : Z; rf_dev : Z; rf_ino : Z; rf_deny_mask : Z;
  rf_subtree : bool }.

(** The parts of the policy engine an apply touches.  [e_faults] tells which of the
    coming system calls fail (none when it runs out), [e_trace] holds the maps after
    each write, oldest first. *)
Record engine : Set := mk_engine {
  e_maps : policy_maps; e_written0 : SlotContents; e_written1 : SlotContents;
  e_active_slot : Z; e_generation : Z; e_faults : list bool; e_trace : list policy_maps }.

(** ** Effects *)

(** [None] is an [Err] that [?] propagates. *)
Definition sensor (A : Type) : Type := engine -> option A * engine.

#[export] Instance sensor_ret : MRet sensor := fun A a s => (Some a, s).
#[export] Instance sensor_bind : MBind sensor := fun A B f m s =>
  match m s with
  | (Some a, s') => f a s'
  | (None, s') => (None, s')
  end.

Definition fail {A} : sensor A := fun s => (None, s).
Definition get {A} (f : engine -> A) : sensor A := fun s => (Some (f s), s).
Definition modify (f : engine -> engine) : sensor unit := fun s => (Some tt, f s).

Definition set_maps (m : policy_maps) (s : engine) : engine :=
  mk_engine m (e_written0 s) (e_written1 s) (e_active_slot s) (e_generation s)
    (tail (e_faults s)) (e_trace s ++ [m]).

Definition drop_fault (s : engine) : engine :=
  mk_engine (e_maps s) (e_written0 s) (e_written1 s) (e_active_slot s) (e_generation s)
    (tail (e_faults s)) (e_trace s).

(** One map system call: whether it succeeded. *)
Definition syscall (f : policy_maps -> policy_maps) : sensor bool := fun s =>
  if default false (head (e_faults s)) then (Some false, drop_fault s)
  else (Some true, set_maps (f (e_maps s)) s).

(** [call()?] and [let _ = call()]. *)
Definition must (f : policy_maps -> policy_maps) : sensor unit :=
  ok ← syscall f; if (ok : bool) then mret tt else fail.
Definition ignore (f : policy_maps -> policy_maps) : sensor unit :=
  syscall f ≫= fun _ => mret tt.

(** Getting hold of a map by name: it may be missing or of another type. *)
Definition open_map : sensor unit := fun s =>
  if default false (head (e_faults s)) then (None, drop_fault s)
  else (Some tt, drop_fault s).

Fixpoint for_each {A} (f : A -> sensor unit) (l : list A) : sensor unit :=
  match l with
  | [] => mret tt
  | x :: l => f x;; for_each f l
  end.

Definition written (s : engine) (slot : Z) : SlotContents :=
  if slot =? 0 then e_written0 s else e_written1 s.

Definition set_written (slot : Z) (c : SlotContents) (s : engine) : engine :=
  if slot =? 0
  then mk_engine (e_maps s) c (e_written1 s) (e_active_slot s) (e_generation s)
         (e_faults s) (e_trace s)
  else mk_engine (e_maps s) (e_written0 s) c (e_active_slot s) (e_generation s)
         (e_faults s) (e_trace s).

(** [self.written[slot].field.push(..)] as a change of the slot's contents. *)
Definition record (slot : Z) (f : SlotContents -> SlotContents) : sensor unit :=
  modify (fun s => set_written slot (f (written s slot)) s).

(** ** Map writes *)

(** A trie node is found by its prefix length and the bits it covers. *)
Definition same_prefix (a b : rk_net_key) : Prop :=
  nk_prefixlen a = nk_prefixlen b /\ lpm_matches a b.

#[export] Instance same_prefix_dec a b : Decision (same_prefix a b).
Proof. unfold same_prefix. apply _. Defined.

Definition trie_remove (k : rk_net_key) (t : list (rk_net_key * rk_net_rule))
    : list (rk_net_key * rk_net_rule) :=
  filter (fun e => ~ same_prefix e.1 k) t.

Definition trie_insert (k : rk_net_key) (v : rk_net_rule)
    (t : list (rk_net_key * rk_net_rule)) : list (rk_net_key * rk_net_rule) :=
  (k, v) :: trie_remove k t.

Definition on_profiles f (m : policy_maps) : policy_maps :=
  mk_policy_maps (m_cgroup_profile m) (f (m_profiles m)) (m_active_slot m) (m_heartbeat m)
    (m_config m) (m_guard m) (m_monitored_cgroups m) (m_net_deny m) (m_net_allow m)
    (m_exec_allow m) (m_file_protect m).
Definition on_active (slot : Z) (m : policy_maps) : policy_maps :=
  mk_policy_maps (m_cgroup_profile m) (m_profiles m) (Some slot) (m_heartbeat m)
    (m_config m) (m_guard m) (m_monitored_cgroups m) (m_net_deny m) (m_net_allow m)
    (m_exec_allow m) (m_file_protect m).
Definition on_deny f (m : policy_maps) : policy_maps :=
  mk_policy_maps (m_cgroup_profile m) (m_profiles m) (m_active_slot m) (m_heartbeat m)
    (m_config m) (m_guard m) (m_monitored_cgroups m) (f (m_net_deny m)) (m_net_allow m)
    (m_exec_allow m) (m_file_protect m).
Definition on_allow f (m : policy_maps) : policy_maps :=
  mk_policy_maps (m_cgroup_profile m) (m_profiles m) (m_active_slot m) (m_heartbeat m)
    (m_config m) (m_guard m) (m_monitored_cgroups m) (m_net_deny m) (f (m_net_allow m))
    (m_exec_allow m) (m_file_protect m).
Definition on_exec f (m : policy_maps) : policy_maps :=
  mk_policy_maps (m_cgroup_profile m) (m_profiles m) (m_active_slot m) (m_heartbeat m)
    (m_config m) (m_guard m) (m_monitored_cgroups m) (m_net_deny m) (m_net_allow m)
    (f (m_exec_allow m)) (m_file_protect m).
Definition on_files f (m : policy_maps) : policy_maps :=
  mk_policy_maps (m_cgroup_profile m) (m_profiles m) (m_active_slot m) (m_heartbeat m)
    (m_config m) (m_guard m) (m_monitored_cgroups m) (m_net_deny m) (m_net_allow m)
    (m_exec_allow m) (f (m_file_protect m)).

(** ** Keys and values *)

Definition profile_index (slot profile : Z) : Z := slot * RK_MAX_PROFILES + profile.

Definition action_value (a : Action) : Z := match a with Allow => 0 | Deny => 1 end.
Definition mode_value (m : Mode) : Z := match m with Audit => 0 | Enforce => 1 end.

Definition trie_key (slot : Z) (e : Entry) : rk_net_key :=
  mk_rk_net_key (32 + en_prefix_len e) (scope_of slot (en_profile e)) (en_addr e).

Definition range_value (r : CompiledRange) : rk_net_range :=
  mk_rk_net_range (cr_rule_id r) (cr_lo r) (cr_hi r) (cr_proto r) [0; 0; 0].

Definition zero_range : rk_net_range := mk_rk_net_range 0 0 0 0 [0; 0; 0].

(** The first ranges of the zeroed array are overwritten, as many as both have. *)
Definition trie_value (e : Entry) : rk_net_rule :=
  mk_rk_net_rule (Z.of_nat (length (en_ranges e)))
    (take MAX_RANGES ((range_value <$> en_ranges e) ++ replicate MAX_RANGES zero_range)).

Definition zero_profile : rk_profile := mk_rk_profile 0 0 0 0 0.

Definition profile_value (generation : Z) (p : CompiledProfile) : rk_profile :=
  mk_rk_profile (mode_value (cp_mode p)) (action_value (cp_net_default p)) (cp_flags p) 0
    generation.

Definition exec_slot_key (slot : Z) (r : ResolvedExec) : rk_exec_key :=
  mk_rk_exec_key (scope_of slot (re_profile r)) 0 (re_dev r) (re_ino r).

Definition file_slot_key (slot : Z) (r : ResolvedFile) : rk_file_key :=
  mk_rk_file_key (scope_of slot (rf_profile r)) 0 (rf_dev r) (rf_ino r).

(** [Array::set]: an index outside the array is an error. *)
Definition set_profile (idx : Z) (v : rk_profile) : sensor unit :=
  if (0 <=? idx) && (idx <? 2 * RK_MAX_PROFILES)
  then must (on_profiles (fun t => <[idx := v]> t)) else fail.

(** ** The operations *)

(** The body of [clear_slot] on the contents it took out of [self.written]. *)
Definition clear_contents (slot : Z) (contents : SlotContents) : sensor unit :=
  record slot (fun _ => no_contents);;
  open_map;;
  for_each (fun k => ignore (on_deny (trie_remove k))) (sc_deny contents);;
  open_map;;
  for_each (fun k => ignore (on_allow (trie_remove k))) (sc_allow contents);;
  open_map;;
  for_each (fun k => ignore (on_exec (delete k))) (sc_exec contents);;
  open_map;;
  for_each (fun k => ignore (on_files (delete k))) (sc_files contents);;
  open_map;;
  for_each (fun id => set_profile (profile_index slot id) zero_profile)
    (sc_profiles contents).

Definition clear_slot (slot : Z) : sensor unit :=
  contents ← get (fun s => written s slot);
  clear_contents slot contents.

Definition push_files k (c : SlotContents) : SlotContents :=
  mk_SlotContents (sc_profiles c) (sc_deny c) (sc_allow c) (sc_exec c) (sc_files c ++ [k]).
Definition push_exec k (c : SlotContents) : SlotContents :=
  mk_SlotContents (sc_profiles c) (sc_deny c) (sc_allow c) (sc_exec c ++ [k]) (sc_files c).
Definition push_profile k (c : SlotContents) : SlotContents :=
  mk_SlotContents (sc_profiles c ++ [k]) (sc_deny c) (sc_allow c) (sc_exec c) (sc_files c).
Definition push_deny k (c : SlotContents) : SlotContents :=
  mk_SlotContents (sc_profiles c) (sc_deny c ++ [k]) (sc_allow c) (sc_exec c) (sc_files c).
Definition push_allow k (c : SlotContents) : SlotContents :=
  mk_SlotContents (sc_profiles c) (sc_deny c) (sc_allow c ++ [k]) (sc_exec c) (sc_files c).

Definition write_slot (slot : Z) (c : Compiled) (exec : list ResolvedExec)
    (files : list ResolvedFile) : sensor unit :=
  open_map;;
  for_each (fun r =>
    record slot (push_files (file_slot_key slot r));;
    must (on_files (fun t => <[file_slot_key slot r :=
      mk_rk_file_rule (rf_rule_id r) (rf_deny_mask r) (b2z (rf_subtree r)) 0]> t))) files;;
  open_map;;
  for_each (fun r =>
    record slot (push_exec (exec_slot_key slot r));;
    must (on_exec (fun t => <[exec_slot_key slot r :=
      mk_rk_exec_rule (re_rule_id r) 0]> t))) exec;;
  open_map;;
  for_each (fun p =>
    record slot (push_profile (cp_id p));;
    set_profile (profile_index slot (cp_id p)) (profile_value (co_generation c) p))
    (co_profiles c);;
  open_map;;
  for_each (fun e =>
    record slot (push_deny (trie_key slot e));;
    must (on_deny (trie_insert (trie_key slot e) (trie_value e)))) (co_deny c);;
  open_map;;
  for_each (fun e =>
    record slot (push_allow (trie_key slot e));;
    must (on_allow (trie_insert (trie_key slot e) (trie_value e)))) (co_allow c).

Definition CAP_NET : nat := 65536.
Definition CAP_EXEC : nat := 65536.
Definition CAP_FILE : nat := 65536.
Definition CAP_BINDINGS : nat := 4096.

(** The inactive slot is cleared before it is written, so each map must hold the live
    slot's entries and the new ones. *)
Definition check_capacity (live : SlotContents) (deny allow exec files bindings : nat)
    : bool :=
  (length (sc_deny live) + deny <=? CAP_NET)%nat &&
  (length (sc_allow live) + allow <=? CAP_NET)%nat &&
  (length (sc_exec live) + exec <=? CAP_EXEC)%nat &&
  (length (sc_files live) + files <=? CAP_FILE)%nat &&
  (bindings <=? CAP_BINDINGS)%nat.

Definition set_live (slot generation : Z) (s : engine) : engine :=
  mk_engine (e_maps s) (e_written0 s) (e_written1 s) slot generation (e_faults s)
    (e_trace s).

(** [apply_text] from the capacity check to the commit point; parsing, compiling and
    path resolution come before it, the bindings after it. *)
Definition apply_compiled (c : Compiled) (exec : list ResolvedExec)
    (files : list ResolvedFile) (bindings : nat) : sensor unit :=
  active ← get e_active_slot;
  live ← get (fun s => written s active);
  if negb (check_capacity live (length (co_deny c)) (length (co_allow c)) (length exec)
             (length files) bindings) then fail
  else
    let slot := Z.lxor active 1 in
    clear_slot slot;;
    write_slot slot c exec files;;
    open_map;;
    must (on_active slot);;
    modify (set_live slot (co_generation c)).

(** ** Invariants of sensor operations *)

Lemma sensor_bind_Some {A B} (m : sensor A) (f : A -> sensor B) s b s' :
  (m ≫= f) s = (Some b, s') -> exists a s1, m s = (Some a, s1) /\ f a s1 = (Some b, s').
Proof. unfold mbind, sensor_bind. destruct (m s) as [[a|] s1]; [eauto|done]. Qed.

Class Keeps {A} (I : engine -> Prop) (m : sensor A) : Prop :=
  keeps : forall s, I s -> I (m s).2.

Section Keeps.
Context (I : engine -> Prop).

Lemma sensor_keeps_ret {A} (a : A) : Keeps I (mret a).
Proof. by intros s Hs. Qed.

Lemma keeps_fail {A} : Keeps I (fail (A:=A)).
Proof. by intros s Hs. Qed.

Lemma sensor_keeps_bind {A B} (m : sensor A) (f : A -> sensor B) :
  Keeps I m -> (forall a, Keeps I (f a)) -> Keeps I (m ≫= f).
Proof.
  intros Hm Hf s Hs. specialize (Hm s Hs). unfold mbind, sensor_bind.
  destruct (m s) as [[a|] s']; [by apply Hf|done].
Qed.

(** A value read from the state has what the invariant says of it. *)
Lemma keeps_get {A B} (g : engine -> A) (P : A -> Prop) (f : A -> sensor B) :
  (forall s, I s -> P (g s)) -> (forall a, P a -> Keeps I (f a)) -> Keeps I (get g ≫= f).
Proof. intros Hg Hf s Hs. by apply (Hf (g s)); [apply Hg|]. Qed.

Lemma keeps_for_each {A} (f : A -> sensor unit) l :
  (forall x, x ∈ l -> Keeps I (f x)) -> Keeps I (for_each f l).
Proof.
  induction l as [|x l IH]; intros Hf; cbn [for_each]; [apply sensor_keeps_ret|].
  apply sensor_keeps_bind; [apply Hf; left|]. intros _. apply IH. intros y Hy. apply Hf. by right.
Qed.

Lemma keeps_syscall f :
  (forall s, I s -> I (set_maps (f (e_maps s)) s)) -> (forall s, I s -> I (drop_fault s)) ->
  Keeps I (syscall f).
Proof. intros Hf Hd s Hs. unfold syscall. destruct (default false _); cbn; auto. Qed.

Lemma keeps_open_map : (forall s, I s -> I (drop_fault s)) -> Keeps I open_map.
Proof. intros Hd s Hs. unfold open_map. destruct (default false _); cbn; auto. Qed.

Lemma keeps_ignore f : Keeps I (syscall f) -> Keeps I (ignore f).
Proof. intros Hf. apply sensor_keeps_bind; [done|]. intros _. apply sensor_keeps_ret. Qed.

Lemma keeps_must f : Keeps I (syscall f) -> Keeps I (must f).
Proof.
  intros Hf. apply sensor_keeps_bind; [done|]. intros []; [apply sensor_keeps_ret|apply keeps_fail].
Qed.

Lemma keeps_record slot f :
  (forall s, I s -> I (set_written slot (f (written s slot)) s)) -> Keeps I (record slot f).
Proof. intros Hf s Hs. by apply Hf. Qed.

End Keeps.

(** ** Keys of a slot *)

Definition scope_of_slot (slot scope : Z) : Prop :=
  exists p, 0 <= p < RK_MAX_PROFILES /\ scope = scope_of slot p.

Definition net_key_of_slot (slot : Z) (k : rk_net_key) : Prop :=
  scope_of_slot slot (nk_scope k) /\ 32 <= nk_prefixlen k.

Record contents_of_slot (slot : Z) (c : SlotContents) : Prop := mk_contents_of_slot {
  cos_profiles id : id ∈ sc_profiles c -> 0 <= id < RK_MAX_PROFILES;
  cos_deny k : k ∈ sc_deny c -> net_key_of_slot slot k;
  cos_allow k : k ∈ sc_allow c -> net_key_of_slot slot k;
  cos_exec k : k ∈ sc_exec c -> scope_of_slot slot (ek_scope k);
  cos_files k : k ∈ sc_files c -> scope_of_slot slot (fk_scope k) }.

Definition id_ok (id : Z) : Prop := 0 <= id < RK_MAX_PROFILES.

(** What the compiler and the path resolution hand to an apply. *)
Record input_ok (c : Compiled) (exec : list ResolvedExec) (files : list ResolvedFile)
    : Prop := mk_input_ok {
  in_profiles p : p ∈ co_profiles c -> id_ok (cp_id p);
  in_deny e : e ∈ co_deny c -> id_ok (en_profile e) /\ 0 <= en_prefix_len e;
  in_allow e : e ∈ co_allow c -> id_ok (en_profile e) /\ 0 <= en_prefix_len e;
  in_exec r : r ∈ exec -> id_ok (re_profile r);
  in_files r : r ∈ files -> id_ok (rf_profile r) }.

Lemma scope_of_slot_slot slot scope :
  0 <= slot <= 1 -> scope_of_slot slot scope -> slot_of_scope scope = slot.
Proof. intros Hs (p & Hp & ->). by apply slot_of_scope_of. Qed.

Lemma scope_of_slot_stored slot scope :
  0 <= slot <= 1 -> scope_of_slot slot scope -> stored_scope scope.
Proof. intros Hs (p & Hp & ->). by exists slot, p. Qed.

Lemma profile_index_slot slot id :
  0 <= slot <= 1 -> id_ok id ->
  slot_of_index (profile_index slot id) = slot /\
  0 <= profile_index slot id < 2 * RK_MAX_PROFILES.
Proof.
  unfold id_ok, slot_of_index, profile_index, RK_MAX_PROFILES. intros Hs Hid.
  split; [|lia]. rewrite Z.div_add_l by lia. rewrite Z.div_small by lia. lia.
Qed.

Lemma contents_none slot : contents_of_slot slot no_contents.
Proof. split; intros ? ?%elem_of_nil; done. Qed.

(** Keys with the same prefix have the same scope. *)
Lemma same_prefix_scope a b :
  scope_ok a -> scope_ok b -> 32 <= nk_prefixlen a -> same_prefix a b ->
  nk_scope a = nk_scope b.
Proof. intros Ha Hb Hp [_ Hm]. by apply lpm_matches_iff in Hm as [? _]. Qed.

Lemma stored_scope_ok k : stored_scope (nk_scope k) -> scope_ok k.
Proof. intros [_ ?]%stored_scope_foreign. done. Qed.

(** ** Writes to a slot leave the other slot alone *)

Lemma agree_refl m s : agree s m m.
Proof. by split. Qed.

Lemma agree_trans s m1 m2 m3 : agree s m1 m2 -> agree s m2 m3 -> agree s m1 m3.
Proof.
  intros H1 H2. split; try (destruct H1, H2; congruence).
  - intros idx Hi. etrans; [by apply H1|by apply H2].
  - intros e r He. etrans; [by apply H1|by apply H2].
  - intros e r He. etrans; [by apply H1|by apply H2].
  - intros k Hk. etrans; [by apply H1|by apply H2].
  - intros k Hk. etrans; [by apply H1|by apply H2].
Qed.

Lemma elem_of_trie_remove k e r t :
  (e, r) ∈ trie_remove k t <-> (e, r) ∈ t /\ ~ same_prefix e k.
Proof. unfold trie_remove. rewrite list_elem_of_filter. cbn. tauto. Qed.

Lemma elem_of_trie_insert k v e r t :
  (e, r) ∈ trie_insert k v t <-> (e = k /\ r = v) \/ ((e, r) ∈ t /\ ~ same_prefix e k).
Proof.
  unfold trie_insert. rewrite elem_of_cons, elem_of_trie_remove. naive_solver.
Qed.

Lemma trie_remove_functional k t : trie_functional t -> trie_functional (trie_remove k t).
Proof.
  intros Hf e r e' r' [He _]%elem_of_trie_remove [He' _]%elem_of_trie_remove. eauto.
Qed.

Lemma lpm_matches_sym a b :
  nk_prefixlen a = nk_prefixlen b -> lpm_matches a b -> lpm_matches b a.
Proof. unfold lpm_matches. by intros <-. Qed.

Lemma trie_insert_functional k v t :
  trie_functional t -> trie_functional (trie_insert k v t).
Proof.
  intros Hf e r e' r'. rewrite !elem_of_trie_insert.
  intros [[-> ->]|[He Hn]] [[-> ->]|[He' Hn']] Hp Hm; [done|..|eauto].
  - destruct Hn'. split; [done|]. by apply lpm_matches_sym.
  - by destruct Hn.
Qed.

Section Quiet.
Context (m0 : policy_maps) (slot : Z).
Context (Hslot : 0 <= slot <= 1) (Hother : slot <> live_slot m0).

(** An entry of the live slot never has the prefix of a key of the other slot. *)
Lemma live_entry_kept k e :
  net_key_of_slot slot k -> slot_of_scope (nk_scope e) = live_slot m0 ->
  stored_scope (nk_scope e) -> 32 <= nk_prefixlen e -> ~ same_prefix e k.
Proof using Hslot Hother.
  intros [Hk Hp] He Hst Hpe Hsame.
  assert (nk_scope e = nk_scope k) as Heq.
  { apply same_prefix_scope; [by apply stored_scope_ok| |done..].
    by apply stored_scope_ok, (scope_of_slot_stored slot). }
  apply (scope_of_slot_slot slot) in Hk; [|done]. congruence.
Qed.

(** The entries of the live slot survive both trie operations. *)
Lemma trie_remove_live k t e r :
  (forall e r, (e, r) ∈ t -> stored_scope (nk_scope e) /\ 32 <= nk_prefixlen e) ->
  net_key_of_slot slot k -> slot_of_scope (nk_scope e) = live_slot m0 ->
  (e, r) ∈ t <-> (e, r) ∈ trie_remove k t.
Proof using Hslot Hother.
  intros Ht Hk He. rewrite elem_of_trie_remove. split; [|tauto]. intros Hin.
  split; [done|]. apply live_entry_kept; [done..|by apply (Ht e r)|by apply (Ht e r)].
Qed.

Lemma trie_insert_live k v t e r :
  (forall e r, (e, r) ∈ t -> stored_scope (nk_scope e) /\ 32 <= nk_prefixlen e) ->
  net_key_of_slot slot k -> slot_of_scope (nk_scope e) = live_slot m0 ->
  (e, r) ∈ t <-> (e, r) ∈ trie_insert k v t.
Proof using Hslot Hother.
  intros Ht Hk He. rewrite (trie_remove_live k t) by done. unfold trie_insert.
  rewrite elem_of_cons. split; [tauto|]. intros [[= -> ->]|?]; [|done].
  destruct Hk as [Hk%(scope_of_slot_slot slot) _]; [|done]. congruence.
Qed.

Lemma quiet_step m m' :
  quiet m0 m -> m_active_slot m' = m_active_slot m -> agree (live_slot m0) m m' ->
  maps_ok m' -> quiet m0 m'.
Proof.
  intros (Ha & Hag & _) Ha' Hag' Hok. split_and!; [congruence| |done].
  by eapply agree_trans.
Qed.

Lemma quiet_profile m id v :
  id_ok id -> quiet m0 m -> quiet m0 (on_profiles (<[profile_index slot id := v]>) m).
Proof using Hslot Hother.
  intros Hid Hq. apply (quiet_step m); [done..| |by destruct Hq as (_ & _ & ?)].
  split; try done. intros idx Hidx. cbn. rewrite lookup_insert_ne; [done|].
  intros <-. by rewrite (proj1 (profile_index_slot slot id Hslot Hid)) in Hidx.
Qed.

Lemma quiet_deny_remove m k :
  net_key_of_slot slot k -> quiet m0 m -> quiet m0 (on_deny (trie_remove k) m).
Proof using Hslot Hother.
  intros Hk Hq. pose proof Hq as (_ & _ & (Hn & Hx & Hf) & Hb & Hfd & Hfa).
  apply (quiet_step m); [done..| |].
  - split; try done. intros e r He. apply trie_remove_live; [|done..]. cbn. eauto.
  - split_and!; [split_and!|..]; try done; [|by apply trie_remove_functional].
    cbn. intros e r [[? _]%elem_of_trie_remove|?]; eauto.
Qed.

Lemma quiet_allow_remove m k :
  net_key_of_slot slot k -> quiet m0 m -> quiet m0 (on_allow (trie_remove k) m).
Proof using Hslot Hother.
  intros Hk Hq. pose proof Hq as (_ & _ & (Hn & Hx & Hf) & Hb & Hfd & Hfa).
  apply (quiet_step m); [done..| |].
  - split; try done. intros e r He. apply trie_remove_live; [|done..]. cbn. eauto.
  - split_and!; [split_and!|..]; try done; [|by apply trie_remove_functional].
    cbn. intros e r [?|[? _]%elem_of_trie_remove]; eauto.
Qed.

Lemma net_key_stored k :
  net_key_of_slot slot k -> stored_scope (nk_scope k) /\ 32 <= nk_prefixlen k.
Proof using Hslot. intros [Hk Hp]. split; [by eapply scope_of_slot_stored|done]. Qed.

Lemma quiet_deny_insert m k v :
  net_key_of_slot slot k -> quiet m0 m -> quiet m0 (on_deny (trie_insert k v) m).
Proof using Hslot Hother.
  intros Hk Hq. pose proof Hq as (_ & _ & (Hn & Hx & Hf) & Hb & Hfd & Hfa).
  apply (quiet_step m); [done..| |].
  - split; try done. intros e r He. apply trie_insert_live; [|done..]. cbn. eauto.
  - split_and!; [split_and!|..]; try done; [|by apply trie_insert_functional].
    cbn. intros e r [[[-> _]|[? _]]%elem_of_trie_insert|?]; eauto using net_key_stored.
Qed.

Lemma quiet_allow_insert m k v :
  net_key_of_slot slot k -> quiet m0 m -> quiet m0 (on_allow (trie_insert k v) m).
Proof using Hslot Hother.
  intros Hk Hq. pose proof Hq as (_ & _ & (Hn & Hx & Hf) & Hb & Hfd & Hfa).
  apply (quiet_step m); [done..| |].
  - split; try done. intros e r He. apply trie_insert_live; [|done..]. cbn. eauto.
  - split_and!; [split_and!|..]; try done; [|by apply trie_insert_functional].
    cbn. intros e r [?|[[-> _]|[? _]]%elem_of_trie_insert]; eauto using net_key_stored.
Qed.

(** A scope of the slot being written is not of the live slot. *)
Lemma scope_not_live scope : scope_of_slot slot scope -> slot_of_scope scope <> live_slot m0.
Proof using Hslot Hother. intros Hs%scope_of_slot_slot; [|done]. congruence. Qed.

Lemma quiet_exec_update m k (o : option rk_exec_rule) :
  scope_of_slot slot (ek_scope k) -> quiet m0 m ->
  quiet m0 (on_exec (partial_alter (fun _ => o) k) m).
Proof using Hslot Hother.
  intros Hk Hq. pose proof Hq as (_ & _ & (Hn & Hx & Hf) & Hb & Hfd & Hfa).
  apply (quiet_step m); [done..| |].
  - split; try done. intros k' Hk'. cbn. rewrite lookup_partial_alter_ne; [done|].
    intros <-. by apply scope_not_live in Hk.
  - split_and!; [split_and!|..]; try done. cbn. intros k' r.
    destruct (decide (k = k')) as [<-|Hne]; [intros _; by eapply scope_of_slot_stored|].
    rewrite lookup_partial_alter_ne by done. apply Hx.
Qed.

Lemma quiet_files_update m k (o : option rk_file_rule) :
  scope_of_slot slot (fk_scope k) -> quiet m0 m ->
  quiet m0 (on_files (partial_alter (fun _ => o) k) m).
Proof using Hslot Hother.
  intros Hk Hq. pose proof Hq as (_ & _ & (Hn & Hx & Hf) & Hb & Hfd & Hfa).
  apply (quiet_step m); [done..| |].
  - split; try done. intros k' Hk'. cbn. rewrite lookup_partial_alter_ne; [done|].
    intros <-. by apply scope_not_live in Hk.
  - split_and!; [split_and!|..]; try done. cbn. intros k' r.
    destruct (decide (k = k')) as [<-|Hne]; [intros _; by eapply scope_of_slot_stored|].
    rewrite lookup_partial_alter_ne by done. apply Hf.
Qed.

(** ** Clearing and writing are quiet *)

(** The invariant of an apply before its commit point. *)
Definition applying (s : engine) : Prop :=
  quiet m0 (e_maps s) /\ Forall (quiet m0) (e_trace s) /\
  contents_of_slot 0 (e_written0 s) /\ contents_of_slot 1 (e_written1 s) /\
  e_active_slot s = live_slot m0.

Lemma applying_syscall f :
  (forall m, quiet m0 m -> quiet m0 (f m)) -> Keeps applying (syscall f).
Proof.
  intros Hf. apply keeps_syscall; intros s (Hm & Ht & H0 & H1 & Hl); split_and!; try done; cbn.
  - by apply Hf.
  - apply Forall_app. split; [done|]. constructor; [by apply Hf|constructor].
Qed.

Lemma applying_open_map : Keeps applying open_map.
Proof. by apply keeps_open_map. Qed.

Lemma applying_written s : applying s -> contents_of_slot slot (written s slot).
Proof using Hslot Hother.
  intros (_ & _ & H0 & H1 & _). unfold written. destruct (Z.eqb_spec slot 0) as [->|]; [done|].
  by replace slot with 1 by lia.
Qed.

Lemma applying_set_written s c :
  contents_of_slot slot c -> applying s -> applying (set_written slot c s).
Proof using Hslot Hother.
  intros Hc (Hm & Ht & H0 & H1 & Hl). unfold set_written.
  destruct (Z.eqb_spec slot 0) as [->|]; [done|]. split_and!; try done. cbn.
  by replace 1 with slot by lia.
Qed.

Lemma applying_record f :
  (forall c, contents_of_slot slot c -> contents_of_slot slot (f c)) ->
  Keeps applying (record slot f).
Proof using Hslot Hother.
  intros Hf. apply keeps_record. intros s Hs.
  apply applying_set_written; [|done]. by apply Hf, applying_written.
Qed.

Lemma applying_set_profile id v :
  id_ok id -> Keeps applying (set_profile (profile_index slot id) v).
Proof using Hslot Hother.
  intros Hid. unfold set_profile. destruct (_ && _); [|apply keeps_fail].
  apply keeps_must, applying_syscall. intros m. by apply quiet_profile.
Qed.


Lemma clear_slot_quiet : Keeps applying (clear_slot slot).
Proof using Hslot Hother.
  unfold clear_slot. apply (keeps_get _ _ (contents_of_slot slot) _ applying_written).
  intros c [Hp Hd Ha Hx Hf]. unfold clear_contents.
  apply sensor_keeps_bind; [apply applying_record; intros; apply contents_none|intros _].
  repeat (apply sensor_keeps_bind; [|intros _]); try apply applying_open_map;
    apply keeps_for_each; intros k Hk.
  - apply keeps_ignore, applying_syscall. intros m. by apply quiet_deny_remove, Hd.
  - apply keeps_ignore, applying_syscall. intros m. by apply quiet_allow_remove, Ha.
  - apply keeps_ignore, applying_syscall. intros m. by apply quiet_exec_update, Hx.
  - apply keeps_ignore, applying_syscall. intros m. by apply quiet_files_update, Hf.
  - by apply applying_set_profile, Hp.
Qed.

Lemma scope_of_slot_id id : id_ok id -> scope_of_slot slot (scope_of slot id).
Proof. intros Hid. by exists id. Qed.

Lemma trie_key_of_slot e :
  id_ok (en_profile e) /\ 0 <= en_prefix_len e -> net_key_of_slot slot (trie_key slot e).
Proof. intros [Hid Hp]. split; [by apply scope_of_slot_id|cbn; lia]. Qed.

Ltac push_case :=
  let c := fresh "c" in
  intros c []; split; cbn; intros ?; rewrite ?elem_of_app, ?list_elem_of_singleton;
  try (by auto); intros [?| ->]; auto.

Lemma write_slot_quiet c exec files :
  input_ok c exec files -> Keeps applying (write_slot slot c exec files).
Proof using Hslot Hother.
  intros [Hp Hd Ha Hx Hf]. unfold write_slot.
  repeat (apply sensor_keeps_bind; [|intros _]); try apply applying_open_map;
    apply keeps_for_each; intros x Hin; (apply sensor_keeps_bind; [apply applying_record|intros _]).
  - pose proof (scope_of_slot_id _ (Hf x Hin)). push_case.
  - apply keeps_must, applying_syscall. intros m.
    apply quiet_files_update, scope_of_slot_id, Hf, Hin.
  - pose proof (scope_of_slot_id _ (Hx x Hin)). push_case.
  - apply keeps_must, applying_syscall. intros m.
    apply quiet_exec_update, scope_of_slot_id, Hx, Hin.
  - specialize (Hp x Hin). push_case.
  - by apply applying_set_profile, Hp.
  - pose proof (trie_key_of_slot _ (Hd x Hin)). push_case.
  - apply keeps_must, applying_syscall. intros m.
    apply quiet_deny_insert, trie_key_of_slot, Hd, Hin.
  - pose proof (trie_key_of_slot _ (Ha x Hin)). push_case.
  - apply keeps_must, applying_syscall. intros m.
    apply quiet_allow_insert, trie_key_of_slot, Ha, Hin.
Qed.

End Quiet.

(** ** Outcomes of an apply *)

(** The engine between two applies. *)
Record engine_ok (s : engine) : Prop := mk_engine_ok {
  eo_maps : maps_ok (e_maps s);
  eo_active : m_active_slot (e_maps s) = Some (e_active_slot s);
  eo_slot : 0 <= e_active_slot s <= 1;
  eo_written0 : contents_of_slot 0 (e_written0 s);
  eo_written1 : contents_of_slot 1 (e_written1 s) }.

Lemma engine_live s : engine_ok s -> live_slot (e_maps s) = e_active_slot s.
Proof.
  intros [_ Ha Hs _ _]. unfold live_slot. rewrite Ha.
  assert (e_active_slot s = 0 \/ e_active_slot s = 1) as [-> | ->] by lia; done.
Qed.

Lemma other_slot s :
  engine_ok s ->
  0 <= Z.lxor (e_active_slot s) 1 <= 1 /\
  Z.lxor (e_active_slot s) 1 <> live_slot (e_maps s).
Proof.
  intros Hs. rewrite engine_live by done. destruct Hs as [_ _ Hs _ _].
  assert (e_active_slot s = 0 \/ e_active_slot s = 1) as [-> | ->] by lia; done.
Qed.

Lemma quiet_refl m : maps_ok m -> quiet m m.
Proof. intros Hm. split_and!; [done|apply agree_refl|done]. Qed.

(** Up to the commit point every write is quiet; the commit point is one write. *)
Lemma apply_outcome s c exec files n :
  engine_ok s -> e_trace s = [] -> input_ok c exec files ->
  match apply_compiled c exec files n s with
  | (None, s') => applying (e_maps s) s'
  | (Some _, s') =>
      let slot := Z.lxor (e_active_slot s) 1 in
      exists s1, applying (e_maps s) s1 /\
        s' = set_live slot (co_generation c) (set_maps (on_active slot (e_maps s1)) s1)
  end.
Proof.
  intros Hs Ht Hin. destruct (other_slot s Hs) as [Hslot Hother].
  assert (applying (e_maps s) s) as H0.
  { pose proof (engine_live s Hs). destruct Hs.
    split_and!; [by apply quiet_refl|by rewrite Ht|done..]. }
  unfold apply_compiled, get, mbind, sensor_bind.
  destruct (negb _); [done|].
  pose proof (clear_slot_quiet _ _ Hslot Hother s H0) as H1.
  destruct (clear_slot _ s) as [[[]|] s1]; [|done].
  pose proof (write_slot_quiet _ _ Hslot Hother c exec files Hin s1 H1) as H2.
  destruct (write_slot _ c exec files s1) as [[[]|] s2]; [|done]. cbn in H2.
  unfold open_map. destruct (default false _); [done|].
  unfold must, syscall, mbind, sensor_bind, fail. destruct (default false _); [done|].
  cbn. by exists (drop_fault s2).
Qed.

Lemma apply_engine_ok s c exec files n :
  engine_ok s -> e_trace s = [] -> input_ok c exec files ->
  engine_ok (apply_compiled c exec files n s).2.
Proof.
  intros Hs Ht Hin.
  pose proof (apply_outcome s c exec files n Hs Ht Hin) as Ho.
  destruct (other_slot s Hs) as [Hslot _].
  destruct (apply_compiled c exec files n s) as [[u|] s']; cbn.
  - destruct Ho as (s1 & ((Ha & Hag & Hok) & _ & H0 & H1 & _) & ->). by split.
  - destruct Ho as ((Ha & Hag & Hok) & _ & H0 & H1 & Hl). destruct Hs.
    rewrite engine_live in Hl by done.
    split; [done|by rewrite Ha, Hl|by rewrite Hl|done..].
Qed.

(** The maps that a program's [i]-th call finds when it has been overtaken by
    [sched i] writes of an apply from [s] to [s']. *)
Definition sees (s s' : engine) (sched : nat -> nat) (i : nat) : policy_maps :=
  default (e_maps s') ((e_maps s :: e_trace s') !! sched i).

Definition in_order (sched : nat -> nat) : Prop :=
  forall i j, (i <= j)%nat -> (sched i <= sched j)%nat.

Lemma quiet_trace m0 ms i m :
  maps_ok m0 -> Forall (quiet m0) ms -> (m0 :: ms) !! i = Some m -> quiet m0 m.
Proof.
  intros Hm0 Hms Hi%list_elem_of_lookup_2. apply elem_of_cons in Hi as [->|Hi].
  - by apply quiet_refl.
  - rewrite Forall_forall in Hms. auto.
Qed.

Lemma commit_agree m0 m slot : agree (live_slot m0) m0 m -> agree (live_slot m0) m0 (on_active slot m).
Proof. by intros []. Qed.

Lemma applied_reload s s' c exec files n sched u :
  engine_ok s -> e_trace s = [] -> input_ok c exec files -> in_order sched ->
  apply_compiled c exec files n s = (Some u, s') ->
  reload (e_maps s) (e_maps s') (sees s s' sched).
Proof.
  intros Hs Ht Hin Hord Hap. pose proof (apply_outcome s c exec files n Hs Ht Hin) as Ho.
  rewrite Hap in Ho. destruct Ho as (s1 & ((Ha & Hag & Hok) & Htr & _) & ->).
  split_and!; [by apply commit_agree|apply Hs|done|]. intros i. unfold sees. cbn.
  rewrite app_comm_cons.
  destruct (decide (sched i < length (e_maps s :: e_trace s1))%nat) as [Hi|Hi].
  - left. destruct (lookup_lt_is_Some_2 _ _ Hi) as [m Hm].
    rewrite lookup_app_l, Hm by done. eapply quiet_trace; [apply Hs|done..].
  - right. intros j Hj. specialize (Hord i j Hj). rewrite lookup_app_r by lia.
    by destruct (sched j - _)%nat.
Qed.


(** An apply leaves the engine consistent whether it succeeds or fails: the kernel's
    active slot is the one the engine believes in, every recorded key belongs to its
    slot, and the maps keep what the programs rely on. *)
Lemma apply_keeps_engine_ok s c exec files n
    (Hs : engine_ok s) (Ht : e_trace s = []) (Hin : input_ok c exec files) :
  engine_ok (apply_compiled c exec files n s).2.
Proof. by apply apply_engine_ok. Qed.

(** C6. Applying a policy is atomic for every enforcement program, in every
    interleaving: a program whose calls fall between the sensor's map writes, in any
    order-preserving way, ends as a run under the old policy or as a run under the new
    one. *)
Theorem apply_is_atomic `{K : BpfKernel} {HK : BpfKernelLaws K} s s' c exec files n sched p w
    (Hs : engine_ok s) (Ht : e_trace s = []) (Hin : input_ok c exec files)
    (Hord : in_order sched)
    (Hap : apply_compiled c exec files n s = (Some tt, s')) :
  run_at (sees s s' sched) 0 (entry p) w = run_under (e_maps s) (entry p) w \/
  run_at (sees s s' sched) 0 (entry p) w = run_under (e_maps s') (entry p) w.
Proof.
  eapply run_at_once; [by eapply applied_reload|apply entry_slot_once].
Qed.

