(* ===== verification/Resolve.v ===== *)
(** * Resolving rules to files ([rk-sensor/src/policy.rs])

    Exec and file rules name paths; the kernel knows files by device and inode.
    [resolve_exec] and [resolve_files] translate, refusing what cannot be translated
    faithfully. *)

From stdpp Require Import sorting.
From S2P Require Import Prelude Text Identity Abi Bpf Lpm Ipnet Addr Policy Apply.
Open Scope string_scope.
Open Scope list_scope.
Open Scope Z_scope.

Definition MAX_EXEC_DIR_FILES : Z := 4096.

Inductive ResolveError : Set :=
| CannotResolve (path : string)
| NotRegular (path : string)
| OnBtrfs (path : string)
| CannotReadDir (path : string)
| BadDirEntry (path : string)
| TooManyFiles.

(** The mount table is read on demand. *)
Definition resolver (A : Type) : Type := MountTable -> (ResolveError + A) * MountTable.

#[local] Instance resolver_ret : MRet resolver := fun A a t => (inr a, t).

#[local] Instance resolver_bind : MBind resolver := fun A B f m t =>
  match m t with
  | (inl e, t) => (inl e, t)
  | (inr a, t) => f a t
  end.

Definition reject {A} (e : ResolveError) : resolver A := fun t => (inl e, t).

(** The key of a file in a profile. *)
Abbreviation fkey := (Z * Z * Z)%type.

Definition exec_key (r : ResolvedExec) : fkey := (re_profile r, re_dev r, re_ino r).
Definition file_key (r : ResolvedFile) : fkey := (rf_profile r, rf_dev r, rf_ino r).

Section Resolve.
Context {O : Os}.

Definition ask_identity (path : string) : resolver (ErrorKind + FileIdentity) := fun t =>
  let '(r, t) := identity t path in (inr r, t).

(** ** Executables *)

(** What is found so far, the keys seen, and the files of directories per profile. *)
Record exec_acc : Set := mk_exec_acc {
  ea_out : list ResolvedExec; ea_seen : list fkey; ea_dir_files : gmap Z Z }.

(** First rule wins for the same file in the same profile. *)
Definition push_resolved (e : CompiledExec) (id : FileIdentity) (acc : exec_acc) : exec_acc :=
  let r := mk_ResolvedExec (ce_profile e) (ce_rule_id e) (fi_dev id) (fi_ino id) in
  if decide (exec_key r ∈ ea_seen acc) then acc
  else mk_exec_acc (ea_out acc ++ [r]) (exec_key r :: ea_seen acc) (ea_dir_files acc).

Definition refuse_ambiguous_exec (path fstype : string) : resolver unit :=
  if decide (fstype = "btrfs") then reject (OnBtrfs path) else mret tt.

Definition resolve_exec_file (e : CompiledExec) (acc : exec_acc) : resolver exec_acc :=
  r ← ask_identity (ce_path e);
  match r with
  | inl _ => reject (CannotResolve (ce_path e))
  | inr id =>
      if negb (md_is_file (fi_meta id)) then reject (NotRegular (ce_path e))
      else
        refuse_ambiguous_exec (ce_path e) (fi_fstype id);;
        mret (push_resolved e id acc)
  end.

Definition count_file (profile : Z) (acc : exec_acc) : exec_acc :=
  mk_exec_acc (ea_out acc) (ea_seen acc)
    (<[profile := default 0 (ea_dir_files acc !! profile) + 1]> (ea_dir_files acc)).

(** The loop over the entries of a directory. *)
Fixpoint resolve_exec_dir (e : CompiledExec) (items : list (ErrorKind + string))
    (acc : exec_acc) : resolver exec_acc :=
  match items with
  | [] => mret acc
  | inl _ :: _ => reject (BadDirEntry (ce_path e))
  | inr path :: items =>
      match os_metadata path with
      | inl _ => resolve_exec_dir e items acc
      | inr meta =>
          if negb (md_is_file meta) then resolve_exec_dir e items acc
          else
            let acc := count_file (ce_profile e) acc in
            if MAX_EXEC_DIR_FILES <? default 0 (ea_dir_files acc !! ce_profile e)
            then reject TooManyFiles
            else
              r ← ask_identity path;
              match r with
              | inl NotFound => resolve_exec_dir e items acc
              | inl _ => reject (CannotResolve path)
              | inr id =>
                  refuse_ambiguous_exec path (fi_fstype id);;
                  resolve_exec_dir e items (push_resolved e id acc)
              end
      end
  end.

Fixpoint resolve_exec_loop (entries : list CompiledExec) (acc : exec_acc)
    : resolver exec_acc :=
  match entries with
  | [] => mret acc
  | e :: entries =>
      acc ← match ce_kind e with
            | PathFile => resolve_exec_file e acc
            | PathDir =>
                match os_read_dir (ce_path e) with
                | inl _ => reject (CannotReadDir (ce_path e))
                | inr items => resolve_exec_dir e items acc
                end
            end;
      resolve_exec_loop entries acc
  end.

Definition resolve_exec_in (entries : list CompiledExec) : resolver (list ResolvedExec) :=
  acc ← resolve_exec_loop entries (mk_exec_acc [] [] ∅);
  mret (ea_out acc).

Definition resolve_exec (entries : list CompiledExec) : ResolveError + list ResolvedExec :=
  (resolve_exec_in entries MountTable_new).1.

(** ** Protected files *)

(** Rules on the same object in one profile merge: the first rule id is kept. *)
Definition merge_file (r : ResolvedFile) (merged : gmap fkey ResolvedFile)
    : gmap fkey ResolvedFile :=
  match merged !! file_key r with
  | Some m =>
      <[file_key r := mk_ResolvedFile (rf_profile m) (rf_rule_id m) (rf_dev m) (rf_ino m)
          (Z.lor (rf_deny_mask m) (rf_deny_mask r)) (rf_subtree m || rf_subtree r)]> merged
  | None => <[file_key r := r]> merged
  end.

Record file_acc : Set := mk_file_acc {
  fa_merged : gmap fkey ResolvedFile; fa_exec : list (CompiledExec * Z);
  fa_skipped : list string }.

(** One rule of the first loop. *)
Definition resolve_file (e : CompiledFile) (acc : file_acc) : resolver file_acc :=
  match cf_target e with
  | TargetPath subtree optional =>
      r ← ask_identity (cf_path e);
      match r with
      | inr id =>
          mret (mk_file_acc
            (merge_file (mk_ResolvedFile (cf_profile e) (cf_rule_id e) (fi_dev id)
               (fi_ino id) (cf_deny_mask e) (subtree && md_is_dir (fi_meta id)))
               (fa_merged acc)) (fa_exec acc) (fa_skipped acc))
      | inl err =>
          if optional && bool_decide (err = NotFound \/ err = PermissionDenied)
          then mret (mk_file_acc (fa_merged acc) (fa_exec acc) (fa_skipped acc ++ [cf_path e]))
          else reject (CannotResolve (cf_path e))
      end
  | TargetExec kind =>
      mret (mk_file_acc (fa_merged acc)
        (fa_exec acc ++ [(mk_CompiledExec (cf_profile e) (cf_rule_id e) (cf_path e) kind,
                          cf_deny_mask e)]) (fa_skipped acc))
  end.

Fixpoint resolve_file_loop (entries : list CompiledFile) (acc : file_acc)
    : resolver file_acc :=
  match entries with
  | [] => mret acc
  | e :: entries => acc ← resolve_file e acc; resolve_file_loop entries acc
  end.

(** The second loop, over the executables to protect. *)
Fixpoint protect_exec_loop (targets : list (CompiledExec * Z))
    (merged : gmap fkey ResolvedFile) : resolver (gmap fkey ResolvedFile) :=
  match targets with
  | [] => mret merged
  | (target, mask) :: targets =>
      rs ← resolve_exec_in [target];
      protect_exec_loop targets
        (foldl (fun m r => merge_file (mk_ResolvedFile (re_profile r) (re_rule_id r)
           (re_dev r) (re_ino r) mask false) m) merged rs)
  end.

(** The order of a BTreeMap keyed by triples. *)
Definition fkey_le (a b : fkey) : Prop :=
  a.1.1 < b.1.1 \/ a.1.1 = b.1.1 /\ (a.1.2 < b.1.2 \/ a.1.2 = b.1.2 /\ a.2 <= b.2).

#[export] Instance fkey_le_dec a b : Decision (fkey_le a b).
Proof. unfold fkey_le. apply _. Defined.

Definition into_values (m : gmap fkey ResolvedFile) : list ResolvedFile :=
  (merge_sort (fun a b => fkey_le a.1 b.1) (map_to_list m)).*2.

Definition resolve_files_in (entries : list CompiledFile)
    : resolver (list ResolvedFile * list string) :=
  acc ← resolve_file_loop entries (mk_file_acc ∅ [] []);
  merged ← protect_exec_loop (fa_exec acc) (fa_merged acc);
  mret (into_values merged, fa_skipped acc).

Definition resolve_files (entries : list CompiledFile)
    : ResolveError + (list ResolvedFile * list string) :=
  (resolve_files_in entries MountTable_new).1.

(** ** What resolution means

    All statements are about one state of the file system, the one the operating system
    shows during the call. *)

Lemma resolver_bind_inr {A B} (m : resolver A) (f : A -> resolver B) t b t' :
  resolver_bind A B f m t = (inr b, t') <->
  exists a t1, m t = (inr a, t1) /\ f a t1 = (inr b, t').
Proof. unfold resolver_bind. destruct (m t) as [[e|a] t1]; naive_solver. Qed.

Lemma ask_identity_inr path t r t' :
  table_ok t -> ask_identity path t = (inr r, t') -> r = file_identity path /\ table_ok t'.
Proof.
  intros Ht. unfold ask_identity. destruct (identity_cached t path Ht) as [H1 H2].
  destruct (identity t path). cbn in *. by intros [= <- <-].
Qed.

(** The exec rule names this file: it is the path itself, or a regular file directly in
    the directory. *)
Definition exec_names (e : CompiledExec) (id : FileIdentity) : Prop :=
  fi_fstype id <> "btrfs" /\
  match ce_kind e with
  | PathFile => file_identity (ce_path e) = inr id /\ md_is_file (fi_meta id) = true
  | PathDir =>
      exists items path meta, os_read_dir (ce_path e) = inr items /\ inr path ∈ items /\
        os_metadata path = inr meta /\ md_is_file meta = true /\
        file_identity path = inr id
  end.

Definition id_key (profile : Z) (id : FileIdentity) : fkey := (profile, fi_dev id, fi_ino id).

Definition exec_keys (acc : exec_acc) : list fkey := exec_key <$> ea_out acc.

Definition acc_ok (acc : exec_acc) : Prop :=
  NoDup (exec_keys acc) /\ forall k, k ∈ ea_seen acc <-> k ∈ exec_keys acc.

(** From [acc] to [acc'] exactly the keys [P] were added. *)
Definition adds (acc acc' : exec_acc) (P : fkey -> Prop) : Prop :=
  acc_ok acc' /\ (forall k, k ∈ exec_keys acc' <-> k ∈ exec_keys acc \/ P k) /\
  ea_out acc `prefix_of` ea_out acc'.

Lemma adds_refl acc P : acc_ok acc -> (forall k, ~ P k) -> adds acc acc P.
Proof. intros Hok HP. split; [done|]. split; [|done]. intros k. specialize (HP k). tauto. Qed.

Lemma adds_trans acc1 acc2 acc3 P Q R :
  adds acc1 acc2 P -> adds acc2 acc3 Q -> (forall k, R k <-> P k \/ Q k) ->
  adds acc1 acc3 R.
Proof.
  intros (_ & H1 & Hp1) (Hok & H2 & Hp2) HR. split; [done|]. split; [|by etrans].
  intros k. rewrite H2, H1, HR. tauto.
Qed.

Lemma push_resolved_adds e id acc :
  acc_ok acc -> adds acc (push_resolved e id acc) (fun k => k = id_key (ce_profile e) id).
Proof.
  intros [Hnd Hseen]. unfold push_resolved. case_decide as Hin.
  - split; [done|]. split; [|done]. intros k. split; [auto|]. intros [?| ->]; [done|].
    by apply Hseen.
  - unfold adds, acc_ok, exec_keys in *. cbn [ea_out ea_seen]. rewrite fmap_app. cbn.
    split; [split|split; [|by eexists]].
    + apply NoDup_app. split; [done|]. split; [|apply NoDup_singleton].
      intros k Hk ->%list_elem_of_singleton. by apply Hin, Hseen.
    + intros k. rewrite elem_of_cons, elem_of_app, list_elem_of_singleton, Hseen. tauto.
    + intros k. by rewrite elem_of_app, list_elem_of_singleton.
Qed.

Lemma refuse_ambiguous_inr path fstype t a t' :
  refuse_ambiguous_exec path fstype t = (inr a, t') -> fstype <> "btrfs" /\ t' = t.
Proof. unfold refuse_ambiguous_exec. case_decide; [done|]. by intros [= _ <-]. Qed.

Lemma resolve_exec_file_inr e acc t acc' t' :
  table_ok t -> acc_ok acc -> ce_kind e = PathFile ->
  resolve_exec_file e acc t = (inr acc', t') ->
  table_ok t' /\
  adds acc acc' (fun k => exists id, exec_names e id /\ k = id_key (ce_profile e) id).
Proof.
  intros Ht Hok Hk. unfold resolve_exec_file, exec_names. rewrite Hk.
  intros (r & t1 & [-> Ht1]%ask_identity_inr & H)%resolver_bind_inr; [|done].
  destruct (file_identity (ce_path e)) as [|id] eqn:Hid; [done|].
  destruct (md_is_file (fi_meta id)) eqn:Hf; [|done].
  apply resolver_bind_inr in H as ([] & t2 & [Hb ->]%refuse_ambiguous_inr & [= <- <-]).
  split; [done|]. eapply adds_trans; [by apply push_resolved_adds| |].
  - apply (adds_refl _ (fun _ => False)); [|by intros ? ?]. by apply push_resolved_adds.
  - intros k. split; [intros (id' & (_ & [= <-] & _) & ->); auto|].
    intros [->|[]]. eauto 10.
Qed.

Lemma count_file_adds profile acc : acc_ok acc -> adds acc (count_file profile acc) (fun _ => False).
Proof. intros Hok. split; [done|]. split; [|done]. intros k. cbn. tauto. Qed.

(** The regular files among some entries of a directory. *)
Definition dir_names (items : list (ErrorKind + string)) (id : FileIdentity) : Prop :=
  fi_fstype id <> "btrfs" /\
  exists path meta, inr path ∈ items /\ os_metadata path = inr meta /\
    md_is_file meta = true /\ file_identity path = inr id.

Lemma dir_names_cons path items id :
  dir_names (inr path :: items) id <->
  dir_names [inr path] id \/ dir_names items id.
Proof.
  unfold dir_names. setoid_rewrite elem_of_cons. setoid_rewrite elem_of_nil. naive_solver.
Qed.

Lemma resolve_exec_dir_inr e items acc t acc' t' :
  table_ok t -> acc_ok acc -> resolve_exec_dir e items acc t = (inr acc', t') ->
  table_ok t' /\
  adds acc acc' (fun k => exists id, dir_names items id /\ k = id_key (ce_profile e) id).
Proof.
  revert acc t. induction items as [|[err|path] items IH]; intros acc t Ht Hok; [|done|].
  { intros [= <- <-]. split; [done|]. apply adds_refl; [done|].
    intros k (id & (_ & p & m & Hp & _) & _). by apply elem_of_nil in Hp. }
  assert (forall acc1 t1, table_ok t1 -> acc_ok acc1 ->
    resolve_exec_dir e items acc1 t1 = (inr acc', t') ->
    forall P, adds acc acc1 P ->
    (forall k, P k <-> exists id, dir_names [inr path] id /\ k = id_key (ce_profile e) id) ->
    table_ok t' /\
    adds acc acc' (fun k => exists id, dir_names (inr path :: items) id /\
                                       k = id_key (ce_profile e) id)) as Hnext.
  { intros acc1 t1 Ht1 Hok1 [? Hadds]%IH P HP Heq; [|done..]. split; [done|].
    eapply adds_trans; [done..|]. intros k. split.
    - intros (id & [Hd|Hd]%dir_names_cons & ->); [left; apply Heq|right]; by exists id.
    - intros [(id & Hd & ->)%Heq|(id & Hd & ->)]; exists id; rewrite dir_names_cons; auto. }
  assert (forall id, dir_names [inr path] id -> exists meta,
    os_metadata path = inr meta /\ md_is_file meta = true /\ file_identity path = inr id)
    as Hone.
  { intros id (_ & p & meta & [= ->]%list_elem_of_singleton & ? & ? & ?). eauto. }
  assert (forall acc1 t1, table_ok t1 -> acc_ok acc1 -> adds acc acc1 (fun _ => False) ->
    (forall id, ~ dir_names [inr path] id) ->
    resolve_exec_dir e items acc1 t1 = (inr acc', t') ->
    table_ok t' /\
    adds acc acc' (fun k => exists id, dir_names (inr path :: items) id /\
                                       k = id_key (ce_profile e) id)) as Hskip.
  { intros acc1 t1 Ht1 Hok1 Hadd Hno H. eapply Hnext; [done..|].
    intros k. split; [done|]. intros (id & Hd & _). by eapply Hno. }
  pose proof (adds_refl acc (fun _ => False) Hok) as Hrefl.
  cbn [resolve_exec_dir]. destruct (os_metadata path) as [|meta] eqn:Hmeta.
  { apply Hskip; [done..|by apply Hrefl; intros ? ?|]. by intros id (m & ? & _)%Hone. }
  destruct (md_is_file meta) eqn:Hfile; cbn [negb].
  2:{ apply Hskip; [done..|by apply Hrefl; intros ? ?|].
      intros id (m & [= <-] & ? & _)%Hone. congruence. }
  pose proof (count_file_adds (ce_profile e) acc Hok) as Hcount.
  destruct (_ <? _); [done|].
  intros (r & t1 & [-> Ht1]%ask_identity_inr & H)%resolver_bind_inr; [|done].
  destruct (file_identity path) as [err|id] eqn:Hid.
  - destruct err; [|done..]. revert H. apply Hskip; [done|apply Hcount|done|].
    intros id (m & _ & _ & ?)%Hone. congruence.
  - apply resolver_bind_inr in H as ([] & t2 & [Hb ->]%refuse_ambiguous_inr & H).
    pose proof (push_resolved_adds e id (count_file (ce_profile e) acc)) as Hpush.
    apply (Hnext _ _ Ht1 (proj1 (Hpush (proj1 Hcount))) H
             (fun k => k = id_key (ce_profile e) id)).
    + eapply adds_trans; [done|by apply Hpush, Hcount|]. intros k. split; [by right|].
      by intros [?|?].
    + intros k. split.
      * intros ->. exists id. split; [|done]. split; [done|]. exists path, meta. set_solver.
      * intros (id' & (m & _ & _ & Heq)%Hone & ->). congruence.
Qed.

(** Every file an exec rule of the list names, under the rule's profile. *)
Definition exec_named (entries : list CompiledExec) (k : fkey) : Prop :=
  exists e id, e ∈ entries /\ exec_names e id /\ k = id_key (ce_profile e) id.

Lemma exec_dir_names e items id :
  ce_kind e = PathDir -> os_read_dir (ce_path e) = inr items ->
  exec_names e id <-> dir_names items id.
Proof.
  intros Hk Hd. unfold exec_names, dir_names. rewrite Hk, Hd. split.
  - intros (? & items' & path & meta & [= <-] & ?). eauto.
  - intros (? & path & meta & ?). split; [done|]. by exists items, path, meta.
Qed.

Lemma resolve_exec_loop_inr entries acc t acc' t' :
  table_ok t -> acc_ok acc -> resolve_exec_loop entries acc t = (inr acc', t') ->
  table_ok t' /\ adds acc acc' (exec_named entries).
Proof.
  revert acc t. induction entries as [|e entries IH]; intros acc t Ht Hok.
  { intros [= <- <-]. split; [done|]. apply adds_refl; [done|].
    by intros k (e & id & ?%elem_of_nil & _). }
  cbn [resolve_exec_loop]. intros (acc1 & t1 & H1 & H2)%resolver_bind_inr.
  assert (table_ok t1 /\ adds acc acc1 (fun k => exists id, exec_names e id /\
    k = id_key (ce_profile e) id)) as [Ht1 Hadds].
  { destruct (ce_kind e) eqn:Hk; [by eapply resolve_exec_file_inr|].
    destruct (os_read_dir (ce_path e)) as [|items] eqn:Hd; [done|].
    apply resolve_exec_dir_inr in H1 as [? Hadds]; [|done..]. split; [done|].
    eapply adds_trans; [done|apply (adds_refl _ (fun _ => False)); [apply Hadds|by intros ? ?]|].
    intros k. setoid_rewrite exec_dir_names; [|done..]. split; [by left|by intros [?|[]]]. }
  apply IH in H2 as [? Hadds2]; [|done|apply Hadds]. split; [done|].
  eapply adds_trans; [done..|]. intros k. unfold exec_named. split.
  - intros (e' & id & [->|He]%elem_of_cons & ? & ->); [left|right]; eauto 10.
  - intros [(id & ? & ->)|(e' & id & ? & ? & ->)]; [exists e, id|exists e', id];
      rewrite elem_of_cons; auto.
Qed.

Lemma resolve_exec_in_inr entries t out t' :
  table_ok t -> resolve_exec_in entries t = (inr out, t') ->
  table_ok t' /\ NoDup (exec_key <$> out) /\
  forall k, k ∈ exec_key <$> out <-> exec_named entries k.
Proof.
  intros Ht (acc & t1 & H & [= <- <-])%resolver_bind_inr.
  assert (acc_ok (mk_exec_acc [] [] ∅)) as Hok by (split; [constructor|done]).
  apply resolve_exec_loop_inr in H as (Ht1 & (Hnd & _) & Hk & _); [|done..].
  split; [done|]. split; [done|]. intros k. rewrite (Hk k). cbn. rewrite elem_of_nil. tauto.
Qed.

(** The exec allowlist is resolved exactly: when resolution succeeds, the list has one
    entry for every file that an exec rule of the profile names - the path itself, or a
    regular file directly in the directory - and no other. *)
Lemma resolve_exec_exact entries out (H : resolve_exec entries = inr out) :
  NoDup (exec_key <$> out) /\
  forall profile dev ino,
  (exists r, r ∈ out /\ exec_key r = (profile, dev, ino)) <->
  exists e id, e ∈ entries /\ ce_profile e = profile /\ exec_names e id /\
    fi_dev id = dev /\ fi_ino id = ino.
Proof.
  unfold resolve_exec in H. destruct (resolve_exec_in _ _) as [r t] eqn:Hr. cbn in H. subst r.
  apply resolve_exec_in_inr in Hr as (_ & Hnd & Hk); [|apply table_new_ok].
  split; [done|]. intros profile dev ino. specialize (Hk (profile, dev, ino)). split.
  - intros (r & Hin & Heq). destruct (proj1 Hk) as (e & id & He & Hn & Hid).
    { rewrite <- Heq. by apply list_elem_of_fmap_2. }
    injection Hid as -> -> ->. eauto 10.
  - intros (e & id & He & <- & Hn & <- & <-).
    assert (id_key (ce_profile e) id ∈ exec_key <$> out) as (r & Heq & Hin)%list_elem_of_fmap
      by (apply Hk; by exists e, id). eauto.
Qed.

(** ** Protected files *)

(** What a rule protects: a file's key, with a mask, with or without its subtree. *)
Definition protects (e : CompiledFile) (k : fkey) (mask : Z) (sub : bool) : Prop :=
  mask = cf_deny_mask e /\
  match cf_target e with
  | TargetPath subtree _ =>
      exists id, file_identity (cf_path e) = inr id /\ k = id_key (cf_profile e) id /\
        sub = subtree && md_is_dir (fi_meta id)
  | TargetExec kind =>
      sub = false /\ exists id,
        exec_names (mk_CompiledExec (cf_profile e) (cf_rule_id e) (cf_path e) kind) id /\
        k = id_key (cf_profile e) id
  end.

(** The map holds one entry per protected key, whose mask is the union of the masks and
    whose subtree flag is set if any is. *)
Definition merges (P : fkey -> Z -> bool -> Prop) (m : gmap fkey ResolvedFile) : Prop :=
  forall k,
  match m !! k with
  | None => forall mask sub, ~ P k mask sub
  | Some x =>
      file_key x = k /\ (exists mask sub, P k mask sub) /\
      (forall n, Z.testbit (rf_deny_mask x) n = true <->
         exists mask sub, P k mask sub /\ Z.testbit mask n = true) /\
      (rf_subtree x = true <-> exists mask, P k mask true)
  end.

Lemma merges_iff P Q m :
  (forall k mask sub, P k mask sub <-> Q k mask sub) -> merges P m -> merges Q m.
Proof.
  intros HPQ Hm k. specialize (Hm k). destruct (m !! k) as [x|].
  - destruct Hm as (Hk & (mask & sub & HP) & Hbits & Hsub). split_and!; [done|..].
    + exists mask, sub. by apply HPQ.
    + intros n. rewrite Hbits. by setoid_rewrite HPQ.
    + rewrite Hsub. by setoid_rewrite HPQ.
  - intros mask sub. rewrite <- HPQ. apply Hm.
Qed.

Lemma merge_file_merges P m r :
  merges P m ->
  merges (fun k mask sub => P k mask sub \/
            k = file_key r /\ mask = rf_deny_mask r /\ sub = rf_subtree r) (merge_file r m).
Proof.
  intros Hm k. unfold merge_file. pose proof (Hm (file_key r)) as Hr.
  destruct (decide (k = file_key r)) as [->|Hne].
  - destruct (m !! file_key r) as [x|]; rewrite lookup_insert_eq.
    + destruct Hr as (Hk & (mask & sub & HP) & Hbits & Hsub). cbn [rf_deny_mask rf_subtree].
      split; [exact Hk|]. split; [eauto|]. split.
      * intros n. rewrite Z.lor_spec, orb_true_iff, Hbits. split.
        -- intros [(a & b & ? & ?)|?]; [exists a, b|exists (rf_deny_mask r), (rf_subtree r)]; auto.
        -- intros (a & b & [?|(_ & -> & _)] & ?); [left; eauto|by right].
      * rewrite orb_true_iff, Hsub. split.
        -- intros [[a ?]|?]; [exists a|exists (rf_deny_mask r)]; auto.
        -- intros [a [?|(_ & _ & ?)]]; [left; eauto|by right].
    + split; [done|]. split; [eauto 10|]. split.
      * intros n. split; [eauto 10|]. intros (a & b & [HP|(_ & -> & _)] & ?); [|done].
        by apply Hr in HP.
      * split; [eauto 10|]. intros [a [HP|(_ & _ & ?)]]; [by apply Hr in HP|done].
  - assert (merge_file r m !! k = m !! k) as Heq.
    { unfold merge_file. destruct (m !! file_key r); by rewrite lookup_insert_ne. }
    unfold merge_file in Heq. rewrite Heq. specialize (Hm k). destruct (m !! k) as [x|].
    + destruct Hm as (Hk & (mask & sub & HP) & Hbits & Hsub). split_and!; [done|eauto|..].
      * intros n. rewrite Hbits. split; [intros (a & b & ? & ?); eauto|].
        intros (a & b & [?|[? _]] & ?); [eauto|done].
      * rewrite Hsub. split; [intros [a ?]; eauto|]. intros [a [?|[? _]]]; [eauto|done].
    + intros mask sub [HP|[? _]]; [by eapply Hm|done].
Qed.

Lemma foldl_merges {A} (f : A -> ResolvedFile) l P m :
  merges P m ->
  merges (fun k mask sub => P k mask sub \/ exists a, a ∈ l /\ k = file_key (f a) /\
            mask = rf_deny_mask (f a) /\ sub = rf_subtree (f a))
    (foldl (fun m a => merge_file (f a) m) m l).
Proof.
  revert P m. induction l as [|a l IH]; intros P m Hm; cbn [foldl].
  - eapply merges_iff; [|done]. intros k mask sub. split; [auto|].
    by intros [?|(a & ?%elem_of_nil & _)].
  - eapply merges_iff; [|by eapply IH, merge_file_merges]. intros k mask sub. cbv beta.
    setoid_rewrite elem_of_cons. split.
    + intros [[?|?]|(b & ? & ?)]; [auto|right; exists a; auto|right; exists b; auto].
    + intros [?|(b & [->|?] & ?)]; [auto|auto|right; exists b; auto].
Qed.

Definition exec_target (e : CompiledFile) : list (CompiledExec * Z) :=
  match cf_target e with
  | TargetPath _ _ => []
  | TargetExec kind =>
      [(mk_CompiledExec (cf_profile e) (cf_rule_id e) (cf_path e) kind, cf_deny_mask e)]
  end.

Definition is_path (e : CompiledFile) : Prop :=
  match cf_target e with TargetPath _ _ => True | TargetExec _ => False end.

(** A rule that could be skipped was, with its path reported. *)
Definition accounted (skipped : list string) (e : CompiledFile) : Prop :=
  match cf_target e with
  | TargetPath _ optional =>
      (exists id, file_identity (cf_path e) = inr id) \/
      optional = true /\ cf_path e ∈ skipped /\
      (file_identity (cf_path e) = inl NotFound \/
       file_identity (cf_path e) = inl PermissionDenied)
  | TargetExec _ => True
  end.

Lemma resolve_file_inr e acc t acc' t' P :
  table_ok t -> merges P (fa_merged acc) -> resolve_file e acc t = (inr acc', t') ->
  table_ok t' /\ fa_exec acc' = fa_exec acc ++ exec_target e /\
  fa_skipped acc `prefix_of` fa_skipped acc' /\ accounted (fa_skipped acc') e /\
  merges (fun k mask sub => P k mask sub \/ is_path e /\ protects e k mask sub)
    (fa_merged acc').
Proof.
  intros Ht Hm. unfold resolve_file, exec_target, accounted, is_path, protects.
  destruct (cf_target e) as [subtree optional|kind].
  - intros (r & t1 & [-> Ht1]%ask_identity_inr & H)%resolver_bind_inr; [|done].
    rewrite app_nil_r. destruct (file_identity (cf_path e)) as [err|id] eqn:Hid.
    + destruct optional; [|done]. cbn [andb] in H. case_bool_decide as Herr; [|done].
      injection H as <- <-. split; [done|]. split; [done|]. split; [by eexists|]. split.
      * right. split; [done|]. split; [set_solver|]. destruct Herr as [->| ->]; auto.
      * eapply merges_iff; [|done]. intros k mask sub. split; [auto|].
        by intros [?|(_ & _ & id & ? & _)].
    + injection H as <- <-. split; [done|]. split; [done|]. split; [done|]. split; [eauto|].
      eapply merges_iff; [|by apply merge_file_merges]. intros k mask sub. cbn. split.
      * intros [?|(-> & -> & ->)]; [auto|]. right. split; [done|]. split; [done|]. by exists id.
      * intros [?|(_ & -> & id' & [= <-] & -> & ->)]; auto.
  - intros [= <- <-]. split; [done|]. split; [done|]. split; [done|]. split; [done|].
    eapply merges_iff; [|done]. intros k mask sub. split; [auto|]. by intros [?|[[] _]].
Qed.

Lemma resolve_file_loop_inr entries acc t acc' t' P :
  table_ok t -> merges P (fa_merged acc) -> resolve_file_loop entries acc t = (inr acc', t') ->
  table_ok t' /\ fa_exec acc' = fa_exec acc ++ (entries ≫= exec_target) /\
  fa_skipped acc `prefix_of` fa_skipped acc' /\
  (forall e, e ∈ entries -> accounted (fa_skipped acc') e) /\
  merges (fun k mask sub => P k mask sub \/
            exists e, e ∈ entries /\ is_path e /\ protects e k mask sub) (fa_merged acc').
Proof.
  revert acc t P. induction entries as [|e entries IH]; intros acc t P Ht Hm.
  { intros [= <- <-]. rewrite app_nil_r. split_and!; try done.
    - by intros e ?%elem_of_nil.
    - eapply merges_iff; [|done]. intros k mask sub. split; [auto|].
      by intros [?|(e & ?%elem_of_nil & _)]. }
  intros (acc1 & t1 & H1 & H2)%resolver_bind_inr.
  apply (resolve_file_inr _ _ _ _ _ P) in H1 as (Ht1 & Hx & Hs & Ha & Hm1); [|done..].
  eapply IH in H2 as (Ht' & Hx' & Hs' & Ha' & Hm'); [|done..].
  split; [done|]. split; [by rewrite Hx', Hx, <- app_assoc|]. split; [by etrans|]. split.
  - intros e' [->|He]%elem_of_cons; [|auto]. unfold accounted in Ha |- *.
    destruct (cf_target e); [|done]. destruct Ha as [?|(? & Hin & ?)]; [by left|right].
    split_and!; [done| |done]. destruct Hs' as [l ->]. set_solver.
  - eapply merges_iff; [|done]. intros k mask sub. cbv beta. setoid_rewrite elem_of_cons. split.
    + intros [[?|[? ?]]|(e' & ? & ?)]; [auto|right; exists e; auto|right; exists e'; auto].
    + intros [?|(e' & [->|?] & ?)]; [auto|auto|right; exists e'; auto].
Qed.

Lemma protect_exec_loop_inr targets m t m' t' P :
  table_ok t -> merges P m -> protect_exec_loop targets m t = (inr m', t') ->
  merges (fun k mask sub => P k mask sub \/
            sub = false /\ exists target, (target, mask) ∈ targets /\ exec_named [target] k) m'.
Proof.
  revert m t P. induction targets as [|[target mk] targets IH]; intros m t P Ht Hm.
  { intros [= <- <-]. eapply merges_iff; [|done]. intros k mask sub. split; [auto|].
    by intros [?|(_ & tg & ?%elem_of_nil & _)]. }
  cbn [protect_exec_loop]. intros (rs & t1 & Hrs & H)%resolver_bind_inr.
  apply resolve_exec_in_inr in Hrs as (Ht1 & _ & Hk); [|done].
  eapply IH in H; [|done|by apply (foldl_merges (fun r => mk_ResolvedFile (re_profile r)
    (re_rule_id r) (re_dev r) (re_ino r) mk false))].
  eapply merges_iff; [|done]. intros k mask sub. cbv beta. cbn [rf_deny_mask rf_subtree].
  setoid_rewrite elem_of_cons. split.
  - intros [[?|(r & Hr & -> & -> & ->)]|(-> & tg & ? & ?)]; [by left|right|right; eauto].
    split; [done|]. exists target. split; [by left|]. apply Hk. by apply (list_elem_of_fmap_2 exec_key).
  - intros [?|(-> & tg & [[= -> ->]|?] & Hn)]; [auto|left; right|right; eauto].
    apply Hk, list_elem_of_fmap in Hn as (r & -> & Hr). by exists r.
Qed.

Lemma elem_of_into_values m r :
  r ∈ into_values m <-> exists k, m !! k = Some r.
Proof.
  unfold into_values. rewrite merge_sort_Permutation, list_elem_of_fmap. split.
  - intros ([k x] & -> & Hx). exists k. by apply elem_of_map_to_list in Hx.
  - intros [k Hk]. exists (k, r). split; [done|]. by apply elem_of_map_to_list.
Qed.

Lemma into_values_keys P m :
  merges P m -> NoDup (file_key <$> into_values m).
Proof.
  intros Hm. assert (file_key <$> into_values m ≡ₚ (map_to_list m).*1) as ->;
    [|apply NoDup_fst_map_to_list].
  unfold into_values. rewrite merge_sort_Permutation, <- list_fmap_compose.
  erewrite list_fmap_ext; [done|]. intros i [k x] Hi. cbn.
  apply list_elem_of_lookup_2, elem_of_map_to_list in Hi. specialize (Hm k). rewrite Hi in Hm.
  apply Hm.
Qed.

Lemma protects_split entries k mask sub :
  (exists e, e ∈ entries /\ protects e k mask sub) <->
  (exists e, e ∈ entries /\ is_path e /\ protects e k mask sub) \/
  sub = false /\ exists target, (target, mask) ∈ (entries ≫= exec_target) /\
    exec_named [target] k.
Proof.
  setoid_rewrite list_elem_of_bind. unfold protects, is_path, exec_target, exec_named. split.
  - intros (e & He & -> & Hp). destruct (cf_target e) as [st opt|kind] eqn:Ht.
    + left. exists e. rewrite Ht. auto.
    + destruct Hp as (-> & id & Hn & ->). right. split; [done|].
      eexists. split.
      * exists e. rewrite Ht. split; [|done]. left.
      * eexists _, id. split; [left|]. done.
  - intros [(e & He & _ & Hp)|(-> & tg & (e & Hin & He) & x & id & ->%list_elem_of_singleton & Hn & ->)].
    + by exists e.
    + exists e. split; [done|]. destruct (cf_target e) as [st opt|kind];
        [by apply elem_of_nil in Hin|].
      apply list_elem_of_singleton in Hin as [= -> ->]. split; [done|]. split; [done|]. by exists id.
Qed.

Lemma resolve_files_merges entries files skipped :
  resolve_files entries = inr (files, skipped) ->
  (forall e, e ∈ entries -> accounted skipped e) /\
  exists m, files = into_values m /\
    merges (fun k mask sub => exists e, e ∈ entries /\ protects e k mask sub) m.
Proof.
  unfold resolve_files. destruct (resolve_files_in _ _) as [r t] eqn:Hr. cbn. intros ->.
  apply resolver_bind_inr in Hr as (acc & t1 & H1 & (m & t2 & H2 & [= <- <- <-])%resolver_bind_inr).
  assert (merges (fun _ _ _ => False) ∅) as H0 by (intros k; rewrite lookup_empty; by intros ? ? []).
  apply (resolve_file_loop_inr _ _ _ _ _ (fun _ _ _ => False)) in H1
    as (Ht1 & Hx & _ & Ha & Hm); [|apply table_new_ok|done].
  split; [done|]. exists m. split; [done|].
  eapply protect_exec_loop_inr in H2; [|done..]. cbn in Hx. rewrite Hx in H2.
  eapply merges_iff; [|done]. intros k mask sub. rewrite protects_split. cbv beta. tauto.
Qed.

(** File protection is resolved exactly: when resolution succeeds there is one entry
    for every file a rule of the profile protects and no other; it denies exactly what
    some rule on the file denies, and covers the subtree exactly if some rule on it does
    and the file is a directory; and every rule was resolved or, if it came from a
    built-in list and its path is missing or inaccessible, is reported as skipped. *)
Lemma resolve_files_exact entries files skipped
    (H : resolve_files entries = inr (files, skipped)) :
  NoDup (file_key <$> files) /\
  (forall k, (exists r, r ∈ files /\ file_key r = k) <->
     exists e mask sub, e ∈ entries /\ protects e k mask sub) /\
  (forall r, r ∈ files ->
     (forall n, Z.testbit (rf_deny_mask r) n = true <->
        exists e mask sub, e ∈ entries /\ protects e (file_key r) mask sub /\
          Z.testbit mask n = true) /\
     (rf_subtree r = true <->
        exists e mask, e ∈ entries /\ protects e (file_key r) mask true)) /\
  (forall e, e ∈ entries -> accounted skipped e).
Proof.
  apply resolve_files_merges in H as (Ha & m & -> & Hm).
  split; [by eapply into_values_keys|]. split; [|split; [|done]].
  - intros k. setoid_rewrite elem_of_into_values. pose proof (Hm k) as Hk. split.
    + intros (r & [k' Hr] & <-). specialize (Hm k'). rewrite Hr in Hm.
      destruct Hm as (<- & (mask & sub & e & ?) & _). eauto.
    + intros (e & mask & sub & He & Hp). destruct (m !! k) as [x|] eqn:Hx.
      * destruct Hk as (? & _). eauto.
      * exfalso. eapply Hk. eauto.
  - intros r [k Hr]%elem_of_into_values. specialize (Hm k). rewrite Hr in Hm.
    destruct Hm as (-> & _ & Hbits & Hsub). split.
    + intros n. rewrite Hbits. split.
      * intros (mask & sub & (e & ? & ?) & ?). eauto 10.
      * intros (e & mask & sub & ? & ? & ?). eauto 10.
    + rewrite Hsub. split; [intros (mask & e & ? & ?)|intros (e & mask & ? & ?)]; eauto 10.
Qed.

End Resolve.
