(* ===== verification/Engine.v ===== *)
(** * The policy engine ([rk-sensor/src/policy.rs])

    [PolicyEngine] whole: applying a policy text from parsing to the bindings, binding and
    unbinding agents and containers at run time, quarantine and release.  The kernel maps
    and the two slots are the [engine] of [Apply]; every map operation may fail.  The
    cgroup file system is an interface.  The state file is part of the engine's state: it
    holds what the last [persist] wrote, which is taken to succeed.  The pause before a slot
    is reused is not modelled. *)

From stdpp Require Import sorting.
From S2P Require Import Prelude Text Identity Abi Bpf Lpm Scenario Logic Common Governance.
From S2P Require Import Levels Net Exec File Guard Object Enforcement Ipnet Addr Policy.
From S2P Require Import Cidr Parse Flatten Reload Apply Resolve.
Open Scope string_scope.
Open Scope list_scope.
Open Scope Z_scope.

Record CgMeta : Set := mk_CgMeta { cm_ino : Z; cm_uid : Z; cm_mode : Z }.

(** Below the cgroup root: whether a directory could be created, and what [stat] then
    says of a path. *)
Class CgroupFs := {
  cg_create : string -> bool;
  cg_stat : string -> ErrorKind + CgMeta }.

Definition is_delegated (meta : CgMeta) : bool :=
  negb (cm_uid meta =? 0) || negb (Z.land (cm_mode meta) 18 =? 0).

Definition RETIRED_MAX : nat := 1024.

Definition on_bindings f (m : policy_maps) : policy_maps :=
  mk_policy_maps (f (m_cgroup_profile m)) (m_profiles m) (m_active_slot m) (m_heartbeat m)
    (m_config m) (m_guard m) (m_monitored_cgroups m) (m_net_deny m) (m_net_allow m)
    (m_exec_allow m) (m_file_protect m).

Definition binding_value (profile : Z) : rk_binding := mk_rk_binding profile 0.

(** A BTreeMap in the order of its keys. *)
Definition key_le {A} (a b : Z * A) : Prop := a.1 <= b.1.

#[export] Instance key_le_dec {A} (a b : Z * A) : Decision (key_le a b).
Proof. unfold key_le. apply _. Defined.

Definition sorted_list {A} (m : gmap Z A) : list (Z * A) :=
  merge_sort key_le (map_to_list m).

Section Engine.
Context {I : Ipnet} {S : IpnetStr I} {T : Toml} {O : Os} {C : CgroupFs}.

Inductive EngineError : Set :=
| PolicyErr (e : PolicyError)
| ResolveErr (e : ResolveError)
| LsmInactive (profile : string)
| CgroupIo (path : string)
| ProfileInUse (profile path : string)
| StaticallyBound (path : string)
| KernelErr
| PartlyBound
| NoPolicy
| UnknownProfileName (profile : string)
| BadCgroup (m : Message)
| BadContainer (cgroup : string)
| AlreadyBound (cgroup : string)
| TooDeep (cgroup : string) (level : Z)
| NotRuntime (id : Z)
| NotBound (cgroup : string)
| NoStaticBinding (cgroup : string)
| NoPrevious.

(** What survives a restart beyond the kernel maps. *)
Record EngineState : Set := mk_EngineState {
  es_epoch : string; es_ids : ProfileIds; es_generation : Z;
  es_bindings : gmap Z (string * Z); es_quarantined : gset Z;
  es_dynamic : gmap Z (string * string); es_adopted : gmap Z (string * Z);
  es_text : option string; es_previous_text : option string }.

(** Whether the engine has a state file, the epoch of its pin set, and what the file
    holds: nothing if it is missing or unreadable. *)
Record StateFile : Set := mk_StateFile {
  sf_set : bool; sf_epoch : string; sf_content : option EngineState }.

(** [pe_kernel] holds the maps, the contents of both slots, the active slot and the
    generation. *)
Record pengine : Set := mk_pengine {
  pe_kernel : engine; pe_ids : ProfileIds; pe_bindings : gmap Z (string * Z);
  pe_quarantined : gset Z; pe_dynamic : gmap Z (string * string);
  pe_adopted : gmap Z (string * Z); pe_retired : list (Z * string);
  pe_policy : option Policy; pe_text : option string; pe_previous_text : option string;
  pe_lsm_active : bool; pe_allow_delegated : bool; pe_store : StateFile }.

Definition with_kernel (k : engine) (s : pengine) : pengine :=
  mk_pengine k (pe_ids s) (pe_bindings s) (pe_quarantined s) (pe_dynamic s) (pe_adopted s)
    (pe_retired s) (pe_policy s) (pe_text s) (pe_previous_text s) (pe_lsm_active s)
    (pe_allow_delegated s) (pe_store s).

Definition with_bindings (b : gmap Z (string * Z)) (q : gset Z)
    (d : gmap Z (string * string)) (a : gmap Z (string * Z)) (s : pengine) : pengine :=
  mk_pengine (pe_kernel s) (pe_ids s) b q d a (pe_retired s) (pe_policy s) (pe_text s)
    (pe_previous_text s) (pe_lsm_active s) (pe_allow_delegated s) (pe_store s).

Definition with_store (f : StateFile) (s : pengine) : pengine :=
  mk_pengine (pe_kernel s) (pe_ids s) (pe_bindings s) (pe_quarantined s) (pe_dynamic s)
    (pe_adopted s) (pe_retired s) (pe_policy s) (pe_text s) (pe_previous_text s)
    (pe_lsm_active s) (pe_allow_delegated s) f.

Definition engine_state (s : pengine) : EngineState :=
  mk_EngineState (sf_epoch (pe_store s)) (pe_ids s) (e_generation (pe_kernel s))
    (pe_bindings s) (pe_quarantined s) (pe_dynamic s) (pe_adopted s) (pe_text s)
    (pe_previous_text s).

Definition persist (s : pengine) : pengine :=
  if sf_set (pe_store s)
  then with_store (mk_StateFile true (sf_epoch (pe_store s)) (Some (engine_state s))) s
  else s.

(** The file's state, if it belongs to the pin set. *)
Definition load_state (s : pengine) : option EngineState :=
  if sf_set (pe_store s) && negb (bool_decide (sf_epoch (pe_store s) = EmptyString)) then
    st ← sf_content (pe_store s);
    if decide (es_epoch st = sf_epoch (pe_store s)) then Some st else None
  else None.

(** The file holds what the engine has. *)
Definition synced (s : pengine) : Prop :=
  sf_set (pe_store s) = true -> sf_content (pe_store s) = Some (engine_state s).

(** ** Effects *)

Definition engineM (A : Type) : Type := pengine -> (EngineError + A) * pengine.

#[local] Instance engineM_ret : MRet engineM := fun A a s => (inr a, s).

#[local] Instance engineM_bind : MBind engineM := fun A B f m s =>
  match m s with
  | (inl e, s) => (inl e, s)
  | (inr a, s) => f a s
  end.

Definition throw {A} (e : EngineError) : engineM A := fun s => (inl e, s).
Definition ask {A} (f : pengine -> A) : engineM A := fun s => (inr (f s), s).
Definition update (f : pengine -> pengine) : engineM unit := fun s => (inr tt, f s).

Definition attempt {E A} (wrap : E -> EngineError) (r : E + A) : engineM A :=
  match r with
  | inl e => throw (wrap e)
  | inr a => mret a
  end.

(** The outcome as a value. *)
Definition catch {A} (m : engineM A) : engineM (EngineError + A) := fun s =>
  let '(r, s) := m s in (inr r, s).

(** Kernel operations; [try_kernel] returns whether they succeeded. *)
Definition try_kernel {A} (m : sensor A) : engineM (option A) := fun s =>
  let '(r, k) := m (pe_kernel s) in (inr r, with_kernel k s).

Definition kernel {A} (m : sensor A) : engineM A :=
  r ← try_kernel m;
  match r with
  | Some a => mret a
  | None => throw KernelErr
  end.

(** ** Bindings *)

Definition profile_named (policy : Policy) (name : string) : option Z :=
  p_id <$> find_profile (po_profiles policy) name.

Definition quarantine_id (s : pengine) : option Z :=
  match policy ← pe_policy s; profile_named policy QUARANTINE with
  | Some id => Some id
  | None =>
      match (id_of (pe_ids s) QUARANTINE).1 with
      | inr id => Some id
      | inl _ => None
      end
  end.

Definition set_binding (id profile : Z) : engineM unit :=
  kernel open_map;;
  kernel (must (on_bindings (fun t => <[id := binding_value profile]> t)));;
  update (fun s =>
    with_bindings (alter (fun e => (e.1, profile)) id (pe_bindings s)) (pe_quarantined s)
      (pe_dynamic s) (pe_adopted s) s).

(** Best effort: a failure leaves the previous mask. *)
Definition publish_governed_levels : engineM unit :=
  levels ← ask (fun s => governed_levels (sorted_list (pe_bindings s)));
  try_kernel (must (set_governed_levels levels));;
  mret tt.

Definition retire (id : Z) (profile : string) (s : pengine) : pengine :=
  let retired := pe_retired s ++ [(id, profile)] in
  mk_pengine (pe_kernel s) (pe_ids s) (pe_bindings s) (pe_quarantined s) (pe_dynamic s)
    (pe_adopted s) (drop (length retired - RETIRED_MAX) retired) (pe_policy s) (pe_text s)
    (pe_previous_text s) (pe_lsm_active s) (pe_allow_delegated s) (pe_store s).

(** The first bound cgroup with this path. *)
Definition cgroup_id (s : pengine) (path : string) : option Z :=
  fst <$> head (filter (fun e => e.2.1 = path) (sorted_list (pe_bindings s))).

(** A profile an agent or container can be bound to. *)
Definition bindable_profile (profile : string) : engineM Z :=
  p ← ask pe_policy;
  match p with
  | None => throw NoPolicy
  | Some policy =>
      match head (filter (fun p => p_name p = profile /\ p_name p <> QUARANTINE)
                    (po_profiles policy)) with
      | None => throw (UnknownProfileName profile)
      | Some p => mret (p_id p)
      end
  end.

Definition bind_dynamic (cgroup profile : string) : engineM Z :=
  cgroup ← attempt BadCgroup (validate_cgroup cgroup);
  pid ← bindable_profile profile;
  meta ← attempt (fun _ => CgroupIo cgroup) (cg_stat cgroup);
  let id := cm_ino meta in
  bound ← ask (fun s => bool_decide (is_Some (pe_bindings s !! id)));
  if (bound : bool) then throw (AlreadyBound cgroup)
  else
    set_binding id pid;;
    update (fun s => with_bindings (<[id := (cgroup, pid)]> (pe_bindings s))
      (pe_quarantined s) (<[id := (cgroup, profile)]> (pe_dynamic s)) (pe_adopted s) s);;
    update persist;;
    publish_governed_levels;;
    mret id.

(** [s.trim_matches('/')]. *)
Definition trim_slashes (s : string) : string :=
  text (trim_end_list [["/"%char]] (trim_start_list [["/"%char]] (chars s))).

Definition container_level (cgroup : string) : Z := path_level cgroup.

Definition bad_container (cgroup : string) : bool :=
  bool_decide (cgroup = EmptyString) ||
  existsb (fun s => bool_decide (s = EmptyString) || bool_decide (s = ".") ||
                    bool_decide (s = "..")) (split "/" cgroup).

Definition bind_container (cgroup profile : string) : engineM Z :=
  let cgroup := trim_slashes cgroup in
  if bad_container cgroup then throw (BadContainer cgroup)
  else
    pid ← bindable_profile profile;
    meta ← attempt (fun _ => CgroupIo cgroup) (cg_stat cgroup);
    let id := cm_ino meta in
    s ← ask (fun s => s);
    if bool_decide (is_Some (pe_bindings s !! id)) &&
       negb (bool_decide (is_Some (pe_dynamic s !! id))) &&
       negb (bool_decide (is_Some (pe_adopted s !! id)))
    then throw (StaticallyBound cgroup)
    else if decide (id ∈ pe_quarantined s) then mret id
    else if is_delegated meta && (RK_CGROUP_MAX_DEPTH <? container_level cgroup) &&
            negb (pe_allow_delegated s)
    then throw (TooDeep cgroup (container_level cgroup))
    else
      set_binding id pid;;
      update (fun s => with_bindings (<[id := (cgroup, pid)]> (pe_bindings s))
        (pe_quarantined s) (<[id := (cgroup, profile)]> (pe_dynamic s))
        (delete id (pe_adopted s)) s);;
      update persist;;
      publish_governed_levels;;
      mret id.

Definition unbind_dynamic (id : Z) : engineM unit :=
  d ← ask (fun s => pe_dynamic s !! id);
  match d with
  | None => throw (NotRuntime id)
  | Some (_, profile) =>
      update (fun s => with_bindings (pe_bindings s) (pe_quarantined s)
        (delete id (pe_dynamic s)) (pe_adopted s) s);;
      update (retire id profile);;
      update (fun s => with_bindings (delete id (pe_bindings s)) (pe_quarantined s ∖ {[id]})
        (pe_dynamic s) (pe_adopted s) s);;
      kernel open_map;;
      kernel (ignore (on_bindings (delete id)));;
      update persist;;
      publish_governed_levels
  end.

Definition quarantine (cgroup : string) : engineM unit :=
  s ← ask (fun s => s);
  match cgroup_id s cgroup with
  | None => throw (NotBound cgroup)
  | Some id =>
      match quarantine_id s with
      | None => throw NoPolicy
      | Some qid =>
          set_binding id qid;;
          update (fun s => with_bindings (pe_bindings s) (pe_quarantined s ∪ {[id]})
            (pe_dynamic s) (pe_adopted s) s);;
          update persist
      end
  end.

Definition release (cgroup : string) : engineM unit :=
  s ← ask (fun s => s);
  match cgroup_id s cgroup with
  | None => throw (NotBound cgroup)
  | Some id =>
      match pe_policy s with
      | None => throw NoPolicy
      | Some policy =>
          let static := b_profile <$> head (filter (fun b => b_cgroup b = cgroup)
                          (po_bindings policy)) in
          let profile :=
            match static with
            | Some p => Some p
            | None => '(_, name) ← pe_dynamic s !! id; profile_named policy name
            end in
          match profile with
          | None => throw (NoStaticBinding cgroup)
          | Some profile =>
              update (fun s => with_bindings (pe_bindings s) (pe_quarantined s ∖ {[id]})
                (pe_dynamic s) (pe_adopted s) s);;
              set_binding id profile;;
              update persist
          end
      end
  end.

(** ** Applying a policy *)

Definition unenforceable (p : Profile) : bool :=
  bool_decide (p_name p <> QUARANTINE) &&
  (bool_decide (is_Some (p_exec p)) || negb (bool_decide (fp_rules (p_files p) = [])) ||
   p_deny_raw_sockets p).

Definition check_capabilities (policy : Policy) : engineM unit :=
  active ← ask pe_lsm_active;
  if (active : bool) then mret tt
  else
    match head (filter (fun p => unenforceable p = true) (po_profiles policy)) with
    | Some p => throw (LsmInactive (p_name p))
    | None => mret tt
    end.

(** Static bindings, with [create]: missing cgroups are made. *)
Fixpoint resolve_bindings (out : gmap Z (string * Z)) (bindings : list Binding)
    : EngineError + gmap Z (string * Z) :=
  match bindings with
  | [] => inr out
  | b :: bindings =>
      if negb (cg_create (b_cgroup b)) then inl (CgroupIo (b_cgroup b))
      else
        match cg_stat (b_cgroup b) with
        | inl _ => inl (CgroupIo (b_cgroup b))
        | inr meta =>
            resolve_bindings (<[cm_ino meta := (b_cgroup b, b_profile b)]> out) bindings
        end
  end.

Definition cgroup_alive (path : string) (id : Z) : bool :=
  if decide (path = EmptyString) then true
  else
    match cg_stat path with
    | inr meta => cm_ino meta =? id
    | inl e => negb (bool_decide (e = NotFound))
    end.

(** The agents' and containers' bindings; also returns the stale ones. *)
Fixpoint add_dynamic (policy : Policy) (wanted : gmap Z (string * Z)) (stale : list Z)
    (dynamic : list (Z * (string * string)))
    : EngineError + (gmap Z (string * Z) * list Z) :=
  match dynamic with
  | [] => inr (wanted, stale)
  | (id, (path, profile)) :: dynamic =>
      if negb (cgroup_alive path id) then add_dynamic policy wanted (stale ++ [id]) dynamic
      else
        match profile_named policy profile with
        | None => inl (ProfileInUse profile path)
        | Some pid =>
            if decide (is_Some (wanted !! id)) then inl (StaticallyBound path)
            else add_dynamic policy (<[id := (path, pid)]> wanted) stale dynamic
        end
  end.

(** The adopted bindings; also returns those kept. *)
Fixpoint add_adopted (wanted : gmap Z (string * Z)) (kept : gset Z)
    (adopted : list (Z * (string * Z))) : gmap Z (string * Z) * gset Z :=
  match adopted with
  | [] => (wanted, kept)
  | (id, (path, profile)) :: adopted =>
      if bool_decide (is_Some (wanted !! id)) || negb (cgroup_alive path id)
      then add_adopted wanted kept adopted
      else add_adopted (<[id := (path, profile)]> wanted) (kept ∪ {[id]}) adopted
  end.

(** The wanted bindings with the quarantine in force, and who stays in it. *)
Definition hold_quarantine (qid : option Z) (quarantined : gset Z)
    (wanted : gmap Z (string * Z)) : gmap Z (string * Z) * gset Z :=
  match qid with
  | None => (wanted, quarantined)
  | Some qid =>
      let quarantined := filter (fun id => is_Some (wanted !! id)) quarantined in
      (map_imap (fun id e => Some (if decide (id ∈ quarantined) then (e.1, qid) else e))
         wanted, quarantined)
  end.

(** One wanted binding: what the kernel then holds for it, and whether that is it. *)
Definition write_binding (current : gmap Z (string * Z)) (id : Z) (entry : string * Z)
    : sensor (option (string * Z) * bool) :=
  if decide (snd <$> current !! id = Some entry.2) then mret (Some entry, true)
  else
    done ← syscall (on_bindings (fun t => <[id := binding_value entry.2]> t));
    if (done : bool) then mret (Some entry, true) else mret (current !! id, false).

(** The loop over the wanted bindings, which keeps going past a failed write. *)
Fixpoint write_bindings (current applied : gmap Z (string * Z)) (ok : bool)
    (wanted : list (Z * (string * Z))) : sensor (gmap Z (string * Z) * bool) :=
  match wanted with
  | [] => mret (applied, ok)
  | (id, entry) :: wanted =>
      '(held, done) ← write_binding current id entry;
      write_bindings current (match held with Some e => <[id := e]> applied | None => applied end)
        (ok && done) wanted
  end.

Definition sync_bindings (wanted : gmap Z (string * Z)) : engineM unit :=
  s ← ask (fun s => s);
  let '(wanted, quarantined) := hold_quarantine (quarantine_id s) (pe_quarantined s) wanted in
  update (fun s => with_bindings (pe_bindings s) quarantined (pe_dynamic s) (pe_adopted s) s);;
  kernel open_map;;
  kernel (for_each (fun id => ignore (on_bindings (delete id)))
    (filter (fun id => wanted !! id = None) (sorted_list (pe_bindings s)).*1));;
  '(applied, ok) ← kernel (write_bindings (pe_bindings s) ∅ true (sorted_list wanted));
  update (fun s => with_bindings applied (pe_quarantined s) (pe_dynamic s) (pe_adopted s) s);;
  if (ok : bool) then mret tt else throw PartlyBound.

(** Drops the stale runtime bindings. *)
Definition drop_stale (id : Z) (s : pengine) : pengine :=
  match pe_dynamic s !! id with
  | None => s
  | Some (_, profile) =>
      retire id profile
        (with_bindings (pe_bindings s) (pe_quarantined s) (delete id (pe_dynamic s))
           (pe_adopted s) s)
  end.

(** What the engine records once the policy is live. *)
Definition record_policy (ids : ProfileIds) (policy : Policy) (text : string)
    (stale : list Z) (kept : gset Z) (s : pengine) : pengine :=
  let s := mk_pengine (pe_kernel s) ids (pe_bindings s) (pe_quarantined s) (pe_dynamic s)
             (pe_adopted s) (pe_retired s) (Some policy) (Some text) (pe_text s)
             (pe_lsm_active s) (pe_allow_delegated s) (pe_store s) in
  let s := foldl (fun s id => drop_stale id s) s stale in
  with_bindings (pe_bindings s) (pe_quarantined s) (pe_dynamic s)
    (filter (fun e => e.1 ∈ kept) (pe_adopted s)) s.

(** The end of an apply: the bindings, the state file whatever came of them, the
    governed levels. *)
Definition publish_bindings (wanted : gmap Z (string * Z)) : engineM unit :=
  synced ← catch (sync_bindings wanted);
  update persist;;
  match synced with
  | inl e => throw e
  | inr _ => publish_governed_levels
  end.

Definition apply_text (text : string) : engineM unit :=
  s ← ask (fun s => s);
  let '(r, ids) := parse text (pe_ids s) in
  policy ← attempt PolicyErr r;
  check_capabilities policy;;
  let generation := u64 (e_generation (pe_kernel s) + 1) in
  compiled ← attempt PolicyErr (compile policy generation);
  static ← attempt (fun e => e) (resolve_bindings ∅ (po_bindings policy));
  '(wanted, stale) ← attempt (fun e => e)
    (add_dynamic policy static [] (sorted_list (pe_dynamic s)));
  let '(wanted, kept) := add_adopted wanted ∅ (sorted_list (pe_adopted s)) in
  exec ← attempt ResolveErr (resolve_exec (co_exec compiled));
  '(files, _) ← attempt ResolveErr (resolve_files (co_files compiled));
  kernel (apply_compiled compiled exec files (size wanted));;
  update (record_policy ids policy text stale kept);;
  publish_bindings wanted.

Definition rollback : engineM unit :=
  previous ← ask pe_previous_text;
  match previous with
  | None => throw NoPrevious
  | Some text => apply_text text
  end.

End Engine.
