(* ===== verification/Deploy.v ===== *)
(** * From policy file to verdict

    What the maps hold after a successful apply, and that the network programs of the
    kernel then decide as the policy's reference semantics says: the compiler, the
    sensor's map layout and the C lookup fit together. *)

From S2P Require Import Prelude Abi Bpf Lpm Scenario Logic Common Governance Net Exec.
From S2P Require Import File Guard Object Enforcement Ipnet Addr Policy Flatten Reload Apply.
From S2P Require Import Resolve.
Open Scope Z_scope.

(** ** Applies without failing calls *)

(** The operation succeeds and changes the maps by [F]. *)
Definition does (m : sensor unit) (F : policy_maps -> policy_maps) : Prop :=
  forall s, e_faults s = [] ->
    exists s', m s = (Some tt, s') /\ e_maps s' = F (e_maps s) /\ e_faults s' = [].

Lemma does_bind m m' F G : does m F -> does m' G -> does (m;; m') (fun x => G (F x)).
Proof.
  intros Hm Hm' s Hs. destruct (Hm s Hs) as (s1 & H1 & Hm1 & Hf1).
  destruct (Hm' s1 Hf1) as (s2 & H2 & Hm2 & Hf2). exists s2.
  unfold mbind, sensor_bind. rewrite H1. split_and!; [done| |done]. by rewrite Hm2, Hm1.
Qed.

Lemma does_eq m F G : does m F -> (forall x, F x = G x) -> does m G.
Proof.
  intros Hm HFG s Hs. destruct (Hm s Hs) as (s' & ? & ? & ?). exists s'. by rewrite <- HFG.
Qed.

Lemma does_record slot f : does (record slot f) (fun m => m).
Proof.
  intros s Hs. eexists. split; [done|]. unfold set_written. by destruct (slot =? 0).
Qed.

Lemma does_must f : does (must f) f.
Proof.
  intros s Hs. unfold must, syscall, mbind, sensor_bind. rewrite Hs. cbn. eexists.
  split; [done|]. cbn. by rewrite Hs.
Qed.

Lemma does_open_map : does open_map (fun m => m).
Proof. intros s Hs. unfold open_map. rewrite Hs. eexists. split; [done|]. cbn. by rewrite Hs. Qed.

Lemma does_ignore f : does (ignore f) f.
Proof.
  intros s Hs. unfold ignore, syscall, mbind, sensor_bind. rewrite Hs. cbn. eexists.
  split; [done|]. cbn. by rewrite Hs.
Qed.

Lemma does_for_each {A} (f : A -> sensor unit) F l :
  (forall x, x ∈ l -> does (f x) (F x)) ->
  does (for_each f l) (fun m => foldl (fun m x => F x m) m l).
Proof.
  induction l as [|x l IH]; intros Hf.
  { intros s Hs. by exists s. }
  cbn [for_each foldl]. apply (does_bind _ _ (F x) (fun m => foldl (fun m x => F x m) m l)); [apply Hf; left|].
  apply IH. intros y Hy. apply Hf. by right.
Qed.

Lemma does_set_profile slot id v :
  0 <= slot <= 1 -> id_ok id ->
  does (set_profile (profile_index slot id) v)
    (on_profiles (<[profile_index slot id := v]>)).
Proof.
  intros Hs Hid. unfold set_profile.
  destruct (profile_index_slot slot id Hs Hid) as [_ [Hlo Hhi]].
  rewrite (proj2 (Z.leb_le _ _) Hlo), (proj2 (Z.ltb_lt _ _) Hhi). apply does_must.
Qed.

(** The effect of [clear_slot] on maps whose recorded contents are [c]. *)
Definition cleared (slot : Z) (c : SlotContents) (m : policy_maps) : policy_maps :=
  let m := foldl (fun m k => on_deny (trie_remove k) m) m (sc_deny c) in
  let m := foldl (fun m k => on_allow (trie_remove k) m) m (sc_allow c) in
  let m := foldl (fun m k => on_exec (delete k) m) m (sc_exec c) in
  let m := foldl (fun m k => on_files (delete k) m) m (sc_files c) in
  foldl (fun m id => on_profiles (<[profile_index slot id := zero_profile]>) m) m
    (sc_profiles c).

(** The effect of [write_slot]. *)
Definition filled (slot : Z) (c : Compiled) (exec : list ResolvedExec)
    (files : list ResolvedFile) (m : policy_maps) : policy_maps :=
  let m := foldl (fun m r => on_files (<[file_slot_key slot r :=
    mk_rk_file_rule (rf_rule_id r) (rf_deny_mask r) (b2z (rf_subtree r)) 0]>) m) m files in
  let m := foldl (fun m r => on_exec (<[exec_slot_key slot r :=
    mk_rk_exec_rule (re_rule_id r) 0]>) m) m exec in
  let m := foldl (fun m p => on_profiles (<[profile_index slot (cp_id p) :=
    profile_value (co_generation c) p]>) m) m (co_profiles c) in
  let m := foldl (fun m e => on_deny (trie_insert (trie_key slot e) (trie_value e)) m) m
    (co_deny c) in
  foldl (fun m e => on_allow (trie_insert (trie_key slot e) (trie_value e)) m) m
    (co_allow c).

Lemma clear_contents_does slot c :
  0 <= slot <= 1 -> contents_of_slot slot c -> does (clear_contents slot c) (cleared slot c).
Proof.
  intros Hslot [Hp _ _ _ _]. unfold clear_contents. eapply does_eq.
  - eapply does_bind; [apply does_record|].
    do 4 (eapply does_bind; [apply does_open_map|];
      eapply does_bind; [apply does_for_each; intros; apply does_ignore|]).
    eapply does_bind; [apply does_open_map|].
    apply does_for_each. intros id Hid. by apply does_set_profile, Hp.
  - done.
Qed.

Lemma write_slot_does slot c exec files :
  0 <= slot <= 1 -> input_ok c exec files ->
  does (write_slot slot c exec files) (filled slot c exec files).
Proof.
  intros Hslot [Hp _ _ _ _]. unfold write_slot.
  assert (forall f m F, does m F -> does (record slot f;; m) F) as Hrec.
  { intros f m F Hm. exact (does_bind _ _ _ _ (does_record slot f) Hm). }
  eapply does_eq.
  - do 2 (eapply does_bind; [apply does_open_map|];
      eapply does_bind; [apply does_for_each; intros; apply Hrec, does_must|]).
    eapply does_bind; [apply does_open_map|]. eapply does_bind.
    { apply does_for_each. intros p Hin. by apply Hrec, does_set_profile, Hp. }
    eapply does_bind; [apply does_open_map|].
    eapply does_bind; [apply does_for_each; intros; apply Hrec, does_must|].
    eapply does_bind; [apply does_open_map|]. apply does_for_each. intros. apply Hrec, does_must.
  - done.
Qed.

(** A fault-free apply within capacity succeeds, and this is what the maps hold. *)
Lemma apply_does s c exec files n :
  engine_ok s -> e_faults s = [] -> input_ok c exec files ->
  check_capacity (written s (e_active_slot s)) (length (co_deny c)) (length (co_allow c))
    (length exec) (length files) n = true ->
  let slot := Z.lxor (e_active_slot s) 1 in
  exists s', apply_compiled c exec files n s = (Some tt, s') /\
    e_maps s' =
      on_active slot (filled slot c exec files (cleared slot (written s slot) (e_maps s))) /\
    e_faults s' = [] /\ e_generation s' = co_generation c.
Proof.
  intros Hs Hf Hin Hcap slot. destruct (other_slot s Hs) as [Hslot _].
  assert (contents_of_slot slot (written s slot)) as Hc.
  { unfold written. destruct Hs. destruct (Z.eqb_spec slot 0) as [->|]; [done|].
    by replace slot with 1 by lia. }
  unfold apply_compiled, get, mbind at 1 2, sensor_bind at 1 2. rewrite Hcap. cbn [negb].
  fold slot.
  destruct (clear_contents_does slot (written s slot) Hslot Hc s Hf) as (s1 & H1 & Hm1 & Hf1).
  destruct (write_slot_does slot c exec files Hslot Hin s1 Hf1) as (s2 & H2 & Hm2 & Hf2).
  destruct (does_open_map s2 Hf2) as (s2' & Ho & Hmo & Hfo).
  destruct (does_must (on_active slot) s2' Hfo) as (s3 & H3 & Hm3 & Hf3).
  eexists. unfold clear_slot, get, mbind, sensor_bind. rewrite H1, H2, Ho, H3. split; [done|]. cbn.
  by rewrite Hm3, Hmo, Hm2, Hm1, Hf3.
Qed.

(** ** Contents of the maps *)

Lemma foldl_proj {A B} (proj : policy_maps -> B) (F : A -> policy_maps -> policy_maps)
    (f : A -> B -> B) m l :
  (forall m x, proj (F x m) = f x (proj m)) ->
  proj (foldl (fun m x => F x m) m l) = foldl (fun b x => f x b) (proj m) l.
Proof.
  intros HF. revert m. induction l as [|x l IH]; intros m; [done|]. cbn [foldl].
  by rewrite IH, HF.
Qed.

Lemma foldl_keep {A B} (proj : policy_maps -> B) (F : A -> policy_maps -> policy_maps) m l :
  (forall m x, proj (F x m) = proj m) -> proj (foldl (fun m x => F x m) m l) = proj m.
Proof.
  intros HF. rewrite (foldl_proj proj F (fun _ b => b)) by done.
  generalize (proj m). induction l; intros b; cbn; auto.
Qed.

Definition trie_after (slot : Z) (ks : list rk_net_key) (es : list Entry) t :=
  foldl (fun t e => trie_insert (trie_key slot e) (trie_value e) t)
    (foldl (fun t k => trie_remove k t) t ks) es.

Section After.
Context (slot : Z) (old : SlotContents) (c : Compiled).
Context (exec : list ResolvedExec) (files : list ResolvedFile) (m : policy_maps).

Abbreviation after := (on_active slot (filled slot c exec files (cleared slot old m))).

Lemma deny_after :
  m_net_deny after = trie_after slot (sc_deny old) (co_deny c) (m_net_deny m).
Proof.
  cbn [on_active m_net_deny]. unfold filled, cleared, trie_after.
  rewrite foldl_keep by done.
  rewrite (foldl_proj m_net_deny _ (fun e => trie_insert (trie_key slot e) (trie_value e)))
    by done.
  do 7 (rewrite foldl_keep by done). by rewrite (foldl_proj m_net_deny _ trie_remove) by done.
Qed.

Lemma allow_after :
  m_net_allow after = trie_after slot (sc_allow old) (co_allow c) (m_net_allow m).
Proof.
  cbn [on_active m_net_allow]. unfold filled, cleared, trie_after.
  rewrite (foldl_proj m_net_allow _ (fun e => trie_insert (trie_key slot e) (trie_value e)))
    by done.
  do 7 (rewrite foldl_keep by done).
  rewrite (foldl_proj m_net_allow _ trie_remove) by done. by rewrite foldl_keep by done.
Qed.

Lemma profiles_after :
  m_profiles after =
  foldl (fun t p => <[profile_index slot (cp_id p) := profile_value (co_generation c) p]> t)
    (foldl (fun t id => <[profile_index slot id := zero_profile]> t)
       (m_profiles m) (sc_profiles old)) (co_profiles c).
Proof.
  cbn [on_active m_profiles]. unfold filled, cleared.
  do 2 (rewrite foldl_keep by done).
  rewrite (foldl_proj m_profiles _ (fun p => <[profile_index slot (cp_id p) :=
    profile_value (co_generation c) p]>)) by done.
  do 2 (rewrite foldl_keep by done).
  rewrite (foldl_proj m_profiles _ (fun id => <[profile_index slot id := zero_profile]>))
    by done.
  by do 4 (rewrite foldl_keep by done).
Qed.

Lemma exec_after :
  m_exec_allow after =
  foldl (fun t r => <[exec_slot_key slot r := mk_rk_exec_rule (re_rule_id r) 0]> t)
    (foldl (fun t k => delete k t) (m_exec_allow m) (sc_exec old)) exec.
Proof.
  cbn [on_active m_exec_allow]. unfold filled, cleared.
  do 3 (rewrite foldl_keep by done).
  rewrite (foldl_proj m_exec_allow _ (fun r => <[exec_slot_key slot r :=
    mk_rk_exec_rule (re_rule_id r) 0]>)) by done.
  do 3 (rewrite foldl_keep by done).
  rewrite (foldl_proj m_exec_allow _ delete) by done. by do 2 (rewrite foldl_keep by done).
Qed.

Lemma files_after :
  m_file_protect after =
  foldl (fun t r => <[file_slot_key slot r :=
      mk_rk_file_rule (rf_rule_id r) (rf_deny_mask r) (b2z (rf_subtree r)) 0]> t)
    (foldl (fun t k => delete k t) (m_file_protect m) (sc_files old)) files.
Proof.
  cbn [on_active m_file_protect]. unfold filled, cleared.
  do 4 (rewrite foldl_keep by done).
  rewrite (foldl_proj m_file_protect _ (fun r => <[file_slot_key slot r :=
    mk_rk_file_rule (rf_rule_id r) (rf_deny_mask r) (b2z (rf_subtree r)) 0]>)) by done.
  rewrite foldl_keep by done.
  rewrite (foldl_proj m_file_protect _ delete) by done. by do 3 (rewrite foldl_keep by done).
Qed.

End After.

(** ** Hash maps after an apply *)

Lemma lookup_foldl_delete `{Countable A} {V} (t : gmap A V) ks k v :
  foldl (fun t k => delete k t) t ks !! k = Some v <-> t !! k = Some v /\ k ∉ ks.
Proof.
  revert t. induction ks as [|k0 ks IH]; intros t; cbn [foldl].
  { split; [|tauto]. intros ?. split; [done|]. apply not_elem_of_nil. }
  rewrite IH, lookup_delete_Some, not_elem_of_cons. naive_solver.
Qed.

Lemma lookup_foldl_insert {X} `{Countable A} {V} (key : X -> A) (val : X -> V) (t : gmap A V)
    l k v :
  NoDup (key <$> l) ->
  foldl (fun t x => <[key x := val x]> t) t l !! k = Some v <->
  (exists x, x ∈ l /\ k = key x /\ v = val x) \/ (t !! k = Some v /\ k ∉ key <$> l).
Proof.
  revert t. induction l as [|x l IH]; intros t; cbn [foldl fmap list_fmap].
  { intros _. split; [intros ?; right; split; [done|apply not_elem_of_nil]|].
    by intros [(? & ?%elem_of_nil & _)|[? _]]. }
  intros [Hx Hnd]%NoDup_cons. rewrite IH by done. rewrite lookup_insert_Some, not_elem_of_cons.
  setoid_rewrite elem_of_cons. split; [naive_solver|].
  intros [(y & [->|Hy] & -> & ->)|(Ht & Hne & Hk)]; [right; naive_solver|left; eauto|].
  right. split; [|done]. right. naive_solver.
Qed.

(** After clearing and filling, a slot of a hash map holds exactly the new entries. *)
Lemma lookup_after {X} `{Countable A} {V} (slot_of : A -> Z) slot (key : X -> A) (val : X -> V)
    (t : gmap A V) ks l k v :
  NoDup (key <$> l) -> (forall x, x ∈ l -> slot_of (key x) = slot) ->
  (forall k v, t !! k = Some v -> slot_of k = slot -> k ∈ ks) -> slot_of k = slot ->
  foldl (fun t x => <[key x := val x]> t) (foldl (fun t k => delete k t) t ks) l !! k = Some v <->
  exists x, x ∈ l /\ k = key x /\ v = val x.
Proof.
  intros Hnd Hslot Hrec Hk. rewrite lookup_foldl_insert by done. rewrite lookup_foldl_delete.
  split; [|by left]. intros [?|[[Ht Hno] _]]; [done|]. destruct Hno. by eapply Hrec.
Qed.

(** ** Tries after an apply *)

Lemma elem_of_removed ks t e r :
  (e, r) ∈ foldl (fun t k => trie_remove k t) t ks <->
  (e, r) ∈ t /\ forall k, k ∈ ks -> ~ same_prefix e k.
Proof.
  revert t. induction ks as [|k ks IH]; intros t; cbn [foldl].
  { split; [|tauto]. intros ?. split; [done|]. by intros k ?%elem_of_nil. }
  rewrite IH, elem_of_trie_remove. setoid_rewrite elem_of_cons. naive_solver.
Qed.

Lemma elem_of_inserted slot es t e r :
  (forall x y, x ∈ es -> y ∈ es -> same_prefix (trie_key slot x) (trie_key slot y) -> x = y) ->
  (e, r) ∈ foldl (fun t e => trie_insert (trie_key slot e) (trie_value e) t) t es <->
  (exists x, x ∈ es /\ e = trie_key slot x /\ r = trie_value x) \/
  ((e, r) ∈ t /\ forall x, x ∈ es -> ~ same_prefix e (trie_key slot x)).
Proof.
  revert t. induction es as [|x es IH]; intros t Hinj; cbn [foldl].
  { split; [|by intros [(? & ?%elem_of_nil & _)|[? _]]]. intros ?. right.
    split; [done|]. by intros k ?%elem_of_nil. }
  rewrite IH by (intros a b Ha Hb; apply Hinj; by right).
  rewrite elem_of_trie_insert. setoid_rewrite elem_of_cons. split.
  - naive_solver.
  - intros [(y & [->|Hy] & -> & ->)|[Hin Hno]]; [|eauto 10|naive_solver].
    destruct (decide (x ∈ es)) as [|Hx]; [eauto 10|]. right. split; [by left|].
    intros y Hy Hs. apply Hx. by rewrite (Hinj x y (list_elem_of_here _ _) ltac:(by right) Hs).
Qed.

(** Every entry of a slot is on record. *)
Definition trie_recorded (slot : Z) (ks : list rk_net_key)
    (t : list (rk_net_key * rk_net_rule)) : Prop :=
  forall e r, (e, r) ∈ t -> slot_of_scope (nk_scope e) = slot ->
    exists k, k ∈ ks /\ same_prefix e k.

(** After clearing and filling, a slot of the trie holds exactly the new entries. *)
Lemma trie_after_slot slot ks es t e r :
  0 <= slot <= 1 -> trie_recorded slot ks t ->
  (forall x, x ∈ es -> id_ok (en_profile x)) ->
  (forall x y, x ∈ es -> y ∈ es -> same_prefix (trie_key slot x) (trie_key slot y) -> x = y) ->
  (e, r) ∈ trie_after slot ks es t /\ slot_of_scope (nk_scope e) = slot <->
  exists x, x ∈ es /\ e = trie_key slot x /\ r = trie_value x.
Proof.
  intros Hs Hrec Hid Hinj. unfold trie_after. rewrite elem_of_inserted by done.
  rewrite elem_of_removed. split.
  - intros [[?|[[Hin Hno] _]] Hsl]; [done|].
    destruct (Hrec e r Hin Hsl) as (k & Hk & Hsame). by destruct (Hno k Hk).
  - intros (x & Hx & -> & ->). split; [left; eauto|].
    apply slot_of_scope_of; [done|by apply Hid].
Qed.

(** ** Compiled entries as trie keys *)

Lemma prefix_of_take {A} (p l : list A) : p `prefix_of` l <-> p = take (length p) l.
Proof.
  split.
  - intros [k ->]. by rewrite take_app_length.
  - intros ->. apply prefix_take.
Qed.

Lemma stored_scope_of slot id :
  0 <= slot <= 1 -> id_ok id -> stored_scope (scope_of slot id).
Proof. intros Hs Hid. by exists slot, id. Qed.

Section Keys.
Context `{I : Ipnet, L : !IpnetLaws I}.

Lemma take_network n :
  take (Z.to_nat (prefix_len n)) (bits (network n)) = prefix_bits n.
Proof using L.
  rewrite network_bits. by rewrite take_app_length' by (by rewrite length_prefix_bits).
Qed.

(** What a compiled entry's key matches. *)
Lemma trie_key_matches slot prof groups g k :
  0 <= slot <= 1 -> id_ok (p_id prof) -> scope_ok k ->
  lpm_matches (trie_key slot (entry_of prof groups g)) k <->
  scope_of slot (p_id prof) = nk_scope k /\ prefix_bits g.1 `prefix_of` addr_bits k.
Proof using L.
  intros Hs Hid Hk. pose proof (prefix_len_bound g.1) as Hp.
  rewrite lpm_matches_iff; [|by apply stored_scope_ok, stored_scope_of|done|cbn; lia].
  cbn [trie_key entry_of nk_scope nk_prefixlen en_profile en_prefix_len].
  replace (32 + prefix_len g.1 - 32) with (prefix_len g.1) by lia.
  unfold addr_bits at 1. cbn [nk_addr en_addr]. rewrite take_network.
  by rewrite prefix_of_take, length_prefix_bits.
Qed.

Lemma entry_contains_iff prof groups g addr :
  octets_ok addr ->
  Entry_contains (entry_of prof groups g) addr = true <-> prefix_bits g.1 `prefix_of` bits addr.
Proof using L. intros Ha. by rewrite entry_contains_group, contains_addr_iff by done. Qed.

Lemma profile_of_id policy p q :
  policy_wf policy -> p ∈ po_profiles policy -> q ∈ po_profiles policy ->
  p_id p = p_id q -> p = q.
Proof.
  intros [Hnd _] [i Hi]%list_elem_of_lookup [j Hj]%list_elem_of_lookup Hpq.
  assert (i = j) as ->; [|congruence].
  apply (NoDup_lookup _ _ _ (p_id p) Hnd); rewrite list_lookup_fmap.
  - by rewrite Hi.
  - rewrite Hj. cbn. congruence.
Qed.

Definition policy_ids_ok (policy : Policy) : Prop :=
  forall p, p ∈ po_profiles policy -> id_ok (p_id p).

(** No two entries of a compiled policy share a trie node. *)
Lemma compiled_keys_distinct policy slot action x y :
  0 <= slot <= 1 -> policy_wf policy -> policy_ids_ok policy ->
  x ∈ (po_profiles policy ≫= fun p => trie_entries p action) ->
  y ∈ (po_profiles policy ≫= fun p => trie_entries p action) ->
  same_prefix (trie_key slot x) (trie_key slot y) -> x = y.
Proof using L.
  intros Hs Hwf Hids (p & (g & -> & Hg)%list_elem_of_fmap & Hp)%list_elem_of_bind
    (q & (h & -> & Hh)%list_elem_of_fmap & Hq)%list_elem_of_bind [Hlen Hm].
  apply trie_key_matches in Hm as [Hscope Hpre];
    [|done|by apply Hids|by apply stored_scope_ok, stored_scope_of, Hids].
  cbn in Hscope. apply scope_of_inj in Hscope as [_ Hid]; [|lia..|by apply Hids|by apply Hids].
  assert (p = q) as -> by (by eapply profile_of_id).
  cbn in Hlen. unfold addr_bits in Hpre. cbn in Hpre.
  enough (g.1 = h.1) as Hgh.
  { apply elem_of_group_rules in Hg as [Hg _], Hh as [Hh _].
    by rewrite (surjective_pairing g), (surjective_pairing h), Hg, Hh, Hgh. }
  apply prefix_bits_inj; [by eapply group_trunc, Hg; apply Hwf|by eapply group_trunc, Hh; apply Hwf|].
  apply prefix_of_take in Hpre. rewrite Hpre, length_prefix_bits.
  replace (prefix_len g.1) with (prefix_len h.1) by lia. apply take_network.
Qed.

(** ** The kernel lookup finds the rule of the reference semantics *)

Lemma range_matches_applies port proto r :
  range_matches port proto (range_value r) <-> range_applies port proto r = true.
Proof.
  unfold range_matches, range_applies. cbn. rewrite !andb_true_iff, !Z.leb_le. tauto.
Qed.

Lemma first_range_value port proto e :
  (length (en_ranges e) <= MAX_RANGES)%nat ->
  first_range port proto (trie_value e) =
  cr_rule_id <$> head (filter (fun x => range_applies port proto x = true) (en_ranges e)).
Proof.
  intros Hlen. unfold first_range, trie_value. cbn [rule_nranges rule_ranges].
  rewrite take_take, Nat2Z.id.
  replace (_ `min` _ `min` MAX_RANGES)%nat with (length (range_value <$> en_ranges e))
    by (rewrite length_fmap; unfold MAX_RANGES, RK_NET_MAX_RANGES in *; lia).
  rewrite take_app_length, filter_fmap.
  rewrite (list_filter_iff _ (fun x => range_applies port proto x = true))
    by apply range_matches_applies.
  by destruct (filter _ (en_ranges e)).
Qed.

Section Lookup.
Context `{K : BpfKernel} {HK : BpfKernelLaws K}.

Lemma deployed_lookup policy id prof action slot t addr port proto :
  0 <= slot <= 1 -> policy_wf policy -> policy_ids_ok policy ->
  policy_profile policy id = Some prof -> trie_fits prof action -> octets_ok addr ->
  (forall e r, (e, r) ∈ t -> stored_scope (nk_scope e) /\ 32 <= nk_prefixlen e) ->
  (forall e r, (e, r) ∈ t /\ slot_of_scope (nk_scope e) = slot <->
     exists x, x ∈ (po_profiles policy ≫= fun p => trie_entries p action) /\
       e = trie_key slot x /\ r = trie_value x) ->
  lpm_lookup t (mk_rk_net_key 160 (scope_of slot id) addr) ≫= first_range port proto =
  r_id <$> best_rule prof action addr port proto.
Proof using L HK.
  intros Hs Hwf Hids Hp Hfit Ha Hst Ht. set (k := mk_rk_net_key 160 (scope_of slot id) addr).
  pose proof (policy_profile_Some _ _ _ Hp) as [Hin Hid].
  assert (id_ok (p_id prof)) as Hok by (by apply Hids).
  assert (scope_ok k) as Hk by (apply stored_scope_ok, stored_scope_of; [done|by rewrite <- Hid]).
  assert (forall e r, (e, r) ∈ t -> lpm_matches e k ->
    exists x, x ∈ trie_entries prof action /\ Entry_contains x addr = true /\
      e = trie_key slot x /\ r = trie_value x) as Hmatch.
  { intros e r He Hm. destruct (Hst e r He) as [Hstore Hplen].
    pose proof Hm as [Hsc _]%lpm_matches_iff; [|by apply stored_scope_ok|done..].
    destruct (proj1 (Ht e r)) as (x & Hx & -> & ->).
    { split; [done|]. rewrite Hsc. cbn. rewrite <- Hid. by apply slot_of_scope_of. }
    exists x. assert (x ∈ trie_entries prof action) as Hx'.
    { apply (elem_of_compiled_trie policy id prof action x Hwf Hp). split; [done|].
      apply list_elem_of_bind in Hx as (q & (g & -> & _)%list_elem_of_fmap & Hq).
      cbn in Hsc. apply scope_of_inj in Hsc as [_ ?]; [done|lia|lia|by apply Hids|by rewrite <- Hid]. }
    split_and!; try done. apply list_elem_of_fmap in Hx' as (g & -> & Hg).
    apply trie_key_matches in Hm as [_ Hpre]; [|done..]. by apply entry_contains_iff. }
  assert (rules_truncated prof) as Htr by (by apply Hwf).
  destruct (lpm_lookup t k) as [r|] eqn:Hl; cbn [mbind option_bind].
  - apply lpm_lookup_Some in Hl as (e & He & Hm & Hmax); [|done].
    destruct (Hmatch e r He Hm) as (x & Hx & Hc & -> & ->).
    rewrite first_range_value by (unfold trie_fits in Hfit; rewrite Forall_forall in Hfit; auto).
    apply trie_decides; [done..|]. intros y Hy Hcy.
    enough (32 + en_prefix_len y <= 32 + en_prefix_len x) by lia.
    apply (Hmax (trie_key slot y) (trie_value y)).
    + apply Ht. exists y. split; [|done]. by eapply elem_of_compiled_trie in Hy as [? _].
    + apply list_elem_of_fmap in Hy as (g & -> & Hg). apply trie_key_matches; [done..|].
      cbn. rewrite Hid. split; [done|]. by apply entry_contains_iff in Hcy.
  - rewrite trie_silent; [done..|]. intros x Hx. apply not_true_iff_false. intros Hc.
    eapply (lpm_lookup_None t k); [done|done| |].
    + apply Ht. exists x. split; [|done]. by eapply elem_of_compiled_trie in Hx as [? _].
    + apply list_elem_of_fmap in Hx as (g & -> & Hg). apply trie_key_matches; [done..|].
      cbn. rewrite Hid. split; [done|]. by apply entry_contains_iff in Hc.
Qed.

End Lookup.
End Keys.

(** ** The record of a slot *)

(** Everything the maps hold in a slot is on the engine's record of it. *)
Record recorded (slot : Z) (s : engine) : Prop := mk_recorded {
  rec_deny : trie_recorded slot (sc_deny (written s slot)) (m_net_deny (e_maps s));
  rec_allow : trie_recorded slot (sc_allow (written s slot)) (m_net_allow (e_maps s));
  rec_profiles id p :
    id_ok id -> m_profiles (e_maps s) !! profile_index slot id = Some p ->
    prof_policy_gen p <> 0 -> id ∈ sc_profiles (written s slot);
  rec_exec k v :
    m_exec_allow (e_maps s) !! k = Some v -> slot_of_scope (ek_scope k) = slot ->
    k ∈ sc_exec (written s slot);
  rec_files k v :
    m_file_protect (e_maps s) !! k = Some v -> slot_of_scope (fk_scope k) = slot ->
    k ∈ sc_files (written s slot) }.

Lemma profile_index_inj slot id id' :
  profile_index slot id = profile_index slot id' -> id = id'.
Proof. unfold profile_index. lia. Qed.

Lemma foldl_insert_other {A V} (key : A -> Z) (val : A -> V) (t : gmap Z V) l i :
  (forall x, x ∈ l -> key x <> i) ->
  foldl (fun t x => <[key x := val x]> t) t l !! i = t !! i.
Proof.
  revert t. induction l as [|x l IH]; intros t Hl; cbn [foldl]; [done|].
  rewrite IH by (intros y Hy; apply Hl; by right).
  apply lookup_insert_ne, Hl. left.
Qed.

Lemma foldl_insert_const {A V} (v : V) (key : A -> Z) (t : gmap Z V) l x :
  x ∈ l -> foldl (fun t x => <[key x := v]> t) t l !! key x = Some v.
Proof.
  induction l as [|y l IH] using rev_ind; [by intros ?%elem_of_nil|].
  intros Hx. rewrite foldl_snoc. destruct (decide (key y = key x)) as [->|Hne].
  - by rewrite lookup_insert_eq.
  - rewrite lookup_insert_ne by done. apply IH.
    apply elem_of_app in Hx as [?| ->%list_elem_of_singleton]; done.
Qed.

(** ** What it is for the maps to serve a policy *)

Lemma NoDup_fmap_keys {X A B} (f : X -> A) (g : X -> B) l :
  (forall x y, x ∈ l -> y ∈ l -> g x = g y -> f x = f y) -> NoDup (f <$> l) -> NoDup (g <$> l).
Proof.
  induction l as [|x l IH]; intros Hfg; [constructor|]. cbn.
  intros [Hx Hnd]%NoDup_cons. apply NoDup_cons. split.
  - intros (y & Heq & Hy)%list_elem_of_fmap. destruct Hx. apply list_elem_of_fmap. exists y.
    split; [|done]. apply Hfg; [by left|by right|done].
  - apply IH; [|done]. intros; apply Hfg; [by right..|done].
Qed.

Section Serves.
Context `{I : Ipnet, L : !IpnetLaws I}.
Context (policy : Policy) (generation : Z) (exec : list ResolvedExec) (files : list ResolvedFile).
Context (m : policy_maps).

(** The live slot holds the policy's profiles and rules and no others. *)
Record serves : Prop := mk_serves {
  sv_maps : maps_ok m;
  sv_wf : policy_wf policy;
  sv_ids : policy_ids_ok policy;
  sv_compiled : exists c, compile policy generation = inr c;
  sv_exec_ids r : r ∈ exec -> id_ok (re_profile r);
  sv_files_ids r : r ∈ files -> id_ok (rf_profile r);
  sv_profile id prof :
    policy_profile policy id = Some prof ->
    m_profiles m !! profile_index (live_slot m) id =
    Some (profile_value generation (compile_profile prof));
  sv_absent id p :
    id_ok id -> policy_profile policy id = None ->
    m_profiles m !! profile_index (live_slot m) id = Some p -> prof_policy_gen p = 0;
  sv_tries action e r :
    (e, r) ∈ (match action with Deny => m_net_deny | Allow => m_net_allow end m) /\
    slot_of_scope (nk_scope e) = live_slot m <->
    exists x, x ∈ (po_profiles policy ≫= fun p => trie_entries p action) /\
      e = trie_key (live_slot m) x /\ r = trie_value x;
  sv_exec k v :
    slot_of_scope (ek_scope k) = live_slot m ->
    m_exec_allow m !! k = Some v <->
    exists r, r ∈ exec /\ k = exec_slot_key (live_slot m) r /\
      v = mk_rk_exec_rule (re_rule_id r) 0;
  sv_files k v :
    slot_of_scope (fk_scope k) = live_slot m ->
    m_file_protect m !! k = Some v <->
    exists r, r ∈ files /\ k = file_slot_key (live_slot m) r /\
      v = mk_rk_file_rule (rf_rule_id r) (rf_deny_mask r) (b2z (rf_subtree r)) 0 }.

Context (Hsv : serves).

Lemma live_slot_bound : 0 <= live_slot m <= 1.
Proof. destruct (live_slot_range m); lia. Qed.

Lemma serves_live_profile b prof :
  0 <= bind_profile b -> policy_profile policy (bind_profile b) = Some prof ->
  live_profile m b = Some (profile_value generation (compile_profile prof)).
Proof using Hsv.
  intros Hb Hp. pose proof (policy_profile_Some _ _ _ Hp) as [Hin Hid].
  pose proof (sv_ids Hsv prof Hin) as Hok. unfold id_ok in Hok. unfold live_profile.
  rewrite (proj2 (Z.leb_gt _ _)) by (rewrite <- Hid; lia).
  fold (profile_index (live_slot m) (bind_profile b)).
  rewrite (sv_profile Hsv _ _ Hp). cbn.
  destruct (sv_compiled Hsv) as (c & (Hg & _ & _)%compile_inr).
  by rewrite (proj2 (Z.eqb_neq _ _) Hg).
Qed.

Lemma serves_no_profile b :
  0 <= bind_profile b -> policy_profile policy (bind_profile b) = None ->
  live_profile m b = None.
Proof using Hsv.
  intros Hb Hp. unfold live_profile. destruct (Z.leb_spec RK_MAX_PROFILES (bind_profile b)) as [|Hmax]; [done|].
  fold (profile_index (live_slot m) (bind_profile b)).
  destruct (m_profiles m !! _) as [p|] eqn:Hq; [|done]. cbn.
  by rewrite (sv_absent Hsv _ _ (conj Hb Hmax) Hp Hq).
Qed.

(** The decision of the kernel's tries, on every path. *)
Lemma serves_net_decision `{K : BpfKernel} {HK : BpfKernelLaws K} id prof g addr port proto d :
  policy_profile policy id = Some prof -> g_scope g = scope_of (live_slot m) id ->
  g_net_default g = action_value (p_net_default prof) -> octets_ok (normalize addr) ->
  evaluate policy id addr port proto = Some d ->
  net_decision m g (normalize addr) port proto = (action_value (d_action d), d_rule_id d).
Proof using L Hsv.
  intros Hp Hg Hdef Ha He. unfold net_decision. rewrite Hg.
  destruct (sv_compiled Hsv) as (c & (_ & Hfit & _)%compile_inr).
  pose proof (policy_profile_Some _ _ _ Hp) as [Hin _]. specialize (Hfit prof Hin) as [Hfd Hfa].
  pose proof live_slot_bound as Hs. pose proof (sv_maps Hsv) as ((Hsc & _ & _) & _).
  rewrite (deployed_lookup policy id prof Deny (live_slot m)); try done; try apply Hsv; [|by eauto|
    exact (sv_tries Hsv Deny)].
  rewrite (deployed_lookup policy id prof Allow (live_slot m)); try done; try apply Hsv; [|by eauto|
    exact (sv_tries Hsv Allow)].
  revert He. unfold evaluate. rewrite Hp. cbn [mbind option_bind].
  destruct (best_rule prof Deny _ _ _); [by intros [= <-]|].
  destruct (best_rule prof Allow _ _ _); intros [= <-]; [done|]. cbn. rewrite Hdef.
  by destruct (p_net_default prof).
Qed.

End Serves.

(** Only the live slot matters. *)
Lemma serves_slot `{I : Ipnet} policy generation exec files m m' :
  serves policy generation exec files m -> maps_ok m' -> live_slot m' = live_slot m ->
  (forall idx, slot_of_index idx = live_slot m -> m_profiles m !! idx = m_profiles m' !! idx) ->
  (forall e r, slot_of_scope (nk_scope e) = live_slot m ->
     (e, r) ∈ m_net_deny m <-> (e, r) ∈ m_net_deny m') ->
  (forall e r, slot_of_scope (nk_scope e) = live_slot m ->
     (e, r) ∈ m_net_allow m <-> (e, r) ∈ m_net_allow m') ->
  (forall k, slot_of_scope (ek_scope k) = live_slot m -> m_exec_allow m !! k = m_exec_allow m' !! k) ->
  (forall k, slot_of_scope (fk_scope k) = live_slot m -> m_file_protect m !! k = m_file_protect m' !! k) ->
  serves policy generation exec files m'.
Proof.
  intros [_ ? Hids ? ? ? Hp Ha Ht Hx Hf] Hok El Ep Ed Eal Ex Ef.
  pose proof (live_slot_bound m) as Hslot.
  split; try done; rewrite El.
  - intros id prof Hprof. rewrite <- Ep; [by apply Hp|].
    apply policy_profile_Some in Hprof as [Hin <-]. by apply profile_index_slot, Hids.
  - intros id p Hid Hno. rewrite <- Ep; [by apply Ha|]. by apply profile_index_slot.
  - intros action e r. rewrite <- Ht. destruct action; [specialize (Eal e r)|specialize (Ed e r)];
      naive_solver.
  - intros k v Hk. rewrite <- Ex by done. by apply Hx.
  - intros k v Hk. rewrite <- Ef by done. by apply Hf.
Qed.

Lemma serves_quiet `{I : Ipnet} policy generation exec files m m' :
  serves policy generation exec files m -> quiet m m' -> serves policy generation exec files m'.
Proof.
  intros Hsv (Hact & Hag & Hok). assert (live_slot m' = live_slot m) as El
    by (unfold live_slot; by rewrite Hact). destruct Hag. by eapply serves_slot.
Qed.

(** ** What a deployed policy is *)

Section Deployed.
Context `{I : Ipnet, L : !IpnetLaws I}.
Context (policy : Policy) (generation : Z) (c : Compiled).
Context (exec : list ResolvedExec) (files : list ResolvedFile) (n : nat) (s s' : engine).

(** A policy that parsed and compiled, applied by a consistent engine; no map write
    failed. *)
Record deploys : Prop := mk_deploys {
  dp_compiled : compile policy generation = inr c;
  dp_wf : policy_wf policy;
  dp_ids : policy_ids_ok policy;
  dp_exec r : r ∈ exec -> id_ok (re_profile r);
  dp_files r : r ∈ files -> id_ok (rf_profile r);
  dp_exec_keys : NoDup (exec_key <$> exec);
  dp_files_keys : NoDup (file_key <$> files);
  dp_engine : engine_ok s;
  dp_trace : e_trace s = [];
  dp_recorded : recorded (Z.lxor (e_active_slot s) 1) s;
  dp_faults : e_faults s = [];
  dp_applied : apply_compiled c exec files n s = (Some tt, s') }.

Context (Hd : deploys).
Local Abbreviation slot := (Z.lxor (e_active_slot s) 1).

Lemma compiled_entry_ok action e :
  e ∈ (po_profiles policy ≫= fun p => trie_entries p action) ->
  id_ok (en_profile e) /\ 0 <= en_prefix_len e.
Proof using L Hd.
  intros (p & (g & -> & _)%list_elem_of_fmap & Hp)%list_elem_of_bind. cbn.
  pose proof (prefix_len_bound g.1). split; [by apply Hd|lia].
Qed.

Lemma deploys_input : input_ok c exec files.
Proof using L Hd.
  pose proof Hd as [(_ & _ & ->)%compile_inr _ Hids Hx Hf _ _ _ _ _ _ _]. split; try done.
  - intros p (q & -> & Hq)%list_elem_of_fmap. by apply Hids.
  - intros e He. exact (compiled_entry_ok Deny e He).
  - intros e He. exact (compiled_entry_ok Allow e He).
Qed.

Lemma deployed_maps :
  e_maps s' =
  on_active slot (filled slot c exec files (cleared slot (written s slot) (e_maps s))).
Proof using L Hd.
  pose proof deploys_input as Hin. pose proof Hd as [_ _ _ _ _ _ _ Hs _ _ Hf Hap].
  assert (check_capacity (written s (e_active_slot s)) (length (co_deny c))
    (length (co_allow c)) (length exec) (length files) n = true) as Hcap.
  { revert Hap. unfold apply_compiled, get, mbind at 1 2, sensor_bind at 1 2.
    by destruct (check_capacity _ _ _ _ _ _). }
  destruct (apply_does s c exec files n Hs Hf Hin Hcap) as (s2 & Hap' & Hm & _).
  rewrite Hap in Hap'. by injection Hap' as ->.
Qed.

Lemma deployed_slot : 0 <= slot <= 1 /\ live_slot (e_maps s') = slot.
Proof using L Hd.
  destruct (other_slot s (dp_engine Hd)) as [Hs _]. split; [done|].
  rewrite deployed_maps. unfold live_slot. cbn [on_active m_active_slot].
  assert (slot = 0 \/ slot = 1) as [-> | ->] by lia; done.
Qed.

Lemma deployed_tries action e r :
  (e, r) ∈ (match action with Deny => m_net_deny | Allow => m_net_allow end (e_maps s')) /\
  slot_of_scope (nk_scope e) = slot <->
  exists x, x ∈ (po_profiles policy ≫= fun p => trie_entries p action) /\
    e = trie_key slot x /\ r = trie_value x.
Proof using L Hd.
  destruct deployed_slot as [Hs _]. pose proof (dp_recorded Hd) as [Hrd Hra _ _ _].
  pose proof (dp_compiled Hd) as (_ & _ & Hc)%compile_inr.
  rewrite deployed_maps.
  destruct action; [rewrite allow_after|rewrite deny_after]; rewrite Hc;
    (apply trie_after_slot; [done|done|intros x Hx; by eapply compiled_entry_ok|]);
    intros x y Hx Hy; eapply compiled_keys_distinct; by (done || apply Hd).
Qed.

(** The live profile of a binding is the policy's profile with that id. *)
Lemma deployed_profile id prof :
  policy_profile policy id = Some prof ->
  m_profiles (e_maps s') !! profile_index slot id =
  Some (profile_value generation (compile_profile prof)).
Proof using L Hd.
  intros [Hp <-]%policy_profile_Some. rewrite deployed_maps, profiles_after.
  pose proof (dp_compiled Hd) as (_ & _ & ->)%compile_inr. cbn [compiled_of co_profiles co_generation].
  pose proof (dp_wf Hd) as [Hnd _]. generalize (foldl (fun t id => <[profile_index slot id :=
    zero_profile]> t) (m_profiles (e_maps s)) (sc_profiles (written s slot))).
  induction (po_profiles policy) as [|q ps IH] using rev_ind; intros t.
  { by apply elem_of_nil in Hp. }
  rewrite fmap_app, foldl_app. cbn [foldl fmap list_fmap].
  rewrite fmap_app in Hnd. apply NoDup_app in Hnd as (Hnd & Hdisj & _).
  destruct (decide (p_id prof = p_id q)) as [Heq|Hne].
  - apply elem_of_app in Hp as [Hp| ->%list_elem_of_singleton]; [|by rewrite lookup_insert_eq].
    destruct (Hdisj (p_id prof)); [by apply list_elem_of_fmap_2|]. rewrite Heq. by left.
  - rewrite lookup_insert_ne by (intros ?%profile_index_inj; by destruct Hne).
    apply IH; [|done]. by apply elem_of_app in Hp as [?|<-%list_elem_of_singleton].
Qed.

Lemma deployed_engine_ok : engine_ok s'.
Proof using L Hd.
  pose proof (apply_engine_ok s c exec files n (dp_engine Hd) (dp_trace Hd) deploys_input) as H.
  by rewrite (dp_applied Hd) in H.
Qed.

(** A profile the policy does not have is not live, whatever the slot held before. *)
Lemma deployed_absent id p :
  id_ok id -> policy_profile policy id = None ->
  m_profiles (e_maps s') !! profile_index slot id = Some p -> prof_policy_gen p = 0.
Proof using L Hd.
  intros Hid Hp. rewrite deployed_maps, profiles_after.
  pose proof (dp_compiled Hd) as (_ & _ & ->)%compile_inr. cbn [compiled_of co_profiles].
  assert (forall p, p ∈ po_profiles policy -> p_id p <> id) as Hno.
  { intros q Hin Hq. unfold policy_profile in Hp. apply head_None in Hp.
    apply (not_elem_of_nil q). rewrite <- Hp. by apply list_elem_of_filter. }
  rewrite (foldl_insert_other (fun p => profile_index slot (cp_id p))).
  2:{ intros p' (q & -> & Hq)%list_elem_of_fmap ?%profile_index_inj. by apply (Hno q). }
  destruct (decide (id ∈ sc_profiles (written s slot))) as [Hin|Hout].
  - rewrite (foldl_insert_const _ (profile_index slot)) by done. by intros [= <-].
  - rewrite (foldl_insert_other (profile_index slot)).
    2:{ intros id' Hid' ->%profile_index_inj. done. }
    intros Hq. destruct (Z.eq_dec (prof_policy_gen p) 0); [done|]. destruct Hout.
    by eapply (rec_profiles _ _ (dp_recorded Hd)).
Qed.

Lemma deployed_exec k v :
  slot_of_scope (ek_scope k) = slot ->
  m_exec_allow (e_maps s') !! k = Some v <->
  exists r, r ∈ exec /\ k = exec_slot_key slot r /\ v = mk_rk_exec_rule (re_rule_id r) 0.
Proof using L Hd.
  rewrite deployed_maps, exec_after. destruct deployed_slot as [Hs _].
  apply (lookup_after (fun k => slot_of_scope (ek_scope k))).
  - apply (NoDup_fmap_keys exec_key); [|apply Hd]. intros x y Hx Hy [= Hsc Hdev Hino].
    apply scope_of_inj in Hsc as [_ Hp]; [|done|done|by apply Hd|by apply Hd].
    unfold exec_key. congruence.
  - intros r Hr. by apply slot_of_scope_of, (dp_exec Hd).
  - apply Hd.
Qed.

Lemma deployed_files k v :
  slot_of_scope (fk_scope k) = slot ->
  m_file_protect (e_maps s') !! k = Some v <->
  exists r, r ∈ files /\ k = file_slot_key slot r /\
    v = mk_rk_file_rule (rf_rule_id r) (rf_deny_mask r) (b2z (rf_subtree r)) 0.
Proof using L Hd.
  rewrite deployed_maps, files_after. destruct deployed_slot as [Hs _].
  apply (lookup_after (fun k => slot_of_scope (fk_scope k))).
  - apply (NoDup_fmap_keys file_key); [|apply Hd]. intros x y Hx Hy [= Hsc Hdev Hino].
    apply scope_of_inj in Hsc as [_ Hp]; [|done|done|by apply Hd|by apply Hd].
    unfold file_key. congruence.
  - intros r Hr. by apply slot_of_scope_of, (dp_files Hd).
  - apply Hd.
Qed.

Lemma deploys_serves : serves policy generation exec files (e_maps s').
Proof using L Hd.
  destruct deployed_slot as [Hs Hlive].
  split; rewrite ?Hlive; try apply Hd.
  - apply deployed_engine_ok.
  - exists c. apply Hd.
  - apply deployed_profile.
  - apply deployed_absent.
  - apply deployed_tries.
  - apply deployed_exec.
  - apply deployed_files.
Qed.

End Deployed.

(** ** The record survives an apply *)

Lemma written_set_written slot slot' c s :
  0 <= slot <= 1 -> 0 <= slot' <= 1 ->
  written (set_written slot c s) slot' = if slot =? slot' then c else written s slot'.
Proof.
  intros Hs Hs'. unfold written, set_written.
  assert (slot = 0 \/ slot = 1) as [-> | ->] by lia;
    assert (slot' = 0 \/ slot' = 1) as [-> | ->] by lia; done.
Qed.

Lemma set_written_maps slot c s : e_maps (set_written slot c s) = e_maps s.
Proof. unfold set_written. by destruct (slot =? 0). Qed.

Lemma trie_recorded_mono slot ks ks' t :
  (forall k, k ∈ ks -> k ∈ ks') -> trie_recorded slot ks t -> trie_recorded slot ks' t.
Proof. intros Hks Hr e r He Hs. destruct (Hr e r He Hs) as (k & ? & ?). eauto. Qed.

Lemma trie_recorded_insert slot ks k v t :
  k ∈ ks -> trie_recorded slot ks t -> trie_recorded slot ks (trie_insert k v t).
Proof.
  intros Hk Hr e r [[-> ->]|[He _]]%elem_of_trie_insert Hs; [|eauto].
  exists k. split; [done|]. by split.
Qed.

(** A key that is appended to the record, and what the record says of it afterwards. *)
Ltac recorded_pushed :=
  let s := fresh "s" in intros s [Hd Ha Hp Hx Hfl];
  split; rewrite written_set_written, Z.eqb_refl, set_written_maps by done;
  solve [done | eapply trie_recorded_mono; [|done]; cbn; set_solver
        | intros; cbn; apply elem_of_app; left; eauto].

Ltac recorded_written :=
  let s := fresh "s" in let c := fresh "c" in intros s c [Hd Ha Hp Hx Hfl];
  rewrite set_written_maps in *; split; cbn [set_maps e_maps on_deny on_allow on_profiles on_exec
    on_files m_net_deny m_net_allow m_profiles m_exec_allow m_file_protect]; try done.

Ltac recorded_new :=
  match goal with |- context [written (set_maps ?f ?x) ?slot] =>
    change (written (set_maps f x) slot) with (written x slot) end;
  rewrite written_set_written, Z.eqb_refl by done; cbn; apply elem_of_app; right; left.

Section Record.
Context (slot : Z) (Hslot : 0 <= slot <= 1).

(** A key that is recorded first and then written stays recorded, whether or not the
    write succeeds. *)
Lemma recorded_push push f :
  (forall s, recorded slot s -> recorded slot (set_written slot (push (written s slot)) s)) ->
  (forall s c, recorded slot (set_written slot (push c) s) ->
     recorded slot (set_maps (f (e_maps s)) (set_written slot (push c) s))) ->
  Keeps (recorded slot) (record slot push;; must f).
Proof using Hslot.
  intros Hpush Hf s Hs. specialize (Hpush s Hs).
  unfold record, modify, must, syscall, mbind, sensor_bind. cbn.
  destruct (default false _); cbn; [by destruct Hpush|].
  rewrite set_written_maps. by apply Hf.
Qed.

Lemma recorded_exec k v :
  Keeps (recorded slot) (record slot (push_exec k);; must (on_exec (<[k := v]>))).
Proof using Hslot.
  apply recorded_push; [recorded_pushed|recorded_written].
  intros k' v' [[<- <-]|[_ Hl]]%lookup_insert_Some Hsl; [by recorded_new|by eapply Hx].
Qed.

Lemma recorded_files k v :
  Keeps (recorded slot) (record slot (push_files k);; must (on_files (<[k := v]>))).
Proof using Hslot.
  apply recorded_push; [recorded_pushed|recorded_written].
  intros k' v' [[<- <-]|[_ Hl]]%lookup_insert_Some Hsl; [by recorded_new|by eapply Hfl].
Qed.

Lemma recorded_deny k v :
  Keeps (recorded slot) (record slot (push_deny k);; must (on_deny (trie_insert k v))).
Proof using Hslot.
  apply recorded_push; [recorded_pushed|recorded_written].
  apply trie_recorded_insert; [|done]. by recorded_new.
Qed.

Lemma recorded_allow k v :
  Keeps (recorded slot) (record slot (push_allow k);; must (on_allow (trie_insert k v))).
Proof using Hslot.
  apply recorded_push; [recorded_pushed|recorded_written].
  apply trie_recorded_insert; [|done]. by recorded_new.
Qed.

Lemma recorded_profile id v :
  id_ok id ->
  Keeps (recorded slot) (record slot (push_profile id);; set_profile (profile_index slot id) v).
Proof using Hslot.
  intros Hid. unfold set_profile.
  destruct (profile_index_slot slot id Hslot Hid) as [_ [Hlo Hhi]].
  rewrite (proj2 (Z.leb_le _ _) Hlo), (proj2 (Z.ltb_lt _ _) Hhi). cbn [andb].
  apply recorded_push; [recorded_pushed|recorded_written].
  intros id' p Hid'. destruct (decide (id = id')) as [<-|Hne]; [intros _ _; by recorded_new|].
  rewrite lookup_insert_ne by (by intros ?%profile_index_inj). by apply Hp.
Qed.

Lemma recorded_drop_fault s : recorded slot s -> recorded slot (drop_fault s).
Proof. intros [Hd Ha Hp Hx Hfl]. by split. Qed.

Lemma recorded_open_map : Keeps (recorded slot) open_map.
Proof. apply keeps_open_map, recorded_drop_fault. Qed.

Lemma write_slot_recorded c exec files :
  input_ok c exec files -> Keeps (recorded slot) (write_slot slot c exec files).
Proof using Hslot.
  intros [Hp _ _ _ _]. unfold write_slot. repeat (apply sensor_keeps_bind; [|intros _]);
    try apply recorded_open_map; apply keeps_for_each; intros x Hx.
  - apply recorded_files.
  - apply recorded_exec.
  - by apply recorded_profile, Hp.
  - apply recorded_deny.
  - apply recorded_allow.
Qed.

(** Once the slot is cleared, nothing is left to record. *)
Lemma cleared_recorded s m :
  recorded slot s -> e_maps m = cleared slot (written s slot) (e_maps s) -> recorded slot m.
Proof using Hslot.
  intros [Hd Ha Hp Hx Hfl] Hm. split; rewrite Hm; unfold cleared.
  - do 4 (rewrite foldl_keep by done). rewrite (foldl_proj m_net_deny _ trie_remove) by done.
    intros e r [Hin Hno]%elem_of_removed Hs. destruct (Hd e r Hin Hs) as (k & Hk & ?).
    by destruct (Hno k Hk).
  - do 3 (rewrite foldl_keep by done). rewrite (foldl_proj m_net_allow _ trie_remove) by done.
    rewrite foldl_keep by done.
    intros e r [Hin Hno]%elem_of_removed Hs. destruct (Ha e r Hin Hs) as (k & Hk & ?).
    by destruct (Hno k Hk).
  - intros id p Hid.
    rewrite (foldl_proj m_profiles _ (fun id => <[profile_index slot id := zero_profile]>)) by done.
    do 4 (rewrite foldl_keep by done).
    destruct (decide (id ∈ sc_profiles (written s slot))) as [Hin|Hout].
    + rewrite (foldl_insert_const _ (profile_index slot)) by done. by intros [= <-].
    + rewrite (foldl_insert_other (profile_index slot))
        by (intros id' Hid' ->%profile_index_inj; done).
      intros Hl Hg. destruct Hout. by eapply Hp.
  - intros k v. do 2 (rewrite foldl_keep by done). rewrite (foldl_proj m_exec_allow _ delete) by done.
    do 2 (rewrite foldl_keep by done). intros [Hl Hno]%lookup_foldl_delete Hs.
    destruct Hno. by eapply Hx.
  - intros k v. rewrite foldl_keep by done. rewrite (foldl_proj m_file_protect _ delete) by done.
    do 3 (rewrite foldl_keep by done). intros [Hl Hno]%lookup_foldl_delete Hs.
    destruct Hno. by eapply Hfl.
Qed.

End Record.

(** Writing one slot leaves the record of the other alone. *)
Lemma written_kept slot other w {A} (m : sensor A) :
  0 <= slot <= 1 -> 0 <= other <= 1 -> slot <> other ->
  (forall I : engine -> Prop,
     (forall f, Keeps I (record slot f)) -> (forall f, Keeps I (syscall f)) ->
     Keeps I open_map -> Keeps I m) ->
  Keeps (fun s => written s other = w) m.
Proof.
  intros Hs Ho Hne Hm. apply Hm.
  - intros f s. cbn. rewrite written_set_written by done.
    by rewrite (proj2 (Z.eqb_neq _ _) Hne).
  - intros f. by apply keeps_syscall.
  - by apply keeps_open_map.
Qed.

Lemma set_profile_any (I : engine -> Prop) idx v :
  (forall f, Keeps I (syscall f)) -> Keeps I (set_profile idx v).
Proof.
  intros Hs. unfold set_profile. destruct (_ && _); [apply keeps_must, Hs|apply keeps_fail].
Qed.

Lemma clear_slot_any (I : engine -> Prop) slot :
  (forall f, Keeps I (record slot f)) -> (forall f, Keeps I (syscall f)) ->
  Keeps I open_map -> Keeps I (clear_slot slot).
Proof.
  intros Hr Hs Ho. apply (keeps_get _ _ (fun _ => True)); [done|]. intros c _.
  unfold clear_contents. repeat (apply sensor_keeps_bind; [|intros _]); [apply Hr|..];
    try apply Ho; apply keeps_for_each; intros; auto using keeps_ignore, set_profile_any.
Qed.

Lemma write_slot_any (I : engine -> Prop) slot c exec files :
  (forall f, Keeps I (record slot f)) -> (forall f, Keeps I (syscall f)) ->
  Keeps I open_map -> Keeps I (write_slot slot c exec files).
Proof.
  intros Hr Hs Ho. unfold write_slot. repeat (apply sensor_keeps_bind; [|intros _]);
    try apply Ho; apply keeps_for_each; intros; apply sensor_keeps_bind; auto using keeps_must, set_profile_any.
Qed.

Lemma recorded_agree slot s s' :
  0 <= slot <= 1 -> recorded slot s -> agree slot (e_maps s) (e_maps s') ->
  written s' slot = written s slot -> recorded slot s'.
Proof.
  intros Hs [Hd Ha Hp Hx Hfl] Hag Hw. split; rewrite Hw.
  - intros e r He Hsl. apply (agree_deny _ _ _ Hag) in He; eauto.
  - intros e r He Hsl. apply (agree_allow _ _ _ Hag) in He; eauto.
  - intros id p Hid. rewrite <- (agree_profiles _ _ _ Hag); [by apply Hp|].
    by apply profile_index_slot.
  - intros k v Hl Hsl. rewrite <- (agree_exec _ _ _ Hag) in Hl by done. by eapply Hx.
  - intros k v Hl Hsl. rewrite <- (agree_files _ _ _ Hag) in Hl by done. by eapply Hfl.
Qed.

Lemma recorded_commit slot slot' gen s :
  recorded slot' s ->
  recorded slot' (set_live slot gen (set_maps (on_active slot (e_maps s)) s)).
Proof. by intros [Hd Ha Hp Hx Hfl]. Qed.

(** Before the commit point: the slot being written is recorded as it is filled, the
    live one is untouched. *)
Lemma apply_recorded_steps s c exec files :
  engine_ok s -> e_trace s = [] -> e_faults s = [] -> input_ok c exec files ->
  let other := Z.lxor (e_active_slot s) 1 in
  recorded (e_active_slot s) s -> recorded other s ->
  exists s1 s2,
    clear_slot other s = (Some tt, s1) /\ write_slot other c exec files s1 = (Some tt, s2) /\
    e_faults s2 = [] /\ recorded (e_active_slot s) s2 /\ recorded other s2.
Proof.
  intros Hs Ht Hf Hin other Hlive Hother. destruct (other_slot s Hs) as [Hslot Hne].
  fold other in Hslot, Hne. pose proof (eo_slot _ Hs) as Hact.
  assert (contents_of_slot other (written s other)) as Hc.
  { unfold written. destruct Hs. destruct (Z.eqb_spec other 0) as [->|]; [done|].
    by replace other with 1 by lia. }
  assert (applying (e_maps s) s) as H0.
  { pose proof (engine_live s Hs). destruct Hs.
    split_and!; [by apply quiet_refl|by rewrite Ht|done..]. }
  destruct (clear_contents_does other _ Hslot Hc s Hf) as (s1 & H1 & Hm1 & Hf1).
  change (clear_contents other (written s other) s) with (clear_slot other s) in H1.
  destruct (write_slot_does other c exec files Hslot Hin s1 Hf1) as (s2 & H2 & _ & Hf2).
  exists s1, s2. split_and!; [done..| |].
  - pose proof (clear_slot_quiet _ _ Hslot Hne s H0) as Hq1. rewrite H1 in Hq1.
    pose proof (write_slot_quiet _ _ Hslot Hne c exec files Hin s1 Hq1) as Hq2.
    rewrite H2 in Hq2. rewrite (engine_live s Hs) in Hne.
    destruct Hq2 as ((_ & Hag & _) & _). rewrite (engine_live s Hs) in Hag.
    eapply recorded_agree; [done..|].
    pose proof (written_kept other (e_active_slot s) (written s (e_active_slot s))
      (clear_slot other) Hslot Hact Hne (fun I => clear_slot_any I other) s eq_refl) as Hw1.
    rewrite H1 in Hw1.
    pose proof (written_kept other (e_active_slot s) (written s (e_active_slot s)) _
      Hslot Hact Hne (fun I => write_slot_any I other c exec files) s1 Hw1) as Hw2.
    by rewrite H2 in Hw2.
  - pose proof (write_slot_recorded other Hslot c exec files Hin s1
      (cleared_recorded other Hslot s s1 Hother Hm1)) as Hr.
    by rewrite H2 in Hr.
Qed.

Lemma apply_recorded s c exec files n :
  engine_ok s -> e_trace s = [] -> e_faults s = [] -> input_ok c exec files ->
  (forall slot, 0 <= slot <= 1 -> recorded slot s) ->
  forall slot, 0 <= slot <= 1 -> recorded slot (apply_compiled c exec files n s).2.
Proof.
  intros Hs Ht Hf Hin Hrec slot Hsl. destruct (other_slot s Hs) as [Hslot Hne].
  rewrite (engine_live s Hs) in Hne. pose proof (eo_slot _ Hs) as Hact.
  destruct (apply_recorded_steps s c exec files Hs Ht Hf Hin (Hrec _ Hact) (Hrec _ Hslot))
    as (s1 & s2 & H1 & H2 & Hf2 & Hr1 & Hr2).
  unfold apply_compiled, get, mbind, sensor_bind. destruct (negb _); [by apply Hrec|].
  rewrite H1, H2. unfold open_map. rewrite Hf2. cbn [head default].
  unfold must, syscall, mbind, sensor_bind. cbn [drop_fault e_faults]. rewrite Hf2.
  cbn [head tail default modify mret sensor_ret snd].
  apply recorded_commit, recorded_drop_fault.
  destruct (decide (slot = e_active_slot s)) as [->|]; [done|].
  by replace slot with (Z.lxor (e_active_slot s) 1) by lia.
Qed.

(** ** The network programs under a deployed policy *)

(** The destination a network program decides on. *)
Definition destination (p : rk_program) : option (bpf_sock_addr * IpAddr) :=
  match p with
  | Connect4 ctx | Sendmsg4 ctx => Some (ctx, V4 (le_bytes 4 (user_ip4 ctx)))
  | Connect6 ctx | Sendmsg6 ctx =>
      Some (ctx, V6 (le_bytes 4 (user_ip6_0 ctx) ++ le_bytes 4 (user_ip6_1 ctx) ++
                     le_bytes 4 (user_ip6_2 ctx) ++ le_bytes 4 (user_ip6_3 ctx)))
  | _ => None
  end.

Lemma sock_addr_ok ctx v6 : octets_ok (sock_addr_bytes ctx v6).
Proof.
  unfold sock_addr_bytes. split.
  - destruct v6; by rewrite !length_app, !length_le_bytes.
  - assert (forall n v, Forall byte_ok (le_bytes n v)) as Hle by apply le_bytes_ok.
    destruct v6; rewrite !Forall_app; split_and!; try apply Hle;
      repeat constructor; unfold byte_ok; lia.
Qed.

Lemma destination_result `{K : BpfKernel} p ctx addr w :
  destination p = Some (ctx, addr) ->
  octets_ok (normalize addr) /\
  result (entry p) w =
  match result rk_governance w with
  | None => permit p
  | Some g =>
      if rk_enforced_deny g (net_decision (w_maps w) g (normalize addr)
           (bpf_ntohs (u16 (user_port ctx))) (rk_proto_bit (sa_protocol ctx))).1
      then refuse p else permit p
  end.
Proof.
  destruct p; try discriminate; intros [= <- <-]; cbn [entry permit refuse].
  - split; [apply (sock_addr_ok _ false)|apply (sock_addr_result _ false)].
  - split; [apply (sock_addr_ok _ true)|apply (sock_addr_result _ true)].
  - split; [apply (sock_addr_ok _ false)|apply (sock_addr_result _ false)].
  - split; [apply (sock_addr_ok _ true)|apply (sock_addr_result _ true)].
Qed.

Section EndToEnd.
Context `{I : Ipnet, L : !IpnetLaws I} `{K : BpfKernel} {HK : BpfKernelLaws K}.

(** A connect or sendmsg of a task governed by one of the policy's profiles is refused
    exactly when the profile enforces and either the heartbeat is stale or the reference
    semantics denies the destination. *)
Lemma serves_decides policy generation exec files w p ctx addr b governed prof d
    (Hd : serves policy generation exec files (w_maps w))
    (Hb : result (rk_governed_binding (k_cgroup_id (w_env w))) w = Some (b, governed))
    (Hp : policy_profile policy (bind_profile b) = Some prof)
    (Hdest : destination p = Some (ctx, addr))
    (He : evaluate policy (bind_profile b) addr (bpf_ntohs (u16 (user_port ctx)))
            (rk_proto_bit (sa_protocol ctx)) = Some d) :
  result (entry p) w =
  match p_mode prof with
  | Audit => permit p
  | Enforce =>
      if (result rk_heartbeat_stale w =? 0) && bool_decide (d_action d = Allow)
      then permit p else refuse p
  end.
Proof using L HK.
  destruct (destination_result p ctx addr w Hdest) as [Ha ->].
  pose proof (sv_maps _ _ _ _ _ Hd) as (_ & Hwf & _).
  rewrite governance_spec, Hb by done. apply governed_binding_bound, Hwf in Hb.
  unfold governance_context.
  rewrite (serves_live_profile _ _ _ _ _ Hd b prof) by (done || lia).
  erewrite (serves_net_decision _ _ _ _ _ Hd); [|done..]. cbn [fst].
  rewrite enforced_deny_eq. generalize (result rk_heartbeat_stale w). intros stale.
  cbn [g_mode g_stale profile_value prof_mode compile_profile cp_mode].
  destruct (p_mode prof); cbn; [done|].
  destruct (Z.eqb_spec stale 0) as [->|Hst], (d_action d); cbn;
    try (rewrite bool_decide_true by (split; [done|auto]); done).
  rewrite bool_decide_false; [done|]. by intros [_ [?|?]].
Qed.

(** A binding whose profile the new policy no longer has fails closed after the
    apply: no stale profile of an earlier use of the slot can govern it. *)
Lemma removed_profile_fails_closed policy generation c exec files n s s' w b governed
    (Hd : deploys policy generation c exec files n s s')
    (Hw : w_maps w = e_maps s')
    (Hb : result (rk_governed_binding (k_cgroup_id (w_env w))) w = Some (b, governed))
    (Hp : policy_profile policy (bind_profile b) = None) :
  result rk_governance w = Some (fail_closed_gov governed (result rk_heartbeat_stale w)).
Proof using L.
  pose proof (deploys_serves _ _ _ _ _ _ _ _ Hd) as Hsv. rewrite <- Hw in Hsv.
  pose proof (sv_maps _ _ _ _ _ Hsv) as (_ & Hwf & _).
  rewrite governance_spec, Hb by done. apply governed_binding_bound, Hwf in Hb.
  unfold governance_context.
  by rewrite (serves_no_profile _ _ _ _ _ Hsv b) by (done || lia).
Qed.

End EndToEnd.

(** An apply keeps the engine's record of both slots complete: every rule and every
    live profile the maps hold in a slot is on the record by which the slot will be
    cleared before its next use. *)
Lemma apply_keeps_slots_recorded s c exec files n
    (Hs : engine_ok s) (Ht : e_trace s = []) (Hf : e_faults s = [])
    (Hin : input_ok c exec files)
    (Hrec : forall slot, 0 <= slot <= 1 -> recorded slot s) :
  forall slot, 0 <= slot <= 1 -> recorded slot (apply_compiled c exec files n s).2.
Proof. by apply apply_recorded. Qed.
