(* ===== verification/Validated.v ===== *)
(** * What a parsed policy guarantees

    Every policy [parse] returns is one the compiler and the engine can rely on: profile
    ids are stable, distinct and in range, prefixes have no host bits, rule ids lead back
    to their origin, bindings name existing profiles. *)

From S2P Require Import Prelude Text Abi Bpf Lpm Scenario Logic Common Governance Net Exec.
From S2P Require Import File Guard Object Enforcement Ipnet Addr Policy Cidr Parse Flatten.
From S2P Require Import Reload Apply Deploy.
Open Scope string_scope.
Open Scope list_scope.
Open Scope Z_scope.

(** ** The parser monad *)

Section Monad.
Context {I : Ipnet}.

Lemma bind_inr {A B} (m : parser A) (f : A -> parser B) st b st' :
  parser_bind A B f m st = (inr b, st') <->
  exists a st1, m st = (inr a, st1) /\ f a st1 = (inr b, st').
Proof.
  unfold parser_bind. destruct (m st) as [[e|a] st1]; naive_solver.
Qed.

Lemma lift_inr {A} ctx (r : Message + A) st a st' :
  lift ctx r st = (inr a, st') <-> r = inr a /\ st' = st.
Proof.
  destruct r; cbv [lift raise mret parser_ret].
  - split; [done|by intros [? _]].
  - split; [by intros [= -> ->]|by intros [[= ->] ->]].
Qed.

(** ** What every parser keeps *)

Definition ids_ok (ids : ProfileIds) : Prop :=
  0 <= pi_next ids <= MAX_PROFILES /\
  (forall name id, pi_ids ids !! name = Some id -> 0 <= id < pi_next ids) /\
  (forall n1 n2 id, pi_ids ids !! n1 = Some id -> pi_ids ids !! n2 = Some id -> n1 = n2).

(** The counter is one more than the number of origins, and every origin carries the
    value it had (at 32 bits). *)
Definition counter_ok (st : pstate) : Prop :=
  ps_next_rule st = u32 (1 + Z.of_nat (length (ps_origins st))) /\
  forall k o, ps_origins st !! k = Some o -> ro_id o = u32 (1 + Z.of_nat k).

Definition pstate_ok (st : pstate) : Prop := ids_ok (ps_ids st) /\ counter_ok st.

Definition step (st st' : pstate) : Prop :=
  pstate_ok st' /\ pi_ids (ps_ids st) ⊆ pi_ids (ps_ids st') /\
  ps_origins st `prefix_of` ps_origins st'.

Lemma step_refl st : pstate_ok st -> step st st.
Proof. done. Qed.

Lemma step_trans st1 st2 st3 : step st1 st2 -> step st2 st3 -> step st1 st3.
Proof. intros (_ & H1 & H2) (? & H3 & H4). split_and!; [done|by etrans..]. Qed.

(** Whether it succeeds or fails. *)
Class Steps {A} (m : parser A) : Prop :=
  steps st : pstate_ok st -> step st (m st).2.

#[export] Instance steps_ret {A} (a : A) : Steps (parser_ret A a).
Proof. intros st. apply step_refl. Qed.

#[export] Instance steps_raise {A} ctx e : Steps (A:=A) (raise ctx e).
Proof. intros st. apply step_refl. Qed.

#[export] Instance steps_lift {A} ctx (r : Message + A) : Steps (lift ctx r).
Proof. destruct r; apply _. Qed.

#[export] Instance steps_bind {A B} (m : parser A) (f : A -> parser B) :
  Steps m -> (forall a, Steps (f a)) -> Steps (parser_bind A B f m).
Proof.
  intros Hm Hf st Hst. unfold parser_bind. specialize (Hm st Hst).
  destruct (m st) as [[e|a] st1]; [done|]. eapply step_trans; [done|]. apply Hf, Hm.
Qed.

#[export] Instance steps_for_enumerate {A B} (f : nat -> A -> parser (list B)) i l :
  (forall i x, Steps (f i x)) -> Steps (for_enumerate f i l).
Proof.
  intros Hf. revert i. induction l as [|x l IH]; intros i; [apply steps_ret|].
  apply steps_bind; [apply Hf|]. intros xs. apply steps_bind; [apply IH|].
  intros rest. apply steps_ret.
Qed.

#[export] Instance steps_for_lists {A} (f : string -> parser (list A)) seen names :
  (forall name, Steps (f name)) -> Steps (for_lists f seen names).
Proof.
  intros Hf. revert seen. induction names as [|n names IH]; intros seen; [apply steps_ret|].
  cbn [for_lists]. case_decide; [apply IH|].
  apply steps_bind; [apply Hf|]. intros xs. apply steps_bind; [apply IH|].
  intros rest. apply steps_ret.
Qed.

Lemma id_of_ok ids name :
  ids_ok ids ->
  ids_ok (id_of ids name).2 /\ pi_ids ids ⊆ pi_ids (id_of ids name).2 /\
  forall id, (id_of ids name).1 = inr id -> pi_ids (id_of ids name).2 !! name = Some id.
Proof.
  intros (Hb & Hr & Hinj). unfold id_of.
  destruct (pi_ids ids !! name) as [id|] eqn:Hn; cbn.
  { split_and!; try done. by intros ? [= <-]. }
  destruct (Z.leb_spec MAX_PROFILES (pi_next ids)) as [|Hlt]; cbn; [done|].
  unfold ids_ok, MAX_PROFILES in *; cbn. rewrite u32_small by lia. split; [split; [|split]|split].
  - lia.
  - intros n id [[_ <-]|[_ H]]%lookup_insert_Some; [lia|]. apply Hr in H. lia.
  - intros n1 n2 id [[<- <-]|[? H1]]%lookup_insert_Some [[<- ?]|[? H2]]%lookup_insert_Some;
      [done|apply Hr in H2; lia|apply Hr in H1; lia|by eapply Hinj].
  - by apply insert_subseteq.
  - intros id [= <-]. apply lookup_insert_eq.
Qed.

#[export] Instance steps_profile_id name : Steps (profile_id name).
Proof.
  intros st [Hids Hc]. unfold profile_id. 
  destruct (id_of_ok (ps_ids st) name Hids) as (H1 & H2 & _).
  by destruct (id_of (ps_ids st) name) as [r ids].
Qed.

#[export] Instance steps_new_rule profile origin : Steps (new_rule profile origin).
Proof.
  intros st [Hids [Hn Ho]]. split; [split; [done|split; cbn]|split; cbn; [done|by eexists]].
  - rewrite Hn, length_app. unfold u32. rewrite Zplus_mod_idemp_l. cbn. f_equal. lia.
  - intros k o [H|[Hk H]]%lookup_app_Some; [by apply Ho|].
    apply list_lookup_singleton_Some in H as [Hk0 <-]. cbn. rewrite Hn. do 2 f_equal. lia.
Qed.

End Monad.

(** Solves [Steps] of a program built from the operations. *)
Ltac solve_steps :=
  repeat first
    [ progress intros
    | apply steps_bind | apply steps_ret | apply steps_raise | apply steps_lift
    | apply steps_for_enumerate | apply steps_for_lists
    | apply steps_profile_id | apply steps_new_rule
    | progress case_decide | case_match ].

Section Specs.
Context {I : Ipnet} {S : IpnetStr I} {T : Toml}.

#[export] Instance steps_push ctx name nat64 action cidr ports proto origin :
  Steps (push ctx name nat64 action cidr ports proto origin).
Proof. unfold push. solve_steps. Qed.

#[export] Instance steps_push_list ctx name nat64 list_name :
  Steps (push_list ctx name nat64 list_name).
Proof. unfold push_list. solve_steps; apply _. Qed.

#[export] Instance steps_push_rules ctx name nat64 action key rules :
  Steps (push_rules ctx name nat64 action key rules).
Proof. unfold push_rules. solve_steps; apply _. Qed.

#[export] Instance steps_parse_network ctx name net : Steps (parse_network ctx name net).
Proof. unfold parse_network. solve_steps; apply _. Qed.

#[export] Instance steps_push_file ctx profile optional r origin :
  Steps (push_file ctx profile optional r origin).
Proof. unfold push_file. solve_steps. Qed.

#[export] Instance steps_parse_files ff has_exec ctx profile :
  Steps (parse_files ff has_exec ctx profile).
Proof. unfold parse_files, push_files_list. solve_steps; apply steps_push_file. Qed.

#[export] Instance steps_parse_exec_section exec ctx name :
  Steps (parse_exec_section exec ctx name).
Proof. unfold parse_exec_section, parse_exec, push_exec_paths. solve_steps. Qed.

#[export] Instance steps_parse_profile name pf : Steps (parse_profile name pf).
Proof. unfold parse_profile. solve_steps; apply _. Qed.

#[export] Instance steps_quarantine_profile : Steps quarantine_profile.
Proof. unfold quarantine_profile. solve_steps; apply _. Qed.

#[export] Instance steps_parse_profiles file : Steps (parse_profiles file).
Proof. unfold parse_profiles. solve_steps; apply _. Qed.

#[export] Instance steps_parse_bindings profiles seen i bindings :
  Steps (parse_bindings profiles seen i bindings).
Proof.
  revert seen i. induction bindings; intros seen i; cbn [parse_bindings]; solve_steps. auto.
Qed.

#[export] Instance steps_parse_namespaces profiles out namespaces :
  Steps (parse_namespaces profiles out namespaces).
Proof.
  revert out. induction namespaces as [|[ns rule] l IH]; intros out;
    cbn [parse_namespaces]; solve_steps. auto.
Qed.

#[export] Instance steps_parse_file file : Steps (parse_file file).
Proof.
  unfold parse_file. solve_steps; try apply _. intros st Hst. by apply step_refl.
Qed.

(** ** Rule ids *)

(** The id was issued to the profile between the two states. *)
Definition issued (st st' : pstate) (profile : string) (id : Z) : Prop :=
  exists k o, ps_origins st' !! k = Some o /\ (length (ps_origins st) <= k)%nat /\
    ro_id o = id /\ ro_profile o = profile.

Lemma issued_mono st0 st st' st1 profile id :
  step st0 st -> step st' st1 -> issued st st' profile id -> issued st0 st1 profile id.
Proof.
  intros (_ & _ & Hl%prefix_length) (_ & _ & Hl') (k & o & Hk & Hle & ? & ?).
  exists k, o. split_and!; [by eapply prefix_lookup_Some|lia|done..].
Qed.

Lemma new_rule_inr profile origin st id st' :
  new_rule profile origin st = (inr id, st') -> issued st st' profile id.
Proof.
  intros [= <- <-]. exists (length (ps_origins st)), (mk_RuleOrigin (ps_next_rule st) profile origin).
  cbn. split_and!; [|done..]. by rewrite lookup_app_r, Nat.sub_diag by done.
Qed.

(** What a loop that succeeds did: each element's body ran, in order, on the way from
    the first state to the last. *)
Inductive visits {A B} (f : nat -> A -> parser (list B))
    : nat -> list A -> pstate -> list B -> pstate -> Prop :=
| visits_nil i st : visits f i [] st [] st
| visits_cons i x l st xs st1 rest st2 :
    f i x st = (inr xs, st1) -> visits f (i + 1)%nat l st1 rest st2 ->
    visits f i (x :: l) st (xs ++ rest) st2.

Lemma for_enumerate_inr {A B} (f : nat -> A -> parser (list B)) i l st out st' :
  for_enumerate f i l st = (inr out, st') -> visits f i l st out st'.
Proof.
  revert i st out. induction l as [|x l IH]; intros i st out.
  { intros [= <- <-]. constructor. }
  intros (xs & st1 & Hx & (rest & st2 & Hl & [= <- <-])%bind_inr)%bind_inr.
  econstructor; [done|]. by apply IH.
Qed.

(** One element's run, and how it sits in the loop's. *)
Definition visited {A B} (f : nat -> A -> parser (list B)) (x : A)
    (st : pstate) (xs : list B) (st' : pstate) : Prop :=
  exists i st1 st2, step st st1 /\ pstate_ok st1 /\
    f i x st1 = (inr xs, st2) /\ step st2 st'.

Lemma run_step {A} (m : parser A) st a st' :
  Steps m -> pstate_ok st -> m st = (inr a, st') -> step st st'.
Proof. intros Hm Hst Heq. pose proof (Hm st Hst) as Hs. by rewrite Heq in Hs. Qed.

Lemma step_ok st st' : step st st' -> pstate_ok st'.
Proof. by intros [? _]. Qed.

Section Loop.
Context {A B : Type} (f : nat -> A -> parser (list B)) `{Hf : !forall i x, Steps (f i x)}.

Lemma visits_step i l st out st' :
  pstate_ok st -> visits f i l st out st' -> step st st'.
Proof using Hf.
  intros Hst Hv. induction Hv as [|i x l st xs st1 rest st2 Hx Hv IH]; [by apply step_refl|].
  apply run_step in Hx; [|done..]. eapply step_trans; [done|]. by eapply IH, step_ok.
Qed.

Lemma visited_cons x st st1 xs st' :
  step st st1 -> visited f x st1 xs st' -> visited f x st xs st'.
Proof.
  intros Hs (i & st2 & st3 & H12 & Hr). exists i, st2, st3. split; [|done].
  by eapply step_trans.
Qed.

Lemma visits_out i l st out st' b :
  pstate_ok st -> visits f i l st out st' -> b ∈ out ->
  exists x xs, x ∈ l /\ b ∈ xs /\ visited f x st xs st'.
Proof using Hf.
  intros Hst Hv. induction Hv as [|i x l st xs st1 rest st2 Hx Hv IH].
  { by intros ?%elem_of_nil. }
  pose proof (run_step _ _ _ _ (Hf i x) Hst Hx) as Hs. pose proof (step_ok _ _ Hs) as Hok.
  intros [Hb|Hb]%elem_of_app.
  - exists x, xs. split_and!; [left|done|]. exists i, st, st1.
    split_and!; [by apply step_refl|done|done|by eapply visits_step].
  - destruct (IH Hok Hb) as (y & ys & ? & ? & ?). exists y, ys.
    split_and!; [by right|done|by eapply visited_cons].
Qed.

Lemma visits_in i l st out st' x :
  pstate_ok st -> visits f i l st out st' -> x ∈ l ->
  exists xs, xs ⊆ out /\ visited f x st xs st'.
Proof using Hf.
  intros Hst Hv. induction Hv as [|i y l st xs st1 rest st2 Hx Hv IH].
  { by intros ?%elem_of_nil. }
  pose proof (run_step _ _ _ _ (Hf i y) Hst Hx) as Hs. pose proof (step_ok _ _ Hs) as Hok.
  intros [->|Hin]%elem_of_cons.
  - exists xs. split; [set_solver|]. exists i, st, st1.
    split_and!; [by apply step_refl|done|done|by eapply visits_step].
  - destruct (IH Hok Hin) as (ys & ? & ?). exists ys.
    split; [set_solver|by eapply visited_cons].
Qed.

End Loop.

(** The include loop is a loop over the names not seen before. *)
Fixpoint unseen (seen names : list string) : list string :=
  match names with
  | [] => []
  | n :: names => if decide (n ∈ seen) then unseen seen names
                  else n :: unseen (n :: seen) names
  end.

Lemma elem_of_unseen n seen names :
  n ∈ names -> n ∈ seen \/ n ∈ unseen seen names.
Proof.
  revert seen. induction names as [|m names IH]; intros seen; [by intros ?%elem_of_nil|].
  cbn [unseen]. intros [->|Hn]%elem_of_cons.
  - case_decide; [by left|right; left].
  - case_decide; [auto|]. destruct (IH (m :: seen) Hn) as [[->|]%elem_of_cons|]; [|auto|].
    + right. left.
    + right. by right.
Qed.

Lemma for_lists_inr {A} (f : string -> parser (list A)) i seen names st out st' :
  for_lists f seen names st = (inr out, st') ->
  visits (fun _ => f) i (unseen seen names) st out st'.
Proof.
  revert i seen st out. induction names as [|n names IH]; intros i seen st out.
  { intros [= <- <-]. constructor. }
  cbn [for_lists unseen]. case_decide; [apply IH|].
  intros (xs & st1 & Hx & (rest & st2 & Hl & [= <- <-])%bind_inr)%bind_inr.
  econstructor; [done|]. by apply IH.
Qed.

(** ** Rules *)

(** What one rule of the file adds: its NAT64 form, then itself. *)
Definition pushed (id : Z) (action : Action) (nat64 : bool) (net : Ipv6Net)
    (ports : list PortRange) (proto : Z) : list Rule :=
  (if bool_decide (action = Deny) && nat64 then
     match nat64_equivalent net with
     | Some n => [mk_Rule id action n ports proto]
     | None => []
     end
   else []) ++ [mk_Rule id action net ports proto].

Lemma push_inr ctx name nat64 action cidr ports proto origin st rules st' :
  push ctx name nat64 action cidr ports proto origin st = (inr rules, st') ->
  exists net ps id, parse_cidr cidr = inr net /\ parse_ports ports = inr ps /\
    issued st st' name id /\ rules = pushed id action nat64 net ps (proto_mask proto).
Proof.
  unfold push. intros (net & st1 & [Hnet ->]%lift_inr & (ps & st2 & [Hps ->]%lift_inr &
    (id & st3 & Hid & [= <- <-])%bind_inr)%bind_inr)%bind_inr.
  exists net, ps, id. split_and!; [done..| |done]. by eapply new_rule_inr.
Qed.

Context {L : IpnetLaws I} {SL : IpnetStrLaws I S}.

Definition rule_ok (st st' : pstate) (name : string) (r : Rule) : Prop :=
  trunc (r_net r) = r_net r /\ issued st st' name (r_id r).

Lemma rule_ok_mono st0 st st' st1 name r :
  step st0 st -> step st' st1 -> rule_ok st st' name r -> rule_ok st0 st1 name r.
Proof. intros H0 H1 [? ?]. split; [done|]. by eapply issued_mono. Qed.

Lemma push_ok ctx name nat64 action cidr ports proto origin st rules st' r :
  push ctx name nat64 action cidr ports proto origin st = (inr rules, st') ->
  r ∈ rules -> rule_ok st st' name r.
Proof using L SL.
  intros (net & ps & id & Hnet%parse_cidr_trunc & _ & Hid & ->)%push_inr.
  unfold pushed. intros [Hr| ->%list_elem_of_singleton]%elem_of_app; [|done].
  destruct (_ && _); [|by apply elem_of_nil in Hr].
  destruct (nat64_equivalent net) as [n|] eqn:Hn; [|by apply elem_of_nil in Hr].
  apply list_elem_of_singleton in Hr as ->. split; [|done]. by eapply nat64_trunc.
Qed.

(** Everything a loop collects satisfies what each body ensures, if that is monotone. *)
Lemma visited_all {A B} (f : nat -> A -> parser (list B)) (R : pstate -> pstate -> B -> Prop)
    i l st out st' b :
  pstate_ok st -> visits f i l st out st' -> b ∈ out ->
  (forall i x, Steps (f i x)) ->
  (forall st0 st st' st1 b, step st0 st -> step st' st1 -> R st st' b -> R st0 st1 b) ->
  (forall i x st xs st' b, pstate_ok st -> f i x st = (inr xs, st') -> b ∈ xs -> R st st' b) ->
  R st st' b.
Proof.
  intros Hst Hv Hb Hf Hmono HR.
  destruct (visits_out f i l st out st' b Hst Hv Hb)
    as (x & xs & _ & Hbx & j & st1 & st2 & H1 & Hok & Hx & H2).
  eapply Hmono; [done..|]. by eapply HR.
Qed.

Lemma push_rules_ok ctx name nat64 action key rules st out st' r :
  pstate_ok st -> push_rules ctx name nat64 action key rules st = (inr out, st') ->
  r ∈ out -> rule_ok st st' name r.
Proof using L SL.
  intros Hst Hv%for_enumerate_inr Hr.
  apply (visited_all _ (fun st st' => rule_ok st st' name) _ _ _ _ _ _ Hst Hv Hr); [apply _|..].
  - intros *. apply rule_ok_mono.
  - intros * _. apply push_ok.
Qed.

Lemma push_list_ok ctx name nat64 list_name st out st' r :
  pstate_ok st -> push_list ctx name nat64 list_name st = (inr out, st') ->
  r ∈ out -> rule_ok st st' name r.
Proof using L SL.
  intros Hst (l & st1 & [_ ->]%lift_inr & Hv%for_enumerate_inr)%bind_inr Hr.
  apply (visited_all _ (fun st st' => rule_ok st st' name) _ _ _ _ _ _ Hst Hv Hr); [apply _|..].
  - intros *. apply rule_ok_mono.
  - intros * _. apply push_ok.
Qed.

(** The three parts of a network section and the states between them. *)
Lemma parse_network_inr ctx name net st rules st' :
  parse_network ctx name net st = (inr rules, st') ->
  exists listed deny allow st1 st2, rules = listed ++ deny ++ allow /\
    visits (fun _ => push_list ctx name (nf_nat64_equivalence net)) 0
      (unseen [] (nf_include net)) st listed st1 /\
    push_rules ctx name (nf_nat64_equivalence net) Deny "network.deny" (nf_deny net) st1 =
      (inr deny, st2) /\
    push_rules ctx name (nf_nat64_equivalence net) Allow "network.allow" (nf_allow net) st2 =
      (inr allow, st').
Proof.
  intros (listed & st1 & Hl%(for_lists_inr _ 0) & (deny & st2 & Hd &
    (allow & st3 & Ha & [= <- <-])%bind_inr)%bind_inr)%bind_inr.
  by exists listed, deny, allow, st1, st2.
Qed.

Lemma parse_network_ok ctx name net st rules st' r :
  pstate_ok st -> parse_network ctx name net st = (inr rules, st') ->
  r ∈ rules -> rule_ok st st' name r.
Proof using L SL.
  intros Hst (listed & deny & allow & st1 & st2 & -> & Hl & Hd & Ha)%parse_network_inr.
  pose proof (visits_step _ _ _ _ _ _ Hst Hl : step st st1) as H1.
  pose proof (run_step _ _ _ _ _ (step_ok _ _ H1) Hd : step st1 st2) as H2.
  pose proof (run_step _ _ _ _ _ (step_ok _ _ H2) Ha : step st2 st') as H3.
  intros [Hr|[Hr|Hr]%elem_of_app]%elem_of_app.
  - apply (rule_ok_mono st st st1); [by apply step_refl|by eapply step_trans|].
    apply (visited_all _ (fun st st' => rule_ok st st' name) _ _ _ _ _ _ Hst Hl Hr); [apply _|..].
    + intros *. apply rule_ok_mono.
    + intros ? ? ? ? ? ?. apply push_list_ok.
  - apply (rule_ok_mono st st1 st2); [done..|]. eapply push_rules_ok; [|done..].
    by eapply step_ok.
  - apply (rule_ok_mono st st2 st'); [by eapply step_trans|by eapply step_refl, step_ok|].
    eapply push_rules_ok; [|done..]. by eapply step_ok.
Qed.

(** Every entry of every included list becomes rules. *)
Lemma parse_network_listed ctx name net st rules st' list_name l lr :
  pstate_ok st -> parse_network ctx name net st = (inr rules, st') ->
  list_name ∈ nf_include net -> builtin_list list_name = inr l -> lr ∈ lf_deny l ->
  exists prefix ps id, parse_cidr (lr_cidr lr) = inr prefix /\
    parse_ports (lr_ports lr) = inr ps /\
    pushed id Deny (nf_nat64_equivalence net) prefix ps (proto_mask (lr_proto lr)) ⊆ rules.
Proof using L SL.
  intros Hst (listed & deny & allow & st1 & st2 & -> & Hl & _)%parse_network_inr Hin Hb Hlr.
  destruct (elem_of_unseen _ [] _ Hin) as [?%elem_of_nil|Hun]; [done|].
  destruct (visits_in _ _ _ _ _ _ _ Hst Hl Hun) as (xs & Hsub & i & s1 & s2 & _ & Hok & Hx & _).
  apply bind_inr in Hx as (l' & s3 & [Hl' ->]%lift_inr & Hv%for_enumerate_inr).
  assert (l' = l) as -> by congruence.
  destruct (visits_in _ _ _ _ _ _ _ Hok Hv Hlr) as (ys & Hsub' & j & s4 & s5 & _ & _ & Hp & _).
  apply push_inr in Hp as (prefix & ps & id & ? & ? & _ & ->).
  exists prefix, ps, id. split_and!; [done..|]. set_solver.
Qed.

(** ** Files and executables *)

Lemma push_file_ok ctx profile optional r origin st out st' x :
  push_file ctx profile optional r origin st = (inr out, st') -> x ∈ out ->
  issued st st' profile (fl_id x).
Proof.
  unfold push_file. destruct (negb _); [done|].
  intros (mask & st1 & [_ ->]%lift_inr & (id & st2 & Hid & [= <- <-])%bind_inr)%bind_inr
    ->%list_elem_of_singleton. by eapply new_rule_inr.
Qed.

#[export] Instance steps_push_files_list ctx profile name :
  Steps (push_files_list ctx profile name).
Proof. unfold push_files_list. solve_steps; apply _. Qed.

Lemma parse_files_ok ff has_exec ctx profile st fp st' x :
  pstate_ok st -> parse_files ff has_exec ctx profile st = (inr fp, st') ->
  x ∈ fp_rules fp -> issued st st' profile (fl_id x).
Proof.
  intros Hst (listed & st1 & Hl%(for_lists_inr _ 0) &
    (own & st2 & Ho%for_enumerate_inr & [= <- <-])%bind_inr)%bind_inr.
  pose proof (visits_step _ _ _ _ _ _ Hst Hl : step st st1) as H1.
  pose proof (visits_step _ _ _ _ _ _ (step_ok _ _ H1) Ho : step st1 st2) as H2.
  set (R := fun st st' x => issued st st' profile (fl_id x)).
  assert (forall st0 st st' st1 x, step st0 st -> step st' st1 -> R st st' x -> R st0 st1 x)
    as Hmono by (intros *; apply issued_mono).
  cbn [fp_rules]. intros [Hx|Hx]%elem_of_app.
  - apply (Hmono st st st1); [by apply step_refl|done|].
    apply (visited_all _ R _ _ _ _ _ _ Hst Hl Hx); [apply _|done|].
    intros ? ? ? ? ? ? Hok (l & s1 & [_ ->]%lift_inr & Hv%for_enumerate_inr)%bind_inr Hb.
    apply (visited_all _ R _ _ _ _ _ _ Hok Hv Hb); [apply _|done|].
    intros * _. apply push_file_ok.
  - apply (Hmono st st1 st2); [done|by eapply step_refl, step_ok|].
    apply (visited_all _ R _ _ _ _ _ _ (step_ok _ _ H1) Ho Hx); [apply _|done|].
    intros * _. apply push_file_ok.
Qed.

#[export] Instance steps_push_exec_paths ctx profile key kind paths :
  Steps (push_exec_paths ctx profile key kind paths).
Proof. unfold push_exec_paths. solve_steps. Qed.

Lemma push_exec_paths_ok ctx profile key kind paths st out st' x :
  pstate_ok st -> push_exec_paths ctx profile key kind paths st = (inr out, st') ->
  x ∈ out -> issued st st' profile (xa_id x).
Proof.
  intros Hst Hv%for_enumerate_inr Hx.
  apply (visited_all _ (fun st st' x => issued st st' profile (xa_id x))
    _ _ _ _ _ _ Hst Hv Hx); [solve_steps|intros *; apply issued_mono|].
  intros i path s xs s' b _. destruct (negb _); [done|].
  intros (id & s1 & Hid & [= <- <-])%bind_inr ->%list_elem_of_singleton.
  by eapply new_rule_inr.
Qed.

Definition exec_ids (exec : option ExecPolicy) : list Z :=
  match exec with
  | Some x => xa_id <$> xp_allow x
  | None => []
  end.

Lemma parse_exec_section_ok exec ctx name st x st' id :
  pstate_ok st -> parse_exec_section exec ctx name st = (inr x, st') ->
  id ∈ exec_ids x -> issued st st' name id.
Proof.
  intros Hst. destruct exec as [ef|]; cbn [parse_exec_section].
  2:{ by intros [= <- <-] ?%elem_of_nil. }
  intros (xp & st1 & Hx & [= <- <-])%bind_inr. unfold parse_exec in Hx.
  destruct (ef_require_hash ef); [done|].
  apply bind_inr in Hx as (files & st2 & Hf & (dirs & st3 & Hd & [= <- <-])%bind_inr).
  pose proof (run_step _ _ _ _ _ Hst Hf : step st st2) as H1.
  pose proof (run_step _ _ _ _ _ (step_ok _ _ H1) Hd : step st2 st3) as H2.
  cbn [exec_ids xp_allow]. intros (a & -> & [Ha|Ha]%elem_of_app)%list_elem_of_fmap.
  - apply (issued_mono st st st2); [by apply step_refl|done|]. by eapply push_exec_paths_ok.
  - apply (issued_mono st st2 st3); [done|by eapply step_refl, step_ok|].
    eapply push_exec_paths_ok; [by eapply step_ok|done..].
Qed.

(** ** Profiles *)

Definition rule_ids (p : Profile) : list Z :=
  (r_id <$> p_rules p) ++ exec_ids (p_exec p) ++ (fl_id <$> fp_rules (p_files p)).

Definition profile_ok (st st' : pstate) (p : Profile) : Prop :=
  pi_ids (ps_ids st') !! p_name p = Some (p_id p) /\ rules_truncated p /\
  forall id, id ∈ rule_ids p -> issued st st' (p_name p) id.

Lemma profile_ok_mono st0 st st' st1 p :
  step st0 st -> step st' st1 -> profile_ok st st' p -> profile_ok st0 st1 p.
Proof.
  intros H0 H1 (Hid & Ht & Hi). split_and!; [|done|].
  - destruct H1 as (_ & Hsub & _). by eapply lookup_weaken.
  - intros id Hin. by eapply issued_mono; [..|apply Hi].
Qed.

Lemma profile_id_inr name st id st' :
  pstate_ok st -> profile_id name st = (inr id, st') ->
  pi_ids (ps_ids st') !! name = Some id.
Proof.
  intros [Hids _]. unfold profile_id. destruct (id_of_ok (ps_ids st) name Hids) as (_ & _ & Hid).
  destruct (id_of (ps_ids st) name) as [r ids]. intros [= -> <-]. by apply Hid.
Qed.

(** The network section a profile came from. *)
Definition profile_of (name : string) (pf : ProfileFile) (p : Profile) : Prop :=
  p_name p = name /\ p_mode p = pf_mode pf /\ p_net_default p = nf_default (pf_network pf) /\
  exists st st', pstate_ok st /\
    parse_network (profile_ctx name) name (pf_network pf) st = (inr (p_rules p), st').

Lemma parse_profile_inr name pf st p st' :
  pstate_ok st -> parse_profile name pf st = (inr p, st') ->
  name <> QUARANTINE /\ profile_of name pf p /\ profile_ok st st' p.
Proof using L SL.
  intros Hst. unfold parse_profile. case_decide; [done|]. destruct (negb _); [done|].
  intros (id & st1 & Hid & (rules & st2 & Hr & (exec & st3 & He & (files & st4 & Hf &
    (launch & st5 & [_ ->]%lift_inr & [= <- <-])%bind_inr)%bind_inr)%bind_inr)%bind_inr)%bind_inr.
  pose proof (run_step _ _ _ _ _ Hst Hid : step st st1) as H1.
  pose proof (run_step _ _ _ _ _ (step_ok _ _ H1) Hr : step st1 st2) as H2.
  pose proof (run_step _ _ _ _ _ (step_ok _ _ H2) He : step st2 st3) as H3.
  pose proof (run_step _ _ _ _ _ (step_ok _ _ H3) Hf : step st3 st4) as H4.
  pose proof (step_trans _ _ _ H2 (step_trans _ _ _ H3 H4)) as H14.
  split; [done|]. split; [split; [done|split; [done|split; [done|]]]|split; [|split]]; cbn.
  - exists st1, st2. split; [by eapply step_ok|done].
  - destruct H14 as (_ & Hsub & _). eapply lookup_weaken; [|done]. by eapply profile_id_inr.
  - intros r Hr'. by apply (parse_network_ok _ _ _ _ _ _ _ (step_ok _ _ H1) Hr) in Hr' as [? _].
  - unfold rule_ids; cbn. intros x [(r & -> & Hx)%list_elem_of_fmap|
      [Hx|(r & -> & Hx)%list_elem_of_fmap]%elem_of_app]%elem_of_app.
    + apply (parse_network_ok _ _ _ _ _ _ _ (step_ok _ _ H1) Hr) in Hx as [_ Hx].
      apply (issued_mono st st1 st2 st4); [done|by eapply step_trans|done].
    + apply (parse_exec_section_ok _ _ _ _ _ _ _ (step_ok _ _ H2) He) in Hx.
      apply (issued_mono st st2 st3 st4); [by eapply step_trans|done..].
    + apply (parse_files_ok _ _ _ _ _ _ _ _ (step_ok _ _ H3) Hf) in Hx.
      apply (issued_mono st st3 st4 st4); [|by eapply step_refl, step_ok|done].
      exact (step_trans _ _ _ H1 (step_trans _ _ _ H2 H3)).
Qed.

Lemma quarantine_profile_inr st p st' :
  pstate_ok st -> quarantine_profile st = (inr p, st') ->
  (p_name p = QUARANTINE /\ p_mode p = Enforce /\ p_net_default p = Deny /\
   p_deny_raw_sockets p = true /\ p_rules p = [] /\
   p_exec p = Some (mk_ExecPolicy Deny false [])) /\
  profile_ok st st' p.
Proof using L SL.
  intros Hst (id & st1 & Hid & (files & st2 & Hf & [= <- <-])%bind_inr)%bind_inr.
  pose proof (run_step _ _ _ _ _ Hst Hid : step st st1) as H1.
  pose proof (run_step _ _ _ _ _ (step_ok _ _ H1) Hf : step st1 st2) as H2.
  split; [done|]. split; [|split]; cbn.
  - destruct H2 as (_ & Hsub & _). eapply lookup_weaken; [|done]. by eapply profile_id_inr.
  - by intros r ?%elem_of_nil.
  - unfold rule_ids; cbn. intros x (r & -> & Hx)%list_elem_of_fmap.
    apply (parse_files_ok _ _ _ _ _ _ _ _ (step_ok _ _ H1) Hf) in Hx.
    apply (issued_mono st st1 st2 st2); [done|by eapply step_refl, step_ok|done].
Qed.

Definition profile_body (i : nat) (e : string * ProfileFile) : parser (list Profile) :=
  let '(name, pf) := e in
  parser_bind _ _ (fun p => parser_ret _ [p]) (parse_profile name pf).

#[export] Instance steps_profile_body i e : Steps (profile_body i e).
Proof. destruct e. unfold profile_body. solve_steps. apply _. Qed.

Lemma profile_body_inr i e st out st' :
  profile_body i e st = (inr out, st') ->
  exists p, parse_profile e.1 e.2 st = (inr p, st') /\ out = [p].
Proof. destruct e as [name pf]. intros (p & st1 & Hp & [= <- <-])%bind_inr. eauto. Qed.

Lemma profiles_visited i l st out st' :
  pstate_ok st -> visits profile_body i l st out st' ->
  Forall2 (fun e p => e.1 <> QUARANTINE /\ profile_of e.1 e.2 p /\ profile_ok st st' p) l out.
Proof using L SL.
  intros Hst Hv. induction Hv as [|i e l st xs st1 rest st2 Hx Hv IH]; [constructor|].
  pose proof (run_step _ _ _ _ _ Hst Hx : step st st1) as H1.
  pose proof (step_ok _ _ H1) as Hok. pose proof (visits_step _ _ _ _ _ _ Hok Hv) as H2.
  apply profile_body_inr in Hx as (p & Hp & ->).
  apply parse_profile_inr in Hp as (Hq & Hof & Hpok); [|done]. constructor.
  - split_and!; [done..|]. eapply profile_ok_mono; [by apply step_refl|done..].
  - eapply Forall2_impl; [by apply IH|]. intros e' p' (? & ? & ?). split_and!; [done..|].
    eapply profile_ok_mono; [done|by eapply step_refl, step_ok|done].
Qed.

(** The profiles of a policy: one per entry of the file, and the quarantine. *)
Lemma parse_profiles_inr file st profiles st' :
  pstate_ok st -> parse_profiles file st = (inr profiles, st') ->
  exists own q, profiles = own ++ [q] /\
    Forall2 (fun e p => e.1 <> QUARANTINE /\ profile_of e.1 e.2 p /\ profile_ok st st' p)
      (plf_profiles file) own /\
    (p_name q = QUARANTINE /\ p_mode q = Enforce /\ p_net_default q = Deny /\
     p_deny_raw_sockets q = true /\ p_rules q = [] /\
     p_exec q = Some (mk_ExecPolicy Deny false [])) /\
    profile_ok st st' q.
Proof using L SL.
  intros Hst (own & st1 & Ho%for_enumerate_inr &
    (q & st2 & Hq & [= <- <-])%bind_inr)%bind_inr.
  change (visits profile_body 0 (plf_profiles file) st own st1) in Ho.
  pose proof (visits_step _ _ _ _ _ _ Hst Ho : step st st1) as H1.
  pose proof (run_step _ _ _ _ _ (step_ok _ _ H1) Hq : step st1 st2) as H2.
  apply quarantine_profile_inr in Hq as [Hq Hqok]; [|by eapply step_ok].
  exists own, q. split_and!; [done| |apply Hq..|].
  - eapply Forall2_impl; [by eapply profiles_visited|]. intros e p (? & ? & ?).
    split_and!; [done..|]. eapply profile_ok_mono; [by apply step_refl|done..].
  - eapply profile_ok_mono; [done|by eapply step_refl, step_ok|done].
Qed.

(** ** The whole file *)

Lemma parse_bindings_state profiles seen i bindings st out st' :
  parse_bindings profiles seen i bindings st = (inr out, st') -> st' = st.
Proof.
  revert seen i out st'. induction bindings as [|b bindings IH]; intros seen i out st'.
  { by intros [= _ <-]. }
  cbn [parse_bindings]. intros (cg & st1 & [_ ->]%lift_inr & H)%bind_inr.
  case_decide; [done|]. destruct (find_profile _ _); [|done].
  apply bind_inr in H as (rest & st2 & ->%IH & [= _ <-]). done.
Qed.

Lemma parse_namespaces_state profiles out namespaces st out' st' :
  parse_namespaces profiles out namespaces st = (inr out', st') -> st' = st.
Proof.
  revert out. induction namespaces as [|[ns rule] l IH]; intros out.
  { by intros [= _ <-]. }
  cbn [parse_namespaces]. by intros (r & st1 & [_ ->]%lift_inr & ->%IH)%bind_inr.
Qed.

Lemma init_ok ids : ids_ok ids -> pstate_ok (mk_pstate ids 1 []).
Proof. intros Hids. split; [done|]. split; [done|]. by intros [|k] o Hk. Qed.

Lemma parse_inr text ids policy ids' :
  parse text ids = (inr policy, ids') ->
  exists file st, policy_from_str text = inr file /\ ids' = ps_ids st /\
    parse_profiles file (mk_pstate ids 1 []) = (inr (po_profiles policy), st) /\
    parse_bindings (po_profiles policy) [] 0 (plf_bindings file) st =
      (inr (po_bindings policy), st) /\
    parse_namespaces (po_profiles policy) ∅ (plf_namespaces file) st =
      (inr (po_namespaces policy), st) /\
    po_origins policy = ps_origins st.
Proof.
  unfold parse. destruct (policy_from_str text) as [e|file] eqn:Hfile; [done|].
  destruct (parse_file file _) as [r st] eqn:Hpf. intros [= -> <-].
  unfold parse_file in Hpf.
  apply bind_inr in Hpf as (profiles & st1 & Hp & (bindings & st2 & Hb &
    (namespaces & st3 & Hn & (origins & st4 & Ho & [= <- <-])%bind_inr)%bind_inr)%bind_inr).
  injection Ho as <- <-. pose proof (parse_bindings_state _ _ _ _ _ _ _ Hb) as ->.
  pose proof (parse_namespaces_state _ _ _ _ _ _ Hn) as ->.
  by exists file, st1.
Qed.

End Specs.

Section Theorems.
Context {I : Ipnet} {S : IpnetStr I} {T : Toml}.
Context {L : IpnetLaws I} {SL : IpnetStrLaws I S} {TL : TomlLaws T}.

(** What the theorems use of a parse. *)
Lemma parsed_profiles text ids policy ids' :
  ids_ok ids -> parse text ids = (inr policy, ids') ->
  exists file own q st, policy_from_str text = inr file /\ ids' = ps_ids st /\
    pstate_ok st /\ po_origins policy = ps_origins st /\
    po_profiles policy = own ++ [q] /\
    Forall2 (fun e p => e.1 <> QUARANTINE /\ profile_of e.1 e.2 p) (plf_profiles file) own /\
    (p_name q = QUARANTINE /\ p_mode q = Enforce /\ p_net_default q = Deny /\
     p_deny_raw_sockets q = true /\ p_rules q = [] /\
     p_exec q = Some (mk_ExecPolicy Deny false [])) /\
    forall p, p ∈ po_profiles policy -> profile_ok (mk_pstate ids 1 []) st p.
Proof using L SL.
  intros Hids%init_ok (file & st & Hf & -> & Hp & _ & _ & Ho)%parse_inr.
  pose proof (run_step _ _ _ _ _ Hids Hp) as Hs.
  apply parse_profiles_inr in Hp as (own & q & Heq & HF & Hq & Hqok); [|done].
  exists file, own, q, st. split; [done|]. split; [done|]. split; [by eapply step_ok|].
  split; [done|]. split; [done|]. split.
  { eapply Forall2_impl; [done|]. by intros e p (? & ? & _). }
  split; [done|]. rewrite Heq. intros p [Hin| ->%list_elem_of_singleton]%elem_of_app; [|done].
  apply list_elem_of_lookup in Hin as [k Hk].
  destruct (Forall2_lookup_r _ _ _ _ _ HF Hk) as (e & _ & _ & _ & ?). done.
Qed.

Lemma parsed_names text ids policy ids' :
  ids_ok ids -> parse text ids = (inr policy, ids') -> NoDup (p_name <$> po_profiles policy).
Proof using L SL TL.
  intros Hids (file & own & q & st & Hf & _ & _ & _ & -> & HF & (Hq & _) & _)%parsed_profiles;
    [|done].
  rewrite fmap_app. assert (p_name <$> own = (plf_profiles file).*1) as ->.
  { symmetry. clear -HF. induction HF as [|e p ? ? (_ & ? & _)]; [done|]. cbn. congruence. }
  apply NoDup_app. split_and!; [by eapply profile_keys| |apply NoDup_singleton].
  intros n (e & -> & [k Hk]%list_elem_of_lookup)%list_elem_of_fmap Hn%list_elem_of_singleton.
  destruct (Forall2_lookup_l _ _ _ _ _ HF Hk) as (p & _ & Hne & _). congruence.
Qed.

Lemma parsed_wf text ids policy ids' :
  ids_ok ids -> parse text ids = (inr policy, ids') ->
  policy_wf policy /\ policy_ids_ok policy /\
  forall p, p ∈ po_profiles policy -> pi_ids ids' !! p_name p = Some (p_id p).
Proof using L SL TL.
  intros Hids Hp. pose proof (parsed_names _ _ _ _ Hids Hp) as Hnd.
  apply parsed_profiles in Hp as (file & own & q & st & _ & -> & [Hst _] & _ & _ & _ & _ & Hall);
    [|done].
  destruct Hst as (Hb & Hr & Hinj). split; [split|split].
  - apply NoDup_fmap_2_strong, (NoDup_fmap_1 _ _ Hnd). intros p1 p2 H1 H2 Heq.
    apply list_elem_of_lookup in H1 as [i Hi], H2 as [j Hj].
    assert (i = j) as ->; [|congruence].
    eapply (NoDup_lookup _ i j _ Hnd); rewrite list_lookup_fmap, ?Hi, ?Hj; [done|].
    cbn. f_equal. destruct (Hall p1) as (Hp1 & _); [by eapply list_elem_of_lookup_2|].
    destruct (Hall p2) as (Hp2 & _); [by eapply list_elem_of_lookup_2|].
    rewrite Heq in Hp1. by eapply Hinj.
  - intros p Hp. by apply Hall.
  - intros p Hp. destruct (Hall p Hp) as (Hid & _). apply Hr in Hid.
    unfold id_ok, RK_MAX_PROFILES, MAX_PROFILES in *. lia.
  - intros p Hp. by apply Hall.
Qed.

(** Every policy the parser accepts is one the compiler and the engine can rely on:
    its profiles have distinct names and distinct ids below the kernel's limit, which are
    the ids the allocator keeps for those names, and no prefix has host bits set. *)
Lemma parsed_policy_wf text ids policy ids'
    (Hids : ids_ok ids) (Hp : parse text ids = (inr policy, ids')) :
  policy_wf policy /\ policy_ids_ok policy /\
  NoDup (p_name <$> po_profiles policy) /\
  forall p, p ∈ po_profiles policy -> pi_ids ids' !! p_name p = Some (p_id p).
Proof using L SL TL.
  destruct (parsed_wf _ _ _ _ Hids Hp) as (? & ? & ?).
  split; [done|]. split; [done|]. split; [by eapply parsed_names|done].
Qed.

Lemma ids_grow text ids :
  ids_ok ids -> ids_ok (parse text ids).2 /\ pi_ids ids ⊆ pi_ids (parse text ids).2.
Proof.
  intros Hids. unfold parse. destruct (policy_from_str text) as [e|file]; [done|].
  pose proof (steps_parse_file file _ (init_ok _ Hids)) as ([? _] & ? & _).
  by destruct (parse_file file _).
Qed.

(** C29. Profile ids are stable: whether a parse succeeds or fails, every name that had an
    id keeps it, ids stay distinct and below the limit, so cgroups bound by an earlier
    policy never change their profile. *)
Theorem profile_ids_stable text ids (Hids : ids_ok ids) :
  ids_ok (parse text ids).2 /\ pi_ids ids ⊆ pi_ids (parse text ids).2.
Proof. by apply ids_grow. Qed.

Lemma counter_ids st :
  counter_ok st -> Z.of_nat (length (ps_origins st)) < 2 ^ 32 - 1 ->
  ro_id <$> ps_origins st = seqZ 1 (Z.of_nat (length (ps_origins st))).
Proof.
  intros [_ Hids] Hlen. apply list_eq. intros k. rewrite list_lookup_fmap.
  destruct (ps_origins st !! k) as [o|] eqn:Hk; cbn; symmetry.
  - rewrite (Hids k o Hk). apply lookup_lt_Some in Hk.
    rewrite u32_small by lia. apply lookup_seqZ. lia.
  - apply lookup_ge_None in Hk. apply lookup_seqZ_ge. lia.
Qed.

Lemma origins_numbered text ids policy ids' :
  ids_ok ids -> parse text ids = (inr policy, ids') ->
  Z.of_nat (length (po_origins policy)) < 2 ^ 32 - 1 ->
  ro_id <$> po_origins policy = seqZ 1 (Z.of_nat (length (po_origins policy))).
Proof using L SL.
  intros Hids Hp Hlen. apply parsed_profiles in Hp as (file & own & q & st & _ & _ & [_ Hc] & Ho & _);
    [|done].
  rewrite Ho in Hlen |- *. by apply counter_ids.
Qed.

(** Rule ids lead back to their origin: they are numbered from 1 in the order of the
    file, none is the 0 of a default or the id reserved for the heartbeat, and the origin
    recorded under the id of any network, exec or file rule names the rule's profile. *)
Lemma rule_ids_lead_to_origin text ids policy ids' p id
    (Hids : ids_ok ids) (Hp : parse text ids = (inr policy, ids'))
    (Hlen : Z.of_nat (length (po_origins policy)) < 2 ^ 32 - 1)
    (Hprof : p ∈ po_profiles policy) (Hid : id ∈ rule_ids p) :
  ro_id <$> po_origins policy = seqZ 1 (Z.of_nat (length (po_origins policy))) /\
  0 < id < RK_RULE_HEARTBEAT /\
  exists o, policy_origin policy id = Some o /\ ro_profile o = p_name p.
Proof using L SL.
  split; [by eapply origins_numbered|].
  apply parsed_profiles in Hp as (file & own & q & st & _ & _ & [_ Hc] & Ho & _ & _ & _ & Hall);
    [|done].
  rewrite Ho in Hlen.
  destruct (Hall p Hprof) as (_ & _ & Hi). destruct (Hi id Hid) as (k & o & Hk & _ & <- & Hname).
  pose proof (proj2 Hc k o Hk) as Hoid. pose proof (lookup_lt_Some _ _ _ Hk) as Hlt.
  rewrite u32_small in Hoid by lia. split; [unfold RK_RULE_HEARTBEAT; lia|].
  exists o. split; [|done]. unfold policy_origin. rewrite Ho.
  destruct (head (filter _ _)) as [o'|] eqn:Hh.
  - apply head_Some_elem_of, list_elem_of_filter in Hh as [Heq [j Hj]%list_elem_of_lookup].
    pose proof (proj2 Hc j o' Hj) as Hj'. pose proof (lookup_lt_Some _ _ _ Hj).
    rewrite u32_small in Hj' by lia. assert (j = k) as -> by lia. congruence.
  - assert (o ∈ filter (fun o' => ro_id o' = ro_id o) (ps_origins st)) as Hin.
    { apply list_elem_of_filter. split; [done|]. by eapply list_elem_of_lookup_2. }
    destruct (filter _ _); [by apply elem_of_nil in Hin|done].
Qed.

End Theorems.
