(* ===== verification/Bindings.v ===== *)
(** * Bindings and namespaces of a parsed policy ([rk-policy/src/net.rs])

    Bound cgroups are distinct, canonical paths under [rk.slice]; governed Kubernetes
    namespaces never start an ungoverned pod. *)

From S2P Require Import Prelude Text Levels Ipnet Addr Policy Cidr Parse Validated.
Open Scope string_scope.
Open Scope list_scope.
Open Scope Z_scope.

(** ** Paths *)

Lemma strip_prefix_Some p s r : strip_prefix p s = Some r -> s = p +:+ r.
Proof.
  unfold strip_prefix. intros (l & Hl%strip_list_Some & ->)%fmap_Some.
  rewrite <- (text_chars s), Hl, <- (text_chars (p +:+ text l)).
  by rewrite chars_app, chars_text.
Qed.

Lemma split_loop_app c seg l1 l2 :
  c ∉ l1 -> split_loop c seg (l1 ++ c :: l2) = (seg ++ l1) :: split_loop c [] l2.
Proof.
  revert seg. induction l1 as [|a l1 IH]; intros seg; cbn [split_loop app].
  - intros _. by rewrite decide_True, app_nil_r.
  - intros [Hne Hin]%not_elem_of_cons. rewrite decide_False by done.
    by rewrite IH, <- app_assoc.
Qed.

Lemma split_app c a b :
  c ∉ chars a -> split c (a +:+ String c b) = a :: split c b.
Proof.
  intros Ha. unfold split. rewrite chars_app. cbn [chars list_ascii_of_string].
  change (list_ascii_of_string b) with (chars b).
  rewrite split_loop_app by done. cbn. by rewrite text_chars.
Qed.

Lemma split_loop_ne c seg l : split_loop c seg l <> [].
Proof. revert seg. induction l; intros seg; cbn; [done|]. case_decide; [done|auto]. Qed.

(** The last segment ends as the whole path does. *)
Lemma split_loop_last c seg l s x :
  last (split_loop c seg l) = Some s -> last s = Some x -> last (seg ++ l) = Some x.
Proof.
  revert seg. induction l as [|a l IH]; intros seg; cbn [split_loop].
  - intros [= ->]. by rewrite app_nil_r.
  - case_decide as Ha.
    + destruct (split_loop c [] l) as [|y ys] eqn:Hs; [by apply split_loop_ne in Hs|].
      rewrite last_cons_cons, <- Hs. intros Hl Hx. pose proof (IH [] Hl Hx) as H.
      cbn in H. rewrite last_app, last_cons, H. done.
    + intros Hl Hx. pose proof (IH _ Hl Hx) as H. by rewrite <- app_assoc in H.
Qed.

(** ** Canonical paths *)

Definition name_char (c : ascii) : bool :=
  is_ascii_alphanumeric c || bool_decide (c ∈ ["-"; "_"; "."]%char).

(** No encoding of a white-space character ends in a character of a name. *)
Lemma name_char_not_white c r :
  name_char c = true -> strip_any (reverse <$> white_space) (c :: r) = None.
Proof. destruct c as [[] [] [] [] [] [] [] []]; vm_compute; done. Qed.

Lemma name_char_not_slash c r :
  name_char c = true -> strip_any (reverse <$> [["/"%char]]) (c :: r) = None.
Proof. destruct c as [[] [] [] [] [] [] [] []]; vm_compute; done. Qed.

Lemma trim_path s c :
  strip_any white_space (chars s) = None -> last (chars s) = Some c -> name_char c = true ->
  trim_end_char "/" (trim s) = s.
Proof.
  intros Hs Hl Hc. unfold trim, trim_end_char.
  rewrite trim_start_none by done.
  rewrite (trim_end_none white_space _ c) by (done || intros; by apply name_char_not_white).
  rewrite text_chars.
  rewrite (trim_end_none _ _ c) by (done || intros; by apply name_char_not_slash).
  apply text_chars.
Qed.

Section Bindings.
Context {I : Ipnet} {S : IpnetStr I} {T : Toml}.

Definition good_segment (s : string) : Prop :=
  valid_name s = true /\ s <> "." /\ s <> "..".

Lemma bad_segment_false s : bad_segment s = false -> good_segment s.
Proof.
  unfold bad_segment. rewrite !orb_false_iff, !bool_decide_eq_false, negb_false_iff.
  by intros (((_ & ?) & ?) & ?).
Qed.

Lemma valid_name_last s : valid_name s = true ->
  exists c, last (chars s) = Some c /\ name_char c = true.
Proof.
  unfold valid_name. rewrite !andb_true_iff, negb_true_iff, bool_decide_eq_false.
  intros [[Hne _] Hall]. rewrite forallb_forall in Hall.
  destruct (last (chars s)) as [c|] eqn:Hl.
  - exists c. split; [done|]. apply Hall, list_elem_of_In. apply last_Some in Hl as [l ->].
    set_solver.
  - apply last_None in Hl. destruct Hne. by rewrite <- (text_chars s), Hl.
Qed.

(** What [validate_cgroup] accepts. *)
Lemma validate_cgroup_inr path cg :
  validate_cgroup path = inr cg ->
  exists rest, cg = CGROUP_ROOT +:+ "/" +:+ rest /\
    Forall good_segment (split "/" rest) /\ cg = trim_end_char "/" (trim path).
Proof.
  unfold validate_cgroup. set (p := trim_end_char "/" (trim path)).
  destruct (strip_prefix CGROUP_ROOT p) as [r|] eqn:Hr; [|done]. cbn [mbind option_bind].
  destruct (strip_prefix "/" r) as [rest|] eqn:Hrest; [|done].
  destruct (head (filter _ _)) as [seg|] eqn:Hh; [done|]. intros [= <-].
  apply strip_prefix_Some in Hr, Hrest. exists rest. split_and!; [by rewrite Hr, Hrest| |done].
  apply Forall_forall. intros s Hs. apply bad_segment_false.
  destruct (bad_segment s) eqn:Hb; [|done].
  destruct (filter _ _) eqn:Hf; [|done]. exfalso.
  apply (elem_of_nil s). rewrite <- Hf. by apply list_elem_of_filter.
Qed.

(** Validating a validated path changes nothing. *)
Lemma validate_cgroup_idem path cg :
  validate_cgroup path = inr cg -> validate_cgroup cg = inr cg.
Proof.
  intros Hv. pose proof Hv as (rest & Hcg & Hall & Htrim)%validate_cgroup_inr.
  destruct (last (split "/" rest)) as [s|] eqn:Hs.
  2:{ apply last_None in Hs. unfold split in Hs. apply fmap_nil_inv in Hs.
      by apply split_loop_ne in Hs. }
  assert (s ∈ split "/" rest) as Hin.
  { apply last_Some in Hs as [l ->]. set_solver. }
  rewrite Forall_forall in Hall. destruct (Hall s Hin) as [(c & Hc & Hn)%valid_name_last _].
  assert (trim_end_char "/" (trim cg) = cg) as Heq.
  { apply (trim_path _ c); [by rewrite Hcg, !chars_app| |done].
    unfold split in Hs. rewrite fmap_last in Hs.
    apply fmap_Some in Hs as (l & Hl & ->). rewrite chars_text in Hc.
    rewrite Hcg, !chars_app, !last_app.
    pose proof (split_loop_last _ [] _ _ _ Hl Hc) as Hr. cbn [app] in Hr. by rewrite Hr. }
  unfold validate_cgroup in Hv |- *. rewrite <- Htrim in Hv. by rewrite Heq.
Qed.

Lemma find_profile_Some profiles name (p : Profile) :
  find_profile profiles name = Some p -> p ∈ profiles /\ p_name p = name.
Proof. intros [? ?]%head_Some_elem_of%list_elem_of_filter. done. Qed.

Lemma parse_bindings_inr profiles seen i bindings st out st' :
  parse_bindings profiles seen i bindings st = (inr out, st') ->
  NoDup (b_cgroup <$> out) /\
  (forall b, b ∈ out -> b_cgroup b ∉ seen /\
     (exists path, validate_cgroup path = inr (b_cgroup b)) /\
     exists p, p ∈ profiles /\ p_id p = b_profile b).
Proof.
  revert seen i out st st'. induction bindings as [|b bindings IH]; intros seen i out st st'.
  { intros [= <- <-]. split; [constructor|]. by intros b ?%elem_of_nil. }
  cbn [parse_bindings]. intros (cg & st1 & [Hcg ->]%lift_inr & H)%bind_inr.
  case_decide as Hseen; [done|]. destruct (find_profile _ _) as [p|] eqn:Hf; [|done].
  apply bind_inr in H as (rest & st2 & [Hnd Hall]%IH & [= <- <-]).
  apply find_profile_Some in Hf as [Hf _]. split.
  - cbn. constructor; [|done]. intros (b' & Heq & Hb')%list_elem_of_fmap.
    destruct (Hall b' Hb') as [Hn _]. rewrite <- Heq in Hn. set_solver.
  - intros b' [->|Hb']%elem_of_cons; cbn; [eauto 10|].
    destruct (Hall b' Hb') as (Hn & ?). split; [set_solver|done].
Qed.

(** The bindings of a parsed policy are sound: every one names a profile of the policy,
    no cgroup is bound twice, and each path is canonical and lies strictly under
    [rk.slice], made of plain names without dot segments. *)
Lemma parsed_bindings_valid text ids policy ids' (Hp : parse text ids = (inr policy, ids')) :
  NoDup (b_cgroup <$> po_bindings policy) /\
  forall b, b ∈ po_bindings policy ->
  (exists p, p ∈ po_profiles policy /\ p_id p = b_profile b) /\
  validate_cgroup (b_cgroup b) = inr (b_cgroup b) /\
  exists segments, split "/" (b_cgroup b) = CGROUP_ROOT :: segments /\
    segments <> [] /\ Forall good_segment segments /\
    path_level (b_cgroup b) = 1 + Z.of_nat (length segments).
Proof.
  apply parse_inr in Hp as (file & st & _ & _ & _ & [Hnd Hall]%parse_bindings_inr & _).
  split; [done|]. intros b Hb. destruct (Hall b Hb) as (_ & (path & Hv) & Hprof).
  split; [done|]. split; [by eapply validate_cgroup_idem|].
  apply validate_cgroup_inr in Hv as (rest & -> & Hgood & _).
  exists (split "/" rest).
  assert (split "/" (CGROUP_ROOT +:+ "/" +:+ rest) = CGROUP_ROOT :: split "/" rest) as Hs.
  { change ("/" +:+ rest) with (String "/" rest). apply split_app.
    apply (bool_decide_unpack _). by vm_compute. }
  split; [done|]. split; [|split; [done|]].
  - unfold split. intros ?%fmap_nil_inv. by eapply split_loop_ne.
  - unfold path_level. rewrite Hs, filter_cons, decide_True by done. cbn [length].
    rewrite filter_Forall; [lia|]. eapply Forall_impl; [done|].
    intros s [Hn _] ->. by vm_compute in Hn.
Qed.

(** ** Namespaces *)

(** A profile a pod may run under. *)
Definition launchable (profiles : list Profile) (name : string) : Prop :=
  name <> QUARANTINE /\ exists p, p ∈ profiles /\ p_name p = name.

Lemma unlaunchable_false profiles name :
  unlaunchable profiles name = false <-> launchable profiles name.
Proof.
  unfold unlaunchable, launchable.
  rewrite orb_false_iff, negb_false_iff, bool_decide_eq_false, existsb_exists.
  setoid_rewrite bool_decide_eq_true. setoid_rewrite list_elem_of_In. done.
Qed.

Definition namespace_ok (profiles : list Profile) (r : NamespaceRule) : Prop :=
  ns_allowed r <> [] /\ Forall (launchable profiles) (ns_allowed r) /\
  forall d, ns_default r = Some d -> d ∈ ns_allowed r.

Lemma parse_namespace_inr profiles ns rule r :
  parse_namespace profiles ns rule = inr r -> namespace_ok profiles r.
Proof.
  unfold parse_namespace. destruct (negb _); [done|].
  destruct (namespace_allowed rule) as [e|allowed] eqn:Ha; [done|].
  assert (allowed <> []) as Hne.
  { unfold namespace_allowed in Ha. destruct (nsf_allowed rule) as [[|]|], (nsf_default rule); by simplify_eq. }
  cbn [try_bind]. destruct (head (filter _ _)) as [n|] eqn:Hh; [done|].
  assert (Forall (launchable profiles) (option_list (nsf_default rule) ++ allowed)) as Hall.
  { apply Forall_forall. intros n Hn. apply unlaunchable_false.
    destruct (unlaunchable profiles n) eqn:Hu; [|done].
    destruct (filter _ _) eqn:Hf; [|done]. exfalso.
    apply (elem_of_nil n). rewrite <- Hf. by apply list_elem_of_filter. }
  apply Forall_app in Hall as [_ Hall]. destruct (nsf_default rule) as [d|].
  - case_decide; [|done]. intros [= <-]. split_and!; [done..|]. by intros ? [= <-].
  - intros [= <-]. by split_and!.
Qed.

Lemma parse_namespaces_inr profiles out l st out' st' :
  parse_namespaces profiles out l st = (inr out', st') ->
  map_Forall (fun _ => namespace_ok profiles) out ->
  map_Forall (fun _ => namespace_ok profiles) out' /\ dom out' = dom out ∪ list_to_set l.*1.
Proof.
  revert out. induction l as [|[ns rule] l IH]; intros out.
  { intros [= <- <-]. cbn. split; [done|set_solver]. }
  cbn [parse_namespaces]. intros (r & st1 & [Hr%parse_namespace_inr ->]%lift_inr & H)%bind_inr Ho.
  apply IH in H as [? Hd]; [|by apply map_Forall_insert_2]. split; [done|].
  rewrite Hd, dom_insert_L. cbn. set_solver.
Qed.

(** C40. Pods of governed namespaces stay governed: every namespace of the file is governed;
    a pod runs ungoverned exactly when its namespace is not and it asks for nothing; and
    it runs under exactly the profile it asks for, where allowed, or its namespace's
    default - always a profile of the policy, never the quarantine. *)
Theorem pods_stay_governed text ids policy ids' file namespace annotation
    (Hp : parse text ids = (inr policy, ids')) (Hf : policy_from_str text = inr file) :
  (namespace ∈ (plf_namespaces file).*1 <-> is_Some (po_namespaces policy !! namespace)) /\
  (resolve_pod_profile policy namespace annotation = inr None <->
   annotation = None /\ po_namespaces policy !! namespace = None) /\
  forall name,
  resolve_pod_profile policy namespace annotation = inr (Some name) <->
  launchable (po_profiles policy) name /\
  match po_namespaces policy !! namespace with
  | Some r => name ∈ ns_allowed r /\
      (annotation = Some name \/ annotation = None /\ ns_default r = Some name)
  | None => annotation = Some name
  end.
Proof.
  apply parse_inr in Hp as (file' & st & Hf' & _ & _ & _ & Hn & _).
  assert (file' = file) as -> by congruence.
  apply parse_namespaces_inr in Hn as [Hok Hdom]; [|apply map_Forall_empty].
  split; [|split].
  - rewrite <- elem_of_dom, Hdom, dom_empty_L, elem_of_union, elem_of_list_to_set. set_solver.
  - unfold resolve_pod_profile. destruct annotation as [name|].
    + split; [|by intros [? _]]. destruct (unlaunchable _ _); [done|].
      destruct (_ !! namespace); [|done]. by destruct (existsb _ _).
    + destruct (_ !! namespace) as [[[d|] a]|]; split; try done; by intros [_ ?].
  - intros name. unfold resolve_pod_profile.
    destruct (po_namespaces policy !! namespace) as [r|] eqn:Hr.
    + apply (map_Forall_lookup_1 _ _ _ _ Hok) in Hr as (_ & Hall & Hdef).
      rewrite Forall_forall in Hall. destruct annotation as [n|].
      * destruct (unlaunchable _ n) eqn:Hu.
        { split; [done|]. intros (Hl%unlaunchable_false & _ & [[= ->]|[? _]]); congruence. }
        apply unlaunchable_false in Hu. destruct (existsb _ _) eqn:He.
        -- apply existsb_exists in He as (a & Ha%list_elem_of_In & ->%bool_decide_eq_true).
           split; [intros [= ->]; auto|]. by intros (_ & _ & [[= ->]|[? _]]).
        -- split; [done|]. intros (_ & Ha & [[= ->]|[? _]]); [|done].
           apply not_true_iff_false in He. destruct He. apply existsb_exists.
           exists name. split; [by apply list_elem_of_In|by apply bool_decide_eq_true].
      * destruct r as [[d|] allowed]; cbn in *.
        -- split; [intros [= ->]; auto 10|]. by intros (_ & _ & [?|[_ [= ->]]]).
        -- split; [done|]. by intros (_ & _ & [?|[_ ?]]).
    + destruct annotation as [n|]; [|by split; [|intros [_ ?]]].
      destruct (unlaunchable _ n) eqn:Hu.
      * split; [done|]. intros (Hl%unlaunchable_false & [= ->]). congruence.
      * apply unlaunchable_false in Hu. split; [by intros [= ->]|by intros (_ & [= ->])].
Qed.

End Bindings.
