(* ===== verification/Metadata.v ===== *)
(** * Built-in protection of a parsed policy ([rk-policy/src/net.rs])

    Cloud metadata endpoints are denied to every profile that includes the built-in list,
    whatever else the profile allows, in their IPv4, IPv6 and NAT64 forms; the quarantine
    profile denies everything. *)

From stdpp Require Import pretty.
From S2P Require Import Prelude Text Abi Bpf Lpm Ipnet Addr Policy Cidr Parse Flatten.
From S2P Require Import Validated.
Open Scope string_scope.
Open Scope list_scope.
Open Scope Z_scope.

(** The endpoints of [deploy/policy/cloud-metadata.toml], as the text of an address and
    its value. *)
Definition metadata_endpoints : list (string * IpAddr) :=
  [("169.254.169.254", V4 [169; 254; 169; 254]);
   ("fd00:ec2::254", V6 [0xfd; 0; 0x0e; 0xc2; 0; 0; 0; 0; 0; 0; 0; 0; 0; 0; 0x02; 0x54]);
   ("169.254.170.2", V4 [169; 254; 170; 2]);
   ("169.254.170.23", V4 [169; 254; 170; 23]);
   ("fd00:ec2::23", V6 [0xfd; 0; 0x0e; 0xc2; 0; 0; 0; 0; 0; 0; 0; 0; 0; 0; 0; 0x23]);
   ("fd20:ce::254", V6 [0xfd; 0x20; 0; 0xce; 0; 0; 0; 0; 0; 0; 0; 0; 0; 0; 0x02; 0x54]);
   ("168.63.129.16", V4 [168; 63; 129; 16]);
   ("100.100.100.200", V4 [100; 100; 100; 200]);
   ("169.254.0.23", V4 [169; 254; 0; 23])].

(** The IPv6 address through which a NAT64 gateway reaches an IPv4 address. *)
Definition nat64_form (a : IpAddr) : option IpAddr :=
  match a with
  | V4 o => Some (V6 (nat64_prefix ++ o))
  | V6 _ => None
  end.

Definition host_len (a : IpAddr) : Z := match a with V4 _ => 32 | V6 _ => 128 end.

(** Every rule of the list is one endpoint's host prefix, on all ports and protocols. *)
Lemma cloud_metadata_hosts :
  Forall2 (fun r e => parse_ip_addr e.1 = Some e.2 /\
    lr_cidr r = e.1 +:+ "/" +:+ pretty (host_len e.2) /\
    trim (lr_cidr r) = lr_cidr r /\ contains_char "/" (lr_cidr r) = true /\
    lr_ports r = [] /\ lr_proto r = [])
  (lf_deny cloud_metadata) metadata_endpoints.
Proof. repeat constructor. Qed.

Section Metadata.
Context {I : Ipnet} {S : IpnetStr I} {T : Toml}.
Context {L : IpnetLaws I} {SL : IpnetStrLaws I S} {TL : TomlLaws T}.

Lemma host_octets a : addr_ok a -> octets_ok (normalize a).
Proof.
  destruct a as [o|o]; cbn [addr_ok]; [|done]. intros [Hl Ho]. split.
  - cbn [normalize]. by rewrite !length_app, Hl.
  - cbn [normalize]. rewrite !Forall_app. split_and!; [by repeat constructor..|done].
Qed.

Lemma contains_own n a : net_addr n = a -> contains_addr n a = true.
Proof using L.
  intros <-. apply contains_addr_iff; [apply net_addr_ok|].
  exists (drop (Z.to_nat (prefix_len n)) (bits (net_addr n))).
  unfold prefix_bits. by rewrite take_drop.
Qed.

(** A host prefix in a policy file contains its host. *)
Lemma parse_cidr_host s t a n :
  parse_ip_addr t = Some a -> s = t +:+ "/" +:+ pretty (host_len a) ->
  trim s = s -> contains_char "/" s = true -> parse_cidr s = inr n ->
  net_addr n = normalize a /\ prefix_len n = 128.
Proof using L SL.
  intros Ht Hs Htrim Hslash. unfold parse_cidr. rewrite Htrim, Hslash. rewrite Hs.
  pose proof (parse_ip_addr_ok t a Ht) as Hok. destruct a as [o|o]; cbn [host_len].
  - destruct (net_from_str_v4 t o 32 Ht) as (m & -> & Ha & Hp); [lia|].
    case_decide as Htr; [|done]. injection Htr as Htr.
    apply (f_equal net4_addr) in Htr. rewrite net4_addr_trunc, Ha in Htr. rewrite Htr, Hp.
    destruct (net_new _ _) as [k|] eqn:Hk; [|done]. intros [= <-].
    by apply net_new_Some in Hk.
  - destruct (net_from_str_v6 t o 128 Ht) as (m & -> & Ha & Hp); [lia|].
    case_decide; [|done]. by intros [= <-].
Qed.

(** The NAT64 form of an IPv4 host prefix exists and contains the host's NAT64 form. *)
Lemma nat64_host n o :
  net_addr n = normalize (V4 o) -> prefix_len n = 128 -> addr_ok (V4 o) ->
  exists m, nat64_equivalent n = Some m /\ contains_addr m (nat64_prefix ++ o) = true.
Proof using L.
  intros Ha Hp Hok.
  assert (network n = normalize (V4 o)) as Hnet.
  { pose proof (network_bits n) as Hb. unfold prefix_bits in Hb. rewrite Hp, Ha in Hb.
    rewrite take_ge, app_nil_r in Hb by (rewrite length_bits; destruct (host_octets _ Hok) as [-> _]; lia).
    destruct (network_ok n), (host_octets _ Hok). by apply bits_inj; [..|congruence|]. }
  destruct mapped_space as [space Hs].
  destruct (nat64_equivalent n) as [m|] eqn:Hm.
  - exists m. split; [done|]. apply contains_own.
    apply nat64_inv in Hm as (o' & p & Ho' & _ & _ & _ & _ & _ & _ & -> & _).
    rewrite Hnet in Ho'. f_equal. change (normalize (V4 o)) with (mapped_prefix ++ o) in Ho'.
    by apply app_inv_head in Ho'.
  - apply (nat64_None n space Hs) in Hm. exfalso. revert Hm. apply not_false_iff_true.
    apply contains_net_iff. apply net_new_Some in Hs as [Hsa Hsp].
    rewrite (embedded_prefix_bits space _ _ 0 Hsa) by (done || lia).
    change (normalize (V4 o)) with (mapped_prefix ++ o) in Ha.
    rewrite (embedded_prefix_bits n _ _ 32 Ha) by (done || lia).
    cbn [take Z.to_nat]. rewrite app_nil_r. by apply prefix_app_r.
Qed.

(** ** Evaluation *)

Lemma best_rule_is_Some prof action addr port proto r :
  r ∈ p_rules prof -> rule_applies action addr port proto r = true ->
  is_Some (best_rule prof action addr port proto).
Proof.
  intros [k Hk]%list_elem_of_lookup Ha. unfold best_rule.
  assert ((k, r) ∈ filter (fun ir => rule_applies action addr port proto ir.2 = true)
    (imap pair (p_rules prof))) as Hin.
  { apply list_elem_of_filter. split; [done|]. apply list_elem_of_lookup. exists k.
    by rewrite list_lookup_imap, Hk. }
  destruct (filter _ _) as [|x l]; [by apply elem_of_nil in Hin|]. by eexists.
Qed.

Lemma evaluate_denied policy id prof addr port proto r :
  policy_profile policy id = Some prof -> r ∈ p_rules prof ->
  rule_applies Deny (normalize addr) port proto r = true ->
  exists rule, evaluate policy id addr port proto = Some (mk_NetDecision Deny rule).
Proof.
  intros Hp Hr Ha. destruct (best_rule_is_Some prof Deny _ port proto r Hr Ha) as [r' Hb].
  unfold evaluate. rewrite Hp. cbn.
  rewrite Hb. by eexists.
Qed.

(** A profile of a policy is found by its id. *)
Lemma policy_profile_elem policy p :
  NoDup (p_id <$> po_profiles policy) -> p ∈ po_profiles policy ->
  policy_profile policy (p_id p) = Some p.
Proof.
  unfold policy_profile. generalize (po_profiles policy). intros l Hnd Hp.
  induction l as [|q l IH]; [by apply elem_of_nil in Hp|]. cbn in Hnd.
  apply NoDup_cons in Hnd as [Hq Hnd]. rewrite filter_cons.
  apply elem_of_cons in Hp as [->|Hp]; [by rewrite decide_True|].
  rewrite decide_False; [auto|]. intros Heq. destruct Hq. rewrite Heq.
  by apply list_elem_of_fmap_2.
Qed.

(** The profile of an entry of the file. *)
Lemma parsed_profile_of text ids policy ids' file name pf :
  ids_ok ids -> parse text ids = (inr policy, ids') -> policy_from_str text = inr file ->
  (name, pf) ∈ plf_profiles file ->
  exists prof, policy_profile policy (p_id prof) = Some prof /\ prof ∈ po_profiles policy /\
    profile_of name pf prof /\ pi_ids ids' !! name = Some (p_id prof).
Proof using L SL TL.
  intros Hids Hp Hf Hin. pose proof (parsed_wf _ _ _ _ Hids Hp) as ([Hnd _] & _ & Hall).
  apply parsed_profiles in Hp as (file' & own & q & st & Hf' & _ & _ & _ & Hown & HF & _);
    [|done].
  assert (file' = file) as -> by congruence. apply list_elem_of_lookup in Hin as [k Hk].
  destruct (Forall2_lookup_l _ _ _ _ _ HF Hk) as (prof & Hprof & _ & Hof). cbn in Hof.
  assert (prof ∈ po_profiles policy) as Hin.
  { rewrite Hown. apply elem_of_app. left. by eapply list_elem_of_lookup_2. }
  exists prof. split_and!; [by apply policy_profile_elem|done|done|].
  rewrite <- (proj1 Hof). by apply Hall.
Qed.

Lemma all_ports_apply id n addr port proto :
  contains_addr n addr = true -> 0 <= port <= 65535 ->
  proto ∈ [PROTO_TCP; PROTO_UDP; PROTO_OTHER] ->
  rule_applies Deny addr port proto (mk_Rule id Deny n [port_ALL] PROTO_ANY) = true.
Proof.
  intros Hc Hport Hproto. unfold rule_applies. cbn [r_action r_net r_proto r_ports].
  rewrite Hc, !andb_true_iff. split_and!; [done..| |].
  - by repeat (apply elem_of_cons in Hproto as [->|Hproto]; [done|]); apply elem_of_nil in Hproto.
  - cbn. unfold PortRange_contains; cbn. rewrite orb_false_r, andb_true_iff, !Z.leb_le. lia.
Qed.

(** The addresses the list denies a profile. *)
Definition denied_endpoint (net : NetworkFile) (a : IpAddr) : Prop :=
  a ∈ metadata_endpoints.*2 \/
  nf_nat64_equivalence net = true /\
  exists v4, v4 ∈ metadata_endpoints.*2 /\ nat64_form v4 = Some a.

Lemma builtin_cloud_metadata : builtin_list "cloud-metadata" = inr cloud_metadata.
Proof using TL.
  unfold builtin_list, find_list, BUILTIN_LISTS. rewrite filter_cons, decide_True by done.
  cbn. rewrite cloud_metadata_reads. by rewrite decide_True.
Qed.

Lemma metadata_rule_applies name net st rules st' a port proto :
  pstate_ok st -> parse_network (profile_ctx name) name net st = (inr rules, st') ->
  "cloud-metadata" ∈ nf_include net -> denied_endpoint net a ->
  0 <= port <= 65535 -> proto ∈ [PROTO_TCP; PROTO_UDP; PROTO_OTHER] ->
  exists r, r ∈ rules /\ rule_applies Deny (normalize a) port proto r = true.
Proof using L SL TL.
  intros Hst Hn Hinc Ha Hport Hproto.
  assert (exists e, e ∈ metadata_endpoints /\ (a = e.2 \/
    nf_nat64_equivalence net = true /\ nat64_form e.2 = Some a)) as (e & He & Hae).
  { destruct Ha as [(e & -> & ?)%list_elem_of_fmap|
      (Hnat & v4 & (e & -> & ?)%list_elem_of_fmap & Hform)]; eauto. }
  apply list_elem_of_lookup in He as [k Hk].
  destruct (Forall2_lookup_r _ _ _ _ _ cloud_metadata_hosts Hk)
    as (r & Hr & Hip & Hcidr & Htrim & Hslash & Hports & Hprotos).
  destruct (parse_network_listed _ _ _ _ _ _ _ _ r Hst Hn Hinc builtin_cloud_metadata)
    as (n & ps & id & Hpc & Hps & Hsub); [by eapply list_elem_of_lookup_2|].
  rewrite Hports in Hps. injection Hps as <-. rewrite Hprotos in Hsub. cbn [proto_mask] in Hsub.
  destruct (parse_cidr_host _ _ _ _ Hip Hcidr Htrim Hslash Hpc) as [Haddr Hlen].
  unfold pushed in Hsub. destruct Hae as [->|[Hnat Hform]].
  - exists (mk_Rule id Deny n [port_ALL] PROTO_ANY). split; [set_solver|].
    apply all_ports_apply; [by apply contains_own|done..].
  - destruct (e.2) as [o|]; [|done]. injection Hform as <-.
    destruct (nat64_host n o Haddr Hlen) as (m & Hm & Hcm); [by eapply parse_ip_addr_ok|].
    exists (mk_Rule id Deny m [port_ALL] PROTO_ANY). split; [|by apply all_ports_apply].
    apply Hsub. rewrite Hnat, Hm. cbn. left.
Qed.

(** Under every profile of a parsed policy that includes the built-in list every endpoint
    of the list is denied on every port and protocol, whatever the profile allows, and so
    is the NAT64 form of every IPv4 endpoint unless the profile turns that off. *)
Lemma metadata_endpoints_denied text ids policy ids' file name pf a port proto
    (Hids : ids_ok ids) (Hp : parse text ids = (inr policy, ids'))
    (Hf : policy_from_str text = inr file) (Hin : (name, pf) ∈ plf_profiles file)
    (Hinc : "cloud-metadata" ∈ nf_include (pf_network pf))
    (Ha : denied_endpoint (pf_network pf) a)
    (Hport : 0 <= port <= 65535) (Hproto : proto ∈ [PROTO_TCP; PROTO_UDP; PROTO_OTHER]) :
  exists id rule, pi_ids ids' !! name = Some id /\
    evaluate policy id a port proto = Some (mk_NetDecision Deny rule).
Proof using L SL TL.
  destruct (parsed_profile_of _ _ _ _ _ _ _ Hids Hp Hf Hin) as (prof & Hprof & _ & Hof & Hid).
  destruct Hof as (_ & _ & _ & st & st' & Hst & Hn).
  destruct (metadata_rule_applies _ _ _ _ _ _ port proto Hst Hn Hinc Ha Hport Hproto)
    as (r & Hr & Happ).
  destruct (evaluate_denied _ _ _ _ _ _ _ Hprof Hr Happ) as [rule He]. eauto.
Qed.

(** The quarantine profile of a parsed policy. *)
Lemma parsed_quarantine text ids policy ids' :
  ids_ok ids -> parse text ids = (inr policy, ids') ->
  exists q, policy_profile policy (p_id q) = Some q /\
    pi_ids ids' !! QUARANTINE = Some (p_id q) /\
    p_mode q = Enforce /\ p_net_default q = Deny /\ p_deny_raw_sockets q = true /\
    p_rules q = [] /\ p_exec q = Some (mk_ExecPolicy Deny false []).
Proof using L SL TL.
  intros Hids Hp. pose proof (parsed_wf _ _ _ _ Hids Hp) as ([Hnd _] & _ & Hall).
  apply parsed_profiles in Hp as (file & own & q & st & _ & _ & _ & _ & Hown & _ & Hq & _);
    [|done].
  assert (q ∈ po_profiles policy) as Hin by (rewrite Hown; set_solver).
  destruct Hq as (Hname & Hq). exists q. split; [by apply policy_profile_elem|].
  split; [|done]. rewrite <- Hname. by apply Hall.
Qed.

End Metadata.
