(* ===== verification/Resilience.v ===== *)
(** * Heartbeat and self-identification ([rk-sensor/src/resilience.rs])

    The thread that renews the kernel's heartbeat, and the registration of the sensor with
    the guard programs; what the kernel programs then see. *)

From S2P Require Import Prelude Text Abi Bpf Lpm Scenario Logic Common Governance Levels Net.
From S2P Require Import Exec File Guard Object Enforcement Reload Apply.
Open Scope string_scope.
Open Scope list_scope.
Open Scope Z_scope.

(** ** The heartbeat *)

(** Durations and times are in nanoseconds. *)
Definition MIN_TIMEOUT : Z := 1000000000.

(** A missing configuration counts as a zeroed one; the published levels stay. *)
Definition set_timeout (timeout : Z) (m : policy_maps) : policy_maps :=
  mk_policy_maps (m_cgroup_profile m) (m_profiles m) (m_active_slot m) (m_heartbeat m)
    (Some (mk_rk_config (Z.min timeout u64_max) (default 0 (cfg_governed_levels <$> m_config m))))
    (m_guard m) (m_monitored_cgroups m) (m_net_deny m) (m_net_allow m) (m_exec_allow m)
    (m_file_protect m).

Definition set_heartbeat (now : Z) (m : policy_maps) : policy_maps :=
  mk_policy_maps (m_cgroup_profile m) (m_profiles m) (m_active_slot m) (Some now)
    (m_config m) (m_guard m) (m_monitored_cgroups m) (m_net_deny m) (m_net_allow m)
    (m_exec_allow m) (m_file_protect m).

(** [Heartbeat::start] up to the spawn, at boot time [now]: the time of the first beat. *)
Definition start (timeout now : Z) : sensor Z :=
  if timeout <? MIN_TIMEOUT then fail
  else
    open_map;;
    must (set_timeout timeout);;
    open_map;;
    must (set_heartbeat now);;
    mret now.

(** The thread: per iteration the stop flag it reads and the time at which it wakes up.
    [last] is the time of the last successful beat. *)
Fixpoint heartbeat_loop (last : Z) (iterations : list (bool * Z)) : sensor Z :=
  match iterations with
  | [] => mret last
  | (stop, now) :: iterations =>
      if stop : bool then mret last
      else
        ok ← syscall (set_heartbeat now);
        heartbeat_loop (if (ok : bool) then now else last) iterations
  end.

(** ** Self-identification *)

(** What follows the last [c]. *)
Fixpoint after_last (c : ascii) (l : list ascii) : option (list ascii) :=
  match l with
  | [] => None
  | a :: l =>
      match after_last c l with
      | Some r => Some r
      | None => if decide (a = c) then Some l else None
      end
  end.

Definition start_ticks (stat : string) : option Z :=
  rest ← after_last ")" (chars stat);
  field ← split_whitespace (text rest) !! 19%nat;
  parse_uint u64_max field.

Definition set_guard (target : rk_guard_target) (m : policy_maps) : policy_maps :=
  mk_policy_maps (m_cgroup_profile m) (m_profiles m) (m_active_slot m) (m_heartbeat m)
    (m_config m) (Some target) (m_monitored_cgroups m) (m_net_deny m) (m_net_allow m)
    (m_exec_allow m) (m_file_protect m).

(** The process id and what reading [/proc/self/stat] gave. *)
Definition protect_self (pid : Z) (stat : option string) : sensor unit :=
  match stat ≫= start_ticks with
  | None => fail
  | Some ticks =>
      open_map;;
      must (set_guard (mk_rk_guard_target pid 0 ticks))
  end.

(** ** The heartbeat the kernel sees *)

(** The last beat written is the one on record, and it is not 0. *)
Definition beating (timeout last : Z) (m : policy_maps) : Prop :=
  0 < last /\ m_heartbeat m = Some last /\
  exists cfg, m_config m = Some cfg /\ cfg_heartbeat_timeout_ns cfg = Z.min timeout u64_max.

Lemma open_map_Some s u s' : open_map s = (Some u, s') -> s' = drop_fault s.
Proof. unfold open_map. destruct (default false _); [done|]. by intros [= _ <-]. Qed.

Lemma must_Some f s u s' : must f s = (Some u, s') -> s' = set_maps (f (e_maps s)) s.
Proof.
  unfold must, syscall, mbind, sensor_bind. destruct (default false _); [done|]. by intros [= _ <-].
Qed.

Lemma start_beating timeout now s last s' :
  0 < now -> start timeout now s = (Some last, s') ->
  MIN_TIMEOUT <= timeout /\ last = now /\ beating timeout now (e_maps s') /\
  (e_faults s = [] -> e_faults s' = []).
Proof.
  intros Hnow. unfold start. destruct (Z.ltb_spec timeout MIN_TIMEOUT) as [|Hmin]; [done|].
  intros (? & ? & ->%open_map_Some & (? & ? & ->%must_Some & (? & ? & ->%open_map_Some &
    (? & ? & ->%must_Some & [= <- <-])%sensor_bind_Some)%sensor_bind_Some)%sensor_bind_Some)%sensor_bind_Some.
  split; [done|]. split; [done|]. split; [split; [done|]; split; [done|]; by eexists|].
  cbn. by intros ->.
Qed.

Lemma loop_beating timeout iterations last s last' s' :
  beating timeout last (e_maps s) -> Forall (fun i => 0 < i.2) iterations ->
  heartbeat_loop last iterations s = (Some last', s') -> beating timeout last' (e_maps s').
Proof.
  revert last s. induction iterations as [|[stop now] its IH]; intros last s Hb Hpos; cbn.
  { by intros [= <- <-]. }
  destruct stop; [by intros [= <- <-]|].
  apply Forall_cons in Hpos as [Hnow Hpos]. cbn in Hnow.
  unfold mbind, sensor_bind, syscall. destruct (default false _).
  - by apply IH.
  - apply IH; [|done]. destruct Hb as (_ & _ & Hc). by split.
Qed.

Lemma loop_returns last iterations s : exists last', (heartbeat_loop last iterations s).1 = Some last'.
Proof.
  revert last s. induction iterations as [|[stop now] its IH]; intros last s; cbn; [eauto|].
  destruct stop; [eauto|]. unfold mbind, sensor_bind, syscall.
  destruct (default false _); apply IH.
Qed.

Lemma beating_fresh timeout last m now :
  MIN_TIMEOUT <= timeout -> beating timeout last m -> now - last <= u64_max ->
  heartbeat_fresh m now <-> now - last <= timeout.
Proof.
  unfold MIN_TIMEOUT, u64_max. intros Hmin (Hl & Hh & cfg & Hc & Ht) Hnow. unfold heartbeat_fresh.
  rewrite Hh, Hc. split.
  - intros (l & c & [= <-] & [= <-] & _ & _ & Hf). rewrite Ht in Hf. unfold u64_max in Hf. lia.
  - intros Hle. exists last, cfg. rewrite Ht. unfold u64_max. split_and!; try done; lia.
Qed.

(** Without failing writes every wake-up is a beat. *)
Lemma loop_last last iterations s :
  e_faults s = [] -> Forall (fun i => i.1 = false) iterations ->
  (heartbeat_loop last iterations s).1 = Some (default last (snd <$> list.last iterations)).
Proof.
  revert last s. induction iterations as [|[stop now] its IH]; intros last s Hf Hst; [done|].
  apply Forall_cons in Hst as [Hs Hst]. cbn in Hs. subst stop.
  cbn [heartbeat_loop]. unfold mbind, sensor_bind, syscall. rewrite Hf. cbn [head default].
  rewrite IH; [|cbn; by rewrite Hf|done].
  destruct its as [|i its]; [done|]. change (list.last ((false, now) :: i :: its))
    with (list.last (i :: its)). by destruct (list.last_is_Some (i :: its)) as [_ [x ->]]; [done|].
Qed.

(** ** A heartbeat that keeps coming, and one that stops *)

(** The iterations of a thread that was last awake at [t] and is late by these times. *)
Fixpoint wakes (timeout t : Z) (lates : list Z) : list (bool * Z) :=
  match lates with
  | [] => []
  | late :: lates =>
      let now := t + timeout / 4 + late in (false, now) :: wakes timeout now lates
  end.

(** The iterations up to time [now]. *)
Fixpoint woken (now : Z) (iterations : list (bool * Z)) : list (bool * Z) :=
  match iterations with
  | [] => []
  | i :: iterations => if i.2 <=? now then i :: woken now iterations else []
  end.

Definition last_wake (t : Z) (iterations : list (bool * Z)) : Z :=
  default t (snd <$> list.last iterations).

Lemma last_wake_cons t i iterations : last_wake t (i :: iterations) = last_wake i.2 iterations.
Proof.
  unfold last_wake. rewrite last_cons. destruct (list.last iterations); done.
Qed.

Lemma wakes_fresh timeout t lates now s :
  MIN_TIMEOUT <= timeout -> Forall (fun late => 0 <= late <= timeout - timeout / 4) lates ->
  beating timeout t (e_maps s) -> e_faults s = [] -> now <= u64_max ->
  t <= now <= last_wake t (wakes timeout t lates) + timeout ->
  heartbeat_fresh (e_maps (heartbeat_loop t (woken now (wakes timeout t lates)) s).2) now.
Proof.
  intros Hmin. revert t s. induction lates as [|late lates IH]; intros t s Hl Hb Hf Hu Hnow.
  { cbn in *. pose proof Hb as [Ht _]. apply (beating_fresh timeout t); [done..|lia|lia]. }
  apply Forall_cons in Hl as [Hlate Hl]. cbn [wakes] in Hnow |- *. rewrite last_wake_cons in Hnow.
  cbn [woken snd] in Hnow |- *. pose proof Hb as (Ht & _ & Hc).
  set (t' := t + timeout / 4 + late) in *.
  assert (t <= t' <= t + timeout) as Ht'.
  { pose proof (Z.div_pos timeout 4). unfold MIN_TIMEOUT in Hmin. lia. }
  clearbody t'.
  destruct (Z.leb_spec t' now) as [Hle|Hgt]; cbn [heartbeat_loop].
  - unfold mbind, sensor_bind, syscall. rewrite Hf. cbn [head default].
    apply IH; [done| |cbn; by rewrite Hf|done|lia]. split; [lia|]. by split.
  - apply (beating_fresh timeout t); [done..|lia|lia].
Qed.

(** C17. Liveness of the heartbeat: a sensor whose thread runs and whose writes succeed is
    never taken for dead.  At every time from its start on, the kernel finds the heartbeat
    fresh, provided no wake-up of the thread is late by more than three quarters of the
    timeout. *)
Theorem beating_sensor_stays_fresh timeout t lates now s t' s'
    (Ht : 0 < t) (Hf : e_faults s = []) (Hs : start timeout t s = (Some t', s'))
    (Hl : Forall (fun late => 0 <= late <= timeout - timeout / 4) lates)
    (Hu : now <= u64_max)
    (Hnow : t <= now <= last_wake t (wakes timeout t lates) + timeout) :
  heartbeat_fresh
    (e_maps (heartbeat_loop t' (woken now (wakes timeout t lates)) s').2) now.
Proof.
  apply start_beating in Hs as (Hmin & -> & Hb & Hf'); [|done]. apply wakes_fresh; auto.
Qed.

(** C16. A dead sensor fails closed: whatever the thread did, whichever of its writes failed
    and whenever it stopped, once the timeout has passed since the last successful beat
    every program that takes a decision under an enforcing profile refuses. *)
Theorem dead_sensor_eventually_denies `{K : BpfKernel} timeout t iterations s t' s1 last s2 p w g
    (Ht : 0 < t) (Hs : start timeout t s = (Some t', s1))
    (Hit : Forall (fun i => 0 < i.2 <= u64_max) iterations)
    (Hloop : heartbeat_loop t' iterations s1 = (Some last, s2))
    (Hw : w_maps w = e_maps s2) (Hwf : bindings_wf (w_maps w)) (Hclock : clock_wf w)
    (Hdead : last + timeout < k_boot_ns (w_env w))
    (Hg : result rk_governance w = Some g) (Hm : g_mode g = RK_MODE_ENFORCE)
    (He : earlier p = 0) (Hc : checks (w_maps w) (w_env w) g p <> []) :
  result (entry p) w = refuse p.
Proof.
  apply start_beating in Hs as (Hmin & -> & Hb & _); [|done].
  apply (loop_beating timeout) in Hloop; [|done|eapply Forall_impl; [done|]; cbn; by intros ? []].
  eapply stale_denies; [done..| |done|done]. rewrite Hw, (beating_fresh timeout last); [lia|done..|].
  pose proof Hloop as [? _]. destruct Hclock as [? _]. unfold u64_max. lia.
Qed.

(** ** The process the guard recognises *)

(** Characters of the numeric fields and the state of a stat line. *)
Definition plain (c : ascii) : Prop := is_ascii_alphanumeric c = true \/ c = "-"%char.

#[export] Instance plain_dec c : Decision (plain c).
Proof. unfold plain. apply _. Defined.

Fixpoint spaced (fields : list string) : list ascii :=
  match fields with
  | [] => []
  | f :: fields => " "%char :: chars f ++ spaced fields
  end.

(** A line of [/proc/<pid>/stat]. *)
Definition stat_line (pid comm : string) (fields : list string) : string :=
  pid +:+ " (" +:+ comm +:+ ")" +:+ text (spaced fields).

Lemma after_last_app c l l' : c ∉ l' -> after_last c (l ++ c :: l') = Some l'.
Proof.
  intros Hc. assert (after_last c l' = None) as Hn.
  { induction l' as [|a l' IH]; [done|]. apply not_elem_of_cons in Hc as [Ha Hc]. cbn.
    rewrite IH by done. by rewrite decide_False. }
  induction l as [|a l IH]; cbn; [by rewrite Hn, decide_True|]. by rewrite IH.
Qed.

Lemma plain_class c : plain c -> bool_decide (c = ")"%char) = false /\
  forallb (fun p => negb (bool_decide (head p = Some c))) white_space = true.
Proof.
  intros Hc. assert (is_ascii_alphanumeric c || bool_decide (c = "-"%char) = true) as H.
  { apply orb_true_iff. destruct Hc as [?|?]; [by left|right]. by apply bool_decide_eq_true. }
  clear Hc. revert H. destruct c as [b0 b1 b2 b3 b4 b5 b6 b7].
  destruct b0, b1, b2, b3, b4, b5, b6, b7; vm_compute; try discriminate; done.
Qed.

Lemma strip_any_plain c l : plain c -> strip_any white_space (c :: l) = None.
Proof.
  intros [_ Hw]%plain_class. unfold strip_any.
  assert (omap (fun p => strip_list p (c :: l)) white_space = []) as ->; [|done].
  assert (Forall (fun p => p <> []) white_space) as Hne by (repeat constructor; done).
  revert Hw Hne. generalize white_space. induction l0 as [|p ps IH]; [done|]. cbn.
  intros [Hp Hw]%andb_true_iff [Hn Hne]%Forall_cons. destruct p as [|b p]; [done|]. cbn in Hp |- *.
  rewrite decide_False; [by apply IH|]. intros ->. by rewrite bool_decide_true in Hp.
Qed.

Lemma words_word n seg w l :
  (length w <= n)%nat -> Forall plain w ->
  words_loop n seg (w ++ l) = words_loop (n - length w) (seg ++ w) l.
Proof.
  revert n seg. induction w as [|c w IH]; intros n seg Hn Hw; cbn.
  { by rewrite Nat.sub_0_r, app_nil_r. }
  destruct n as [|n]; [cbn in Hn; lia|]. apply Forall_cons in Hw as [Hc Hw].
  cbn [words_loop]. rewrite strip_any_plain by done. rewrite IH by (cbn in Hn; lia || done).
  by rewrite <- app_assoc.
Qed.

Lemma words_spaced n seg fields :
  (length (spaced fields) < n)%nat -> Forall (fun f => Forall plain (chars f)) fields ->
  words_loop n seg (spaced fields) = seg :: (chars <$> fields).
Proof.
  revert n seg. induction fields as [|f fields IH]; intros n seg Hn Hf; cbn [spaced].
  { by destruct n; cbn in Hn; [lia|]. }
  apply Forall_cons in Hf as [Hf Hfs]. cbn in Hn. rewrite length_app in Hn.
  destruct n as [|n]; [lia|].
  assert (forall l, words_loop (S n) seg (" "%char :: l) = seg :: words_loop n [] l) as -> by done.
  cbn [fmap list_fmap]. f_equal. rewrite words_word by (lia || done). cbn [app].
  apply IH; [lia|done].
Qed.

Lemma split_spaced fields :
  Forall (fun f => f <> EmptyString /\ Forall plain (chars f)) fields ->
  split_whitespace (text (spaced fields)) = fields.
Proof.
  intros Hf. unfold split_whitespace. rewrite chars_text.
  rewrite words_spaced; [|lia|eapply Forall_impl; [done|]; by intros f []].
  rewrite filter_cons_False by (by intros ?).
  assert (filter (fun seg => seg <> []) (chars <$> fields) = chars <$> fields) as ->.
  { apply filter_Forall, Forall_forall. intros seg (f & -> & Hin)%list_elem_of_fmap Hnil.
    rewrite Forall_forall in Hf. destruct (Hf f Hin) as [Hne _]. apply Hne.
    rewrite <- (text_chars f), Hnil. done. }
  rewrite <- list_fmap_compose. rewrite <- (list_fmap_id fields) at 2.
  apply list_fmap_ext. intros _ f _. apply text_chars.
Qed.

Lemma spaced_no_paren fields :
  Forall (fun f => Forall plain (chars f)) fields -> ")"%char ∉ spaced fields.
Proof.
  induction 1 as [|f fields Hf _ IH]; cbn; [apply not_elem_of_nil|].
  apply not_elem_of_cons. split; [done|]. apply not_elem_of_app. split; [|done].
  intros Hin. rewrite Forall_forall in Hf. destruct (plain_class _ (Hf _ Hin)) as [H _].
  by rewrite bool_decide_true in H.
Qed.

Lemma after_comm pid comm fields :
  Forall (fun f => f <> EmptyString /\ Forall plain (chars f)) fields ->
  after_last ")" (chars (stat_line pid comm fields)) = Some (spaced fields).
Proof.
  intros Hf. assert (chars (stat_line pid comm fields) =
    (chars pid ++ chars " (" ++ chars comm) ++ ")"%char :: spaced fields) as ->.
  { unfold stat_line. rewrite !chars_app, chars_text, <- !app_assoc. done. }
  apply after_last_app, spaced_no_paren. eapply Forall_impl; [done|]. by intros f [].
Qed.

Lemma bind_value {A B} (o : option A) (f : A -> option B) a : o = Some a -> (o ≫= f) = f a.
Proof. by intros ->. Qed.

(** Field 22 of the line, whatever the command name holds. *)
Lemma start_ticks_line pid comm fields field :
  Forall (fun f => f <> EmptyString /\ Forall plain (chars f)) fields ->
  fields !! 19%nat = Some field ->
  start_ticks (stat_line pid comm fields) = parse_uint u64_max field.
Proof.
  intros Hf H19. unfold start_ticks. rewrite (bind_value _ _ _ (after_comm pid comm fields Hf)).
  cbv beta. rewrite <- (split_spaced fields Hf) in H19. exact (bind_value _ _ _ H19).
Qed.

(** C39. The sensor registers itself: after [protect_self], the guard programs take a task
    for the sensor exactly when its thread group is the sensor's and its start time, in
    clock ticks, is what field 22 of [/proc/self/stat] says - whatever name the process
    has, closing parentheses and spaces included. *)
Theorem registered_sensor_recognised `{K : BpfKernel} pid spid comm fields field ticks s s' w task
    (Hpid : 0 < pid < 2 ^ 32)
    (Hf : Forall (fun f => f <> EmptyString /\ Forall plain (chars f)) fields)
    (H19 : fields !! 19%nat = Some field) (Hticks : parse_uint u64_max field = Some ticks)
    (Hs : protect_self pid (Some (stat_line spid comm fields)) s = (Some tt, s'))
    (Hw : w_maps w = e_maps s') :
  result (rk_is_sensor task) w = true <->
  u32 (k_field (w_env w) task_struct_tgid task) = pid /\
  k_field (w_env w) task_struct_start_boottime
    (k_field (w_env w) task_struct_group_leader task) / RK_NSEC_PER_CLOCK_TICK = ticks.
Proof.
  unfold protect_self in Hs. cbn [mbind option_bind] in Hs.
  rewrite (start_ticks_line _ _ _ _ Hf H19), Hticks in Hs.
  apply sensor_bind_Some in Hs as (? & ? & ->%open_map_Some & ->%must_Some).
  rewrite is_sensor_spec, bool_decide_eq_true, Hw. unfold is_sensor. cbn. split.
  - intros (? & [= <-] & _ & ? & ?). done.
  - intros [? ?]. eexists. split; [done|]. cbn. split_and!; [lia|done..].
Qed.
