(* ===== verification/Steady.v ===== *)
(** * What the engine's operations leave alone

    Binding, unbinding, quarantining and publishing levels touch neither the rule slots
    nor the policy in force; only an apply does. *)

From stdpp Require Import sorting.
From S2P Require Import Prelude Text Identity Abi Bpf Lpm Scenario Logic Common Governance.
From S2P Require Import Levels Net Exec File Guard Object Enforcement Ipnet Addr Policy.
From S2P Require Import Cidr Parse Flatten Reload Apply Resolve Engine Deploy.
Open Scope string_scope.
Open Scope list_scope.
Open Scope Z_scope.

(** ** Kernel operations that keep the rules *)

Record rules_kept (k k' : engine) : Prop := mk_rules_kept {
  rk_written0 : e_written0 k' = e_written0 k;
  rk_written1 : e_written1 k' = e_written1 k;
  rk_slot : e_active_slot k' = e_active_slot k;
  rk_faults : e_faults k = [] -> e_faults k' = [];
  rk_active : m_active_slot (e_maps k') = m_active_slot (e_maps k);
  rk_profiles : m_profiles (e_maps k') = m_profiles (e_maps k);
  rk_deny : m_net_deny (e_maps k') = m_net_deny (e_maps k);
  rk_allow : m_net_allow (e_maps k') = m_net_allow (e_maps k);
  rk_exec : m_exec_allow (e_maps k') = m_exec_allow (e_maps k);
  rk_files : m_file_protect (e_maps k') = m_file_protect (e_maps k) }.

#[export] Instance rules_kept_preorder : PreOrder rules_kept.
Proof.
  split; [by intros k|]. intros k1 k2 k3 [] []. split; try congruence. auto.
Qed.

Lemma rules_kept_recorded slot k k' :
  rules_kept k k' -> recorded slot k -> recorded slot k'.
Proof.
  intros [Hw0 Hw1 _ _ _ Hp Hd Ha Hx Hf] [Rd Ra Rp Rx Rf].
  assert (written k' slot = written k slot) as Hw by (unfold written; by rewrite Hw0, Hw1).
  split; rewrite Hw, ?Hp, ?Hd, ?Ha, ?Hx, ?Hf; done.
Qed.

Lemma rules_kept_serves `{I : Ipnet} policy generation exec files k k' :
  rules_kept k k' -> engine_ok k' -> serves policy generation exec files (e_maps k) ->
  serves policy generation exec files (e_maps k').
Proof.
  intros [_ _ _ _ Hact Hp Hd Ha Hx Hf] [Hok _ _ _ _] Hsv.
  eapply serves_slot; [done..| | | | | |]; try by (intros; rewrite ?Hp, ?Hd, ?Ha, ?Hx, ?Hf).
  unfold live_slot. by rewrite Hact.
Qed.

Class KeepsRules {A} (m : sensor A) : Prop := keeps_rules k : rules_kept k (m k).2.

#[export] Instance keeps_rules_ret {A} (a : A) : KeepsRules (mret a).
Proof. by intros k. Qed.

#[export] Instance keeps_rules_bind {A B} (m : sensor A) (f : A -> sensor B) :
  KeepsRules m -> (forall a, KeepsRules (f a)) -> KeepsRules (m ≫= f).
Proof.
  intros Hm Hf k. specialize (Hm k). unfold mbind, sensor_bind.
  destruct (m k) as [[a|] k1]; [|done]. etrans; [done|apply Hf].
Qed.

Lemma drop_fault_kept k : rules_kept k (drop_fault k).
Proof. split; try done. cbn. by intros ->. Qed.

#[export] Instance keeps_rules_open_map : KeepsRules open_map.
Proof. intros k. unfold open_map. destruct (default false _); apply drop_fault_kept. Qed.

(** A map operation on the bindings or the configuration. *)
Class Unruly (f : policy_maps -> policy_maps) : Prop := unruly m :
  m_active_slot (f m) = m_active_slot m /\ m_profiles (f m) = m_profiles m /\
  m_net_deny (f m) = m_net_deny m /\ m_net_allow (f m) = m_net_allow m /\
  m_exec_allow (f m) = m_exec_allow m /\ m_file_protect (f m) = m_file_protect m.

#[export] Instance unruly_bindings f : Unruly (on_bindings f).
Proof. done. Qed.

#[export] Instance unruly_levels levels : Unruly (set_governed_levels levels).
Proof. done. Qed.

#[export] Instance keeps_rules_syscall f : Unruly f -> KeepsRules (syscall f).
Proof.
  intros Hf k. unfold syscall. destruct (default false _); [apply drop_fault_kept|].
  destruct (Hf (e_maps k)) as (? & ? & ? & ? & ? & ?). split; try done. cbn. by intros ->.
Qed.

#[export] Instance keeps_rules_must f : Unruly f -> KeepsRules (must f).
Proof. intros Hf. apply keeps_rules_bind; [apply _|]. by intros []. Qed.

#[export] Instance keeps_rules_ignore f : Unruly f -> KeepsRules (ignore f).
Proof. intros Hf. apply keeps_rules_bind; apply _. Qed.

#[export] Instance keeps_rules_for_each {A} (f : A -> sensor unit) l :
  (forall x, KeepsRules (f x)) -> KeepsRules (for_each f l).
Proof. intros Hf. induction l; cbn; apply _. Qed.

#[export] Instance keeps_rules_write_binding current id entry :
  KeepsRules (write_binding current id entry).
Proof.
  unfold write_binding. case_decide; [apply _|]. apply keeps_rules_bind; [apply _|].
  intros []; apply _.
Qed.

#[export] Instance keeps_rules_write_bindings current applied ok wanted :
  KeepsRules (write_bindings current applied ok wanted).
Proof.
  revert applied ok. induction wanted as [|[id e] wanted IH]; intros applied ok; cbn; [apply _|].
  apply keeps_rules_bind; [apply _|]. intros [held done]. apply IH.
Qed.

(** ** Engine operations that keep the rules and the policy *)

Section Steady.
Context {I : Ipnet} {S : IpnetStr I} {T : Toml} {C : CgroupFs}.

Definition steady (s s' : pengine) : Prop :=
  rules_kept (pe_kernel s) (pe_kernel s') /\ pe_policy s' = pe_policy s /\
  pe_text s' = pe_text s /\ pe_ids s' = pe_ids s.

#[export] Instance steady_preorder : PreOrder steady.
Proof.
  split; [by intros s|]. intros s1 s2 s3 [H1 E1] [H2 E2]. split; [by etrans|]. destruct E1 as (? & ? & ?), E2 as (? & ? & ?).
  split_and!; congruence.
Qed.

Class Steady {A} (m : engineM A) : Prop := keeps_steady s : steady s (m s).2.

#[export] Instance steady_ret {A} (a : A) : Steady (engineM_ret A a).
Proof. by intros s. Qed.

#[export] Instance steady_throw {A} e : Steady (throw (A:=A) e).
Proof. by intros s. Qed.

#[export] Instance steady_ask {A} (f : pengine -> A) : Steady (ask f).
Proof. by intros s. Qed.

#[export] Instance steady_attempt {E A} (wrap : E -> EngineError) (r : E + A) :
  Steady (attempt wrap r).
Proof. by destruct r. Qed.

Lemma steady_bind {A B} (m : engineM A) (f : A -> engineM B) :
  Steady m -> (forall a, Steady (f a)) -> Steady (engineM_bind A B f m).
Proof.
  intros Hm Hf s. specialize (Hm s). unfold engineM_bind.
  destruct (m s) as [[e|a] s1]; [done|]. etrans; [done|apply Hf].
Qed.

#[export] Instance steady_try_kernel {A} (m : sensor A) : KeepsRules m -> Steady (try_kernel m).
Proof.
  intros Hm s. unfold try_kernel. specialize (Hm (pe_kernel s)).
  by destruct (m (pe_kernel s)).
Qed.

#[export] Instance steady_kernel {A} (m : sensor A) : KeepsRules m -> Steady (kernel m).
Proof. intros Hm. apply steady_bind; [apply _|]. intros []; apply _. Qed.

Lemma steady_update f : (forall s, steady s (f s)) -> Steady (update f).
Proof. done. Qed.

#[export] Instance steady_persist : Steady (update persist).
Proof.
  intros s. cbn. unfold persist. destruct (sf_set _); [|reflexivity].
  split; [reflexivity|by split_and!].
Qed.

#[export] Instance steady_catch {A} (m : engineM A) : Steady m -> Steady (catch m).
Proof. intros Hm s. specialize (Hm s). unfold catch. by destruct (m s). Qed.

(** Decomposes an operation into its effects. *)
Ltac solve_steady :=
  repeat (first
    [ apply steady_bind; [|intros ?]
    | apply steady_update; intros ?; split; [reflexivity|by split_and!]
    | apply _
    | match goal with |- Steady (match ?x with _ => _ end) => destruct x end
    | progress cbv zeta ]).

#[export] Instance steady_set_binding id p : Steady (set_binding id p).
Proof. unfold set_binding. solve_steady. Qed.

#[export] Instance steady_publish : Steady publish_governed_levels.
Proof. unfold publish_governed_levels. solve_steady. Qed.

#[export] Instance steady_bindable profile : Steady (bindable_profile profile).
Proof. unfold bindable_profile. solve_steady. Qed.

#[export] Instance steady_bind_dynamic cgroup profile : Steady (bind_dynamic cgroup profile).
Proof. unfold bind_dynamic. solve_steady. Qed.

#[export] Instance steady_bind_container cgroup profile : Steady (bind_container cgroup profile).
Proof. unfold bind_container. solve_steady. Qed.

#[export] Instance steady_unbind_dynamic id : Steady (unbind_dynamic id).
Proof. unfold unbind_dynamic. solve_steady. Qed.

#[export] Instance steady_quarantine cgroup : Steady (quarantine cgroup).
Proof. unfold quarantine. solve_steady. Qed.

#[export] Instance steady_release cgroup : Steady (release cgroup).
Proof. unfold release. solve_steady. Qed.

#[export] Instance steady_sync_bindings wanted : Steady (sync_bindings wanted).
Proof. unfold sync_bindings. solve_steady. Qed.

#[export] Instance steady_publish_bindings wanted : Steady (publish_bindings wanted).
Proof. unfold publish_bindings. solve_steady. Qed.

End Steady.
