(* ===== verification/Runtime.v ===== *)
(** * Running the policy engine

    The engine's operations as steps of a state machine in which any map operation of any
    step may fail, and what holds of every state it can reach: the engine's record of the
    bindings is what the kernel holds, and quarantined cgroups stay quarantined. *)

From stdpp Require Import sorting.
From S2P Require Import Prelude Text Identity Abi Bpf Lpm Scenario Logic Common Governance.
From S2P Require Import Levels Net Exec File Guard Object Enforcement Ipnet Addr Policy.
From S2P Require Import Cidr Parse Flatten Reload Apply Resolve Engine Deploy Validated.
From S2P Require Import Bindings Steady.
Open Scope string_scope.
Open Scope list_scope.
Open Scope Z_scope.

#[local] Set Default Proof Using "All".

Section Runtime.
Context {I : Ipnet} {S : IpnetStr I} {T : Toml} {O : Os} {C : CgroupFs}.
Context {L : IpnetLaws I} {SL : IpnetStrLaws I S} {TL : TomlLaws T}.

(** ** Operations as steps *)

Inductive operation : Set :=
| ApplyText (text : string)
| Rollback
| BindDynamic (cgroup profile : string)
| BindContainer (cgroup profile : string)
| UnbindDynamic (id : Z)
| Quarantine (cgroup : string)
| Release (cgroup : string).

Definition ignore_value {A} (m : engineM A) : engineM unit :=
  engineM_bind _ _ (fun _ => engineM_ret _ tt) m.

Definition perform (o : operation) : engineM unit :=
  match o with
  | ApplyText text => apply_text text
  | Rollback => rollback
  | BindDynamic cgroup profile => ignore_value (bind_dynamic cgroup profile)
  | BindContainer cgroup profile => ignore_value (bind_container cgroup profile)
  | UnbindDynamic id => unbind_dynamic id
  | Quarantine cgroup => quarantine cgroup
  | Release cgroup => release cgroup
  end.

(** The kernel at the start of an operation: which of the operation's calls will fail, and
    no maps seen yet. *)
Definition begin (faults : list bool) (s : pengine) : pengine :=
  let k := pe_kernel s in
  with_kernel (mk_engine (e_maps k) (e_written0 k) (e_written1 k) (e_active_slot k)
    (e_generation k) faults []) s.

(** ** The invariant *)

Definition profile_number (p : Z) : Prop := 0 <= p < 2 ^ 32.

Definition policy_known (ids : ProfileIds) (policy : Policy) : Prop :=
  (forall p, p ∈ po_profiles policy -> pi_ids ids !! p_name p = Some (p_id p)) /\
  (exists q, q ∈ po_profiles policy /\ p_name q = QUARANTINE) /\
  (forall b, b ∈ po_bindings policy -> exists p, p ∈ po_profiles policy /\ p_id p = b_profile b).

(** Once a policy has been applied. *)
Record good (s : pengine) : Prop := mk_good {
  g_kernel : engine_ok (pe_kernel s);
  g_ids : ids_ok (pe_ids s);
  g_policy : exists policy, pe_policy s = Some policy /\ policy_known (pe_ids s) policy;
  g_bound id e :
    pe_bindings s !! id = Some e ->
    profile_number e.2 /\
    m_cgroup_profile (e_maps (pe_kernel s)) !! id = Some (binding_value e.2);
  g_adopted id e : pe_adopted s !! id = Some e -> profile_number e.2;
  g_held id :
    id ∈ pe_quarantined s ->
    exists e, pe_bindings s !! id = Some e /\ pi_ids (pe_ids s) !! QUARANTINE = Some e.2 }.

(** ** Reasoning about operations: [Q] on success, [E] on failure *)

Definition ewp {A} (m : engineM A) (Q : A -> pengine -> Prop) (E : pengine -> Prop)
    (s : pengine) : Prop :=
  match m s with
  | (inr a, s') => Q a s'
  | (inl _, s') => E s'
  end.

Lemma ewp_ret {A} (a : A) Q E s : Q a s -> ewp (engineM_ret A a) Q E s.
Proof. done. Qed.

Lemma ewp_bind {A B} (m : engineM A) (f : A -> engineM B) Q E s :
  ewp m (fun a => ewp (f a) Q E) E s -> ewp (engineM_bind A B f m) Q E s.
Proof. unfold ewp, engineM_bind. by destruct (m s) as [[e|a] s']. Qed.

Lemma ewp_throw {A} e (Q : A -> pengine -> Prop) (E : pengine -> Prop) s :
  E s -> ewp (throw e) Q E s.
Proof. done. Qed.

Lemma ewp_ask {A} (f : pengine -> A) (Q : A -> pengine -> Prop) E s :
  Q (f s) s -> ewp (ask f) Q E s.
Proof. done. Qed.

Lemma ewp_update f (Q : unit -> pengine -> Prop) E s : Q tt (f s) -> ewp (update f) Q E s.
Proof. done. Qed.

Lemma ewp_attempt {X A} (wrap : X -> EngineError) (r : X + A) (Q : A -> pengine -> Prop)
    (E : pengine -> Prop) s :
  E s -> (forall a, r = inr a -> Q a s) -> ewp (attempt wrap r) Q E s.
Proof. intros HE HQ. destruct r; cbn; [done|]. by apply HQ. Qed.

Lemma ewp_mono {A} (m : engineM A) (Q Q' : A -> pengine -> Prop) (E E' : pengine -> Prop) s :
  ewp m Q E s -> (forall a s', Q a s' -> Q' a s') -> (forall s', E s' -> E' s') ->
  ewp m Q' E' s.
Proof using I. unfold ewp. destruct (m s) as [[e|a] s']; auto. Qed.

Lemma ewp_kernel {A} (m : sensor A) Q E s :
  match m (pe_kernel s) with
  | (Some a, k) => Q a (with_kernel k s)
  | (None, k) => E (with_kernel k s)
  end -> ewp (kernel m) Q E s.
Proof.
  unfold ewp, kernel, try_kernel, mbind, engineM_bind. destruct (m (pe_kernel s)) as [[a|] k]; done.
Qed.

Lemma ewp_catch {A} (m : engineM A) (Q : EngineError + A -> pengine -> Prop) E s :
  ewp m (fun a => Q (inr a)) (fun s' => forall e, Q (inl e) s') s -> ewp (catch m) Q E s.
Proof. unfold ewp, catch. destruct (m s) as [[e|a] s']; auto. Qed.

(** ** Kernel changes that keep the invariant *)

(** The maps differ at most in what the bindings' record does not say. *)
Lemma good_kernel s k :
  good s -> engine_ok k ->
  (forall id e, pe_bindings s !! id = Some e ->
     m_cgroup_profile (e_maps k) !! id = Some (binding_value e.2)) ->
  good (with_kernel k s).
Proof using.
  intros [Hk Hi Hp Hb Ha Hh] Hk' Hb'. split; try done. cbn.
  intros id e He. split; [by eapply Hb|by apply Hb'].
Qed.

Lemma engine_ok_drop_fault k : engine_ok k -> engine_ok (drop_fault k).
Proof. by intros [? ? ? ? ?]. Qed.

Lemma ewp_open_map (Q : unit -> pengine -> Prop) (E : pengine -> Prop) s :
  good s -> (forall s', good s' -> E s') ->
  (Q tt (with_kernel (drop_fault (pe_kernel s)) s)) -> ewp (kernel open_map) Q E s.
Proof.
  intros Hg HE HQ. apply ewp_kernel. unfold open_map. destruct (default false _); [|done].
  apply HE, good_kernel; [done|by apply engine_ok_drop_fault, Hg|]. intros id e He.
  by apply (g_bound s Hg).
Qed.

Lemma engine_ok_bindings k f :
  engine_ok k ->
  (forall id b, f (m_cgroup_profile (e_maps k)) !! id = Some b -> profile_number (bind_profile b)) ->
  engine_ok (set_maps (on_bindings f (e_maps k)) k).
Proof.
  intros [(Hr & Hb & Hd & Ha) Hact Hs H0 H1] Hf. by split.
Qed.

Lemma engine_ok_levels k levels :
  engine_ok k -> engine_ok (set_maps (set_governed_levels levels (e_maps k)) k).
Proof. intros [(Hr & Hb & Hd & Ha) Hact Hs H0 H1]. by split. Qed.

Lemma good_updated s b q d a :
  good s ->
  (forall id e, b !! id = Some e -> profile_number e.2 /\
     m_cgroup_profile (e_maps (pe_kernel s)) !! id = Some (binding_value e.2)) ->
  (forall id e, a !! id = Some e -> profile_number e.2) ->
  (forall id, id ∈ q ->
     exists e, b !! id = Some e /\ pi_ids (pe_ids s) !! QUARANTINE = Some e.2) ->
  good (with_bindings b q d a s).
Proof. intros [Hk Hi Hp Hb Ha Hh] Hb' Ha' Hh'. by split. Qed.

Lemma good_persist s : good s -> good (persist s).
Proof using I. unfold persist. destruct (sf_set _); [|done]. by intros [? ? ? ? ? ?]. Qed.

Lemma good_bindings_wf s id b :
  good s -> m_cgroup_profile (e_maps (pe_kernel s)) !! id = Some b ->
  profile_number (bind_profile b).
Proof. intros Hg Hb. destruct (g_kernel s Hg) as [(_ & Hwf & _) _ _ _ _]. by eapply Hwf. Qed.

Lemma publish_keeps (Q : unit -> pengine -> Prop) (E : pengine -> Prop) s :
  good s -> (forall s', good s' -> Q tt s') -> ewp publish_governed_levels Q E s.
Proof.
  intros Hg HQ. unfold publish_governed_levels. apply ewp_bind, ewp_ask, ewp_bind.
  unfold ewp, try_kernel, must, syscall, mbind, sensor_bind.
  assert (forall k, engine_ok k -> m_cgroup_profile (e_maps k) =
    m_cgroup_profile (e_maps (pe_kernel s)) -> good (with_kernel k s)) as Hk.
  { intros k Hk Heq. apply good_kernel; [done..|]. intros id e He. rewrite Heq.
    by apply (g_bound s Hg). }
  destruct (default false _); cbn; apply HQ, Hk; try done.
  - by apply engine_ok_drop_fault, Hg.
  - by apply engine_ok_levels, Hg.
Qed.

Lemma ewp_and {A} (m : engineM A) (Q Q' : A -> pengine -> Prop) (E E' : pengine -> Prop) s :
  ewp m Q E s -> ewp m Q' E' s ->
  ewp m (fun a s' => Q a s' /\ Q' a s') (fun s' => E s' /\ E' s') s.
Proof using I. unfold ewp. by destruct (m s) as [[e|a] s']. Qed.

Lemma persist_synced s : synced (persist s).
Proof using I.
  unfold persist, synced. destruct (sf_set (pe_store s)) eqn:Hs; [done|]. by rewrite Hs.
Qed.

Lemma publish_kernel_only (Q : unit -> pengine -> Prop) E s :
  (forall k, e_generation k = e_generation (pe_kernel s) -> Q tt (with_kernel k s)) ->
  ewp publish_governed_levels Q E s.
Proof.
  intros HQ. unfold publish_governed_levels. apply ewp_bind, ewp_ask, ewp_bind.
  unfold ewp, try_kernel, must, syscall, mbind, sensor_bind.
  destruct (default false _); by apply HQ.
Qed.

Lemma synced_kernel s k :
  e_generation k = e_generation (pe_kernel s) -> synced s -> synced (with_kernel k s).
Proof using I. intros Hk Hs Hset. cbn in Hset |- *. rewrite (Hs Hset).
  unfold engine_state. cbn. by rewrite Hk. Qed.

Lemma publish_synced s E : synced s -> ewp publish_governed_levels (fun _ => synced) E s.
Proof. intros Hs. apply publish_kernel_only. intros k Hk. by apply synced_kernel. Qed.

(** A binding write that succeeds is in the kernel and, for a bound cgroup, on record. *)
Lemma set_binding_spec id p (Q : unit -> pengine -> Prop) (E : pengine -> Prop) s :
  good s -> profile_number p ->
  (id ∈ pe_quarantined s -> pi_ids (pe_ids s) !! QUARANTINE = Some p) ->
  (forall s', good s' -> E s') ->
  (forall k, m_cgroup_profile (e_maps k) !! id = Some (binding_value p) ->
     let s' := with_bindings (alter (fun e => (e.1, p)) id (pe_bindings s))
                 (pe_quarantined s) (pe_dynamic s) (pe_adopted s) (with_kernel k s) in
     good s' -> Q tt s') ->
  ewp (set_binding id p) Q E s.
Proof.
  intros Hg Hp Hq HE HQ. unfold set_binding. apply ewp_bind, ewp_open_map; [done..|].
  apply ewp_bind, ewp_kernel. cbn [with_kernel pe_kernel].
  unfold must, syscall, mbind, sensor_bind, mret, sensor_ret, fail.
  set (k0 := drop_fault (pe_kernel s)).
  assert (engine_ok k0) as Hk0 by (by apply engine_ok_drop_fault, Hg).
  destruct (default false _).
  { apply HE, (good_kernel s (drop_fault k0)); [done|by apply engine_ok_drop_fault|].
    intros i e He. by apply (g_bound s Hg). }
  apply ewp_update. apply (HQ (set_maps _ k0)); cbn; [apply lookup_insert_eq|].
  assert (forall i, <[id := binding_value p]> (m_cgroup_profile (e_maps (pe_kernel s))) !! i =
    if decide (i = id) then Some (binding_value p)
    else m_cgroup_profile (e_maps (pe_kernel s)) !! i) as Hins.
  { intros i. case_decide as Hi; [by rewrite Hi, lookup_insert_eq|by rewrite lookup_insert_ne]. }
  assert (forall i e, alter (fun e => (e.1, p)) id (pe_bindings s) !! i = Some e ->
    (i = id /\ e.2 = p) \/ (i <> id /\ pe_bindings s !! i = Some e)) as Halt.
  { intros i e. destruct (decide (i = id)) as [->|Hne].
    - rewrite lookup_alter_eq. intros (e0 & _ & ->)%fmap_Some. by left.
    - rewrite lookup_alter_ne by done. by right. }
  destruct Hg as [Hk Hi Hpol Hb Ha Hh]. split; cbn; try done.
  - apply (engine_ok_bindings k0 (fun t => <[id := binding_value p]> t)); [done|].
    intros i b. cbn. rewrite Hins. case_decide; [by intros [= <-]|].
    destruct Hk as [(_ & Hwf & _) _ _ _ _]. by apply Hwf.
  - intros i e [[-> ->]|[Hne He]]%Halt; rewrite Hins.
    + by rewrite decide_True.
    + rewrite decide_False by done. by apply Hb.
  - intros i Hin. destruct (Hh i Hin) as (e & He & Hqe). destruct (decide (i = id)) as [->|Hne].
    + rewrite lookup_alter_eq, He. eexists. split; [done|]. by apply Hq.
    + rewrite lookup_alter_ne by done. eauto.
Qed.

(** ** The operations keep the invariant *)

Lemma known_profile_number s policy p :
  good s -> pe_policy s = Some policy -> p ∈ po_profiles policy -> profile_number (p_id p).
Proof.
  intros Hg Hpol Hp. destruct (g_policy s Hg) as (policy' & Hpol' & Hknown & _).
  assert (policy' = policy) as -> by congruence.
  destruct (g_ids s Hg) as ((_ & Hmax) & Hr & _). specialize (Hr _ _ (Hknown p Hp)).
  unfold profile_number, MAX_PROFILES in *. lia.
Qed.

Lemma profile_named_number s policy name id :
  good s -> pe_policy s = Some policy -> profile_named policy name = Some id ->
  profile_number id.
Proof.
  intros Hg Hpol (p & [Hin _]%find_profile_Some & ->)%fmap_Some. by eapply known_profile_number.
Qed.

Lemma bindable_profile_spec profile (Q : Z -> pengine -> Prop) (E : pengine -> Prop) s :
  good s -> E s -> (forall pid, profile_number pid -> Q pid s) ->
  ewp (bindable_profile profile) Q E s.
Proof.
  intros Hg HE HQ. unfold bindable_profile. apply ewp_bind, ewp_ask.
  destruct (pe_policy s) as [policy|] eqn:Hpol; [|done].
  destruct (head (filter _ _)) as [p|] eqn:Hh; [|done].
  apply ewp_ret, HQ. apply head_Some_elem_of, list_elem_of_filter in Hh as [_ Hin].
  by eapply known_profile_number.
Qed.

Lemma bind_dynamic_keeps cgroup profile s :
  good s -> ewp (bind_dynamic cgroup profile) (fun _ => good) good s.
Proof.
  intros Hg. unfold bind_dynamic. apply ewp_bind, ewp_attempt; [done|]. intros cg _.
  apply ewp_bind, bindable_profile_spec; [done..|]. intros pid Hpid.
  apply ewp_bind, ewp_attempt; [done|]. intros meta _. cbv zeta.
  apply ewp_bind, ewp_ask. case_bool_decide as Hb; [done|].
  assert (pe_bindings s !! cm_ino meta = None) as Hnone by (by apply eq_None_not_Some).
  assert (cm_ino meta ∉ pe_quarantined s) as Hnq.
  { intros (e & He & _)%(g_held s Hg). congruence. }
  apply ewp_bind, set_binding_spec; [done..|]. intros k Hk s' Hg'.
  apply ewp_bind, ewp_update, ewp_bind, ewp_update, ewp_bind, publish_keeps; [|done].
  apply good_persist, good_updated; [done|..]; cbn.
  - intros id e [[<- <-]|[Hne He]]%lookup_insert_Some; [done|].
    by apply (g_bound s' Hg').
  - apply (g_adopted s' Hg').
  - intros id Hid. rewrite lookup_insert_ne by set_solver. by apply (g_held s' Hg').
Qed.

Lemma bind_container_keeps cgroup profile s :
  good s -> ewp (bind_container cgroup profile) (fun _ => good) good s.
Proof.
  intros Hg. unfold bind_container. destruct (bad_container _); [done|].
  apply ewp_bind, bindable_profile_spec; [done..|]. intros pid Hpid.
  apply ewp_bind, ewp_attempt; [done|]. intros meta _. cbv zeta.
  apply ewp_bind, ewp_ask. destruct (_ && _ && _); [done|].
  case_decide as Hnq; [done|]. destruct (_ && _ && _); [done|].
  apply ewp_bind, set_binding_spec; [done..|]. intros k Hk s' Hg'.
  apply ewp_bind, ewp_update, ewp_bind, ewp_update, ewp_bind, publish_keeps; [|done].
  apply good_persist, good_updated; [done|..]; cbn.
  - intros id e [[<- <-]|[Hne He]]%lookup_insert_Some; [done|].
    by apply (g_bound s' Hg').
  - intros id e [_ He]%lookup_delete_Some. by apply (g_adopted s Hg id).
  - intros id Hid. rewrite lookup_insert_ne by set_solver. by apply (g_held s' Hg').
Qed.

Lemma good_retire id profile s : good s -> good (retire id profile s).
Proof. by intros [? ? ? ? ? ?]. Qed.

Lemma unbind_dynamic_keeps id s :
  good s -> ewp (unbind_dynamic id) (fun _ => good) good s.
Proof.
  intros Hg. unfold unbind_dynamic. apply ewp_bind, ewp_ask.
  destruct (pe_dynamic s !! id) as [[path profile]|]; [|done].
  apply ewp_bind, ewp_update, ewp_bind, ewp_update, ewp_bind, ewp_update.
  match goal with |- ewp _ _ _ ?x => set (s1 := x) end.
  assert (good s1) as Hg1.
  { destruct Hg as [Hk Hi Hp Hb Ha Hh]. split; cbn; try done.
    - intros i e [_ He]%lookup_delete_Some. by apply Hb.
    - intros i [Hi' Hne]%elem_of_difference. rewrite lookup_delete_ne by set_solver. by apply Hh. }
  apply ewp_bind, ewp_open_map; [done..|]. apply ewp_bind, ewp_kernel.
  unfold ignore, syscall, mbind, sensor_bind, mret, sensor_ret. cbn [with_kernel pe_kernel].
  assert (forall k, engine_ok k ->
    (forall i e, pe_bindings s1 !! i = Some e ->
       m_cgroup_profile (e_maps k) !! i = Some (binding_value e.2)) ->
    ewp (engineM_bind _ _ (fun _ => publish_governed_levels) (update persist)) (fun _ => good)
      good (with_kernel k s1)) as Hpub.
  { intros k Hk Hb. by apply ewp_bind, ewp_update, publish_keeps; [apply good_persist, good_kernel|]. }
  destruct (default false _); cbv beta iota; (apply Hpub; [|intros i e He]).
  - by do 2 apply engine_ok_drop_fault; apply Hg1.
  - by apply (g_bound s1 Hg1).
  - apply (engine_ok_bindings _ (delete id)); [by apply engine_ok_drop_fault, Hg1|].
    intros i b [_ Hb]%lookup_delete_Some. by eapply good_bindings_wf.
  - cbn in He |- *. apply lookup_delete_Some in He as [Hne He].
    rewrite lookup_delete_ne by done. by apply (g_bound s Hg).
Qed.

Lemma elem_of_sorted_list {A} (m : gmap Z A) id e :
  (id, e) ∈ sorted_list m <-> m !! id = Some e.
Proof using. unfold sorted_list. by rewrite merge_sort_Permutation, elem_of_map_to_list. Qed.

Lemma sorted_list_NoDup {A} (m : gmap Z A) : NoDup (sorted_list m).*1.
Proof using. unfold sorted_list. rewrite merge_sort_Permutation. apply NoDup_fst_map_to_list. Qed.

Lemma cgroup_id_bound s path id :
  cgroup_id s path = Some id -> exists e, pe_bindings s !! id = Some e.
Proof.
  unfold cgroup_id. intros ([i e] & [_ Hin]%head_Some_elem_of%list_elem_of_filter & ->)%fmap_Some.
  exists e. by apply elem_of_sorted_list.
Qed.

Lemma quarantine_id_good s :
  good s -> exists qid, quarantine_id s = Some qid /\ profile_number qid /\
    pi_ids (pe_ids s) !! QUARANTINE = Some qid.
Proof.
  intros Hg. destruct (g_policy s Hg) as (policy & Hpol & Hknown & (q & Hq & Hname) & _).
  unfold quarantine_id, profile_named. rewrite Hpol. cbn [mbind option_bind].
  destruct (find_profile _ _) as [p|] eqn:Hf.
  - apply find_profile_Some in Hf as [Hin Hn]. exists (p_id p).
    split; [done|]. split; [by eapply known_profile_number|]. rewrite <- Hn. by apply Hknown.
  - exfalso. unfold find_profile in Hf.
    assert (q ∈ filter (fun p => p_name p = QUARANTINE) (po_profiles policy)) as Hin
      by (by apply list_elem_of_filter).
    destruct (filter _ _); [by apply elem_of_nil in Hin|done].
Qed.

Lemma quarantine_keeps cgroup s : good s -> ewp (quarantine cgroup) (fun _ => good) good s.
Proof.
  intros Hg. unfold quarantine. apply ewp_bind, ewp_ask.
  destruct (cgroup_id s cgroup) as [id|] eqn:Hid; [|done].
  destruct (cgroup_id_bound _ _ _ Hid) as [e He].
  destruct (quarantine_id_good s Hg) as (qid & -> & Hn & Hq).
  apply ewp_bind, set_binding_spec; [done..|]. intros k Hk s' Hg'.
  apply ewp_bind, ewp_update, ewp_update, good_persist, good_updated;
    [done|apply (g_bound s' Hg')|apply (g_adopted s' Hg')|].
  intros i [Hi| ->%elem_of_singleton]%elem_of_union; [by apply (g_held s' Hg')|].
  cbn. rewrite lookup_alter_eq, He. eexists. by split.
Qed.

Lemma release_keeps cgroup s : good s -> ewp (release cgroup) (fun _ => good) good s.
Proof.
  intros Hg. unfold release. apply ewp_bind, ewp_ask.
  destruct (cgroup_id s cgroup) as [id|] eqn:Hid; [|done].
  destruct (pe_policy s) as [policy|] eqn:Hpol; [|done].
  match goal with |- context [match ?x with Some profile => _ | None => throw _ end] =>
    destruct x as [profile|] eqn:Hp end; [|done].
  assert (profile_number profile) as Hn.
  { destruct (head (filter _ _)) as [b|] eqn:Hh; cbn in Hp.
    - injection Hp as <-. apply head_Some_elem_of, list_elem_of_filter in Hh as [_ Hb].
      destruct (g_policy s Hg) as (policy' & Hpol' & _ & _ & Hbs).
      assert (policy' = policy) as -> by congruence.
      destruct (Hbs b Hb) as (p & Hin & <-). by eapply known_profile_number.
    - destruct (pe_dynamic s !! id) as [[path name]|]; [|done].
      by eapply profile_named_number. }
  apply ewp_bind, ewp_update. match goal with |- ewp _ _ _ ?x => set (s1 := x) end.
  assert (good s1) as Hg1.
  { apply good_updated; [done|apply (g_bound s Hg)|apply (g_adopted s Hg)|].
    intros i [Hi _]%elem_of_difference. by apply (g_held s Hg). }
  apply ewp_bind, set_binding_spec; try done.
  - cbn. set_solver.
  - intros k Hk s' Hg'. by apply ewp_update, good_persist.
Qed.

Lemma write_binding_spec current id e k :
  engine_ok k -> profile_number e.2 ->
  (forall old, current !! id = Some old ->
     m_cgroup_profile (e_maps k) !! id = Some (binding_value old.2)) ->
  exists held done k', write_binding current id e k = (Some (held, done), k') /\ engine_ok k' /\
    (forall i, i <> id -> m_cgroup_profile (e_maps k') !! i = m_cgroup_profile (e_maps k) !! i) /\
    match held with
    | Some x => m_cgroup_profile (e_maps k') !! id = Some (binding_value x.2) /\
        (x = e \/ current !! id = Some x)
    | None => current !! id = None
    end.
Proof.
  intros Hk He Hcur. unfold write_binding, mbind, sensor_bind, mret, sensor_ret, syscall.
  case_decide as Hsame; [|destruct (default false _)].
  - exists (Some e), true, k. split_and!; try done; [|by left].
    apply fmap_Some in Hsame as (old & Hold & ->). by apply Hcur.
  - exists (current !! id), false, (drop_fault k). split; [done|].
    split; [by apply engine_ok_drop_fault|]. split; [done|].
    destruct (current !! id) as [old|] eqn:Hold; [|done]. split; [by apply Hcur|by right].
  - eexists (Some e), true, _. split; [done|]. split_and!; [|cbn|cbn|by left].
    + apply engine_ok_bindings; [done|]. intros i b [[_ <-]|[_ Hb]]%lookup_insert_Some; [done|].
      destruct Hk as [(_ & Hwf & _) _ _ _ _]. by eapply Hwf.
    + intros i Hi. by rewrite lookup_insert_ne.
    + apply lookup_insert_eq.
Qed.

(** The record [b] says what the kernel holds. *)
Definition records (b : gmap Z (string * Z)) (k : engine) : Prop :=
  forall id e, b !! id = Some e -> profile_number e.2 /\
    m_cgroup_profile (e_maps k) !! id = Some (binding_value e.2).

(** Writing bindings records what the kernel holds, whichever writes fail; a binding that
    was there is replaced by the wanted one or kept. *)
Lemma write_bindings_spec current wanted applied ok k :
  engine_ok k -> NoDup wanted.*1 -> records applied k ->
  (forall id e, (id, e) ∈ wanted -> profile_number e.2 /\ applied !! id = None /\
     forall old, current !! id = Some old -> profile_number old.2 /\
       m_cgroup_profile (e_maps k) !! id = Some (binding_value old.2)) ->
  exists applied' ok' k',
    write_bindings current applied ok wanted k = (Some (applied', ok'), k') /\ engine_ok k' /\
    records applied' k' /\ applied ⊆ applied' /\
    (forall id e, (id, e) ∈ wanted -> is_Some (current !! id) -> exists e',
       applied' !! id = Some e' /\ (e' = e \/ current !! id = Some e')).
Proof.
  revert applied ok k. induction wanted as [|[id e] wanted IH]; intros applied ok k Hk Hnd Ha Hw.
  { exists applied, ok, k. split_and!; try done. by intros id e ?%elem_of_nil. }
  cbn in Hnd. apply NoDup_cons in Hnd as [Hid Hnd].
  destruct (Hw id e ltac:(left)) as (He & Hnone & Hcur).
  destruct (write_binding_spec current id e k Hk He) as (held & done & k1 & Hwr & Hk1 & Hsame & Hheld);
    [by intros old [_ ?]%Hcur|].
  cbn [write_bindings]. unfold mbind, sensor_bind. rewrite Hwr.
  set (applied1 := match held with Some e => <[id := e]> applied | None => applied end).
  assert (forall i x, applied1 !! i = Some x -> (i = id /\ held = Some x) \/ applied !! i = Some x)
    as Hin1.
  { intros i x. unfold applied1. destruct held as [y|]; [|by right].
    intros [[<- <-]|[_ ?]]%lookup_insert_Some; [by left|by right]. }
  assert (applied ⊆ applied1) as Hsub1
    by (unfold applied1; destruct held; [by apply insert_subseteq|done]).
  destruct (IH applied1 (ok && done) k1) as (applied' & ok' & k' & Heq & Hk' & Hrec & Hsub & Hall);
    [done..| | |].
  - intros i x [[-> ->]|Hx]%Hin1.
    + destruct Hheld as [Hkx [->|Hc]]; [done|]. split; [by apply Hcur|done].
    + rewrite Hsame by congruence. by apply Ha.
  - intros i x Hx. assert (i <> id) as Hne.
    { intros ->. destruct Hid. apply list_elem_of_fmap. by exists (id, x). }
    destruct (Hw i x ltac:(by right)) as (? & Hn & Hc). split_and!; [done..| |].
    + unfold applied1. destruct held; [by rewrite lookup_insert_ne|done].
    + intros old. rewrite Hsame by done. apply Hc.
  - exists applied', ok', k'. split_and!; [done..|by etrans|].
    intros i x [[= -> ->]|Hx]%elem_of_cons Hsome; [|by apply Hall].
    destruct held as [y|]; [|by destruct Hsome as [? ?]; congruence].
    exists y. split; [|by destruct Hheld]. eapply lookup_weaken; [|done].
    unfold applied1. apply lookup_insert_eq.
Qed.

Lemma remove_bindings_spec l k :
  engine_ok k ->
  exists k', for_each (fun id => ignore (on_bindings (delete id))) l k = (Some tt, k') /\
    engine_ok k' /\
    forall i, i ∉ l -> m_cgroup_profile (e_maps k') !! i = m_cgroup_profile (e_maps k) !! i.
Proof.
  revert k. induction l as [|id l IH]; intros k Hk.
  { exists k. split_and!; done. }
  cbn [for_each]. unfold ignore, syscall, mbind, sensor_bind, mret, sensor_ret in *.
  destruct (default false _); cbn.
  - destruct (IH (drop_fault k)) as (k' & -> & Hk' & Hsame); [by apply engine_ok_drop_fault|].
    exists k'. split_and!; [done..|]. intros i [_ Hi]%not_elem_of_cons. by apply Hsame.
  - destruct (IH (set_maps (on_bindings (delete id) (e_maps k)) k)) as (k' & -> & Hk' & Hsame).
    { apply engine_ok_bindings; [done|]. intros i b [_ Hb]%lookup_delete_Some.
      destruct Hk as [(_ & Hwf & _) _ _ _ _]. by eapply Hwf. }
    exists k'. split_and!; [done..|]. intros i [Hne Hi]%not_elem_of_cons.
    rewrite Hsame by done. cbn. by rewrite lookup_delete_ne.
Qed.

(** The quarantine overrides what is wanted. *)
Lemma hold_quarantine_spec qid q wanted wanted' q' :
  hold_quarantine (Some qid) q wanted = (wanted', q') ->
  q' ⊆ q /\
  (forall id e, wanted' !! id = Some e -> exists e0, wanted !! id = Some e0 /\
     (e = e0 \/ e.2 = qid)) /\
  (forall id, id ∈ q' -> exists e, wanted' !! id = Some e /\ e.2 = qid) /\
  (forall id e, wanted !! id = Some e -> id ∉ q -> wanted' !! id = Some e).
Proof.
  cbn. intros [= <- <-]. split; [set_solver|]. split_and!.
  - intros id e. rewrite map_lookup_imap. destruct (wanted !! id) as [e0|]; [|done]. cbn.
    intros [= <-]. exists e0. split; [done|]. case_decide; [by right|by left].
  - intros id Hid. pose proof Hid as Hid'. apply elem_of_filter in Hid' as [[e He] _].
    exists (e.1, qid). rewrite map_lookup_imap, He. cbn. by rewrite decide_True.
  - intros id e He Hid. rewrite map_lookup_imap, He. cbn. rewrite decide_False; [done|]. set_solver.
Qed.

Lemma sync_bindings_keeps wanted s :
  good s -> (forall id e, wanted !! id = Some e -> profile_number e.2) ->
  let held s' := forall id e, wanted !! id = Some e -> pe_bindings s !! id = Some e ->
    id ∉ pe_quarantined s -> pe_bindings s' !! id = Some e in
  ewp (sync_bindings wanted) (fun _ s' => good s' /\ held s') good s.
Proof.
  intros Hg Hw held. unfold sync_bindings. apply ewp_bind, ewp_ask.
  destruct (quarantine_id_good s Hg) as (qid & -> & Hqn & Hqid).
  destruct (hold_quarantine _ _ wanted) as [wanted' q'] eqn:Hh.
  apply hold_quarantine_spec in Hh as (Hqsub & Hw' & Hq' & Hfree).
  assert (forall id e, wanted' !! id = Some e -> profile_number e.2) as Hwn.
  { intros id e (e0 & He0 & [->| ->])%Hw'; [by eapply Hw|done]. }
  apply ewp_bind, ewp_update. match goal with |- ewp _ _ _ ?x => set (s1 := x) end.
  assert (good s1) as Hg1.
  { apply good_updated; [done|apply (g_bound s Hg)|apply (g_adopted s Hg)|].
    intros id Hid. by apply (g_held s Hg), Hqsub. }
  apply ewp_bind, ewp_open_map; [done..|]. apply ewp_bind, ewp_kernel. cbn [with_kernel pe_kernel].
  set (gone := filter _ _).
  destruct (remove_bindings_spec gone (drop_fault (pe_kernel s1))) as (k1 & -> & Hk1 & Hsame);
    [by apply engine_ok_drop_fault, Hg1|].
  apply ewp_bind, ewp_kernel. cbn [with_kernel pe_kernel].
  destruct (write_bindings_spec (pe_bindings s) (sorted_list wanted') ∅ true k1)
    as (applied & ok & k2 & -> & Hk2 & Hrec & _ & Hall); [done|apply sorted_list_NoDup|done| |].
  { intros id e He%elem_of_sorted_list. split; [by eapply Hwn|]. split; [done|].
    intros old Hold. destruct (g_bound s Hg id old Hold) as [? Hb]. split; [done|].
    rewrite Hsame; [done|]. unfold gone. intros [? _]%list_elem_of_filter. congruence. }
  apply ewp_bind, ewp_update.
  match goal with |- ewp _ _ _ ?x => set (s2 := x) end.
  assert (held s2) as Hheld.
  { intros id e He Hcur Hq. destruct (Hall id e) as (e' & He' & Hor);
      [by apply elem_of_sorted_list, Hfree|by eexists|].
    cbn. rewrite He'. destruct Hor as [->|Hc]; [done|congruence]. }
  assert (good s2) as Hg2; [|by destruct ok].
  destruct Hg1 as [_ Hi Hp _ Ha _]. split; cbn; try done.
  intros id Hid. destruct (Hq' id Hid) as (e & He & Heq).
  destruct (g_held s Hg id (Hqsub id Hid)) as (old & Hold & Hqold).
  destruct (Hall id e) as (e' & He' & Hor); [by apply elem_of_sorted_list|by eexists|].
  exists e'. split; [done|]. destruct Hor as [->|Hc]; [by rewrite Heq|]. congruence.
Qed.

(** ** Applying a policy *)

Lemma compiled_input policy generation c exec files skipped :
  policy_ids_ok policy -> compile policy generation = inr c ->
  resolve_exec (co_exec c) = inr exec -> resolve_files (co_files c) = inr (files, skipped) ->
  input_ok c exec files.
Proof using I L O.
  intros Hids (_ & _ & ->)%compile_inr Hx Hf.
  assert (forall action e, e ∈ (po_profiles policy ≫= fun p => trie_entries p action) ->
    id_ok (en_profile e) /\ 0 <= en_prefix_len e) as Hen.
  { intros action e (p & (g & -> & _)%list_elem_of_fmap & Hp)%list_elem_of_bind. cbn.
    pose proof (prefix_len_bound g.1). split; [by apply Hids|lia]. }
  split.
  - intros p (q & -> & Hq)%list_elem_of_fmap. by apply Hids.
  - intros e He. exact (Hen Deny e He).
  - intros e He. exact (Hen Allow e He).
  - intros r Hr. unfold resolve_exec in Hx. destruct (resolve_exec_in _ _) as [x t] eqn:Hin.
    cbn in Hx. subst x. apply resolve_exec_in_inr in Hin as (_ & _ & Hk); [|apply table_new_ok].
    destruct (proj1 (Hk (exec_key r))) as (e & id & He & _ & Heq);
      [by apply list_elem_of_fmap_2|]. injection Heq as -> _ _.
    apply list_elem_of_bind in He as (p & He & Hp). unfold compile_exec in He.
    destruct (p_exec p); [|by apply elem_of_nil in He].
    apply list_elem_of_fmap in He as (a & -> & _). by apply Hids.
  - intros r Hr. apply resolve_files_merges in Hf as (_ & m & -> & Hm).
    apply elem_of_into_values in Hr as [k Hr]. specialize (Hm k). rewrite Hr in Hm.
    destruct Hm as (Hkey & (mask & sub & e & He & _ & Hprot) & _).
    assert (rf_profile r = cf_profile e) as ->.
    { destruct (cf_target e); [destruct Hprot as (id & _ & -> & _)|
        destruct Hprot as (_ & id & _ & ->)]; by injection Hkey. }
    apply list_elem_of_bind in He as (p & He & Hp). unfold compile_files in He.
    apply elem_of_app in He as [He|He].
    + apply list_elem_of_fmap in He as (a & -> & _). by apply Hids.
    + destruct (fp_protect_exec_allowlist _), (p_exec p); try by apply elem_of_nil in He.
      apply list_elem_of_fmap in He as (a & -> & _). by apply Hids.
Qed.

Lemma resolve_bindings_inr out bindings out' :
  resolve_bindings out bindings = inr out' ->
  (forall id e, out !! id = Some e -> profile_number e.2) ->
  (forall b, b ∈ bindings -> profile_number (b_profile b)) ->
  forall id e, out' !! id = Some e -> profile_number e.2.
Proof.
  revert out. induction bindings as [|b bindings IH]; intros out; cbn; [by intros [= <-]|].
  destruct (negb _); [done|]. destruct (cg_stat _) as [|meta]; [done|].
  intros Hr Hout Hb. apply (IH _ Hr); [|intros ? ?; apply Hb; by right].
  intros id e [[_ <-]|[_ He]]%lookup_insert_Some; [apply Hb; by left|by eapply Hout].
Qed.

Lemma add_dynamic_inr policy wanted stale dynamic wanted' stale' :
  add_dynamic policy wanted stale dynamic = inr (wanted', stale') ->
  (forall id e, wanted !! id = Some e -> profile_number e.2) ->
  (forall p, p ∈ po_profiles policy -> profile_number (p_id p)) ->
  forall id e, wanted' !! id = Some e -> profile_number e.2.
Proof.
  revert wanted stale. induction dynamic as [|[id [path profile]] dynamic IH]; intros wanted stale;
    cbn; [by intros [= <- <-]|].
  destruct (negb _); [by apply IH|]. destruct (profile_named _ _) as [pid|] eqn:Hn; [|done].
  case_decide; [done|]. intros Hr Hw Hp. eapply IH; [done| |done].
  intros i e [[_ <-]|[_ He]]%lookup_insert_Some; [|by eapply Hw].
  apply fmap_Some in Hn as (p & [Hin _]%find_profile_Some & ->). by apply Hp.
Qed.

Lemma add_adopted_numbers wanted kept adopted :
  (forall id e, wanted !! id = Some e -> profile_number e.2) ->
  (forall x, x ∈ adopted -> profile_number x.2.2) ->
  forall id e, (add_adopted wanted kept adopted).1 !! id = Some e -> profile_number e.2.
Proof.
  revert wanted kept. induction adopted as [|[id [path profile]] adopted IH];
    intros wanted kept Hw Ha; cbn; [done|].
  assert (forall x, x ∈ adopted -> profile_number x.2.2) as Ha' by (intros ? ?; apply Ha; by right).
  destruct (_ || _); [by apply IH|]. apply IH; [|done].
  intros i e [[_ <-]|[_ He]]%lookup_insert_Some; [|by eapply Hw].
  apply (Ha (id, (path, profile))). by left.
Qed.

Lemma resolve_bindings_free out bindings out' id :
  resolve_bindings out bindings = inr out' -> out !! id = None ->
  (forall b meta, b ∈ bindings -> cg_stat (b_cgroup b) = inr meta -> cm_ino meta <> id) ->
  out' !! id = None.
Proof.
  revert out. induction bindings as [|b bindings IH]; intros out; cbn; [by intros [= <-]|].
  destruct (negb _); [done|]. destruct (cg_stat _) as [|meta] eqn:Hst; [done|].
  intros Hr Hout Hb. apply (IH _ Hr); [|intros ? ? ?; apply Hb; by right].
  rewrite lookup_insert_ne; [done|]. by eapply Hb; [left|].
Qed.

Lemma add_adopted_takes adopted : forall wanted kept id path profile,
  NoDup adopted.*1 -> (id, (path, profile)) ∈ adopted -> wanted !! id = None ->
  cgroup_alive path id = true ->
  (add_adopted wanted kept adopted).1 !! id = Some (path, profile).
Proof.
  assert (forall adopted wanted kept id e, wanted !! id = Some e ->
    (add_adopted wanted kept adopted).1 !! id = Some e) as Hkeep.
  { intros ad. induction ad as [|[i [p pr]] ad IH]; intros wanted kept id e He; cbn; [done|].
    destruct (_ || _) eqn:Hc; [by apply IH|]. apply IH. rewrite lookup_insert_ne; [done|].
    intros ->. rewrite bool_decide_eq_true_2 in Hc; [done|by eexists]. }
  induction adopted as [|[i [p pr]] adopted IH]; intros wanted kept id path profile Hnd Hin Hw Ha;
    [by apply elem_of_nil in Hin|].
  cbn in Hnd |- *. apply NoDup_cons in Hnd as [Hi Hnd]. apply elem_of_cons in Hin as [[= <- <- <-]|Hin].
  - rewrite bool_decide_eq_false_2, Ha by (rewrite Hw; by intros []). cbn.
    apply Hkeep, lookup_insert_eq.
  - assert (i <> id) as Hne.
    { intros ->. apply Hi, list_elem_of_fmap. by exists (id, (path, profile)). }
    destruct (_ || _); apply IH; try done. by rewrite lookup_insert_ne.
Qed.

(** An apply leaves the bindings taken over without a state file as they are, except
    those whose cgroup is gone and those the policy binds itself. *)
Definition adopted_kept (s s' : pengine) : Prop :=
  forall policy id path profile,
  pe_policy s' = Some policy -> pe_dynamic s = ∅ -> pe_quarantined s = ∅ ->
  pe_adopted s !! id = Some (path, profile) -> pe_bindings s !! id = Some (path, profile) ->
  cgroup_alive path id = true ->
  (forall b meta, b ∈ po_bindings policy -> cg_stat (b_cgroup b) = inr meta -> cm_ino meta <> id) ->
  pe_bindings s' !! id = Some (path, profile).

Lemma parsed_known text ids policy ids' :
  ids_ok ids -> parse text ids = (inr policy, ids') ->
  policy_known ids' policy /\ policy_ids_ok policy.
Proof using I S T L SL TL.
  intros Hids Hp. destruct (parsed_wf _ _ _ _ Hids Hp) as (_ & Hok & Hk). split; [|done].
  split; [done|]. split.
  - apply parsed_profiles in Hp as (? & own & q & ? & _ & _ & _ & _ & -> & _ & [Hq _] & _); [|done].
    exists q. split; [|done]. apply elem_of_app. right. by apply list_elem_of_singleton.
  - apply parse_inr in Hp as (? & ? & _ & _ & _ & (_ & Hb)%parse_bindings_inr & _).
    intros b Hin. by apply Hb.
Qed.

(** ** Before and after the first policy

    What an apply needs of the engine, which does not include a policy. *)

Definition prior (s : pengine) : Prop :=
  engine_ok (pe_kernel s) /\ ids_ok (pe_ids s) /\ records (pe_bindings s) (pe_kernel s) /\
  (forall id e, pe_adopted s !! id = Some e -> profile_number e.2) /\
  (forall id, id ∈ pe_quarantined s -> exists e,
     pe_bindings s !! id = Some e /\ pi_ids (pe_ids s) !! QUARANTINE = Some e.2).

Lemma good_prior s : good s -> prior s.
Proof using. by intros [? ? ? ? ? ?]. Qed.

Lemma drop_stale_fields stale s :
  let s' := foldl (fun s id => drop_stale id s) s stale in
  pe_kernel s' = pe_kernel s /\ pe_ids s' = pe_ids s /\ pe_bindings s' = pe_bindings s /\
  pe_quarantined s' = pe_quarantined s /\ pe_adopted s' = pe_adopted s /\
  pe_policy s' = pe_policy s /\ pe_text s' = pe_text s.
Proof.
  revert s. induction stale as [|id stale IH]; intros s; [done|]. cbn.
  destruct (IH (drop_stale id s)) as (-> & -> & -> & -> & -> & -> & ->).
  unfold drop_stale. by destruct (pe_dynamic s !! id) as [[? ?]|].
Qed.

Lemma record_policy_fields ids policy text stale kept s :
  pe_kernel (record_policy ids policy text stale kept s) = pe_kernel s /\
  pe_policy (record_policy ids policy text stale kept s) = Some policy /\
  pe_text (record_policy ids policy text stale kept s) = Some text /\
  pe_ids (record_policy ids policy text stale kept s) = ids.
Proof.
  unfold record_policy. match goal with |- context [foldl _ ?x stale] =>
    destruct (drop_stale_fields stale x) as (Ek & Ei & _ & _ & _ & Ep & Et) end.
  split; [apply Ek|]. split; [apply Ep|]. split; [apply Et|apply Ei].
Qed.

Lemma record_policy_good s ids policy text stale kept :
  prior s -> ids_ok ids -> pi_ids (pe_ids s) ⊆ pi_ids ids -> policy_known ids policy ->
  good (record_policy ids policy text stale kept s).
Proof.
  intros (Hk & Hi & Hb & Ha & Hh) Hids Hsub Hknown. unfold record_policy.
  match goal with |- context [foldl ?f ?x stale] =>
    destruct (drop_stale_fields stale x) as (Ek & Ei & Eb & Eq & Ead & Ep & _); set (s' := foldl f x stale) in *
  end. split; cbn; rewrite ?Ek, ?Ei, ?Eb, ?Eq, ?Ead, ?Ep; cbn; try done.
  - by exists policy.
  - intros id e [He _]%map_lookup_filter_Some. by eapply Ha.
  - intros id (e & He & Hq)%Hh. exists e. split; [done|]. by eapply lookup_weaken.
Qed.

(** An apply that fails before its commit point leaves everything but the inactive slot
    as it was. *)
Definition untouched (s s' : pengine) : Prop :=
  exists k, s' = with_kernel k s /\
    (k = pe_kernel s \/ exists c exec files n, input_ok c exec files /\
       apply_compiled c exec files n (pe_kernel s) = (None, k)).

(** An apply of the policy got past its commit point. *)
Definition installed (policy : Policy) (s s' : pengine) : Prop :=
  (exists text, parse text (pe_ids s) = (inr policy, pe_ids s') /\ pe_text s' = Some text) /\
  exists generation c exec files skipped n k,
    compile policy generation = inr c /\ resolve_exec (co_exec c) = inr exec /\
    resolve_files (co_files c) = inr (files, skipped) /\
    apply_compiled c exec files n (pe_kernel s) = (Some tt, k) /\
    rules_kept k (pe_kernel s') /\ pe_policy s' = Some policy.

Lemma untouched_refl s : untouched s s.
Proof using I. exists (pe_kernel s). split; [by destruct s|by left]. Qed.

Lemma untouched_kernel s s' :
  engine_ok (pe_kernel s) -> e_trace (pe_kernel s) = [] -> untouched s s' ->
  engine_ok (pe_kernel s') /\ quiet (e_maps (pe_kernel s)) (e_maps (pe_kernel s')).
Proof using I.
  intros Hk Ht (k & -> & [->|(c & exec & files & n & Hin & Ha)]); cbn.
  { split; [done|]. apply quiet_refl, Hk. }
  pose proof (apply_outcome _ _ _ _ n Hk Ht Hin) as Ho.
  pose proof (apply_engine_ok _ _ _ _ n Hk Ht Hin) as Hok. rewrite Ha in Ho, Hok.
  split; [done|apply Ho].
Qed.

Lemma apply_kernel_spec c exec files n (Q : unit -> pengine -> Prop) (E : pengine -> Prop) s :
  engine_ok (pe_kernel s) -> e_trace (pe_kernel s) = [] -> input_ok c exec files ->
  (forall s', untouched s s' -> E s') ->
  (forall k, apply_compiled c exec files n (pe_kernel s) = (Some tt, k) -> engine_ok k ->
     m_cgroup_profile (e_maps k) = m_cgroup_profile (e_maps (pe_kernel s)) -> Q tt (with_kernel k s)) ->
  ewp (kernel (apply_compiled c exec files n)) Q E s.
Proof.
  intros Hk Ht Hin HE HQ. apply ewp_kernel.
  pose proof (apply_outcome _ _ _ _ n Hk Ht Hin) as Ho.
  pose proof (apply_engine_ok _ _ _ _ n Hk Ht Hin) as Hok.
  destruct (apply_compiled c exec files n (pe_kernel s)) as [[[]|] k] eqn:Ha; cbn in Hok.
  - apply HQ; [done..|]. destruct Ho as (s1 & ((_ & Hag & _) & _) & ->). cbn.
    symmetry. apply Hag.
  - apply HE. exists k. split; [done|]. right. by exists c, exec, files, n.
Qed.

Lemma ewp_steady {A} (m : engineM A) (Q : A -> pengine -> Prop) (E : pengine -> Prop) s :
  Steady m -> ewp m Q E s ->
  ewp m (fun a s' => Q a s' /\ steady s s') (fun s' => E s' /\ steady s s') s.
Proof. intros Hm. specialize (Hm s). unfold ewp. by destruct (m s) as [[e|a] s']. Qed.

Lemma ewp_check_capabilities policy (Q : unit -> pengine -> Prop) (E : pengine -> Prop) s :
  E s -> Q tt s -> ewp (check_capabilities policy) Q E s.
Proof.
  intros HE HQ. unfold check_capabilities. apply ewp_bind, ewp_ask.
  destruct (pe_lsm_active s); [done|]. by destruct (head _).
Qed.

Lemma parsed_policy_ok text ids policy ids' :
  ids_ok ids -> parse text ids = (inr policy, ids') ->
  policy_wf policy /\ policy_ids_ok policy /\ policy_known ids' policy /\
  forall p, p ∈ po_profiles policy -> profile_number (p_id p).
Proof using I S T L SL TL.
  intros Hids Hp. destruct (parsed_wf _ _ _ _ Hids Hp) as (Hwf & Hok & _).
  split; [done|]. split; [done|]. split; [by eapply parsed_known|].
  intros p Hin. specialize (Hok p Hin). unfold id_ok, profile_number, RK_MAX_PROFILES in *. lia.
Qed.

Lemma record_policy_bindings ids policy text stale kept s :
  pe_bindings (record_policy ids policy text stale kept s) = pe_bindings s /\
  pe_quarantined (record_policy ids policy text stale kept s) = pe_quarantined s.
Proof using I.
  unfold record_policy. cbn.
  set (s0 := mk_pengine _ _ _ _ _ _ _ _ _ _ _ _ _).
  change (pe_bindings s) with (pe_bindings s0). change (pe_quarantined s) with (pe_quarantined s0).
  clearbody s0. revert s0. induction stale as [|id stale IH]; intros s0; cbn; [done|].
  destruct (IH (drop_stale id s0)) as [-> ->]. unfold drop_stale, retire.
  by repeat case_match.
Qed.

(** What an apply then wants for an adopted cgroup that the policy does not bind. *)
Lemma adopted_wanted policy static wanted stale adopted id path profile :
  resolve_bindings ∅ (po_bindings policy) = inr static ->
  add_dynamic policy static [] (sorted_list ∅) = inr (wanted, stale) ->
  adopted !! id = Some (path, profile) -> cgroup_alive path id = true ->
  (forall b meta, b ∈ po_bindings policy -> cg_stat (b_cgroup b) = inr meta -> cm_ino meta <> id) ->
  (add_adopted wanted ∅ (sorted_list adopted)).1 !! id = Some (path, profile).
Proof.
  intros Hst Hdyn Had Ha Hb. cbn in Hdyn. injection Hdyn as <- _.
  apply add_adopted_takes; [apply sorted_list_NoDup|by apply elem_of_sorted_list| |done].
  by eapply resolve_bindings_free.
Qed.

(** What a successful end of an apply leaves of the bindings that were as wanted. *)
Definition held (wanted : gmap Z (string * Z)) (s s' : pengine) : Prop :=
  forall id e, wanted !! id = Some e -> pe_bindings s !! id = Some e ->
  id ∉ pe_quarantined s -> pe_bindings s' !! id = Some e.

Lemma publish_bindings_keeps wanted s :
  good s -> (forall id e, wanted !! id = Some e -> profile_number e.2) ->
  ewp (publish_bindings wanted)
    (fun _ s' => good s' /\ synced s' /\ held wanted s s') (fun s' => good s' /\ synced s') s.
Proof.
  intros Hg Hw. unfold publish_bindings. apply ewp_bind, ewp_catch. eapply ewp_mono; [by apply sync_bindings_keeps| |].
  - intros [] s' [Hg' Hheld]. apply ewp_bind, ewp_update, ewp_and.
    + by apply publish_keeps; [apply good_persist|].
    + apply publish_kernel_only. intros k Hk.
      split; [apply synced_kernel; [done|apply persist_synced]|].
      unfold persist. case_match; exact Hheld.
  - intros s' Hg' e. apply ewp_bind, ewp_update, ewp_throw.
    split; [by apply good_persist|apply persist_synced].
Qed.

Lemma apply_text_spec text s :
  prior s -> e_trace (pe_kernel s) = [] ->
  let done s' := (good s' /\ synced s') /\ exists policy, installed policy s s' in
  ewp (apply_text text) (fun _ s' => done s' /\ adopted_kept s s')
    (fun s' => untouched s s' \/ done s') s.
Proof.
  intros Hs Ht done. pose proof Hs as (Hk & Hids & Hb & Ha & Hh).
  pose proof (untouched_refl s) as Hu.
  unfold apply_text. apply ewp_bind, ewp_ask.
  destruct (ids_grow text (pe_ids s) Hids) as [Hids' Hsub].
  destruct (parse text (pe_ids s)) as [r ids] eqn:Hp. cbn in Hids', Hsub.
  apply ewp_bind, ewp_attempt; [by left|]. intros policy ->.
  destruct (parsed_policy_ok _ _ _ _ Hids Hp) as (Hwf & Hpok & Hknown & Hpn).
  apply ewp_bind, ewp_check_capabilities; [by left|].
  apply ewp_bind, ewp_attempt; [by left|]. intros compiled Hc.
  apply ewp_bind, ewp_attempt; [by left|]. intros static Hst.
  apply ewp_bind, ewp_attempt; [by left|]. intros [wanted stale] Hdyn.
  pose proof (add_adopted_numbers wanted ∅ (sorted_list (pe_adopted s))) as Hw.
  pose proof (adopted_wanted policy static wanted stale (pe_adopted s)) as Hadopted.
  destruct (add_adopted wanted ∅ _) as [wanted' kept]. cbn in Hw, Hadopted.
  apply ewp_bind, ewp_attempt; [by left|]. intros exec Hx.
  apply ewp_bind, ewp_attempt; [by left|]. intros [files skipped] Hf.
  apply ewp_bind, apply_kernel_spec; [done|done|by eapply compiled_input|by left|].
  intros k Hap Hk' Hsame. apply ewp_bind, ewp_update.
  set (s1 := record_policy _ _ _ _ _ _).
  assert (forall s', steady s1 s' -> installed policy s s') as Hinst.
  { destruct (record_policy_fields ids policy text stale kept (with_kernel k s)) as (Ek & Ep & Et & Ei).
    fold s1 in Ek, Ep, Et, Ei. intros s' (Hrk & Hpol & Htx & Hi).
    split; [exists text; split; congruence|].
    exists (u64 (e_generation (pe_kernel s) + 1)), compiled, exec, files, skipped, (size wanted'), k.
    split_and!; [done..| |].
    - by rewrite Ek in Hrk.
    - congruence. }
  assert (good s1) as Hg1.
  { apply record_policy_good; [|done..]. split; [done|]. split_and!; try done.
    intros id e He. cbn. rewrite Hsame. by apply Hb. }
  eapply ewp_mono; [apply ewp_steady, publish_bindings_keeps; [apply _|..]| |].
  - done.
  - apply Hw; [|intros [id e] He%elem_of_sorted_list; by eapply Ha].
    eapply add_dynamic_inr; [done| |done].
    eapply resolve_bindings_inr; [done|by intros ? ? ?|].
    intros b Hin. destruct Hknown as (_ & _ & Hbs). destruct (Hbs b Hin) as (p & ? & <-). by apply Hpn.
  - intros [] s' [(Hg & Hsy & Hheld) Hst']. specialize (Hinst s' Hst').
    split; [split; [done|by exists policy]|].
    intros policy' id path profile Hpol Hd Hq Had Hbd Hal Hbs.
    destruct Hinst as (_ & ? & ? & ? & ? & ? & ? & ? & _ & _ & _ & _ & _ & Hpol').
    rewrite Hpol in Hpol'. injection Hpol' as ->. rewrite Hd in Hdyn.
    destruct (record_policy_bindings ids policy text stale kept (with_kernel k s)) as [Eb Eq].
    fold s1 in Eb, Eq. apply Hheld; rewrite ?Eb, ?Eq; cbn; [by apply Hadopted|done|by rewrite Hq].
  - intros s' [Hg Hst']. right. split; [done|]. exists policy. by apply Hinst.
Qed.

(** ** Reachable states *)

(** The engine a sensor starts with when it adopts nothing. *)
Definition fresh (s : pengine) : Prop :=
  engine_ok (pe_kernel s) /\ ids_ok (pe_ids s) /\ pe_policy s = None /\
  pe_previous_text s = None /\ pe_bindings s = ∅ /\ pe_quarantined s = ∅ /\
  pe_dynamic s = ∅ /\ pe_adopted s = ∅ /\ load_state s = None.

Definition sound (s : pengine) : Prop := fresh s \/ good s.

Lemma sound_prior s : sound s -> prior s.
Proof using I L S SL T TL.
  intros [(? & ? & _ & _ & Hb & Hq & _ & Ha & _)|Hg]; [|by apply good_prior].
  split_and!; [done..|unfold records; rewrite Hb|rewrite Ha|rewrite Hq]; set_solver.
Qed.

Lemma untouched_sound s s' :
  sound s -> e_trace (pe_kernel s) = [] -> untouched s s' -> sound s'.
Proof.
  intros Hs Ht Hu. assert (engine_ok (pe_kernel s)) as Hk by (by apply sound_prior).
  destruct (untouched_kernel s s' Hk Ht Hu) as [Hk' (_ & Hag & _)].
  destruct Hu as (k & -> & _), Hs as [Hf|Hg]; [left|right].
  - by destruct Hf as (_ & ?).
  - apply good_kernel; [done..|]. intros id e He. cbn in Hag.
    rewrite <- (agree_bindings _ _ _ Hag). by apply (g_bound s Hg).
Qed.

Lemma begin_sound faults s : sound s -> sound (begin faults s).
Proof using.
  intros [(Hk & ?)|Hg]; [left|right].
  - split; [|done]. by destruct Hk.
  - apply good_kernel; [done| |].
    + by destruct (g_kernel s Hg).
    + intros id e He. by apply (g_bound s Hg).
Qed.

Lemma fresh_cgroup_id s cgroup : fresh s -> cgroup_id s cgroup = None.
Proof. intros (_ & _ & _ & _ & Hb & _). unfold cgroup_id. by rewrite Hb. Qed.

(** Without a policy every operation but an apply is refused. *)
Lemma fresh_keeps o s :
  fresh s -> (forall text, o <> ApplyText text) -> (perform o s).2 = s.
Proof.
  intros Hf Ho. pose proof (fun c => fresh_cgroup_id s c Hf) as Hc.
  destruct Hf as (_ & _ & Hp & Hprev & Hb & Hq & Hd & Ha).
  destruct o as [text| |cgroup profile|cgroup profile|id|cgroup|cgroup]; cbn;
    unfold ignore_value, engineM_bind; [by destruct (Ho text)|..].
  - unfold rollback, mbind, engineM_bind, ask. by rewrite Hprev.
  - unfold bind_dynamic, bindable_profile, mbind, engineM_bind, ask, attempt.
    destruct (validate_cgroup cgroup); cbn; [done|]. by rewrite Hp.
  - unfold bind_container, bindable_profile, mbind, engineM_bind, ask.
    destruct (bad_container _); cbn; [done|]. by rewrite Hp.
  - unfold unbind_dynamic, mbind, engineM_bind, ask. by rewrite Hd.
  - unfold quarantine, mbind, engineM_bind, ask. by rewrite Hc.
  - unfold release, mbind, engineM_bind, ask. by rewrite Hc.
Qed.

Lemma ewp_final {A} (m : engineM A) (P : pengine -> Prop) s :
  ewp m (fun _ => P) P s -> P (m s).2.
Proof using I. unfold ewp. by destruct (m s) as [[e|a] s']. Qed.

Lemma apply_text_sound text s :
  sound s -> e_trace (pe_kernel s) = [] -> sound (apply_text text s).2.
Proof.
  intros Hs Ht. apply ewp_final. eapply ewp_mono; [by apply apply_text_spec, Ht; apply sound_prior| |].
  - intros [] s' [[[Hg _] _] _]. by right.
  - intros s' [Hu|[[Hg _] _]]; [by eapply untouched_sound|by right].
Qed.

Lemma good_sound {A} (m : engineM A) s :
  ewp m (fun _ => good) good s -> sound (m s).2.
Proof using I. intros H. right. by apply ewp_final in H. Qed.

Lemma perform_sound o s :
  sound s -> e_trace (pe_kernel s) = [] -> sound (perform o s).2.
Proof.
  intros Hs Ht. assert ((exists text, o = ApplyText text) \/ forall text, o <> ApplyText text)
    as [[text ->]|Hno] by (destruct o; eauto; by right).
  { by apply apply_text_sound. }
  pose proof Hs as [Hf|Hg]; [left; by rewrite fresh_keeps|].
  destruct o as [text| |cgroup profile|cgroup profile|id|cgroup|cgroup]; cbn.
  - by destruct (Hno text).
  - unfold rollback, mbind, engineM_bind, ask. destruct (pe_previous_text s); [|done].
    by apply apply_text_sound.
  - apply good_sound, ewp_bind. by eapply ewp_mono; [apply bind_dynamic_keeps| |].
  - apply good_sound, ewp_bind. by eapply ewp_mono; [apply bind_container_keeps| |].
  - by apply good_sound, unbind_dynamic_keeps.
  - by apply good_sound, quarantine_keeps.
  - by apply good_sound, release_keeps.
Qed.

End Runtime.

Section Steps.
Context {I : Ipnet} {S : IpnetStr I} {T : Toml}.

(** One operation; what the file system and the cgroup tree show, and which of the
    operation's map calls fail, may differ from step to step. *)
Inductive engine_step : pengine -> pengine -> Prop :=
| Step (O : Os) (C : CgroupFs) o faults s : engine_step s (perform o (begin faults s)).2.

Context {L : IpnetLaws I} {SL : IpnetStrLaws I S} {TL : TomlLaws T}.

Lemma reachable_sound s s' : sound s -> rtc engine_step s s' -> sound s'.
Proof.
  intros Hs Hr. revert Hs. induction Hr as [|s s1 s2 [O C o faults s'] Hr IH]; [done|].
  intros Hs. apply IH, perform_sound; [by apply begin_sound|done].
Qed.

(** C8. The engine's books are right: in every state a sensor reaches from a fresh start,
    by any sequence of operations and whichever of their map calls fail, the kernel binds
    every cgroup on the engine's record to the profile on record, and every quarantined
    cgroup to the quarantine profile; the record of the rule slots is in order. *)
Theorem engine_record_is_kernel_state s0 s
    (H0 : fresh s0) (Hr : rtc engine_step s0 s) :
  engine_ok (pe_kernel s) /\
  (forall id path profile, pe_bindings s !! id = Some (path, profile) ->
     m_cgroup_profile (e_maps (pe_kernel s)) !! id = Some (binding_value profile)) /\
  (forall id, id ∈ pe_quarantined s -> exists q,
     pi_ids (pe_ids s) !! QUARANTINE = Some q /\
     m_cgroup_profile (e_maps (pe_kernel s)) !! id = Some (binding_value q)).
Proof.
  assert (prior s) as (Hk & _ & Hb & _ & Hq) by (eapply sound_prior, reachable_sound; [by left|done]).
  split; [done|]. split.
  - intros id path profile He. by apply (Hb id (path, profile)).
  - intros id (e & He & Hqe)%Hq. exists e.2. split; [done|]. by apply (Hb id e).
Qed.

End Steps.
