(* ===== verification/Reparse.v ===== *)
(** * Parsing a policy again

    Profile ids are stable: whatever was parsed once parses, with ids that contain those
    it was given, to the same policy, and takes no further id. *)

From S2P Require Import Prelude Text Ipnet Addr Policy Cidr Parse Validated.
Open Scope string_scope.
Open Scope list_scope.
Open Scope Z_scope.

Definition with_ids (ids : ProfileIds) (st : pstate) : pstate :=
  mk_pstate ids (ps_next_rule st) (ps_origins st).

Section Monad.
Context {I : Ipnet}.

(** A success only adds ids, and is repeated with any ids that contain the result's. *)
Class Replays {A} (m : parser A) : Prop := replays st a st' :
  m st = (inr a, st') ->
  pi_ids (ps_ids st) ⊆ pi_ids (ps_ids st') /\
  forall ids, pi_ids (ps_ids st') ⊆ pi_ids ids ->
    m (with_ids ids st) = (inr a, with_ids ids st').

Lemma replays_ret {A} (a : A) : Replays (parser_ret A a).
Proof. intros st b st' [= <- <-]. done. Qed.

Lemma replays_raise {A} ctx e : Replays (raise (A:=A) ctx e).
Proof. by intros st b st'. Qed.

Lemma replays_lift {A} ctx (r : Message + A) : Replays (lift ctx r).
Proof. destruct r; [apply replays_raise|apply replays_ret]. Qed.

Lemma replays_bind {A B} (m : parser A) (f : A -> parser B) :
  Replays m -> (forall a, Replays (f a)) -> Replays (parser_bind A B f m).
Proof.
  intros Hm Hf st b st'. unfold parser_bind. destruct (m st) as [[e|a] st1] eqn:H1; [done|].
  intros H2. destruct (Hm _ _ _ H1) as [G1 R1], (Hf _ _ _ _ H2) as [G2 R2].
  split; [by etrans|]. intros ids Hids. rewrite R1 by (by etrans). by apply R2.
Qed.

Lemma replays_for_enumerate {A B} (f : nat -> A -> parser (list B)) i l :
  (forall i x, Replays (f i x)) -> Replays (for_enumerate f i l).
Proof.
  intros Hf. revert i. induction l as [|x l IH]; intros i; [apply replays_ret|].
  apply replays_bind; [apply Hf|intros xs]. apply replays_bind; [apply IH|intros rest].
  apply replays_ret.
Qed.

Lemma replays_for_lists {A} (f : string -> parser (list A)) seen names :
  (forall name, Replays (f name)) -> Replays (for_lists f seen names).
Proof.
  intros Hf. revert seen. induction names as [|n names IH]; intros seen; [apply replays_ret|].
  cbn [for_lists]. case_decide; [apply IH|].
  apply replays_bind; [apply Hf|intros xs]. apply replays_bind; [apply IH|intros rest].
  apply replays_ret.
Qed.

Lemma replays_profile_id name : Replays (profile_id name).
Proof.
  intros st id st'. unfold profile_id, id_of.
  destruct (pi_ids (ps_ids st) !! name) as [i|] eqn:Hn.
  - intros [= <- <-]. split; [done|]. intros ids Hids. cbn in Hids |- *.
    by rewrite (lookup_weaken _ _ _ _ Hn Hids).
  - destruct (_ <=? _); [done|]. intros [= <- <-]. cbn. split; [by apply insert_subseteq|].
    intros ids Hids. by rewrite (lookup_weaken _ _ _ _ (lookup_insert_eq _ _ _) Hids).
Qed.

Lemma replays_new_rule profile origin : Replays (new_rule profile origin).
Proof. intros st id st' [= <- <-]. by split. Qed.

End Monad.

Ltac solve_replays :=
  repeat first
    [ progress intros
    | apply replays_bind | apply replays_ret | apply replays_raise | apply replays_lift
    | apply replays_for_enumerate | apply replays_for_lists
    | apply replays_profile_id | apply replays_new_rule
    | progress case_decide | case_match ].

Section Replays.
Context {I : Ipnet} {S : IpnetStr I} {T : Toml}.

Lemma replays_push ctx name nat64 action cidr ports proto origin :
  Replays (push ctx name nat64 action cidr ports proto origin).
Proof. unfold push. solve_replays. Qed.

Lemma replays_parse_network ctx name net : Replays (parse_network ctx name net).
Proof.
  unfold parse_network, push_list, push_rules. solve_replays; apply replays_push.
Qed.

Lemma replays_push_file ctx profile optional r origin :
  Replays (push_file ctx profile optional r origin).
Proof. unfold push_file. solve_replays. Qed.

Lemma replays_parse_files ff has_exec ctx profile : Replays (parse_files ff has_exec ctx profile).
Proof. unfold parse_files, push_files_list. solve_replays; apply replays_push_file. Qed.

Lemma replays_parse_exec_section exec ctx name : Replays (parse_exec_section exec ctx name).
Proof. unfold parse_exec_section, parse_exec, push_exec_paths. solve_replays. Qed.

Lemma replays_parse_profiles file : Replays (parse_profiles file).
Proof.
  unfold parse_profiles, parse_profile, quarantine_profile.
  solve_replays; first [apply replays_parse_network|apply replays_parse_exec_section
    |apply replays_parse_files|apply replays_push_file].
Qed.

Lemma replays_parse_bindings profiles bindings : forall seen i,
  Replays (parse_bindings profiles seen i bindings).
Proof. induction bindings; intros seen i; cbn [parse_bindings]; solve_replays; auto. Qed.

Lemma replays_parse_namespaces profiles namespaces : forall out,
  Replays (parse_namespaces profiles out namespaces).
Proof. induction namespaces as [|[ns rule] l IH]; intros out; cbn [parse_namespaces]; solve_replays; auto. Qed.

Lemma replays_get_origins : Replays get_origins.
Proof. intros st o st' Ho. unfold get_origins in Ho. simplify_eq. by split. Qed.

Lemma replays_parse_file file : Replays (parse_file file).
Proof.
  unfold parse_file.
  apply replays_bind; [apply replays_parse_profiles|intros profiles].
  apply replays_bind; [apply replays_parse_bindings|intros bindings].
  apply replays_bind; [apply replays_parse_namespaces|intros namespaces].
  apply replays_bind; [apply replays_get_origins|intros origins]. apply replays_ret.
Qed.

(** Parsing a text with the ids its first parse left gives the same policy. *)
Lemma parse_again text ids policy ids' :
  parse text ids = (inr policy, ids') -> parse text ids' = (inr policy, ids').
Proof.
  unfold parse. destruct (policy_from_str text) as [e|file]; [done|].
  destruct (parse_file file _) as [r st] eqn:Hp. intros [= -> <-].
  destruct (replays_parse_file file _ _ _ Hp) as [_ Hr]. specialize (Hr (ps_ids st) (reflexivity _)).
  unfold with_ids in Hr at 1. cbn in Hr. by rewrite Hr.
Qed.

End Replays.
