(* ===== verification/Adopt.v ===== *)
(** * Taking over pinned maps ([rk-sensor/src/policy.rs])

    A restarted sensor finds the maps as the previous process left them.  [adopt] reads
    the live slot and the contents of both slots from the maps, and ids, bindings,
    quarantine and policy text from the state file; without a usable state file it keeps
    every binding of the kernel as it is. *)

From stdpp Require Import sorting.
From S2P Require Import Prelude Text Identity Abi Bpf Lpm Scenario Logic Common Governance.
From S2P Require Import Levels Net Exec File Guard Object Enforcement Ipnet Addr Policy.
From S2P Require Import Cidr Parse Flatten Reload Apply Resolve Engine Deploy.
Open Scope string_scope.
Open Scope list_scope.
Open Scope Z_scope.

(** ** Reading the maps *)

(** The [Array] of profiles holds zeroes where nothing was written. *)
Definition stored_profile (m : policy_maps) (slot id : Z) : rk_profile :=
  default zero_profile (m_profiles m !! profile_index slot id).

Definition get_profile (slot id : Z) : sensor rk_profile :=
  open_map;; get (fun k => stored_profile (e_maps k) slot id).

Fixpoint scan_profiles (slot : Z) (ids : list Z) : sensor (list Z) :=
  match ids with
  | [] => mret []
  | id :: ids =>
      p ← get_profile slot id;
      rest ← scan_profiles slot ids;
      mret (if prof_policy_gen p =? 0 then rest else id :: rest)
  end.

(** The keys of a map that are in the slot; reading each may fail. *)
Fixpoint scan_keys {K} (scope : K -> Z) (slot : Z) (keys : list K) : sensor (list K) :=
  match keys with
  | [] => mret []
  | key :: keys =>
      open_map;;
      rest ← scan_keys scope slot keys;
      mret (if slot_of_scope (scope key) =? slot then key :: rest else rest)
  end.

Definition scan_map {K} (scope : K -> Z) (slot : Z) (keys : policy_maps -> list K)
    : sensor (list K) :=
  open_map;;
  ks ← get (fun k => keys (e_maps k));
  scan_keys scope slot ks.

Definition scan_slot (slot : Z) : sensor SlotContents :=
  open_map;;
  profiles ← scan_profiles slot (seqZ 0 RK_MAX_PROFILES);
  deny ← scan_map nk_scope slot (fun m => (m_net_deny m).*1);
  allow ← scan_map nk_scope slot (fun m => (m_net_allow m).*1);
  exec ← scan_map ek_scope slot (fun m => (map_to_list (m_exec_allow m)).*1);
  files ← scan_map fk_scope slot (fun m => (map_to_list (m_file_protect m)).*1);
  mret (mk_SlotContents profiles deny allow exec files).

(** The newest generation of the profiles. *)
Fixpoint newest_gen (slot : Z) (ids : list Z) (gen : Z) : sensor Z :=
  match ids with
  | [] => mret gen
  | id :: ids =>
      p ← get_profile slot id;
      newest_gen slot ids (Z.max gen (prof_policy_gen p))
  end.

(** The bindings the kernel holds; one that cannot be read is left out. *)
Fixpoint read_bindings (l : list (Z * rk_binding)) : sensor (list (Z * Z)) :=
  match l with
  | [] => mret []
  | (id, b) :: l =>
      fun k =>
        if default false (head (e_faults k)) then read_bindings l (drop_fault k)
        else (rest ← read_bindings l; mret ((id, bind_profile b) :: rest)) (drop_fault k)
  end.

(** ** The cgroup file system *)

Definition MAX_CGROUP_DEPTH : nat := 32.

(** An entry of a directory: its name, whether its type is a directory, and its inode
    number if it can be read. *)
Record CgEntry : Set := mk_CgEntry { ce_name : string; ce_is_dir : bool; ce_ino : option Z }.

(** The entries of a directory below the cgroup root. *)
Class CgroupDirs := cg_read_dir : string -> option (list CgEntry).

Definition cg_join (dir name : string) : string :=
  if decide (dir = EmptyString) then name else dir +:+ "/" +:+ name.

Section Adopt.
Context {I : Ipnet} {S : IpnetStr I} {T : Toml} {D : CgroupDirs}.

(** The loop over the stack, as a recursion: of the directories pushed for one directory
    the last is visited first, with all below it. *)
Fixpoint visit_dir (ids : gset Z) (below : nat) (dir : string) (found : gmap Z string)
    : gmap Z string :=
  if decide (size found = size ids) then found
  else
    match cg_read_dir dir with
    | None => found
    | Some entries =>
        let dirs := filter (fun e => ce_is_dir e = true /\ is_Some (ce_ino e)) entries in
        let found := foldl (fun found e =>
          match ce_ino e with
          | Some ino => if decide (ino ∈ ids) then <[ino := cg_join dir (ce_name e)]> found
                        else found
          | None => found
          end) found dirs in
        match below with
        | O => found
        | Datatypes.S below =>
            foldr (fun e found => visit_dir ids below (cg_join dir (ce_name e)) found) found dirs
        end
    end.

Definition cgroup_paths (ids : gset Z) : gmap Z string :=
  visit_dir ids MAX_CGROUP_DEPTH EmptyString ∅.

(** ** The engine of a new process *)

Definition no_ids : ProfileIds := mk_ProfileIds ∅ 0.

(** [PolicyEngine::new] on maps that are there, with its options set. *)
Definition new_engine (maps : policy_maps) (faults : list bool) (lsm_active allow_delegated : bool)
    (store : StateFile) : pengine :=
  mk_pengine (mk_engine maps no_contents no_contents 0 0 faults []) no_ids ∅ ∅ ∅ ∅ [] None None
    None lsm_active allow_delegated store.

#[local] Existing Instances engineM_ret engineM_bind.

Definition set_slots (active : Z) (c0 c1 : SlotContents) (k : engine) : engine :=
  mk_engine (e_maps k) c0 c1 active (e_generation k) (e_faults k) (e_trace k).

Definition set_generation (gen : Z) (k : engine) : engine :=
  mk_engine (e_maps k) (e_written0 k) (e_written1 k) (e_active_slot k) gen (e_faults k)
    (e_trace k).

(** What the state file adds. *)
Definition restore (st : EngineState) (gen : Z) (s : pengine) : pengine :=
  mk_pengine (set_generation (Z.max (es_generation st) gen) (pe_kernel s)) (es_ids st)
    (es_bindings st) (es_quarantined st) (es_dynamic st) (es_adopted st) (pe_retired s)
    (pe_policy s) (es_text st) (es_previous_text st) (pe_lsm_active s) (pe_allow_delegated s)
    (pe_store s).

(** Without it: the kernel's bindings, with the paths found for them. *)
Definition keep_bindings (bound : list (Z * Z)) (s : pengine) : pengine :=
  let kernel : gmap Z Z := list_to_map bound in
  let paths := cgroup_paths (dom kernel) in
  let bindings := map_imap (fun id profile =>
    Some (default EmptyString (paths !! id), profile)) kernel in
  mk_pengine (pe_kernel s) (pe_ids s) bindings (pe_quarantined s) (pe_dynamic s) bindings
    (pe_retired s) (pe_policy s) (pe_text s) (pe_previous_text s)
    (pe_lsm_active s) (pe_allow_delegated s) (pe_store s).

(** The policy of the text on record, if it still parses. *)
Definition reparse (s : pengine) : pengine :=
  match pe_text s with
  | None => s
  | Some text =>
      match parse text (pe_ids s) with
      | (inr policy, ids) =>
          mk_pengine (pe_kernel s) ids (pe_bindings s) (pe_quarantined s) (pe_dynamic s)
            (pe_adopted s) (pe_retired s) (Some policy) (pe_text s) (pe_previous_text s)
            (pe_lsm_active s) (pe_allow_delegated s) (pe_store s)
      | (inl _, _) => s
      end
  end.

Definition read_active : sensor Z :=
  open_map;;
  open_map;;
  active ← get (fun k => m_active_slot (e_maps k));
  match active with
  | Some active => mret (Z.land active 1)
  | None => fail
  end.

(** The live slot and what both slots hold. *)
Definition read_slots : engineM Z :=
  active ← kernel read_active;
  kernel (modify (fun k => set_slots active (e_written0 k) (e_written1 k) k));;
  c0 ← kernel (scan_slot 0);
  c1 ← kernel (scan_slot 1);
  kernel (modify (set_slots active c0 c1));;
  mret active.

(** The newest generation in the live slot. *)
Definition kernel_generation (active : Z) : engineM Z :=
  kernel open_map;;
  ids ← ask (fun s => sc_profiles (written (pe_kernel s) active));
  kernel (newest_gen active ids 0).

(** The kernel's bindings. *)
Definition kernel_bindings : engineM (list (Z * Z)) :=
  kernel open_map;;
  kernel (l ← get (fun k => map_to_list (m_cgroup_profile (e_maps k))); read_bindings l).

(** Whether the state file was used. *)
Definition adopt : engineM bool :=
  active ← read_slots;
  gen ← kernel_generation active;
  state ← ask load_state;
  match state with
  | Some st => update (restore st gen)
  | None =>
      kernel (modify (set_generation gen));;
      bound ← kernel_bindings;
      update (keep_bindings bound)
  end;;
  update reparse;;
  update persist;;
  mret (bool_decide (is_Some state)).

(** The state of a replaced pin set carried into a new, empty one. *)
Definition migrate {O : Os} {C : CgroupFs} (old_epoch : string) : engineM bool :=
  s ← ask (fun s => s);
  let store := pe_store s in
  match load_state (with_store (mk_StateFile (sf_set store) old_epoch (sf_content store)) s) with
  | None => mret false
  | Some st =>
      match es_text st with
      | None => mret false
      | Some text =>
          update (fun s => mk_pengine (set_generation (es_generation st) (pe_kernel s)) (es_ids st)
            ∅ (es_quarantined st) (es_dynamic st) (es_adopted st) (pe_retired s) (pe_policy s)
            None (pe_previous_text s) (pe_lsm_active s) (pe_allow_delegated s) (pe_store s));;
          apply_text text;;
          update (fun s => mk_pengine (pe_kernel s) (pe_ids s) (pe_bindings s) (pe_quarantined s)
            (pe_dynamic s) (pe_adopted s) (pe_retired s) (pe_policy s) (pe_text s)
            (es_previous_text st) (pe_lsm_active s) (pe_allow_delegated s) (pe_store s));;
          update persist;;
          mret true
      end
  end.

End Adopt.
