(* ===== verification/Restart.v ===== *)
(** * A restarted sensor

    What [adopt] finds: both slots of the maps are on record again, and with the state
    file of the same pin set the engine is as it was, policy included. *)

From stdpp Require Import sorting.
From S2P Require Import Prelude Text Identity Abi Bpf Lpm Scenario Logic Common Governance.
From S2P Require Import Levels Net Exec File Guard Object Enforcement Ipnet Addr Policy.
From S2P Require Import Cidr Parse Flatten Reload Apply Resolve Engine Deploy Validated.
From S2P Require Import Reparse Bindings Steady Runtime Adopt.
Open Scope string_scope.
Open Scope list_scope.
Open Scope Z_scope.

(** ** Operations that only read *)

Definition reads (k k' : engine) : Prop :=
  exists n, k' = mk_engine (e_maps k) (e_written0 k) (e_written1 k) (e_active_slot k)
    (e_generation k) (drop n (e_faults k)) (e_trace k).

#[export] Instance reads_preorder : PreOrder reads.
Proof.
  split.
  - intros k. exists 0%nat. by destruct k.
  - intros k1 k2 k3 [n ->] [m ->]. exists (n + m)%nat. cbn. by rewrite drop_drop.
Qed.

(** If it succeeds, it read this and nothing else happened. *)
Definition yields {A} (m : sensor A) (g : policy_maps -> A) : Prop :=
  forall k a k', m k = (Some a, k') -> reads k k' /\ a = g (e_maps k).

Lemma yields_ret {A} (a : A) : yields (mret a) (fun _ => a).
Proof. intros k b k' [= <- <-]. by split. Qed.

Lemma yields_fail {A} g : yields (A:=A) fail g.
Proof. by intros k a k'. Qed.

Lemma yields_get {A} (g : policy_maps -> A) : yields (get (fun k => g (e_maps k))) g.
Proof. intros k a k' [= <- <-]. by split. Qed.

Lemma yields_open : yields open_map (fun _ => tt).
Proof.
  intros k [] k'. unfold open_map. destruct (default false _); [done|]. intros [= <-].
  split; [|done]. exists 1%nat. unfold drop_fault. by destruct (e_faults k).
Qed.

Lemma reads_maps k k' : reads k k' -> e_maps k' = e_maps k.
Proof. by intros [n ->]. Qed.

Lemma sensor_ret_Some {A} (a b : A) k k' : sensor_ret A a k = (Some b, k') -> b = a /\ k' = k.
Proof. by intros [= -> ->]. Qed.

(** What is read first does not change what is read next. *)
Lemma yields_bind {A B} (m : sensor A) (f : A -> sensor B) g h k b k' :
  (m ≫= f) k = (Some b, k') -> yields m g ->
  (forall k1, f (g (e_maps k)) k1 = (Some b, k') -> e_maps k1 = e_maps k -> reads k1 k' /\ b = h) ->
  reads k k' /\ b = h.
Proof.
  intros (a & k1 & H1 & H2)%sensor_bind_Some Hm Hf. destruct (Hm _ _ _ H1) as [R ->].
  destruct (Hf k1 H2 (reads_maps _ _ R)) as [R' ->]. split; [by etrans|done].
Qed.

Lemma yields_get_profile slot id : yields (get_profile slot id) (fun m => stored_profile m slot id).
Proof.
  intros k p k' H. eapply yields_bind; [exact H|apply yields_open|].
  intros k1 [= <- <-] ->. by split.
Qed.

(** ** The contents of a slot *)

Definition slot_profiles (slot : Z) (ids : list Z) (m : policy_maps) : list Z :=
  filter (fun id => prof_policy_gen (stored_profile m slot id) <> 0) ids.

Definition slot_keys {K} (scope : K -> Z) (slot : Z) (keys : list K) : list K :=
  filter (fun k => slot_of_scope (scope k) = slot) keys.

Definition slot_contents (slot : Z) (m : policy_maps) : SlotContents :=
  mk_SlotContents (slot_profiles slot (seqZ 0 RK_MAX_PROFILES) m)
    (slot_keys nk_scope slot (m_net_deny m).*1) (slot_keys nk_scope slot (m_net_allow m).*1)
    (slot_keys ek_scope slot (map_to_list (m_exec_allow m)).*1)
    (slot_keys fk_scope slot (map_to_list (m_file_protect m)).*1).

Lemma yields_scan_profiles slot ids : yields (scan_profiles slot ids) (slot_profiles slot ids).
Proof.
  induction ids as [|id ids IH]; [apply yields_ret|]. intros k l k' H. cbn [scan_profiles] in H.
  eapply yields_bind; [exact H|apply yields_get_profile|]. clear H. intros k1 H E1.
  eapply yields_bind; [exact H|exact IH|]. clear H. intros k2 [-> ->]%sensor_ret_Some E2.
  split; [done|].
  rewrite E1. unfold slot_profiles. rewrite filter_cons.
  destruct (Z.eqb_spec (prof_policy_gen (stored_profile (e_maps k) slot id)) 0) as [Hz|Hne];
    [by rewrite decide_False by naive_solver|by rewrite decide_True].
Qed.

Lemma yields_scan_keys {K} (scope : K -> Z) slot keys :
  yields (scan_keys scope slot keys) (fun _ => slot_keys scope slot keys).
Proof.
  induction keys as [|key keys IH]; [apply yields_ret|]. intros k l k' H. cbn [scan_keys] in H.
  eapply yields_bind; [exact H|apply yields_open|]. clear H. intros k1 H E1.
  eapply yields_bind; [exact H|exact IH|]. clear H. intros k2 [-> ->]%sensor_ret_Some E2.
  split; [done|].
  unfold slot_keys. rewrite filter_cons.
  destruct (Z.eqb_spec (slot_of_scope (scope key)) slot) as [Hz|Hne];
    [by rewrite decide_True|by rewrite decide_False].
Qed.

Lemma yields_scan_map {K} (scope : K -> Z) slot keys :
  yields (scan_map scope slot keys) (fun m => slot_keys scope slot (keys m)).
Proof.
  intros k l k' H. eapply yields_bind; [exact H|apply yields_open|]. clear H. intros k1 H E1.
  eapply yields_bind; [exact H|apply (yields_get keys)|]. clear H. intros k2 H E2.
  rewrite E1 in H. by destruct (yields_scan_keys _ _ _ _ _ _ H).
Qed.

Lemma yields_scan_slot slot : yields (scan_slot slot) (slot_contents slot).
Proof.
  unfold scan_slot, slot_contents. generalize (seqZ 0 RK_MAX_PROFILES) as ids. intros ids k c k' H.
  eapply yields_bind; [exact H|apply yields_open|]. clear H. intros k1 H E1.
  eapply yields_bind; [exact H|apply yields_scan_profiles|]. clear H. intros k2 H E2.
  do 4 (eapply yields_bind; [exact H|apply yields_scan_map|]; clear H;
    let k := fresh "k" in let E := fresh "E" in intros k H E).
  apply sensor_ret_Some in H as [-> ->]. split; [done|]. congruence.
Qed.

Lemma stored_scope_slot slot scope :
  stored_scope scope -> slot_of_scope scope = slot -> scope_of_slot slot scope.
Proof.
  intros (s & p & Hs & Hp & ->) Hslot. exists p. split; [done|].
  rewrite (slot_of_scope_of s p Hs Hp) in Hslot. by subst.
Qed.

Lemma elem_of_slot_keys {K} (scope : K -> Z) slot keys k :
  k ∈ slot_keys scope slot keys <-> slot_of_scope (scope k) = slot /\ k ∈ keys.
Proof. unfold slot_keys. by rewrite list_elem_of_filter. Qed.

Lemma elem_of_map_keys {K V} `{Countable K} (m : gmap K V) k :
  k ∈ (map_to_list m).*1 <-> exists v, m !! k = Some v.
Proof.
  rewrite list_elem_of_fmap. split.
  - intros ([k' v] & -> & Hk%elem_of_map_to_list). by exists v.
  - intros [v Hv]. exists (k, v). by rewrite elem_of_map_to_list.
Qed.

Lemma elem_of_trie_keys (t : list (rk_net_key * rk_net_rule)) k :
  k ∈ t.*1 <-> exists r, (k, r) ∈ t.
Proof.
  rewrite list_elem_of_fmap. split.
  - intros ([k' r] & -> & Hk). by exists r.
  - intros [r Hr]. by exists (k, r).
Qed.

Lemma scanned_contents slot m : rules_scoped m -> contents_of_slot slot (slot_contents slot m).
Proof.
  intros (Hnet & Hexec & Hfile).
  split; cbn [slot_contents sc_profiles sc_deny sc_allow sc_exec sc_files]; intros k.
  - intros [_ Hk%elem_of_seqZ]%list_elem_of_filter. unfold RK_MAX_PROFILES in *. lia.
  - intros [Hs [r Hk]%elem_of_trie_keys]%elem_of_slot_keys.
    destruct (Hnet k r (or_introl Hk)). split; [by apply stored_scope_slot|done].
  - intros [Hs [r Hk]%elem_of_trie_keys]%elem_of_slot_keys.
    destruct (Hnet k r (or_intror Hk)). split; [by apply stored_scope_slot|done].
  - intros [Hs [r Hk]%elem_of_map_keys]%elem_of_slot_keys. by eapply stored_scope_slot, Hs; eapply Hexec.
  - intros [Hs [r Hk]%elem_of_map_keys]%elem_of_slot_keys. by eapply stored_scope_slot, Hs; eapply Hfile.
Qed.

Lemma scanned_recorded slot k :
  written k slot = slot_contents slot (e_maps k) -> recorded slot k.
Proof.
  intros Hw.
  split; rewrite Hw; cbn [slot_contents sc_profiles sc_deny sc_allow sc_exec sc_files].
  - intros e r He Hs. exists e. split; [|by split].
    apply elem_of_slot_keys. split; [done|]. apply elem_of_trie_keys. by exists r.
  - intros e r He Hs. exists e. split; [|by split].
    apply elem_of_slot_keys. split; [done|]. apply elem_of_trie_keys. by exists r.
  - intros id p Hid Hp Hg. apply list_elem_of_filter. unfold stored_profile. rewrite Hp. split; [done|].
    apply elem_of_seqZ. unfold id_ok in Hid. lia.
  - intros key v Hk Hs. apply elem_of_slot_keys. split; [done|]. apply elem_of_map_keys. by exists v.
  - intros key v Hk Hs. apply elem_of_slot_keys. split; [done|]. apply elem_of_map_keys. by exists v.
Qed.

Lemma newest_gen_reads slot ids : forall gen k a k',
  newest_gen slot ids gen k = (Some a, k') -> reads k k'.
Proof.
  induction ids as [|id ids IH]; intros gen k a k'; cbn [newest_gen]; [by intros [= _ <-]|].
  intros (p & k1 & H1 & H2)%sensor_bind_Some.
  apply yields_get_profile in H1 as [R _]. etrans; [done|]. by eapply IH.
Qed.

Lemma read_bindings_reads l : forall k a k', read_bindings l k = (Some a, k') -> reads k k'.
Proof.
  assert (forall k, reads k (drop_fault k)) as Hd.
  { intros k. exists 1%nat. unfold drop_fault. by destruct (e_faults k). }
  induction l as [|[id b] l IH]; intros k a k'; cbn [read_bindings].
  - intros [_ ->]%sensor_ret_Some. done.
  - destruct (default false _); [intros H; etrans; [apply Hd|by eapply IH]|].
    intros (rest & k1 & H1 & [_ ->]%sensor_ret_Some)%sensor_bind_Some.
    etrans; [apply Hd|by eapply IH].
Qed.

(** ** What [adopt] does *)

#[local] Opaque scan_slot newest_gen.

Section Adopted.
Context {I : Ipnet} {S : IpnetStr I} {T : Toml} {D : CgroupDirs}.

Lemma engine_bind_inr {A B} (m : engineM A) (f : A -> engineM B) s b s' :
  engineM_bind A B f m s = (inr b, s') -> exists a s1, m s = (inr a, s1) /\ f a s1 = (inr b, s').
Proof. unfold engineM_bind. destruct (m s) as [[e|a] s1]; [done|]. intros H. by exists a, s1. Qed.

Lemma kernel_inr {A} (m : sensor A) s a s' :
  kernel m s = (inr a, s') -> exists k, m (pe_kernel s) = (Some a, k) /\ s' = with_kernel k s.
Proof.
  intros (r & s1 & H1 & H2)%engine_bind_inr. unfold try_kernel in H1.
  destruct (m (pe_kernel s)) as [r' k]. injection H1 as <- <-.
  destruct r'; [|done]. injection H2 as <- <-. by exists k.
Qed.

Lemma modify_inr f s a s' :
  kernel (modify f) s = (inr a, s') -> s' = with_kernel (f (pe_kernel s)) s.
Proof. intros (k & [= _ <-] & ->)%kernel_inr. done. Qed.

Lemma ask_inr {A} (f : pengine -> A) s a s' : ask f s = (inr a, s') -> a = f s /\ s' = s.
Proof. by intros [= <- <-]. Qed.

Lemma update_inr f s a s' : update f s = (inr a, s') -> s' = f s.
Proof. by intros [= _ <-]. Qed.

Lemma reads_kernel {A} (m : sensor A) s a s' :
  kernel m s = (inr a, s') -> (forall k b k', m k = (Some b, k') -> reads k k') ->
  exists k, reads (pe_kernel s) k /\ s' = with_kernel k s.
Proof. intros (k & H & ->)%kernel_inr Hr. exists k. split; [by eapply Hr|done]. Qed.

Lemma read_active_inr k a k' :
  read_active k = (Some a, k') ->
  reads k k' /\ exists active, m_active_slot (e_maps k) = Some active /\ a = Z.land active 1.
Proof.
  intros ([] & k1 & H1 & H)%sensor_bind_Some. apply yields_open in H1 as [R1 _].
  apply sensor_bind_Some in H as ([] & k2 & H2 & H). apply yields_open in H2 as [R2 _].
  apply sensor_bind_Some in H as (o & k3 & Ho & H).
  apply yields_get in Ho as [R3 ->].
  rewrite (reads_maps _ _ R2), (reads_maps _ _ R1) in H.
  destruct (m_active_slot (e_maps k)) as [active|]; [|done]. apply sensor_ret_Some in H as [-> ->].
  split; [by do 2 (etrans; [done|])|]. by exists active.
Qed.

(** The engine has the maps' slots on record. *)
Record scanned (maps : policy_maps) (k : engine) : Prop := mk_scanned {
  sn_maps : e_maps k = maps;
  sn_active : exists active, m_active_slot maps = Some active /\ e_active_slot k = Z.land active 1;
  sn_written0 : e_written0 k = slot_contents 0 maps;
  sn_written1 : e_written1 k = slot_contents 1 maps }.

Lemma scanned_reads maps k k' : scanned maps k -> reads k k' -> scanned maps k'.
Proof. by intros [? ? ? ?] [n ->]. Qed.

Lemma scanned_generation maps k gen : scanned maps k -> scanned maps (set_generation gen k).
Proof. by intros [? ? ? ?]. Qed.

Lemma scanned_engine_ok maps active k :
  scanned maps k -> maps_ok maps -> m_active_slot maps = Some active -> 0 <= active <= 1 ->
  engine_ok k /\ e_active_slot k = active.
Proof.
  intros [Em (act & Hact & Ea) Ew0 Ew1] Hm Ha Hslot. rewrite Ha in Hact. injection Hact as <-.
  assert (Z.land active 1 = active) as El by (assert (active = 0 \/ active = 1) as [-> | ->] by lia; done).
  rewrite El in Ea. split; [|done].
  split; cbn; rewrite ?Em, ?Ea, ?Ew0, ?Ew1; try done; apply scanned_contents, Hm.
Qed.

Lemma read_slots_inr s active s' :
  read_slots s = (inr active, s') ->
  exists k, scanned (e_maps (pe_kernel s)) k /\ s' = with_kernel k s.
Proof.
  intros (a & s1 & (k1 & H1 & ->)%kernel_inr & H)%engine_bind_inr.
  apply read_active_inr in H1 as [R1 (act & Ha & ->)].
  apply engine_bind_inr in H as ([] & s2 & ->%modify_inr & H).
  apply engine_bind_inr in H as (d0 & s3 & (k3 & [R3 ->]%yields_scan_slot & ->)%kernel_inr & H).
  apply engine_bind_inr in H as (d1 & s4 & (k4 & [R4 ->]%yields_scan_slot & ->)%kernel_inr & H).
  apply engine_bind_inr in H as ([] & s5 & ->%modify_inr & [= <- <-]).
  eexists. split; [|done]. destruct R1 as [n1 ->], R3 as [n3 ->], R4 as [n4 ->].
  split; [done| |done..]. by exists act.
Qed.

Lemma kernel_generation_inr active s gen s' :
  kernel_generation active s = (inr gen, s') ->
  exists k, reads (pe_kernel s) k /\ s' = with_kernel k s.
Proof.
  intros ([] & s1 & (k1 & [R1 _]%yields_open & ->)%kernel_inr & H)%engine_bind_inr.
  apply engine_bind_inr in H as (ids & s2 & [_ ->]%ask_inr & (k2 & R2%newest_gen_reads & ->)%kernel_inr).
  exists k2. split; [by etrans|done].
Qed.

Lemma kernel_bindings_inr s bound s' :
  kernel_bindings s = (inr bound, s') -> exists k, reads (pe_kernel s) k /\ s' = with_kernel k s /\
  exists k1 k2, reads (pe_kernel s) k1 /\
  read_bindings (map_to_list (m_cgroup_profile (e_maps (pe_kernel s)))) k1 = (Some bound, k2).
Proof.
  intros ([] & s1 & (k1 & [R1 _]%yields_open & ->)%kernel_inr & (k2 & H & ->)%kernel_inr)%engine_bind_inr.
  apply sensor_bind_Some in H as (l & k3 & [= <- <-] & H). cbn [with_kernel pe_kernel] in H.
  rewrite (reads_maps _ _ R1) in H.
  exists k2. split; [|split; [done|by exists k1, k2]]. etrans; [done|]. by eapply read_bindings_reads.
Qed.

Lemma adopt_inr s used s' :
  adopt s = (inr used, s') ->
  exists gen k, scanned (e_maps (pe_kernel s)) k /\ used = bool_decide (is_Some (load_state s)) /\
  match load_state s with
  | Some st => s' = persist (reparse (restore st gen (with_kernel k s)))
  | None => exists bound k1 k2,
      read_bindings (map_to_list (m_cgroup_profile (e_maps (pe_kernel s)))) k1 = (Some bound, k2) /\
      s' = persist (reparse (keep_bindings bound (with_kernel k s)))
  end.
Proof.
  intros (active & s1 & (k1 & Hsc & ->)%read_slots_inr & H)%engine_bind_inr.
  apply engine_bind_inr in H as (gen & s2 & (k2 & R2 & ->)%kernel_generation_inr & H).
  cbn [with_kernel pe_kernel] in R2. pose proof (scanned_reads _ _ _ Hsc R2) as Hsc2. exists gen.
  apply engine_bind_inr in H as (state & s3 & [-> ->]%ask_inr & H).
  change (load_state (with_kernel _ _)) with (load_state s) in H.
  apply engine_bind_inr in H as ([] & s4 & H4 & H).
  apply engine_bind_inr in H as ([] & s5 & ->%update_inr & H).
  apply engine_bind_inr in H as ([] & s6 & ->%update_inr & [= <- <-]).
  destruct (load_state s) as [st|].
  - apply update_inr in H4 as ->. exists k2. done.
  - apply engine_bind_inr in H4 as ([] & s6 & ->%modify_inr & H4).
    apply engine_bind_inr in H4 as (bound & s7 & (k3 & R3 & -> & k4 & k5 & Hr & Hb)%kernel_bindings_inr
      & ->%update_inr).
    cbn [with_kernel pe_kernel set_generation e_maps] in *. rewrite (sn_maps _ _ Hsc2) in Hb.
    exists k3. split; [by eapply scanned_reads, R3; apply scanned_generation|]. split; [done|]. by exists bound, k4, k5.
Qed.

End Adopted.

(** ** The state file follows the kernel

    An operation other than an apply leaves the maps and the file as they were, or has
    written the file last. *)

Section Settled.
Context {I : Ipnet} {S : IpnetStr I} {T : Toml} {O : Os} {C : CgroupFs}.
Context {L : IpnetLaws I} {SL : IpnetStrLaws I S} {TL : TomlLaws T}.

Definition idle (s s' : pengine) : Prop :=
  e_maps (pe_kernel s') = e_maps (pe_kernel s) /\ pe_store s' = pe_store s.

Definition settled (s s' : pengine) : Prop := idle s s' \/ synced s'.

Lemma idle_open_map s0 s (Q : unit -> pengine -> Prop) (E : pengine -> Prop) :
  idle s0 s -> (forall s', idle s0 s' -> E s') -> (forall s', idle s0 s' -> Q tt s') ->
  ewp (kernel open_map) Q E s.
Proof using All.
  intros Hi HE HQ. apply ewp_kernel. unfold open_map. destruct (default false _);
    [apply HE|apply HQ]; exact Hi.
Qed.

Lemma idle_set_binding s0 id p s (Q : unit -> pengine -> Prop) :
  idle s0 s -> (forall s', Q tt s') -> ewp (set_binding id p) Q (settled s0) s.
Proof using All.
  intros Hi HQ. unfold set_binding.
  apply ewp_bind, (idle_open_map s0); [done|by left|]. intros s1 H1.
  apply ewp_bind, ewp_kernel. unfold must, syscall, mbind, sensor_bind, mret, sensor_ret, fail.
  destruct (default false _); [by left|]. apply ewp_update, HQ.
Qed.

Lemma idle_bindable profile s0 s (Q : Z -> pengine -> Prop) :
  idle s0 s -> (forall pid, Q pid s) -> ewp (bindable_profile profile) Q (settled s0) s.
Proof using All.
  intros Hi HQ. unfold bindable_profile. apply ewp_bind, ewp_ask.
  destruct (pe_policy s); [|by left]. destruct (head _); [apply ewp_ret, HQ|by left].
Qed.

(** The end of every operation that changed something. *)
Lemma settled_publish {A} (m : engineM A) s0 s (Q : A -> pengine -> Prop) :
  (forall s', synced s' -> ewp m Q (settled s0) s') ->
  ewp (engineM_bind _ _ (fun _ => engineM_bind _ _ (fun _ => m) publish_governed_levels)
    (update persist)) Q (settled s0) s.
Proof using All.
  intros Hm. apply ewp_bind, ewp_update, ewp_bind.
  eapply ewp_mono; [apply (publish_synced _ (fun _ => False)), persist_synced| |done].
  intros [] s' Hs. by apply Hm.
Qed.

Lemma bind_dynamic_settled cgroup profile s :
  ewp (bind_dynamic cgroup profile) (fun _ => settled s) (settled s) s.
Proof using All.
  assert (idle s s) as Hi by done. unfold bind_dynamic.
  apply ewp_bind, ewp_attempt; [by left|]. intros cg _.
  apply ewp_bind, (idle_bindable _ s); [done|]. intros pid.
  apply ewp_bind, ewp_attempt; [by left|]. intros meta _. cbv zeta.
  apply ewp_bind, ewp_ask. case_bool_decide; [by left|].
  apply ewp_bind, (idle_set_binding s); [done|]. intros s1. apply ewp_bind, ewp_update.
  apply settled_publish. intros s' Hs'. apply ewp_ret. by right.
Qed.

Lemma bind_container_settled cgroup profile s :
  ewp (bind_container cgroup profile) (fun _ => settled s) (settled s) s.
Proof using All.
  assert (idle s s) as Hi by done. unfold bind_container. destruct (bad_container _); [by left|].
  apply ewp_bind, (idle_bindable _ s); [done|]. intros pid.
  apply ewp_bind, ewp_attempt; [by left|]. intros meta _. cbv zeta.
  apply ewp_bind, ewp_ask. destruct (_ && _ && _); [by left|].
  case_decide; [by left|]. destruct (_ && _ && _); [by left|].
  apply ewp_bind, (idle_set_binding s); [done|]. intros s1. apply ewp_bind, ewp_update.
  apply settled_publish. intros s' Hs'. apply ewp_ret. by right.
Qed.

Lemma unbind_dynamic_settled id s : ewp (unbind_dynamic id) (fun _ => settled s) (settled s) s.
Proof using All.
  unfold unbind_dynamic. apply ewp_bind, ewp_ask.
  destruct (pe_dynamic s !! id) as [[path profile]|]; [|by left].
  apply ewp_bind, ewp_update, ewp_bind, ewp_update, ewp_bind, ewp_update.
  apply ewp_bind, (idle_open_map s); [done|by left|]. intros s1 H1.
  apply ewp_bind, ewp_kernel. unfold ignore, syscall, mbind, sensor_bind, mret, sensor_ret.
  destruct (default false _); cbv beta iota; apply ewp_bind, ewp_update;
    (eapply ewp_mono; [apply (publish_synced _ (fun _ => False)), persist_synced| |done]);
    by right.
Qed.

Lemma quarantine_settled cgroup s : ewp (quarantine cgroup) (fun _ => settled s) (settled s) s.
Proof using All.
  unfold quarantine. apply ewp_bind, ewp_ask. destruct (cgroup_id s cgroup); [|by left].
  destruct (quarantine_id s); [|by left].
  apply ewp_bind, (idle_set_binding s); [done|]. intros s1.
  apply ewp_bind, ewp_update, ewp_update. right. apply persist_synced.
Qed.

Lemma release_settled cgroup s : ewp (release cgroup) (fun _ => settled s) (settled s) s.
Proof using All.
  unfold release. apply ewp_bind, ewp_ask. destruct (cgroup_id s cgroup); [|by left].
  destruct (pe_policy s); [|by left].
  match goal with |- context [match ?x with Some profile => _ | None => throw _ end] =>
    destruct x end; [|by left].
  apply ewp_bind, ewp_update, ewp_bind, (idle_set_binding s); [done|]. intros s1.
  apply ewp_update. right. apply persist_synced.
Qed.

(** Operations that write rules. *)
Definition rewrites (o : operation) : bool :=
  match o with
  | ApplyText _ | Rollback => true
  | _ => false
  end.

Lemma perform_settled o s : rewrites o = false -> settled s (perform o s).2.
Proof using All.
  intros Ho. destruct o; try done; apply ewp_final; cbn [perform]; unfold ignore_value;
    try apply ewp_bind.
  - eapply ewp_mono; [apply bind_dynamic_settled|done..].
  - eapply ewp_mono; [apply bind_container_settled|done..].
  - apply unbind_dynamic_settled.
  - apply quarantine_settled.
  - apply release_settled.
Qed.

End Settled.
