(* ===== verification/Serving.v ===== *)
(** * The running sensor

    The policy engine and the heartbeat as one process, which may be restarted between its
    operations.  In every state it reaches the kernel's live slot holds exactly the policy
    whose text is on record. *)

From stdpp Require Import sorting.
From S2P Require Import Prelude Text Identity Abi Bpf Lpm Scenario Logic Common Governance.
From S2P Require Import Levels Net Exec File Guard Object Enforcement Ipnet Addr Policy.
From S2P Require Import Cidr Parse Flatten Reload Apply Resolve Engine Deploy Validated.
From S2P Require Import Bindings Resilience Steady Runtime Reparse Adopt Restart.
Open Scope string_scope.
Open Scope list_scope.
Open Scope Z_scope.

(** ** Resolved rules have distinct keys *)

Section Keys.
Context {O : Os}.

Lemma resolve_exec_keys entries exec :
  resolve_exec entries = inr exec -> NoDup (exec_key <$> exec).
Proof.
  unfold resolve_exec. destruct (resolve_exec_in _ _) as [r t] eqn:Hr. cbn. intros ->.
  by apply resolve_exec_in_inr in Hr as (_ & Hnd & _); [|apply table_new_ok].
Qed.

Lemma resolve_files_keys entries files skipped :
  resolve_files entries = inr (files, skipped) -> NoDup (file_key <$> files).
Proof. intros (_ & m & -> & Hm)%resolve_files_merges. by eapply into_values_keys. Qed.

End Keys.

(** ** Changes beside the rules and the bindings *)

Definition aside (k k' : engine) : Prop :=
  rules_kept k k' /\ m_cgroup_profile (e_maps k') = m_cgroup_profile (e_maps k).

Lemma aside_engine_ok k k' : aside k k' -> engine_ok k -> engine_ok k'.
Proof.
  intros [[Hw0 Hw1 Hs _ Ha Hp Hd Hal Hx Hf] Hb] [(Hr & Hbw & Htd & Hta) Hact Hsl H0 H1].
  split; rewrite ?Ha, ?Hs, ?Hw0, ?Hw1; try done. unfold maps_ok, rules_scoped, bindings_wf in *.
  by rewrite Hd, Hal, Hx, Hf, Hb.
Qed.

Class Aside {A} (m : sensor A) : Prop := aside_of k : aside k (m k).2.

#[export] Instance aside_ret {A} (a : A) : Aside (mret a).
Proof. by intros k. Qed.

#[export] Instance aside_fail {A} : Aside (fail (A:=A)).
Proof. by intros k. Qed.

#[export] Instance aside_bind {A B} (m : sensor A) (f : A -> sensor B) :
  Aside m -> (forall a, Aside (f a)) -> Aside (m ≫= f).
Proof.
  intros Hm Hf k. specialize (Hm k). unfold mbind, sensor_bind.
  destruct (m k) as [[a|] k1]; [|done]. destruct Hm as [H1 E1], (Hf a k1) as [H2 E2].
  cbn in E1. split; [by etrans|congruence].
Qed.

#[export] Instance aside_open_map : Aside open_map.
Proof.
  intros k. split; [apply keeps_rules_open_map|]. unfold open_map. by destruct (default false _).
Qed.

Lemma aside_syscall f :
  Unruly f -> (forall m, m_cgroup_profile (f m) = m_cgroup_profile m) -> Aside (syscall f).
Proof.
  intros Hf Hb k. split; [by apply keeps_rules_syscall|]. unfold syscall.
  destruct (default false _); [done|apply Hb].
Qed.

Lemma aside_must f :
  Unruly f -> (forall m, m_cgroup_profile (f m) = m_cgroup_profile m) -> Aside (must f).
Proof. intros Hf Hb. apply aside_bind; [by apply aside_syscall|]. intros []; apply _. Qed.

#[export] Instance aside_start timeout now : Aside (start timeout now).
Proof.
  unfold start. destruct (_ <? _); [apply _|].
  repeat (apply aside_bind; [|intros _]); try apply _; by apply aside_must.
Qed.

#[export] Instance aside_heartbeat_loop last iterations : Aside (heartbeat_loop last iterations).
Proof.
  revert last. induction iterations as [|[stop now] its IH]; intros last; cbn; [apply _|].
  destruct stop; [apply _|]. apply aside_bind; [by apply aside_syscall|done].
Qed.

#[export] Instance aside_protect_self pid stat : Aside (protect_self pid stat).
Proof.
  unfold protect_self. destruct (stat ≫= start_ticks); [|apply _].
  apply aside_bind; [apply _|]. intros _. by apply aside_must.
Qed.

(** ** The process *)

Section Serving.
Context {I : Ipnet} {S : IpnetStr I} {T : Toml}.
Context {L : IpnetLaws I} {SL : IpnetStrLaws I S} {TL : TomlLaws T}.

(** The states of the file system the applies may see. *)
Context (seen : Os -> Prop).

(** The engine's operations, whatever state of the file system and the cgroup tree they
    see, the heartbeat thread and the registration; and a new process that takes over the
    pinned maps with the state file.  Map calls of an apply do not fail, others may. *)
Inductive process_step (s : pengine) : pengine -> Prop :=
| Operates (O : Os) (C : CgroupFs) o faults :
    (rewrites o = true -> faults = [] /\ seen O) -> process_step s (perform o (begin faults s)).2
| Starts timeout now :
    process_step s (with_kernel (start timeout now (pe_kernel s)).2 s)
| Beats last iterations :
    process_step s (with_kernel (heartbeat_loop last iterations (pe_kernel s)).2 s)
| Protects pid stat :
    process_step s (with_kernel (protect_self pid stat (pe_kernel s)).2 s)
| Restarts (D : CgroupDirs) faults lsm_active allow_delegated s' :
    adopt (new_engine (e_maps (pe_kernel s)) faults lsm_active allow_delegated (pe_store s)) =
      (inr true, s') ->
    process_step s s'.

(** The live slot serves the policy on record, which is what its text parses to and what
    its paths resolved to when it was applied. *)
Definition in_force (policy : Policy) (s : pengine) : Prop :=
  exists (O : Os) text ids generation c exec files skipped,
    seen O /\ ids_ok ids /\ parse text ids = (inr policy, pe_ids s) /\ pe_text s = Some text /\
    compile policy generation = inr c /\ resolve_exec (co_exec c) = inr exec /\
    resolve_files (co_files c) = inr (files, skipped) /\
    serves policy generation exec files (e_maps (pe_kernel s)).

Definition slots_recorded (s : pengine) : Prop :=
  forall slot, 0 <= slot <= 1 -> recorded slot (pe_kernel s).

Definition serving (s : pengine) : Prop :=
  slots_recorded s /\ forall policy, pe_policy s = Some policy -> in_force policy s.

(** ** What the state file must say *)

(** The same of a text, the ids after its parse, and the maps. *)
Definition in_force_at (policy : Policy) (text : string) (ids' : ProfileIds) (m : policy_maps)
    : Prop :=
  exists (O : Os) ids generation c exec files skipped,
    seen O /\ ids_ok ids /\ parse text ids = (inr policy, ids') /\
    compile policy generation = inr c /\ resolve_exec (co_exec c) = inr exec /\
    resolve_files (co_files c) = inr (files, skipped) /\
    serves policy generation exec files m.

Lemma in_force_iff policy s :
  in_force policy s <-> exists text, pe_text s = Some text /\
    in_force_at policy text (pe_ids s) (e_maps (pe_kernel s)).
Proof.
  split.
  - intros (O & text & ids & gen & c & exec & files & sk & ? & ? & ? & ? & ?).
    exists text. split; [done|]. by exists O, ids, gen, c, exec, files, sk.
  - intros (text & ? & O & ids & gen & c & exec & files & sk & ? & ? & ? & ?).
    by exists O, text, ids, gen, c, exec, files, sk.
Qed.

(** A state from which the engine can be restored over the maps. *)
Record restorable (m : policy_maps) (st : EngineState) : Prop := mk_restorable {
  rs_ids : ids_ok (es_ids st);
  rs_policy : exists text policy, es_text st = Some text /\ policy_known (es_ids st) policy /\
                in_force_at policy text (es_ids st) m;
  rs_bound id e : es_bindings st !! id = Some e ->
    profile_number e.2 /\ m_cgroup_profile m !! id = Some (binding_value e.2);
  rs_adopted id e : es_adopted st !! id = Some e -> profile_number e.2;
  rs_held id : id ∈ es_quarantined st ->
    exists e, es_bindings st !! id = Some e /\ pi_ids (es_ids st) !! QUARANTINE = Some e.2 }.

Definition stored (s : pengine) : Prop :=
  forall st, load_state s = Some st -> restorable (e_maps (pe_kernel s)) st.

Lemma synced_stored s : good s -> serving s -> synced s -> stored s.
Proof.
  intros Hg [_ Hsv] Hs st. unfold load_state. destruct (sf_set (pe_store s)) eqn:Hset; [|done].
  cbn [andb]. destruct (negb _); [|done]. rewrite (Hs Hset). cbn. rewrite decide_True by done.
  intros [= <-]. destruct (g_policy s Hg) as (policy & Hp & Hk).
  split; cbn; try apply Hg. pose proof (Hsv policy Hp) as (text & Ht & Hf)%in_force_iff.
  by exists text, policy.
Qed.

(** The file stays usable while the bindings and the live rules do. *)
Lemma stored_kept s s' :
  pe_store s' = pe_store s ->
  m_cgroup_profile (e_maps (pe_kernel s')) = m_cgroup_profile (e_maps (pe_kernel s)) ->
  (forall policy generation exec files,
     serves policy generation exec files (e_maps (pe_kernel s)) ->
     serves policy generation exec files (e_maps (pe_kernel s'))) ->
  stored s -> stored s'.
Proof.
  intros Hst Hb Hsv H st Hl. unfold load_state in Hl. rewrite Hst in Hl.
  destruct (H st Hl) as [Hi (text & policy & Ht & Hk & O & ids & gen & c & exec & files & sk & ? & ? & ? & ? & ? & ? & Hs) Hbo Ha Hh].
  split; [done| |by rewrite Hb|done..]. exists text, policy. split; [done|]. split; [done|].
  exists O, ids, gen, c, exec, files, sk. split_and!; try done. by apply Hsv.
Qed.

Lemma steady_serving s s' :
  steady s s' -> engine_ok (pe_kernel s') -> serving s -> serving s'.
Proof.
  intros (Hr & Hp & Ht & Hi) Hok [Hrec Hf]. split.
  - intros slot Hs. by eapply rules_kept_recorded, Hrec.
  - intros policy Hpol. rewrite Hp in Hpol.
    destruct (Hf policy Hpol) as (O & text & ids & gen & c & exec & files & sk & ? & ? & ? & ? & ? & ? & ? & Hsv).
    exists O, text, ids, gen, c, exec, files, sk. rewrite Ht, Hi. split_and!; try done.
    by eapply rules_kept_serves.
Qed.

Lemma installed_serving {O : Os} policy s s' :
  seen O -> engine_ok (pe_kernel s) -> ids_ok (pe_ids s) -> slots_recorded s ->
  e_trace (pe_kernel s) = [] -> e_faults (pe_kernel s) = [] -> engine_ok (pe_kernel s') ->
  installed policy s s' -> serving s'.
Proof using L SL TL.
  intros HO Hk Hids Hrec Ht Hf Hk' ((text & Hp & Htext) & gen & c & exec & files & sk & n & k & Hc & Hx & Hfl & Ha & Hrk & Hpol).
  destruct (parsed_policy_ok _ _ _ _ Hids Hp) as (Hwf & Hpok & _).
  assert (input_ok c exec files) as Hin by (by eapply compiled_input).
  assert (deploys policy gen c exec files n (pe_kernel s) k) as Hd.
  { split; try done; try apply Hin; [by eapply resolve_exec_keys|by eapply resolve_files_keys|].
    destruct (other_slot _ Hk) as [Hslot _]. by apply Hrec. }
  split.
  - intros slot Hslot. eapply rules_kept_recorded; [done|].
    pose proof (apply_recorded _ _ _ _ n Hk Ht Hf Hin Hrec slot Hslot) as Hr. by rewrite Ha in Hr.
  - intros policy'. rewrite Hpol. intros [= <-].
    exists O, text, (pe_ids s), gen, c, exec, files, sk. split_and!; try done.
    eapply rules_kept_serves; [done..|]. by eapply deploys_serves.
Qed.

Lemma untouched_serving s s' :
  engine_ok (pe_kernel s) -> e_trace (pe_kernel s) = [] -> e_faults (pe_kernel s) = [] ->
  untouched s s' -> serving s -> serving s'.
Proof using L.
  intros Hk Ht Hf Hu [Hrec Hfo]. destruct (untouched_kernel s s' Hk Ht Hu) as [Hk' Hq].
  destruct Hu as (k & -> & Hcase). cbn in Hq. split.
  - intros slot Hslot. cbn. destruct Hcase as [->|(c & exec & files & n & Hin & Ha)]; [by apply Hrec|].
    pose proof (apply_recorded _ _ _ _ n Hk Ht Hf Hin Hrec slot Hslot) as Hr. by rewrite Ha in Hr.
  - intros policy Hpol.
    destruct (Hfo policy Hpol) as (O & text & ids & gen & c & exec & files & sk & ? & ? & ? & ? & ? & ? & ? & Hsv).
    exists O, text, ids, gen, c, exec, files, sk. split_and!; try done. by eapply serves_quiet.
Qed.

Lemma begin_serving faults s : serving s -> serving (begin faults s).
Proof.
  intros [Hrec Hf]. split; [|done]. intros slot Hs. by destruct (Hrec slot Hs).
Qed.

Lemma apply_text_serving {O : Os} {C : CgroupFs} text s :
  seen O -> sound s -> serving s -> e_trace (pe_kernel s) = [] -> e_faults (pe_kernel s) = [] ->
  serving (apply_text text s).2.
Proof using L SL TL.
  intros HO Hs Hsv Ht Hf. assert (prior s) as Hp by (by apply sound_prior).
  pose proof Hp as (Hk & Hids & _).
  apply ewp_final. eapply ewp_mono; [by apply apply_text_spec| |].
  - intros [] s' [[[Hg _] [policy Hi]] _]. eapply installed_serving; [done..|apply Hsv|done|done|apply Hg|done].
  - intros s' [Hu|[[Hg _] [policy Hi]]]; [by eapply untouched_serving|].
    eapply installed_serving; [done..|apply Hsv|done|done|apply Hg|done].
Qed.

Lemma perform_serving {O : Os} {C : CgroupFs} o s :
  sound s -> serving s -> e_trace (pe_kernel s) = [] ->
  (rewrites o = true -> e_faults (pe_kernel s) = [] /\ seen O) -> serving (perform o s).2.
Proof using L SL TL.
  intros Hs Hsv Ht Hf.
  assert (Steady (perform o) -> serving (perform o s).2) as Hst.
  { intros Ho. eapply steady_serving; [apply Ho| |done].
    by eapply sound_prior, perform_sound. }
  destruct o; try (apply Hst; cbn; unfold ignore_value; first [apply _|apply steady_bind; apply _]);
    cbn; [by apply apply_text_serving; try apply Hf|].
  unfold rollback, mbind, engineM_bind, ask. destruct (pe_previous_text s); [|done].
  by apply apply_text_serving; try apply Hf.
Qed.

(** ** What holds of every state of the process *)

Definition running (s : pengine) : Prop := sound s /\ serving s /\ stored s.

Lemma aside_running {A} (m : sensor A) s :
  Aside m -> running s -> running (with_kernel (m (pe_kernel s)).2 s).
Proof using L SL TL.
  intros Hm (Hs & Hsv & Hst). specialize (Hm (pe_kernel s)).
  assert (engine_ok (pe_kernel s)) as Hk by (by apply sound_prior).
  pose proof (aside_engine_ok _ _ Hm Hk) as Hk'. destruct Hm as [Hr Hb]. split_and!.
  - destruct Hs as [(_ & Hf)|Hg]; [by left|right].
    apply good_kernel; [done..|]. intros id e He. rewrite Hb. by apply (g_bound s Hg).
  - by apply (steady_serving s).
  - eapply stored_kept; [..|exact Hst]; [done|done|]. intros. by eapply rules_kept_serves.
Qed.

Lemma begin_running faults s : running s -> running (begin faults s).
Proof.
  intros (Hs & Hsv & Hst). split; [by apply begin_sound|]. split; [by apply begin_serving|done].
Qed.

Lemma apply_text_stored {O : Os} {C : CgroupFs} text s :
  seen O -> running s -> e_trace (pe_kernel s) = [] -> e_faults (pe_kernel s) = [] ->
  stored (apply_text text s).2.
Proof using L SL TL.
  intros HO (Hs & Hsv & Hst) Ht Hf. assert (prior s) as Hp by (by apply sound_prior).
  pose proof (apply_text_serving text s HO Hs Hsv Ht Hf) as Hsv'. revert Hsv'.
  pose proof (apply_text_spec text s Hp Ht) as Hspec. unfold ewp in Hspec.
  destruct (apply_text text s) as [[e|[]] s']; cbn [snd]; intros Hsv'.
  2:{ destruct Hspec as [[[Hg Hsy] _] _]. by apply synced_stored. }
  destruct Hspec as [Hu|[[Hg Hsy] _]]; [|by apply synced_stored].
  destruct (untouched_kernel s s' (proj1 Hp) Ht Hu) as [_ Hq].
  assert (pe_store s' = pe_store s) as Hsame by (by destruct Hu as (k & -> & _)).
  eapply stored_kept; [done| | |exact Hst].
  - destruct Hq as (_ & Hag & _). symmetry. apply (agree_bindings _ _ _ Hag).
  - intros. by eapply serves_quiet.
Qed.

Lemma perform_stored {O : Os} {C : CgroupFs} o s :
  running s -> serving (perform o s).2 -> e_trace (pe_kernel s) = [] ->
  (rewrites o = true -> e_faults (pe_kernel s) = [] /\ seen O) -> stored (perform o s).2.
Proof using L SL TL.
  intros Hrun Hsv' Ht Hf. pose proof Hrun as (Hs & Hsv & Hst). destruct (rewrites o) eqn:Ho.
  - destruct (Hf eq_refl) as [Hnf HO]. destruct o; try done; cbn [perform].
    + by apply apply_text_stored.
    + unfold rollback, mbind, engineM_bind, ask. destruct (pe_previous_text s); [|done].
      by apply apply_text_stored.
  - pose proof (perform_sound o s Hs Ht) as [Hfr|Hg].
    { intros st Hl. destruct Hfr as (_ & _ & _ & _ & _ & _ & _ & _ & Hn). congruence. }
    destruct (perform_settled o s Ho) as [[Hm Hstore]|Hsy]; [|by apply synced_stored].
    eapply stored_kept; [done| | |exact Hst]; by rewrite Hm.
Qed.

(** A process that takes over with the state file is where the last one was. *)
Lemma restart_running {D : CgroupDirs} s faults lsm_active allow_delegated s' :
  running s ->
  adopt (new_engine (e_maps (pe_kernel s)) faults lsm_active allow_delegated (pe_store s)) =
    (inr true, s') ->
  running s'.
Proof using L SL TL.
  intros (Hs & Hsv & Hst) (gen & k & Hk & Hused & Hs')%adopt_inr. cbn [new_engine pe_kernel e_maps] in Hk.
  change (load_state (new_engine _ _ _ _ _)) with (load_state s) in Hused, Hs'.
  destruct (load_state s) as [st|] eqn:Hl; [|done]. clear Hused.
  destruct (Hst st Hl) as [Hids (text & policy & Ht & Hkn & Hin) Hb Ha Hh].
  pose proof Hin as (O & ids & gen0 & c & exec & files & sk & _ & Hi0 & Hparse & _).
  pose proof (parse_again _ _ _ _ Hparse) as Hagain.
  unfold reparse in Hs'. cbn [restore pe_text pe_ids] in Hs'. rewrite Ht, Hagain in Hs'.
  set (s1 := mk_pengine _ _ _ _ _ _ _ _ _ _ _ _ _) in Hs'.
  assert (engine_ok (pe_kernel s1)) as Hok.
  { assert (engine_ok (pe_kernel s)) as [Hm Hact Hslot _ _] by (by apply sound_prior).
    by apply (scanned_engine_ok _ _ _ (scanned_generation _ _ _ Hk) Hm Hact Hslot). }
  destruct Hk as [Em _ Ew0 Ew1].
  assert (good s1) as Hg by (split; cbn; rewrite ?Em; eauto).
  assert (serving s1) as Hsv1.
  { split.
    - intros slot Hslot. apply scanned_recorded. subst s1. unfold written. cbn. rewrite Em.
      assert (slot = 0 \/ slot = 1) as [-> | ->] by lia; done.
    - intros p [= <-]. apply in_force_iff. exists text. cbn. by rewrite Em. }
  subst s'. assert (good (persist s1)) as Hg' by (by apply good_persist).
  assert (serving (persist s1)) as Hsv' by (unfold persist; by destruct (sf_set _)).
  split; [by right|]. split; [done|]. apply synced_stored; [done..|apply persist_synced].
Qed.

Lemma process_running s s' : running s -> process_step s s' -> running s'.
Proof using L SL TL.
  intros Hrun [O C o faults Hf|timeout now|last its|pid stat|D faults lsm del s1 Ha];
    try (apply aside_running; [apply _|done]); [|by eapply restart_running].
  pose proof (begin_running faults s Hrun) as Hrun'. pose proof Hrun' as (Hs' & Hsv' & Hst').
  assert (serving (perform o (begin faults s)).2) as Hsv2 by (by apply perform_serving).
  split; [by apply perform_sound|]. split; [done|]. by apply perform_stored.
Qed.

Lemma reachable_running s0 s :
  fresh s0 -> slots_recorded s0 -> rtc process_step s0 s -> running s.
Proof using L SL TL.
  intros Hf Hrec Hr. assert (running s0) as H0.
  { destruct Hf as (? & ? & Hp & ? & ? & ? & ? & ? & Hl). split; [by left; split_and!|]. split.
    - split; [done|]. intros policy. by rewrite Hp.
    - intros st. by rewrite Hl. }
  clear Hf Hrec. induction Hr as [|s0 s1 s2 Hst Hr IH]; [done|]. by eapply IH, process_running.
Qed.

End Serving.
