(* ===== verification/Takeover.v ===== *)
(** * Taking over from another process

    When no read fails a new process always takes over.  With the state file of the pin set
    it has the engine of the process before it, policy, ids and quarantine included;
    without it every binding of the kernel is on record as adopted, and an apply removes
    none of them whose cgroup may still exist. *)

From stdpp Require Import sorting.
From S2P Require Import Prelude Text Identity Abi Bpf Lpm Scenario Logic Common Governance.
From S2P Require Import Levels Net Exec File Guard Object Enforcement Ipnet Addr Policy.
From S2P Require Import Cidr Parse Flatten Reload Apply Resolve Engine Deploy Validated.
From S2P Require Import Bindings Resilience Steady Runtime Reparse Adopt Restart Serving.
Open Scope string_scope.
Open Scope list_scope.
Open Scope Z_scope.

(** ** Reads that do not fail *)

(** Where no call fails, it returns and changes nothing. *)
Class Quiet {A} (m : sensor A) : Prop :=
  quiet_returns k : e_faults k = [] -> exists a, m k = (Some a, k).

Lemma drop_no_fault k : e_faults k = [] -> drop_fault k = k.
Proof. destruct k. cbn. intros ->. done. Qed.

#[export] Instance quiet_ret {A} (a : A) : Quiet (mret a).
Proof. intros k _. by exists a. Qed.

#[export] Instance quiet_get {A} (f : engine -> A) : Quiet (get f).
Proof. intros k _. by exists (f k). Qed.

Lemma open_map_quiet k : e_faults k = [] -> open_map k = (Some tt, k).
Proof. intros Hk. unfold open_map. by rewrite drop_no_fault, Hk. Qed.

#[export] Instance quiet_open_map : Quiet open_map.
Proof. intros k Hk. exists tt. by apply open_map_quiet. Qed.

#[export] Instance quiet_bind {A B} (m : sensor A) (f : A -> sensor B) :
  Quiet m -> (forall a, Quiet (f a)) -> Quiet (m ≫= f).
Proof.
  intros Hm Hf k Hk. destruct (Hm k Hk) as [a Ha]. unfold mbind, sensor_bind. rewrite Ha.
  by apply Hf.
Qed.

#[export] Instance quiet_get_profile slot id : Quiet (get_profile slot id).
Proof. unfold get_profile. apply _. Qed.

#[export] Instance quiet_scan_profiles slot ids : Quiet (scan_profiles slot ids).
Proof. induction ids; cbn [scan_profiles]; apply _. Qed.

#[export] Instance quiet_scan_keys {K} (scope : K -> Z) slot keys : Quiet (scan_keys scope slot keys).
Proof. induction keys; cbn [scan_keys]; apply _. Qed.

#[export] Instance quiet_scan_map {K} (scope : K -> Z) slot keys : Quiet (scan_map scope slot keys).
Proof. unfold scan_map. apply _. Qed.

#[export] Instance quiet_scan_slot slot : Quiet (scan_slot slot).
Proof. unfold scan_slot. generalize (seqZ 0 RK_MAX_PROFILES). intros ids. apply _. Qed.

#[export] Instance quiet_newest_gen slot ids gen : Quiet (newest_gen slot ids gen).
Proof. revert gen. induction ids; intros gen; cbn [newest_gen]; apply _. Qed.

Lemma read_active_quiet k active :
  e_faults k = [] -> m_active_slot (e_maps k) = Some active ->
  read_active k = (Some (Z.land active 1), k).
Proof.
  intros Hk Ha. unfold read_active, mbind, sensor_bind. rewrite !open_map_quiet by done.
  unfold get. by rewrite Ha.
Qed.

Lemma read_bindings_quiet l k :
  e_faults k = [] -> read_bindings l k = (Some (prod_map id bind_profile <$> l), k).
Proof.
  intros Hk. induction l as [|[i b] l IH]; [done|]. cbn [read_bindings].
  rewrite drop_no_fault, Hk by done. cbn. unfold mbind, sensor_bind. by rewrite IH.
Qed.

(** ** A takeover returns *)

#[local] Opaque scan_slot newest_gen read_bindings.

Section Takeover.
Context {I : Ipnet} {S : IpnetStr I} {T : Toml} {D : CgroupDirs}.

Lemma engine_bind_step {A B} (m : engineM A) (f : A -> engineM B) s a s1 :
  m s = (inr a, s1) -> engineM_bind A B f m s = f a s1.
Proof. intros Hm. unfold engineM_bind. by rewrite Hm. Qed.

Lemma kernel_quiet {A} (m : sensor A) {Hm : Quiet m} s :
  e_faults (pe_kernel s) = [] -> exists a, kernel m s = (inr a, s).
Proof.
  intros Hs. destruct (quiet_returns (pe_kernel s) Hs) as [a Ha]. exists a.
  unfold kernel, try_kernel, mbind, engineM_bind. rewrite Ha. by destruct s.
Qed.

Lemma read_slots_quiet s active :
  e_faults (pe_kernel s) = [] -> m_active_slot (e_maps (pe_kernel s)) = Some active ->
  exists k, read_slots s = (inr (Z.land active 1), with_kernel k s) /\ e_faults k = [] /\
    scanned (e_maps (pe_kernel s)) k.
Proof.
  intros Hs Ha.
  assert (exists k, read_slots s = (inr (Z.land active 1), with_kernel k s) /\ e_faults k = [])
    as (k & Hk & Hf).
  { unfold read_slots, mbind. erewrite engine_bind_step.
    2:{ unfold kernel, try_kernel, mbind, engineM_bind. by rewrite (read_active_quiet _ active). }
    erewrite engine_bind_step by done.
    match goal with |- context [engineM_bind _ _ _ (kernel (scan_slot 0)) ?x] =>
      set (s1 := x) end.
    destruct (kernel_quiet (scan_slot 0) s1 Hs) as [c0 H0].
    destruct (kernel_quiet (scan_slot 1) s1 Hs) as [c1 H1].
    rewrite (engine_bind_step _ _ _ _ _ H0), (engine_bind_step _ _ _ _ _ H1).
    by eexists. }
  exists k. split; [done|]. split; [done|].
  apply read_slots_inr in Hk as (k' & Hsc & Hk'). by injection Hk' as ->.
Qed.

(** What an undisturbed takeover makes of the engine. *)
Lemma adopt_quiet s active :
  e_faults (pe_kernel s) = [] -> m_active_slot (e_maps (pe_kernel s)) = Some active ->
  exists gen k, scanned (e_maps (pe_kernel s)) k /\
  adopt s =
    (inr (bool_decide (is_Some (load_state s))),
     persist (reparse
       match load_state s with
       | Some st => restore st gen (with_kernel k s)
       | None => keep_bindings
           (prod_map id bind_profile <$> map_to_list (m_cgroup_profile (e_maps (pe_kernel s))))
           (with_kernel k s)
       end)).
Proof.
  intros Hs Ha. destruct (read_slots_quiet s active Hs Ha) as (k & Hr & Hk & Hsc).
  assert (exists gen, kernel_generation (Z.land active 1) (with_kernel k s) =
    (inr gen, with_kernel k s)) as [gen Hgen].
  { unfold kernel_generation, mbind. destruct (kernel_quiet open_map (with_kernel k s) Hk) as [[] Ho].
    erewrite engine_bind_step by exact Ho.
    erewrite engine_bind_step by done. apply kernel_quiet; [apply _|done]. }
  exists gen, (if load_state s then k else set_generation gen k).
  split; [destruct (load_state s); [done|by apply scanned_generation]|]. unfold adopt, mbind.
  rewrite (engine_bind_step _ _ _ _ _ Hr), (engine_bind_step _ _ _ _ _ Hgen).
  erewrite engine_bind_step by done.
  change (load_state (with_kernel k s)) with (load_state s). destruct (load_state s); [done|].
  set (k' := set_generation gen k). assert (e_faults k' = []) as Hk' by done.
  assert (kernel_bindings (with_kernel k' s) =
    (inr (prod_map id bind_profile <$> map_to_list (m_cgroup_profile (e_maps (pe_kernel s)))),
     with_kernel k' s)) as Hb.
  { unfold kernel_bindings, mbind. destruct (kernel_quiet open_map (with_kernel k' s) Hk') as [[] Ho].
    erewrite engine_bind_step by exact Ho.
    unfold kernel, try_kernel, mbind, engineM_bind, sensor_bind, get. cbn [with_kernel pe_kernel].
    rewrite read_bindings_quiet by done. cbn. by rewrite (sn_maps _ _ Hsc). }
  erewrite engine_bind_step; [done|].
  rewrite (engine_bind_step _ _ _ tt (with_kernel k' s)) by done.
  by rewrite (engine_bind_step _ _ _ _ _ Hb).
Qed.

End Takeover.

(** ** With the state file *)

Section Restored.
Context {I : Ipnet} {S : IpnetStr I} {T : Toml}.
Context {L : IpnetLaws I} {SL : IpnetStrLaws I S} {TL : TomlLaws T}.

Lemma synced_loads s :
  synced s -> sf_set (pe_store s) = true -> sf_epoch (pe_store s) <> EmptyString ->
  load_state s = Some (engine_state s).
Proof.
  intros Hs Hset He. unfold load_state. rewrite Hset, bool_decide_false, (Hs Hset) by done. cbn.
  by rewrite decide_True.
Qed.

(** C9. A new process takes over a running sensor: if the state file was written last and
    belongs to the pin set, it has the policy, the profile ids, the bindings, the
    quarantine and the policy texts of the process before it, does not change the maps,
    and goes on from a generation that is not older. *)
Theorem restart_restores_engine {D : CgroupDirs} (seen : Os -> Prop) s0 s policy lsm_active
    allow_delegated :
  fresh s0 -> slots_recorded s0 -> rtc (process_step seen) s0 s ->
  pe_policy s = Some policy -> synced s ->
  sf_set (pe_store s) = true -> sf_epoch (pe_store s) <> EmptyString ->
  exists s',
    adopt (new_engine (e_maps (pe_kernel s)) [] lsm_active allow_delegated (pe_store s)) =
      (inr true, s') /\
    e_maps (pe_kernel s') = e_maps (pe_kernel s) /\
    e_active_slot (pe_kernel s') = e_active_slot (pe_kernel s) /\
    e_generation (pe_kernel s) <= e_generation (pe_kernel s') /\
    pe_policy s' = Some policy /\ pe_ids s' = pe_ids s /\ pe_bindings s' = pe_bindings s /\
    pe_quarantined s' = pe_quarantined s /\ pe_dynamic s' = pe_dynamic s /\
    pe_adopted s' = pe_adopted s /\ pe_text s' = pe_text s /\
    pe_previous_text s' = pe_previous_text s /\ synced s'.
Proof using L SL TL.
  intros Hf Hrec Hr Hpol Hsy Hset He.
  destruct (reachable_running seen s0 s Hf Hrec Hr) as (Hs & [_ Hsv] & _).
  destruct (Hsv policy Hpol) as (O & text & ids & gen0 & c & x & f & sk & _ & _ & Hp & Ht & _).
  assert (engine_ok (pe_kernel s)) as [Hm Hact Hslot _ _] by (by apply sound_prior).
  destruct (adopt_quiet (new_engine (e_maps (pe_kernel s)) [] lsm_active allow_delegated (pe_store s))
    (e_active_slot (pe_kernel s)) eq_refl Hact) as (gen & k & Hsc & Had).
  change (load_state (new_engine _ _ _ _ _)) with (load_state s) in Had.
  rewrite (synced_loads s Hsy Hset He) in Had.
  unfold reparse in Had. cbn [restore engine_state pe_text pe_ids es_text es_ids] in Had.
  rewrite Ht, (parse_again _ _ _ _ Hp) in Had. eexists. split; [exact Had|].
  destruct (scanned_engine_ok _ _ _ Hsc Hm Hact Hslot) as [_ Ea]. pose proof (sn_maps _ _ Hsc) as Em.
  unfold persist. cbn. rewrite Hset. cbn. split_and!; try done. lia.
Qed.

End Restored.

(** ** Without it *)

Section Kept.
Context {I : Ipnet} {S : IpnetStr I} {T : Toml} {O : Os} {C : CgroupFs} {D : CgroupDirs}.
Context {L : IpnetLaws I} {SL : IpnetStrLaws I S} {TL : TomlLaws T}.

(** The path recorded for a bound cgroup. *)
Definition found_path (maps : policy_maps) (id : Z) : string :=
  default EmptyString (cgroup_paths (dom (m_cgroup_profile maps)) !! id).

Lemma read_back (m : gmap Z rk_binding) :
  (list_to_map (prod_map id bind_profile <$> map_to_list m) : gmap Z Z) = bind_profile <$> m.
Proof using. by rewrite list_to_map_fmap, list_to_map_to_list. Qed.

Lemma keep_bindings_lookup maps s id :
  let s' := keep_bindings (prod_map Datatypes.id bind_profile <$>
    map_to_list (m_cgroup_profile maps)) s in
  pe_adopted s' = pe_bindings s' /\
  pe_bindings s' !! id =
    (fun b => (found_path maps id, bind_profile b)) <$> m_cgroup_profile maps !! id.
Proof using.
  cbn. rewrite read_back. split; [done|].
  rewrite map_lookup_imap, lookup_fmap, dom_fmap_L. by destruct (m_cgroup_profile maps !! id).
Qed.

(** The maps a sensor leaves behind. *)
Record left_behind (maps : policy_maps) (active : Z) : Prop := mk_left_behind {
  lb_maps : maps_ok maps;
  lb_active : m_active_slot maps = Some active;
  lb_slot : 0 <= active <= 1;
  lb_padding id b : m_cgroup_profile maps !! id = Some b -> bind_pad b = 0 }.

(** The engine of a process that took over without a usable state file. *)
Lemma takeover_without_state maps active lsm_active allow_delegated store :
  let s := new_engine maps [] lsm_active allow_delegated store in
  left_behind maps active -> load_state s = None ->
  exists s1, adopt s = (inr false, s1) /\ prior s1 /\ e_maps (pe_kernel s1) = maps /\
    pe_dynamic s1 = ∅ /\ pe_quarantined s1 = ∅ /\ pe_adopted s1 = pe_bindings s1 /\
    forall id, pe_bindings s1 !! id =
      (fun b => (found_path maps id, bind_profile b)) <$> m_cgroup_profile maps !! id.
Proof.
  intros s [Hm Hact Hslot Hpad] Hl.
  destruct (adopt_quiet s active eq_refl Hact) as (gen & k & Hsc & Had).
  rewrite Hl in Had. eexists. split; [exact Had|].
  cbn [s new_engine pe_kernel e_maps] in Hsc |- *.
  set (s2 := keep_bindings _ _).
  assert (forall id, pe_bindings s2 !! id =
    (fun b => (found_path maps id, bind_profile b)) <$> m_cgroup_profile maps !! id) as Hlk
    by (intros id; by apply keep_bindings_lookup).
  destruct (scanned_engine_ok _ _ _ Hsc Hm Hact Hslot) as [Hok _].
  assert (records (pe_bindings s2) (pe_kernel s2)) as Hbound.
  { intros id e. rewrite Hlk. intros (b & Hb & ->)%fmap_Some. cbn. rewrite (sn_maps _ _ Hsc).
    split; [by eapply Hm|]. rewrite Hb. unfold binding_value. rewrite <- (Hpad id b Hb). by destruct b. }
  assert (prior s2) as Hpr.
  { split_and!; [done|done|done| |by intros ? []%not_elem_of_empty].
    intros id e He. by apply (Hbound id e). }
  change (reparse s2) with s2. pose proof (sn_maps _ _ Hsc) as Em.
  unfold persist. destruct (sf_set (pe_store s2)); by split_and!.
Qed.

Lemma prior_begin faults s : prior s -> prior (begin faults s).
Proof using. intros (Hk & H). split; [by destruct Hk|exact H]. Qed.

(** C10. A process takes over maps without a usable state file: it succeeds, changes no
    binding, and records each binding of the kernel; and when it then applies a policy,
    every cgroup that may still exist and that the policy does not bind itself keeps the
    binding it had in the kernel. *)
Theorem lost_state_keeps_bindings maps active lsm_active allow_delegated store text :
  let s := new_engine maps [] lsm_active allow_delegated store in
  left_behind maps active -> load_state s = None ->
  exists s1, adopt s = (inr false, s1) /\ e_maps (pe_kernel s1) = maps /\
  (forall id b, m_cgroup_profile maps !! id = Some b ->
     pe_bindings s1 !! id = Some (found_path maps id, bind_profile b)) /\
  forall s2 policy id b,
    apply_text text (begin [] s1) = (inr tt, s2) -> pe_policy s2 = Some policy ->
    m_cgroup_profile maps !! id = Some b -> cgroup_alive (found_path maps id) id = true ->
    (forall bd meta, bd ∈ po_bindings policy -> cg_stat (b_cgroup bd) = inr meta ->
       cm_ino meta <> id) ->
    m_cgroup_profile (e_maps (pe_kernel s2)) !! id = Some b.
Proof using All.
  intros s Hlb Hl.
  destruct (takeover_without_state maps active lsm_active allow_delegated store Hlb Hl)
    as (s1 & Had & Hpr & Em & Hd & Hq & Hab & Hlk).
  exists s1. split; [done|]. split; [done|]. split; [intros id b Hb; by rewrite Hlk, Hb|].
  intros s2 policy id b Hap Hpol Hb Hal Hfree.
  pose proof (apply_text_spec text (begin [] s1) (prior_begin [] s1 Hpr) eq_refl) as Hspec.
  unfold ewp in Hspec. rewrite Hap in Hspec. destruct Hspec as [[[Hg _] _] Hkept].
  assert (pe_bindings s1 !! id = Some (found_path maps id, bind_profile b)) as Hid
    by (by rewrite Hlk, Hb).
  destruct (g_bound s2 Hg id (found_path maps id, bind_profile b)) as [_ ->].
  - apply (Hkept policy); cbn; try done. by rewrite Hab.
  - f_equal. unfold binding_value. cbn. rewrite <- (lb_padding _ _ Hlb id b Hb). by destruct b.
Qed.

End Kept.

(** ** A replaced pin set *)

Section Migrated.
Context {I : Ipnet} {S : IpnetStr I} {T : Toml} {O : Os} {C : CgroupFs}.
Context {L : IpnetLaws I} {SL : IpnetStrLaws I S} {TL : TomlLaws T}.

Lemma ewp_any {A} (m : engineM A) s : ewp m (fun _ _ => True) (fun _ => True) s.
Proof using. unfold ewp. by destruct (m s) as [[e|a] s']. Qed.

Lemma publish_bindings_synced wanted s :
  ewp (publish_bindings wanted) (fun _ => synced) (fun _ => True) s.
Proof using All.
  unfold publish_bindings. apply ewp_bind, ewp_catch. eapply ewp_mono; [apply ewp_any| |].
  - intros [] s' _. apply ewp_bind, ewp_update, publish_synced, persist_synced.
  - intros s' _ e. by apply ewp_bind, ewp_update, ewp_throw.
Qed.

(** What a successful apply records, whatever the engine was. *)
Lemma apply_text_records text s :
  ewp (apply_text text) (fun _ s' => exists policy,
    parse text (pe_ids s) = (inr policy, pe_ids s') /\ pe_policy s' = Some policy /\
    pe_text s' = Some text /\ synced s') (fun _ => True) s.
Proof using All.
  unfold apply_text. apply ewp_bind, ewp_ask. destruct (parse text (pe_ids s)) as [r ids] eqn:Hp.
  apply ewp_bind, ewp_attempt; [done|]. intros policy ->.
  apply ewp_bind, ewp_check_capabilities; [done|].
  do 2 (apply ewp_bind, ewp_attempt; [done|]; intros ? ?).
  apply ewp_bind, ewp_attempt; [done|]. intros [wanted stale] _.
  destruct (add_adopted _ _ _) as [wanted' kept].
  apply ewp_bind, ewp_attempt; [done|]. intros exec _.
  apply ewp_bind, ewp_attempt; [done|]. intros [files skipped] _.
  apply ewp_bind. eapply ewp_mono; [apply ewp_any| |done]. intros [] s1 _.
  apply ewp_bind, ewp_update.
  destruct (record_policy_fields ids policy text stale kept s1) as (_ & Ep & Et & Ei).
  eapply ewp_mono; [apply ewp_steady, publish_bindings_synced; apply _| |done].
  intros [] s' [Hsy (_ & Hpol & Htx & Hi)]. exists policy. split_and!; [congruence..|done].
Qed.

(** A migration that returns true applied the text of the old pin set's state with the old
    profile ids: a name keeps its number, so the runtime bindings it carries name the same
    profiles; the text a rollback would apply is carried over too. *)
Lemma migration_keeps_profiles old_epoch s s' :
  migrate old_epoch s = (inr true, s') ->
  exists st text policy,
    load_state (with_store (mk_StateFile (sf_set (pe_store s)) old_epoch (sf_content (pe_store s))) s) =
      Some st /\
    es_text st = Some text /\ parse text (es_ids st) = (inr policy, pe_ids s') /\
    pe_policy s' = Some policy /\ pe_text s' = Some text /\
    pe_previous_text s' = es_previous_text st /\ synced s' /\
    (ids_ok (es_ids st) -> forall name id,
       pi_ids (es_ids st) !! name = Some id -> pi_ids (pe_ids s') !! name = Some id).
Proof using All.
  unfold migrate. intros (s0 & s1 & [-> ->]%ask_inr & H)%engine_bind_inr.
  destruct (load_state _) as [st|] eqn:Hl; [|done].
  destruct (es_text st) as [text|] eqn:Ht; [|done].
  apply engine_bind_inr in H as ([] & s2 & ->%update_inr & H).
  apply engine_bind_inr in H as ([] & s3 & Hap & H).
  apply engine_bind_inr in H as ([] & s4 & ->%update_inr & H).
  apply engine_bind_inr in H as ([] & s5 & ->%update_inr & [= <-]).
  set (s2 := mk_pengine _ _ _ _ _ _ _ _ _ _ _ _ _) in Hap.
  pose proof (apply_text_records text s2) as Hrec. unfold ewp in Hrec. rewrite Hap in Hrec.
  destruct Hrec as (policy & Hp & Hpol & Htx & _). cbn [s2 pe_ids] in Hp.
  set (s5 := mk_pengine _ _ _ _ _ _ _ _ _ _ _ _ _).
  assert (forall A (f : pengine -> A), (forall x y, f (with_store x y) = f y) -> f (persist s5) = f s5)
    as Hf by (intros A f Hf; unfold persist; destruct (sf_set (pe_store s5)); [apply Hf|done]).
  rewrite (Hf _ pe_ids), (Hf _ pe_policy), (Hf _ pe_text), (Hf _ pe_previous_text) by done.
  exists st, text, policy. split_and!; try done; [apply persist_synced|].
  intros Hids name id Hn. destruct (ids_grow text (es_ids st) Hids) as [_ Hsub].
  rewrite Hp in Hsub. by eapply lookup_weaken.
Qed.

End Migrated.
