(* ===== verification/Preview.v ===== *)
(** * The dry run ([rk-sensor/src/policy.rs])

    [dry_run] says what an apply would do without touching the kernel or creating a
    cgroup; an apply then ends the same way, with the same error or the generation that
    was announced. *)

From stdpp Require Import sorting.
From S2P Require Import Prelude Text Identity Abi Bpf Lpm Scenario Logic Common Governance.
From S2P Require Import Levels Net Exec File Guard Object Enforcement Ipnet Addr Policy.
From S2P Require Import Cidr Parse Flatten Reload Apply Resolve Engine Deploy Validated.
From S2P Require Import Bindings Steady Runtime Adopt Restart.
Open Scope string_scope.
Open Scope list_scope.
Open Scope Z_scope.

(** Whether a path below the cgroup root is a directory. *)
Class CgroupLook := cg_is_dir : string -> bool.

(** The report, without the list of changes against the active policy. *)
Record DryRun : Set := mk_DryRun {
  dr_generation : Z; dr_profiles : nat; dr_deny_entries : nat; dr_allow_entries : nat;
  dr_exec_entries : nat; dr_file_entries : nat; dr_skipped_files : list string;
  dr_cgroups_to_create : list string }.

Section Preview.
Context {I : Ipnet} {S : IpnetStr I} {T : Toml} {O : Os} {W : CgroupLook}.

(** The static bindings whose cgroup is there. *)
Fixpoint present_bindings {C : CgroupFs} (out : gmap Z (string * Z)) (bindings : list Binding)
    : EngineError + gmap Z (string * Z) :=
  match bindings with
  | [] => inr out
  | b :: bindings =>
      if negb (cg_is_dir (b_cgroup b)) then present_bindings out bindings
      else
        match cg_stat (b_cgroup b) with
        | inl _ => inl (CgroupIo (b_cgroup b))
        | inr meta =>
            present_bindings (<[cm_ino meta := (b_cgroup b, b_profile b)]> out) bindings
        end
  end.

Definition missing (b : Binding) : Prop := cg_is_dir (b_cgroup b) = false.

#[export] Instance missing_dec b : Decision (missing b).
Proof. unfold missing. apply _. Defined.

#[local] Existing Instances engineM_ret engineM_bind.

Definition dry_run {C : CgroupFs} (text : string) : engineM DryRun :=
  s ← ask (fun s => s);
  let '(r, _) := parse text (pe_ids s) in
  policy ← attempt PolicyErr r;
  check_capabilities policy;;
  let generation := u64 (e_generation (pe_kernel s) + 1) in
  compiled ← attempt PolicyErr (compile policy generation);
  static ← attempt (fun e => e) (present_bindings ∅ (po_bindings policy));
  '(wanted, _) ← attempt (fun e => e)
    (add_dynamic policy static [] (sorted_list (pe_dynamic s)));
  let '(wanted, _) := add_adopted wanted ∅ (sorted_list (pe_adopted s)) in
  exec ← attempt ResolveErr (resolve_exec (co_exec compiled));
  '(files, skipped) ← attempt ResolveErr (resolve_files (co_files compiled));
  let create := b_cgroup <$> filter missing (po_bindings policy) in
  if negb (check_capacity (written (pe_kernel s) (e_active_slot (pe_kernel s)))
             (length (co_deny compiled)) (length (co_allow compiled)) (length exec)
             (length files) (size wanted + length create))
  then throw KernelErr
  else mret (mk_DryRun generation (length (co_profiles compiled)) (length (co_deny compiled))
    (length (co_allow compiled)) (length exec) (length files) skipped create).

End Preview.

(** ** The cgroups an apply creates *)

Section Created.
Context {I : Ipnet} {W : CgroupLook} (C0 C1 : CgroupFs).

(** How the cgroup tree of the apply, [C1], differs from the one the dry run saw, [C0]:
    missing cgroups can be created, with ids that are on record for no other, and nothing
    else changed. *)
Record only_creates (bindings : list Binding) (s : pengine) : Prop := mk_only_creates {
  oc_created b : b ∈ bindings -> cg_create (CgroupFs:=C1) (b_cgroup b) = true;
  oc_there b : b ∈ bindings -> ~ missing b ->
    cg_stat (CgroupFs:=C1) (b_cgroup b) = cg_stat (CgroupFs:=C0) (b_cgroup b);
  oc_new b : b ∈ bindings -> missing b -> exists meta,
    cg_stat (CgroupFs:=C1) (b_cgroup b) = inr meta /\
    pe_dynamic s !! cm_ino meta = None /\ pe_adopted s !! cm_ino meta = None;
  oc_distinct b b' meta meta' : b ∈ bindings -> b' ∈ bindings ->
    cg_stat (CgroupFs:=C1) (b_cgroup b) = inr meta ->
    cg_stat (CgroupFs:=C1) (b_cgroup b') = inr meta' ->
    cm_ino meta = cm_ino meta' -> b_cgroup b = b_cgroup b';
  oc_alive id path : (exists profile, pe_dynamic s !! id = Some (path, profile)) \/
      (exists profile, pe_adopted s !! id = Some (path, profile)) ->
    cgroup_alive (C:=C1) path id = cgroup_alive (C:=C0) path id }.

(** What the bindings resolved so far say. *)
Definition resolved_from (bindings : list Binding) (dir : bool) (out : gmap Z (string * Z)) : Prop :=
  forall id e, out !! id = Some e -> exists b meta, b ∈ bindings /\ e.1 = b_cgroup b /\
    cg_is_dir (b_cgroup b) = dir /\ cg_stat (CgroupFs:=C1) (b_cgroup b) = inr meta /\
    cm_ino meta = id.

Lemma resolved_insert bindings dir out b meta v :
  resolved_from bindings dir out -> b ∈ bindings -> cg_is_dir (b_cgroup b) = dir ->
  cg_stat (CgroupFs:=C1) (b_cgroup b) = inr meta ->
  resolved_from bindings dir (<[cm_ino meta := (b_cgroup b, v)]> out).
Proof.
  intros Hr Hb Hd Hst id e [[<- <-]|[_ He]]%lookup_insert_Some; [by exists b, meta|by apply Hr].
Qed.

(** The apply resolves the same bindings and those of the cgroups it creates. *)
Lemma resolve_present all bindings : forall out extra s,
  only_creates all s -> (forall b, b ∈ bindings -> b ∈ all) ->
  NoDup (b_cgroup <$> bindings) ->
  (forall b id e, b ∈ bindings -> extra !! id = Some e -> e.1 <> b_cgroup b) ->
  resolved_from all true out -> resolved_from all false extra ->
  match present_bindings (C:=C0) out bindings with
  | inl e => resolve_bindings (C:=C1) (out ∪ extra) bindings = inl e
  | inr static => exists extra',
      resolve_bindings (C:=C1) (out ∪ extra) bindings = inr (static ∪ extra') /\
      resolved_from all true static /\ resolved_from all false extra' /\
      size extra' = (size extra + length (filter missing bindings))%nat
  end.
Proof.
  induction bindings as [|b bindings IH]; intros out extra s Hoc Hall Hnd Hfree Ho Hx.
  { exists extra. split_and!; try done; cbn; lia. }
  cbn in Hnd. apply NoDup_cons in Hnd as [Hb Hnd].
  assert (b ∈ all) as Hin by (apply Hall; left).
  cbn [present_bindings resolve_bindings]. rewrite (oc_created _ _ Hoc b Hin). cbn [negb].
  destruct (cg_is_dir (b_cgroup b)) eqn:Hdir; cbn [negb].
  - assert (~ missing b) as Hm by (unfold missing; congruence).
    rewrite (oc_there _ _ Hoc b Hin Hm), filter_cons, decide_False by done.
    destruct (cg_stat (b_cgroup b)) as [e|meta] eqn:Hst; [done|].
    rewrite <- (oc_there _ _ Hoc b Hin Hm) in Hst. rewrite insert_union_l.
    eapply IH; [done|intros ? ?; apply Hall; by right|done| | |done].
    + intros b' id e Hb'. apply Hfree. by right.
    + by apply resolved_insert.
  - destruct (oc_new _ _ Hoc b Hin Hdir) as (meta & Hst & _).
    rewrite Hst, filter_cons, decide_True by done.
    assert (out !! cm_ino meta = None) as Hno.
    { destruct (out !! cm_ino meta) as [e|] eqn:He; [|done].
      destruct (Ho _ _ He) as (b' & meta' & Hb' & _ & Hd' & Hst' & Heq).
      rewrite (oc_distinct _ _ Hoc b b' meta meta') in Hdir by done. congruence. }
    assert (extra !! cm_ino meta = None) as Hnx.
    { destruct (extra !! cm_ino meta) as [e|] eqn:He; [|done].
      destruct (Hx _ _ He) as (b' & meta' & Hb' & Heq' & _ & Hst' & Heq).
      destruct (Hfree b _ _ ltac:(left) He). rewrite Heq'. symmetry.
      by apply (oc_distinct _ _ Hoc b b' meta meta'). }
    rewrite insert_union_r by done.
    opose proof (IH out (<[cm_ino meta := (b_cgroup b, b_profile b)]> extra) s Hoc _ Hnd _ Ho _) as H.
    + intros ? ?. apply Hall. by right.
    + intros b' id e' Hb' [[<- <-]|[_ He']]%lookup_insert_Some; cbn; [|eapply Hfree; [by right|done]].
      intros Heq. apply Hb. rewrite Heq. by apply list_elem_of_fmap_2.
    + by apply resolved_insert.
    + destruct (present_bindings out bindings) as [e|static]; [exact H|].
      destruct H as (extra' & Hr & Hs1 & Hs2 & Hsize). exists extra'. split_and!; try done.
      rewrite Hsize, map_size_insert_None by done. cbn. lia.
Qed.

Lemma resolved_disjoint all out extra s :
  only_creates all s -> resolved_from all true out -> resolved_from all false extra ->
  out ##ₘ extra.
Proof.
  intros Hoc Ho Hx. apply map_disjoint_spec. intros id e e' He He'.
  destruct (Ho _ _ He) as (b & meta & Hb & _ & Hd & Hst & Hid).
  destruct (Hx _ _ He') as (b' & meta' & Hb' & _ & Hd' & Hst' & Hid').
  rewrite (oc_distinct _ _ Hoc b b' meta meta') in Hd by congruence. congruence.
Qed.

Lemma created_unrecorded all extra s id :
  only_creates all s -> resolved_from all false extra -> is_Some (extra !! id) ->
  pe_dynamic s !! id = None /\ pe_adopted s !! id = None.
Proof.
  intros Hoc Hx [e He]. destruct (Hx _ _ He) as (b & meta & Hb & _ & Hd & Hst & <-).
  destruct (oc_new _ _ Hoc b Hb Hd) as (meta' & Hst' & ? & ?). rewrite Hst in Hst'.
  by injection Hst' as ->.
Qed.

(** Created cgroups do not interfere with the runtime bindings. *)
Lemma add_dynamic_created policy extra dynamic : forall wanted stale,
  wanted ##ₘ extra ->
  (forall id path profile, (id, (path, profile)) ∈ dynamic -> extra !! id = None /\
     cgroup_alive (C:=C1) path id = cgroup_alive (C:=C0) path id) ->
  match add_dynamic (C:=C0) policy wanted stale dynamic with
  | inl e => add_dynamic (C:=C1) policy (wanted ∪ extra) stale dynamic = inl e
  | inr (w, st) =>
      add_dynamic (C:=C1) policy (wanted ∪ extra) stale dynamic = inr (w ∪ extra, st) /\ w ##ₘ extra
  end.
Proof.
  induction dynamic as [|[id [path profile]] dynamic IH]; intros wanted stale Hd Hall; [done|].
  destruct (Hall id path profile ltac:(left)) as [Hx Ha]. cbn [add_dynamic]. rewrite Ha.
  assert (forall id path profile, (id, (path, profile)) ∈ dynamic -> extra !! id = None /\
    cgroup_alive (C:=C1) path id = cgroup_alive (C:=C0) path id) as Hrest
    by (intros ? ? ? ?; eapply Hall; by right).
  destruct (negb _); [by apply IH|]. destruct (profile_named policy profile) as [pid|]; [|done].
  assert ((wanted ∪ extra) !! id = wanted !! id) as Hl
    by (rewrite lookup_union, Hx; by destruct (wanted !! id)).
  rewrite Hl. case_decide; [done|]. rewrite insert_union_l. apply IH; [|done].
  by apply map_disjoint_insert_l.
Qed.

Lemma add_adopted_created extra adopted : forall wanted kept,
  wanted ##ₘ extra ->
  (forall id path profile, (id, (path, profile)) ∈ adopted -> extra !! id = None /\
     cgroup_alive (C:=C1) path id = cgroup_alive (C:=C0) path id) ->
  add_adopted (C:=C1) (wanted ∪ extra) kept adopted =
    ((add_adopted (C:=C0) wanted kept adopted).1 ∪ extra, (add_adopted (C:=C0) wanted kept adopted).2) /\
  (add_adopted (C:=C0) wanted kept adopted).1 ##ₘ extra.
Proof.
  induction adopted as [|[id [path profile]] adopted IH]; intros wanted kept Hd Hall; [done|].
  destruct (Hall id path profile ltac:(left)) as [Hx Ha]. cbn [add_adopted]. rewrite Ha.
  assert (forall id path profile, (id, (path, profile)) ∈ adopted -> extra !! id = None /\
    cgroup_alive (C:=C1) path id = cgroup_alive (C:=C0) path id) as Hrest
    by (intros ? ? ? ?; eapply Hall; by right).
  assert ((wanted ∪ extra) !! id = wanted !! id) as Hl
    by (rewrite lookup_union, Hx; by destruct (wanted !! id)).
  rewrite Hl. destruct (_ || _); [by apply IH|]. rewrite insert_union_l. apply IH; [|done].
  by apply map_disjoint_insert_l.
Qed.

End Created.

(** ** An apply whose map calls do not fail *)

(** It returns, and goes on without failures in the same generation. *)
Definition goes_on (g : Z) (k : engine) : Prop := e_faults k = [] /\ e_generation k = g.

Lemma syscall_goes_on f g k :
  goes_on g k -> exists k', syscall f k = (Some true, k') /\ goes_on g k'.
Proof.
  intros [Hf Hg]. unfold syscall. rewrite Hf. eexists. split; [done|]. split; cbn; [by rewrite Hf|done].
Qed.

Lemma open_map_goes_on g k :
  goes_on g k -> exists k', open_map k = (Some tt, k') /\ goes_on g k'.
Proof.
  intros [Hf Hg]. unfold open_map. rewrite Hf. eexists. split; [done|]. split; cbn; [by rewrite Hf|done].
Qed.

Lemma remove_goes_on (ids : list Z) g : forall k,
  goes_on g k -> exists k',
  for_each (fun id => ignore (on_bindings (delete id))) ids k = (Some tt, k') /\ goes_on g k'.
Proof.
  induction ids as [|id ids IH]; intros k Hk; [by exists k|]. cbn [for_each].
  destruct (syscall_goes_on (on_bindings (delete id)) g k Hk) as (k1 & Hs & Hk1).
  unfold ignore, mbind, sensor_bind. rewrite Hs. by apply IH.
Qed.

Lemma write_goes_on current wanted g : forall applied k,
  goes_on g k -> exists applied' k',
  write_bindings current applied true wanted k = (Some (applied', true), k') /\ goes_on g k'.
Proof.
  induction wanted as [|[id e] wanted IH]; intros applied k Hk; [by exists applied, k|].
  cbn [write_bindings]. unfold write_binding, mbind, sensor_bind. case_decide; [by apply IH|].
  destruct (syscall_goes_on (on_bindings (fun t => <[id := binding_value e.2]> t)) g k Hk)
    as (k1 & Hs & Hk1).
  rewrite Hs. by apply IH.
Qed.

Section Predicted.
Context {I : Ipnet} {S : IpnetStr I} {T : Toml} {O : Os} {W : CgroupLook}.
Context {L : IpnetLaws I} {SL : IpnetStrLaws I S} {TL : TomlLaws T}.

Definition engine_on (g : Z) (s : pengine) : Prop := goes_on g (pe_kernel s).

Lemma kernel_goes_on {C : CgroupFs} {A} (m : sensor A) g s (Q : A -> pengine -> Prop) E :
  (exists a k, m (pe_kernel s) = (Some a, k) /\ goes_on g k /\
     forall s', s' = with_kernel k s -> engine_on g s' -> Q a s') ->
  ewp (kernel m) Q E s.
Proof using All. intros (a & k & Hm & Hk & HQ). apply ewp_kernel. rewrite Hm. by apply HQ. Qed.

Lemma sync_bindings_goes_on {C : CgroupFs} wanted g s :
  engine_on g s -> ewp (sync_bindings wanted) (fun _ => engine_on g) (fun _ => False) s.
Proof using All.
  intros Hs. unfold sync_bindings. apply ewp_bind, ewp_ask.
  destruct (hold_quarantine _ _ _) as [wanted' q]. apply ewp_bind, ewp_update.
  apply ewp_bind, (kernel_goes_on _ g). destruct (open_map_goes_on g _ Hs) as (k1 & H1 & Hk1).
  exists tt, k1. split; [done|]. split; [done|]. intros s1 -> _.
  apply ewp_bind, (kernel_goes_on _ g).
  destruct (remove_goes_on (filter (fun id => wanted' !! id = None) (sorted_list (pe_bindings s)).*1) g k1 Hk1)
    as (k2 & H2 & Hk2).
  exists tt, k2. split; [done|]. split; [done|]. intros s2 -> _.
  apply ewp_bind, (kernel_goes_on _ g).
  destruct (write_goes_on (pe_bindings s) (sorted_list wanted') g ∅ k2 Hk2) as (applied & k3 & H3 & Hk3).
  exists (applied, true), k3. split; [done|]. split; [done|]. intros s3 -> _.
  by apply ewp_bind, ewp_update, ewp_ret.
Qed.

Lemma publish_bindings_goes_on {C : CgroupFs} wanted g s :
  engine_on g s ->
  ewp (publish_bindings wanted) (fun _ s' => e_generation (pe_kernel s') = g) (fun _ => False) s.
Proof using All.
  intros Hs. unfold publish_bindings. apply ewp_bind, ewp_catch.
  eapply ewp_mono; [by apply sync_bindings_goes_on| |done].
  intros [] s1 [_ H1]. apply ewp_bind, ewp_update, publish_kernel_only. intros k Hk. cbn. rewrite Hk, <- H1.
  unfold persist. by destruct (sf_set _).
Qed.

Lemma check_capabilities_keeps policy s r s' : check_capabilities policy s = (r, s') -> s' = s.
Proof using.
  unfold check_capabilities, mbind, engineM_bind, ask. destruct (pe_lsm_active s); [by intros [= _ <-]|].
  destruct (head _); by intros [= _ <-].
Qed.

Lemma wanted_created (C0 C1 : CgroupFs) policy s :
  NoDup (b_cgroup <$> po_bindings policy) -> only_creates C0 C1 (po_bindings policy) s ->
  match present_bindings (C:=C0) ∅ (po_bindings policy) with
  | inl e => resolve_bindings (C:=C1) ∅ (po_bindings policy) = inl e
  | inr static0 => exists static1,
      resolve_bindings (C:=C1) ∅ (po_bindings policy) = inr static1 /\
      match add_dynamic (C:=C0) policy static0 [] (sorted_list (pe_dynamic s)) with
      | inl e => add_dynamic (C:=C1) policy static1 [] (sorted_list (pe_dynamic s)) = inl e
      | inr (w0, stale) => exists w1,
          add_dynamic (C:=C1) policy static1 [] (sorted_list (pe_dynamic s)) = inr (w1, stale) /\
          size (add_adopted (C:=C1) w1 ∅ (sorted_list (pe_adopted s))).1 =
            (size (add_adopted (C:=C0) w0 ∅ (sorted_list (pe_adopted s))).1 +
             length (filter missing (po_bindings policy)))%nat
      end
  end.
Proof using All.
  intros Hnd Hoc.
  opose proof (resolve_present C0 C1 (po_bindings policy) (po_bindings policy) ∅ ∅ s Hoc _ Hnd _ _ _) as Hr;
    [done|by intros ? ? ? ? ?%lookup_empty_Some|by intros ? ? ?%lookup_empty_Some..|].
  rewrite map_empty_union in Hr. destruct (present_bindings ∅ _) as [e|static0]; [done|].
  destruct Hr as (extra & -> & H0 & Hx & Hsize). exists (static0 ∪ extra). split; [done|].
  assert (forall id, is_Some (pe_dynamic s !! id) \/ is_Some (pe_adopted s !! id) ->
    extra !! id = None) as Hfree.
  { intros id Hid. destruct (extra !! id) eqn:He; [|done].
    destruct (created_unrecorded C0 C1 _ extra s id Hoc Hx) as [Hd Ha]; [by rewrite He|].
    rewrite Hd, Ha in Hid. by destruct Hid as [[]|[]]. }
  opose proof (add_dynamic_created C0 C1 policy extra (sorted_list (pe_dynamic s)) static0 [] _ _) as Hd.
  { exact (resolved_disjoint C0 C1 _ _ _ s Hoc H0 Hx). }
  { intros id path profile Hin%elem_of_sorted_list. split; [apply Hfree; left; by eexists|].
    apply (oc_alive _ _ _ _ Hoc). left. by exists profile. }
  destruct (add_dynamic policy static0 _ _) as [e|[w0 stale]]; [done|]. destruct Hd as [-> Hdisj].
  exists (w0 ∪ extra). split; [done|].
  opose proof (add_adopted_created C0 C1 extra (sorted_list (pe_adopted s)) w0 ∅ Hdisj _) as [-> Ha].
  { intros id path profile Hin%elem_of_sorted_list. split; [apply Hfree; right; by eexists|].
    apply (oc_alive _ _ _ _ Hoc). right. by exists profile. }
  cbn [fst]. rewrite map_size_disj_union, Hsize, map_size_empty by done. done.
Qed.

Lemma ewp_returns {A} (m : engineM A) (Q : A -> pengine -> Prop) s :
  ewp m Q (fun _ => False) s -> exists a s', m s = (inr a, s') /\ Q a s'.
Proof using. unfold ewp. destruct (m s) as [[e|a] s']; [done|]. intros HQ. by exists a, s'. Qed.

Lemma kernel_fails {A} (m : sensor A) s :
  (m (pe_kernel s)).1 = None -> exists s', kernel m s = (inl KernelErr, s').
Proof using.
  unfold kernel, try_kernel, mbind, engineM_bind. destruct (m (pe_kernel s)) as [r k].
  intros [= ->]. by eexists.
Qed.

(** From the capacity check on. *)
Lemma apply_rest {C : CgroupFs} policy generation c exec files skipped n ids text stale kept wanted s :
  engine_ok (pe_kernel s) -> e_faults (pe_kernel s) = [] -> policy_ids_ok policy ->
  compile policy generation = inr c -> resolve_exec (co_exec c) = inr exec ->
  resolve_files (co_files c) = inr (files, skipped) ->
  check_capacity (written (pe_kernel s) (e_active_slot (pe_kernel s))) (length (co_deny c))
    (length (co_allow c)) (length exec) (length files) n = true ->
  ewp (engineM_bind _ _ (fun _ => engineM_bind _ _ (fun _ => publish_bindings wanted)
         (update (record_policy ids policy text stale kept)))
       (kernel (apply_compiled c exec files n)))
    (fun _ s' => e_generation (pe_kernel s') = generation) (fun _ => False) s.
Proof using All.
  intros Hk Hf Hpok Hc Hx Hfl Hcap. assert (input_ok c exec files) as Hin by (by eapply compiled_input).
  destruct (apply_does (pe_kernel s) c exec files n Hk Hf Hin Hcap) as (k & Hap & _ & Hf' & Hg).
  apply compile_inr in Hc as (_ & _ & ->). cbn in Hg.
  apply ewp_bind, ewp_kernel. rewrite Hap. apply ewp_bind, ewp_update, publish_bindings_goes_on.
  unfold engine_on.
  destruct (record_policy_fields ids policy text stale kept (with_kernel k s)) as (-> & _).
  by split.
Qed.

(** C27. The dry run announces what an apply does: if nothing changes in between but that
    the apply can create the missing cgroups, and no map call fails, the apply fails with
    the same error, or succeeds and is the announced generation.  The dry run itself
    changes nothing. *)
Theorem dry_run_predicts_apply (C0 C1 : CgroupFs) text s :
  prior s -> e_faults (pe_kernel s) = [] ->
  (forall policy ids, parse text (pe_ids s) = (inr policy, ids) ->
     only_creates C0 C1 (po_bindings policy) s) ->
  (dry_run (C:=C0) text s).2 = s /\
  match (dry_run (C:=C0) text s).1 with
  | inl e => (apply_text (C:=C1) text s).1 = inl e
  | inr r => exists s', apply_text (C:=C1) text s = (inr tt, s') /\
      e_generation (pe_kernel s') = dr_generation r
  end.
Proof using All.
  intros Hs Hf Hoc. pose proof Hs as (Hk & Hids & _).
  unfold dry_run, apply_text, mbind, engineM_bind, ask.
  destruct (parse text (pe_ids s)) as [[e|policy] ids] eqn:Hp; [done|].
  specialize (Hoc policy ids eq_refl). cbn [attempt]. unfold mret, engineM_ret.
  destruct (check_capabilities policy s) as [[e|[]] s0] eqn:Hc;
    apply check_capabilities_keeps in Hc as ->; [done|].
  destruct (compile policy _) as [e|compiled] eqn:Hcomp; [done|]. cbn [attempt]. unfold mret, engineM_ret.
  assert (NoDup (b_cgroup <$> po_bindings policy)) as Hnd by (by eapply parsed_bindings_valid).
  pose proof (wanted_created C0 C1 policy s Hnd Hoc) as Hw.
  destruct (present_bindings ∅ _) as [e|static0]; cbn [attempt]; [by rewrite Hw|].
  destruct Hw as (static1 & -> & Hw). cbn [attempt]. unfold mret, engineM_ret.
  destruct (add_dynamic _ static0 _ _) as [e|[w0 stale]]; cbn [attempt]; [by rewrite Hw|].
  destruct Hw as (w1 & -> & Hsize). cbn [attempt]. unfold mret, engineM_ret.
  destruct (add_adopted w0 _ _) as [a0 kept0], (add_adopted w1 _ _) as [a1 kept1]. cbn [fst] in Hsize.
  destruct (resolve_exec _) as [e|exec] eqn:Hx; cbn [attempt]; [done|]. unfold mret, engineM_ret.
  destruct (resolve_files _) as [e|[files skipped]] eqn:Hfl; cbn [attempt]; [done|]. unfold mret, engineM_ret.
  rewrite length_fmap, <- Hsize.
  destruct (check_capacity _ _ _ _ _ _) eqn:Hcap; cbn [negb].
  - split; [done|]. cbn [fst dr_generation].
    destruct (parsed_policy_ok _ _ _ _ Hids Hp) as (_ & Hpok & _).
    destruct (ewp_returns _ _ _ (apply_rest policy _ compiled exec files skipped (size a1) ids text
      stale kept1 a1 s Hk Hf Hpok Hcomp Hx Hfl Hcap)) as ([] & s' & Ha & Hg).
    by exists s'.
  - split; [done|].
    destruct (kernel_fails (apply_compiled compiled exec files (size a1)) s) as [s' ->]; [|done].
    unfold apply_compiled, get, mbind, sensor_bind. by rewrite Hcap.
Qed.

End Predicted.
