(* ===== verification/Naming.v ===== *)
(** * Naming decisions in the audit log ([rk-sensor/src/policy.rs])

    The audit log names the profile and the origin of a decision by the rule that decided
    it, and a default decision by the cgroup it was taken for. *)

From stdpp Require Import sorting.
From S2P Require Import Prelude Text Identity Abi Bpf Lpm Scenario Logic Common Governance.
From S2P Require Import Levels Net Exec File Guard Object Enforcement Ipnet Addr Policy.
From S2P Require Import Cidr Parse Flatten Reload Apply Resolve Engine Deploy Validated.
From S2P Require Import Bindings Steady Runtime Serving.
Open Scope string_scope.
Open Scope list_scope.
Open Scope Z_scope.

(** Rule id to profile and origin; cgroup id to profile. *)
Record AuditContext : Set := mk_AuditContext {
  ac_generation : Z; ac_rules : gmap Z (string * string); ac_cgroups : gmap Z string }.

Definition describe (ctx : AuditContext) (rule_id cgroup_id : Z)
    : option string * option string :=
  match ac_rules ctx !! rule_id with
  | Some (profile, origin) => (Some profile, Some origin)
  | None => (ac_cgroups ctx !! cgroup_id, None)
  end.

(** Inserts one after the other what the entries name; the last one wins. *)
Fixpoint name_all {A B} (key : A -> Z) (name : A -> option B) (l : list A) (m : gmap Z B)
    : gmap Z B :=
  match l with
  | [] => m
  | x :: l => name_all key name l (match name x with Some b => <[key x := b]> m | None => m end)
  end.

Section Naming.
Context {I : Ipnet} {S : IpnetStr I} {T : Toml}.
Context {L : IpnetLaws I} {SL : IpnetStrLaws I S} {TL : TomlLaws T}.

(** The retired agents first, so that a current binding of the same id wins. *)
Definition audit_context (s : pengine) : AuditContext :=
  match pe_policy s with
  | None => mk_AuditContext (e_generation (pe_kernel s)) ∅ ∅
  | Some policy =>
      let rules := name_all ro_id (fun o => Some (ro_profile o, ro_origin o)) (po_origins policy) ∅ in
      let cgroups := name_all fst (fun e => Some e.2) (pe_retired s) ∅ in
      let cgroups := name_all fst (fun e => p_name <$> policy_profile policy e.2.2)
                       (sorted_list (pe_bindings s)) cgroups in
      let cgroups := name_all fst (fun e => Some e.2.2) (sorted_list (pe_dynamic s)) cgroups in
      mk_AuditContext (e_generation (pe_kernel s)) rules cgroups
  end.

Lemma name_all_none {A B} (key : A -> Z) (name : A -> option B) l k : forall m,
  (forall x, x ∈ l -> key x <> k) -> name_all key name l m !! k = m !! k.
Proof using.
  induction l as [|x l IH]; intros m Hl; [done|]. cbn [name_all]. rewrite IH by (intros; apply Hl; by right).
  destruct (name x); [|done]. apply lookup_insert_ne. apply Hl. left.
Qed.

Lemma name_all_some {A B} (key : A -> Z) (name : A -> option B) l k b : forall m,
  (exists x, x ∈ l /\ key x = k) -> (forall x, x ∈ l -> key x = k -> name x = Some b) ->
  name_all key name l m !! k = Some b.
Proof using.
  induction l as [|x l IH]; intros m [y [Hy Hk]] Hl; [by apply elem_of_nil in Hy|].
  destruct (decide (Exists (fun x => key x = k) l)) as [He|He].
  - apply IH; [by apply Exists_exists in He|]. intros z Hz. apply Hl. by right.
  - assert (forall x, x ∈ l -> key x <> k) as Hn.
    { intros z Hz Heq. apply He, Exists_exists. by exists z. }
    apply elem_of_cons in Hy as [->|Hy]; [|by destruct (Hn y Hy)].
    cbn [name_all]. rewrite (name_all_none key name l k) by done.
    rewrite (Hl x) by (by left || done). by rewrite Hk, lookup_insert_eq.
Qed.



Lemma dynamic_named policy s cgroup path name :
  pe_dynamic s !! cgroup = Some (path, name) -> pe_policy s = Some policy ->
  ac_cgroups (audit_context s) !! cgroup = Some name.
Proof using.
  intros Hd Hpol. unfold audit_context. rewrite Hpol. cbn [ac_cgroups].
  apply name_all_some; [exists (cgroup, (path, name)); by rewrite elem_of_sorted_list|].
  intros [id e] He%elem_of_sorted_list Heq. cbn in Heq. subst id. rewrite Hd in He.
  by injection He as <-.
Qed.

(** Rule 0 has no origin. *)
Lemma default_named seen s0 s policy cgroup :
  fresh s0 -> slots_recorded s0 -> rtc (process_step seen) s0 s ->
  pe_policy s = Some policy -> Z.of_nat (length (po_origins policy)) < 2 ^ 32 - 1 ->
  describe (audit_context s) 0 cgroup = (ac_cgroups (audit_context s) !! cgroup, None).
Proof using All.
  intros Hf Hrec Hr Hpol Hlen.
  destruct (reachable_running seen s0 s Hf Hrec Hr) as (_ & [_ Hsv] & _).
  destruct (Hsv policy Hpol) as (O & text & ids & gen & c & x & f & sk & _ & Hids & Hp & _).
  unfold describe, audit_context. rewrite Hpol. cbn [ac_rules].
  rewrite name_all_none, lookup_empty; [done|]. intros o Ho Heq.
  assert (0 ∈ ro_id <$> po_origins policy) as H0 by (apply list_elem_of_fmap; by exists o).
  rewrite (origins_numbered _ _ _ _ Hids Hp Hlen) in H0. apply elem_of_seqZ in H0. lia.
Qed.

(** A quarantined agent's default decisions are the quarantine profile's, but are named by
    the profile it was bound to before. *)
Lemma quarantine_goes_unnamed seen s0 s policy cgroup path name :
  fresh s0 -> slots_recorded s0 -> rtc (process_step seen) s0 s ->
  pe_policy s = Some policy -> Z.of_nat (length (po_origins policy)) < 2 ^ 32 - 1 ->
  cgroup ∈ pe_quarantined s -> pe_dynamic s !! cgroup = Some (path, name) ->
  (exists q, pi_ids (pe_ids s) !! QUARANTINE = Some q /\
     m_cgroup_profile (e_maps (pe_kernel s)) !! cgroup = Some (binding_value q)) /\
  describe (audit_context s) 0 cgroup = (Some name, None).
Proof using All.
  intros Hf Hrec Hr Hpol Hlen Hq Hd. split.
  - destruct (reachable_running seen s0 s Hf Hrec Hr) as (Hs & _).
    apply sound_prior in Hs as (_ & _ & Hbound & _ & Hheld).
    destruct (Hheld cgroup Hq) as (e & He & Hqid). exists e.2. split; [done|]. by apply Hbound.
  - rewrite (default_named seen s0 s policy) by done. by rewrite (dynamic_named policy s cgroup path name).
Qed.


End Naming.
