(* ===== verification/EndToEnd.v ===== *)
(** * From policy text to verdict

    What a workload can do on a host whose sensor has run for a while: the composition of
    the parser, the compiler, the path resolution, the policy engine, the heartbeat and
    the kernel programs. *)

From stdpp Require Import sorting.
From S2P Require Import Prelude Text Identity Abi Bpf Lpm Scenario Logic Common Governance.
From S2P Require Import Levels Net Exec File Guard Object Enforcement Ipnet Addr Policy.
From S2P Require Import Cidr Parse Flatten Reload Apply Resolve Engine Deploy Validated.
From S2P Require Import Bindings Metadata Resilience Steady Runtime Reparse Adopt Restart Serving.
Open Scope string_scope.
Open Scope list_scope.
Open Scope Z_scope.

(** The device and inode numbers the kernel reports for an inode. *)
Definition kernel_identity (e : kenv) (inode : Z) : Z * Z :=
  (k_field e super_block_s_dev (k_field e inode_i_sb inode), k_field e inode_i_ino inode).

Section Context.
Context `{I : Ipnet, L : !IpnetLaws I} `{K : BpfKernel} {HK : BpfKernelLaws K}.
Context (policy : Policy) (generation : Z) (exec : list ResolvedExec) (files : list ResolvedFile).
Context (w : world) (Hsv : serves policy generation exec files (w_maps w)).
Context (b : rk_binding) (governed : Z) (prof : Profile).
Context (Hb : result (rk_governed_binding (k_cgroup_id (w_env w))) w = Some (b, governed)).
Context (Hp : policy_profile policy (bind_profile b) = Some prof).

Definition context_of : rk_gov :=
  mk_rk_gov governed generation (scope_of (live_slot (w_maps w)) (bind_profile b))
    (mode_value (p_mode prof)) (action_value (p_net_default prof)) (profile_flags prof)
    (if mode_value (p_mode prof) =? RK_MODE_ENFORCE then result rk_heartbeat_stale w else 0).

Lemma serves_governance : result rk_governance w = Some context_of.
Proof using Hsv Hb Hp.
  pose proof (sv_maps _ _ _ _ _ Hsv) as (_ & Hwf & _).
  rewrite governance_spec, Hb by done. apply governed_binding_bound, Hwf in Hb as Hn.
  unfold governance_context. by rewrite (serves_live_profile _ _ _ _ _ Hsv b prof) by (done || lia).
Qed.

Lemma live_scope : slot_of_scope (scope_of (live_slot (w_maps w)) (bind_profile b)) =
  live_slot (w_maps w).
Proof using Hsv Hp.
  apply policy_profile_Some in Hp as [Hin Hid]. apply slot_of_scope_of; [apply live_slot_bound|].
  rewrite <- Hid. by apply (sv_ids _ _ _ _ _ Hsv).
Qed.

Lemma enforcing : mode_value (p_mode prof) = RK_MODE_ENFORCE <-> p_mode prof = Enforce.
Proof. by destruct (p_mode prof). Qed.

Lemma context_stale :
  p_mode prof = Enforce -> g_stale context_of = result rk_heartbeat_stale w.
Proof. intros Hm. cbn. by rewrite Hm. Qed.

(** ** Exec *)

Definition denies_unlisted (x : option ExecPolicy) : Prop :=
  exists e, x = Some e /\ xp_default e = Deny.
Definition refuses_unlinked (x : option ExecPolicy) : Prop :=
  exists e, x = Some e /\ xp_allow_unlinked e = false.

Lemma exec_flags :
  ((profile_flags prof ∋ RK_PROFILE_EXEC_DENY_DEFAULT) = true <-> denies_unlisted (p_exec prof)) /\
  ((profile_flags prof ∋ RK_PROFILE_EXEC_ALLOW_UNLINKED) = false <-> refuses_unlinked (p_exec prof)) /\
  (profile_flags prof ∋ RK_PROFILE_DENY_RAW_SOCKETS) = p_deny_raw_sockets prof.
Proof.
  unfold profile_flags, denies_unlisted, refuses_unlinked.
  destruct (p_deny_raw_sockets prof), (p_exec prof) as [[d u a]|]; cbn;
    [destruct d, u| |destruct d, u|]; cbn; naive_solver.
Qed.

Lemma verdict_iff P `{Decision P} : (if bool_decide P then -1 else 0) = -1 <-> P.
Proof. by case_bool_decide. Qed.

Lemma live_scope_inj id :
  id_ok id -> scope_of (live_slot (w_maps w)) (bind_profile b) = scope_of (live_slot (w_maps w)) id ->
  id = bind_profile b.
Proof using Hsv Hp.
  apply policy_profile_Some in Hp as [Hin Hid]. intros Hok Heq. symmetry.
  pose proof (live_slot_bound (w_maps w)).
  eapply scope_of_inj; [| | | |done]; try done. rewrite <- Hid. by apply (sv_ids _ _ _ _ _ Hsv).
Qed.

(** A file is listed in the kernel when it was resolved from a rule of the profile. *)
Lemma listed_iff inode :
  is_Some (m_exec_allow (w_maps w) !! Exec.exec_key (w_env w) context_of inode) <->
  exists r, r ∈ exec /\ re_profile r = bind_profile b /\
    (re_dev r, re_ino r) = kernel_identity (w_env w) inode.
Proof using Hsv Hp.
  split.
  - intros [v (r & Hr & Hk & _)%(sv_exec _ _ _ _ _ Hsv)]; [|apply live_scope].
    injection Hk as Hscope Hdev Hino. exists r. split; [done|]. unfold kernel_identity.
    rewrite Hdev, Hino. split; [|done]. apply live_scope_inj; [by apply (sv_exec_ids _ _ _ _ _ Hsv)|done].
  - intros (r & Hr & Hid & [= Hdev Hino]). eexists. apply (sv_exec _ _ _ _ _ Hsv); [apply live_scope|].
    exists r. split; [done|]. split; [|done]. unfold Exec.exec_key, exec_slot_key. cbn.
    by rewrite Hid, Hdev, Hino.
Qed.

Lemma serves_exec bprm :
  let inode := bprm_inode (w_env w) bprm in
  result (entry (ExecCheck bprm 0)) w = -1 <->
  p_mode prof = Enforce /\
  (result rk_heartbeat_stale w <> 0 \/
   bprm_unlinked (w_env w) bprm = true /\ refuses_unlinked (p_exec prof) \/
   denies_unlisted (p_exec prof) /\
   ~ exists r, r ∈ exec /\ re_profile r = bind_profile b /\
       (re_dev r, re_ino r) = kernel_identity (w_env w) inode).
Proof using Hsv Hb Hp.
  cbn zeta. cbn [entry]. rewrite exec_check_result, serves_governance. cbn [Z.eqb negb].
  rewrite enforced_deny_eq, verdict_iff, <- listed_iff. cbn [context_of g_mode]. rewrite enforcing.
  destruct exec_flags as (Hd & Hu & _). rewrite <- Hd, <- Hu.
  split; (intros [Hm H]; split; [done|]; revert H; rewrite (context_stale Hm));
    unfold exec_decision; cbn [context_of g_flags];
    destruct (bprm_unlinked (w_env w) bprm), (profile_flags prof ∋ RK_PROFILE_EXEC_ALLOW_UNLINKED),
    (profile_flags prof ∋ RK_PROFILE_EXEC_DENY_DEFAULT),
    (m_exec_allow (w_maps w) !! _) eqn:Hl; cbn [andb negb fst]; rewrite <- ?not_eq_None_Some;
    naive_solver.
Qed.

(** ** Files *)






End Context.

(** ** The host *)

Lemma proto_bit_range n : rk_proto_bit n ∈ [PROTO_TCP; PROTO_UDP; PROTO_OTHER].
Proof. unfold rk_proto_bit. destruct (_ =? _); [|destruct (_ =? _)]; set_solver. Qed.

Lemma ntohs_range x : 0 <= bpf_ntohs x <= 65535.
Proof.
  unfold bpf_ntohs. change 0xff with (Z.ones 8). rewrite !Z.land_ones by lia.
  pose proof (Z.mod_pos_bound x (2 ^ 8)). pose proof (Z.mod_pos_bound (Z.shiftr x 8) (2 ^ 8)).
  rewrite lor_shiftl_small; lia.
Qed.

Section Host.
Context {I : Ipnet} {S : IpnetStr I} {T : Toml}.
Context {L : IpnetLaws I} {SL : IpnetStrLaws I S} {TL : TomlLaws T}.
Context `{K : BpfKernel} {HK : BpfKernelLaws K}.
Context (seen : Os -> Prop) (s0 s : pengine).

(** The sensor has started on empty maps and is now in state [s]; [policy] is in force. *)
Context (H0 : fresh s0) (Hrec : slots_recorded s0) (Hr : rtc (process_step seen) s0 s).
Context (policy : Policy) (Hpol : pe_policy s = Some policy).

(** A program runs in a task governed by profile number [bind_profile b]. *)
Context (w : world) (Hw : w_maps w = e_maps (pe_kernel s)).
Context (b : rk_binding) (governed : Z).
Context (Hb : result (rk_governed_binding (k_cgroup_id (w_env w))) w = Some (b, governed)).

Lemma host_in_force : good s /\ in_force seen policy s.
Proof using H0 Hrec Hr Hpol L SL TL.
  destruct (reachable_running seen s0 s H0 Hrec Hr) as [[Hf|Hg] [[_ Hin] _]].
  - destruct Hf as (_ & _ & Hn & _). congruence.
  - split; [done|]. by apply Hin.
Qed.


(** The exec rule [a] of the profile names the file with this identity. *)
Definition rule_names {O : Os} (prof : Profile) (file : Z * Z) : Prop :=
  exists x a id, p_exec prof = Some x /\ a ∈ xp_allow x /\
    exec_names (mk_CompiledExec (p_id prof) (xa_id a) (xa_path a) (xa_kind a)) id /\
    (fi_dev id, fi_ino id) = file.

Lemma compiled_exec_iff {O : Os} gen c exec prof file :
  policy_wf policy -> compile policy gen = inr c -> resolve_exec (co_exec c) = inr exec ->
  policy_profile policy (bind_profile b) = Some prof ->
  (exists r, r ∈ exec /\ re_profile r = bind_profile b /\ (re_dev r, re_ino r) = file) <->
  rule_names prof file.
Proof.
  intros Hwf (_ & _ & ->)%compile_inr [_ Hx]%resolve_exec_exact Hp.
  pose proof (policy_profile_Some _ _ _ Hp) as [Hin Hid]. split.
  - intros (r & Hr' & Hre & Hf).
    destruct (proj1 (Hx (re_profile r) (re_dev r) (re_ino r))) as (e & id & He & Hep & Hn & Hd & Hi);
      [by exists r|].
    apply list_elem_of_bind in He as (q & He & Hq).
    unfold compile_exec in He. destruct (p_exec q) as [x|] eqn:Hqx; [|by apply elem_of_nil in He].
    apply list_elem_of_fmap in He as (a & -> & Ha). cbn in Hep.
    assert (q = prof) as -> by (eapply profile_of_id; [done..|congruence]).
    exists x, a, id. rewrite Hd, Hi. done.
  - intros (x & a & id & Hpx & Ha & Hn & <-).
    destruct (proj2 (Hx (p_id prof) (fi_dev id) (fi_ino id))) as (r & Hr' & Hk).
    + exists (mk_CompiledExec (p_id prof) (xa_id a) (xa_path a) (xa_kind a)), id.
      split; [|done]. apply list_elem_of_bind. exists prof. split; [|done].
      unfold compile_exec. rewrite Hpx. apply list_elem_of_fmap. by exists a.
    + injection Hk as Hpr Hd Hi. exists r. rewrite Hd, Hi. split; [done|]. split; [congruence|done].
Qed.







(** The profile that governs a quarantined cgroup. *)
Lemma quarantined_profile :
  governed ∈ pe_quarantined s ->
  exists q, policy_profile policy (bind_profile b) = Some q /\ p_mode q = Enforce /\
    p_net_default q = Deny /\ p_deny_raw_sockets q = true /\ p_rules q = [] /\
    p_exec q = Some (mk_ExecPolicy Deny false []).
Proof using H0 Hrec Hr Hpol L SL TL Hw Hb.
  intros Hq. destruct host_in_force as (Hg & O & text & ids & gen & c & exec & files & sk & _ & Hids & Hparse & _).
  destruct (g_held s Hg governed Hq) as (e & He & Hqid).
  destruct (g_bound s Hg governed e He) as [_ Hbound].
  apply governed_binding_bound in Hb as Hb'. rewrite Hw, Hbound in Hb'.
  injection Hb' as <-. cbn [binding_value bind_profile].
  destruct (parsed_quarantine _ _ _ _ Hids Hparse) as (q & Hq1 & Hq2 & Hq3).
  assert (e.2 = p_id q) as -> by congruence. by exists q.
Qed.

(** C4. Quarantine isolates.  On such a host a task governed by a quarantined cgroup - the
    policy that was in force when it was quarantined may long have been replaced - cannot
    connect or send anywhere, cannot create a raw or packet socket, and cannot exec. *)
Theorem host_isolates_quarantined (Hq : governed ∈ pe_quarantined s) :
  (forall p ctx addr, destination p = Some (ctx, addr) -> result (entry p) w = refuse p) /\
  (forall family type protocol, raw_socket family type protocol ->
     result (entry (SocketCreate family type protocol 0 0)) w = -1) /\
  (forall bprm, result (entry (ExecCheck bprm 0)) w = -1).
Proof using H0 Hrec Hr Hpol L SL TL Hw Hb HK.
  destruct (quarantined_profile Hq) as (q & Hp & Hm & Hd & Hraw & Hrules & Hx).
  destruct host_in_force as (_ & O & text & ids & gen & c & exec & files & sk & _ & Hids & Hparse & _ & Hc & Hre & _ & Hsv).
  destruct (parsed_wf _ _ _ _ Hids Hparse) as (Hwf & _ & _). rewrite <- Hw in Hsv. split; [|split].
  - intros p ctx addr Hdest. erewrite (serves_decides _ _ _ _ _ _ _ _ _ _ q (mk_NetDecision Deny 0) Hsv Hb Hp Hdest).
    + rewrite Hm. by destruct (_ =? 0).
    + unfold evaluate, best_rule. rewrite Hp. cbn. by rewrite Hrules, Hd.
  - intros family type protocol Hsock. cbn [entry]. rewrite socket_create_result.
    apply sock_observed_iff in Hsock. rewrite Hsock, (serves_governance _ _ _ _ _ Hsv _ _ _ Hb Hp).
    cbn [Z.eqb negb orb]. rewrite enforced_deny_eq, verdict_iff. cbn [context_of g_mode].
    rewrite enforcing. split; [done|]. left. unfold rk_raw_action. cbn [context_of g_flags].
    destruct (exec_flags q) as (_ & _ & ->). by rewrite Hraw.
  - intros bprm. apply (serves_exec _ _ _ _ _ Hsv _ _ _ Hb Hp). split; [done|]. right. right.
    split; [by exists (mk_ExecPolicy Deny false [])|].
    rewrite (compiled_exec_iff gen c exec q); [|done..].
    intros (x & a & id & Hx' & Ha & _). rewrite Hx in Hx'. injection Hx' as <-. by apply elem_of_nil in Ha.
Qed.

(** C7. Cloud metadata is out of reach.  On such a host, under an enforcing profile whose
    entry in the policy file includes the built-in list - the default - no connect or
    sendmsg reaches an endpoint of the list, on any port and protocol and whatever the
    profile allows, nor the NAT64 form of an IPv4 endpoint unless the profile turns that
    off. *)
Theorem host_blocks_metadata text file name pf p ctx addr
    (Ht : pe_text s = Some text) (Hf : policy_from_str text = inr file)
    (Hin : (name, pf) ∈ plf_profiles file)
    (Hname : pi_ids (pe_ids s) !! name = Some (bind_profile b))
    (Hmode : pf_mode pf = Enforce)
    (Hinc : "cloud-metadata" ∈ nf_include (pf_network pf))
    (Ha : denied_endpoint (pf_network pf) addr)
    (Hdest : destination p = Some (ctx, addr)) :
  result (entry p) w = refuse p.
Proof using H0 Hrec Hr Hpol L SL TL Hw Hb HK.
  destruct host_in_force as (_ & O & text' & ids & gen & c & exec & files & sk & _ & Hids & Hparse & Ht' & _ & _ & _ & Hsv).
  assert (text' = text) as -> by congruence. rewrite <- Hw in Hsv.
  destruct (parsed_profile_of _ _ _ _ _ _ _ Hids Hparse Hf Hin) as (prof & Hp & _ & Hof & Hid).
  assert (p_id prof = bind_profile b) as Hpb by congruence. rewrite Hpb in Hp.
  destruct (metadata_endpoints_denied _ _ _ _ _ _ _ _ (bpf_ntohs (u16 (user_port ctx)))
    (rk_proto_bit (sa_protocol ctx)) Hids Hparse Hf Hin Hinc Ha) as (id & rule & Hid' & He);
    [apply ntohs_range|apply proto_bit_range|].
  assert (id = bind_profile b) as -> by congruence.
  rewrite (serves_decides _ _ _ _ _ _ _ _ _ _ _ _ Hsv Hb Hp Hdest He).
  destruct Hof as (_ & -> & _). rewrite Hmode. by destruct (_ =? 0).
Qed.

End Host.
