(* ===== verification/Rollout.v ===== *)
(** * A concrete rollout

    The deployment of [Scenario] receives a new policy for profile 3: deny 10.9.0.0/16,
    allow 10.0.0.0/8 on TCP port 443, deny by default.  The theorems about compiling,
    applying and deploying a policy are evaluated on it. *)

From stdpp Require Import strings.
From S2P Require Import Prelude Abi Bpf Lpm Scenario Logic Common Governance Net Exec.
From S2P Require Import File Guard Object Enforcement Ipnet Addr Policy Flatten Reload Apply.
From S2P Require Import Deploy.
Open Scope Z_scope.

Definition ex_cidr (a b len : Z) (H : net_check (replicate 10 0 ++ [0xff; 0xff; a; b; 0; 0],
    96 + len) = true) : Ipv6Net (Ipnet:=reference_ipnet) := _ ↾ H.

Definition ex_wide : Ipv6Net (Ipnet:=reference_ipnet) := ex_cidr 10 0 8 eq_refl.
Definition ex_narrow : Ipv6Net (Ipnet:=reference_ipnet) := ex_cidr 10 9 16 eq_refl.

Definition ex_profile : Profile (I:=reference_ipnet) :=
  mk_Profile 3 "agent"%string Enforce Deny true
    [mk_Rule 1 Allow ex_wide [mk_PortRange 443 443] PROTO_TCP;
     mk_Rule 2 Deny ex_narrow [mk_PortRange 0 65535] PROTO_ANY]
    None (mk_FilePolicy [] false) [].

Definition ex_policy : Policy (I:=reference_ipnet) :=
  mk_Policy [ex_profile] [mk_Binding "rk.slice/agent"%string 3]
    [] ∅.

Definition ex_compiled : Compiled := compiled_of ex_policy 8.

(** A policy without the profile. *)
Definition ex_empty_policy : Policy (I:=reference_ipnet) := mk_Policy [] [] [] ∅.

Lemma ex_policy_compiles : compile ex_policy 8 = inr ex_compiled.
Proof.
  apply compile_inr. split_and!; [done| |done]. intros p ->%list_elem_of_singleton.
  split; apply (bool_decide_unpack _); by vm_compute.
Qed.

Lemma ex_policy_wf : policy_wf ex_policy.
Proof.
  split; [apply NoDup_singleton|]. intros p ->%list_elem_of_singleton r Hr.
  cbn in Hr. apply elem_of_cons in Hr as [->| ->%list_elem_of_singleton];
    apply (sig_eq_pi _); by vm_compute.
Qed.

Lemma ex_policy_ids : policy_ids_ok ex_policy.
Proof. intros p ->%list_elem_of_singleton. unfold id_ok, RK_MAX_PROFILES. cbn. lia. Qed.

Definition ex_addr : IpAddr := V4 [10; 9; 0; 1].

Lemma compiled_lookup_is_evaluate_witness :
  evaluate ex_policy 3 ex_addr 443 PROTO_TCP = Some (mk_NetDecision Deny 2) /\
  lookup ex_compiled 3 ex_addr 443 PROTO_TCP = Some (mk_NetDecision Deny 2).
Proof.
  split; [by vm_compute|].
  rewrite (compiled_lookup_is_evaluate ex_policy 8 ex_compiled 3 ex_addr 443 PROTO_TCP
    ex_policy_compiles ex_policy_wf); [by vm_compute|].
  apply (bool_decide_unpack _). by vm_compute.
Defined.

(** ** The engine *)

(** The record of what the scenario's maps hold in slot 1. *)
Definition ex_written : SlotContents :=
  mk_SlotContents [3] [ex_net_key 16 10 9] [ex_net_key 8 10 0]
    [mk_rk_exec_key ex_scope 0 66 1001] [mk_rk_file_key ex_scope 0 66 77].

Definition ex_engine (faults : list bool) : engine :=
  mk_engine (ex_maps ex_bindings RK_MODE_ENFORCE 9500000000) no_contents ex_written 1 7
    faults [].

Definition ex_exec : list ResolvedExec := [mk_ResolvedExec 3 11 66 1001].
Definition ex_files : list ResolvedFile := [mk_ResolvedFile 3 12 66 77 RK_FILE_WRITE true].

Lemma ex_scope_of_slot : scope_of_slot 1 ex_scope.
Proof. exists 3. unfold RK_MAX_PROFILES. split; [lia|done]. Qed.

Lemma ex_engine_ok faults : engine_ok (ex_engine faults).
Proof.
  split; [apply ex_maps_ok|done|cbn; lia|apply contents_none|].
  split; intros k ->%list_elem_of_singleton; try apply ex_scope_of_slot.
  - unfold RK_MAX_PROFILES. lia.
  - split; [apply ex_scope_of_slot|cbn; lia].
  - split; [apply ex_scope_of_slot|cbn; lia].
Qed.

Lemma ex_recorded faults slot : 0 <= slot <= 1 -> recorded slot (ex_engine faults).
Proof.
  intros Hs. split.
  - intros e r [= -> ->]%list_elem_of_singleton Hsl. vm_compute in Hsl. subst slot.
    eexists. split; [by left|]. by split.
  - intros e r [= -> ->]%list_elem_of_singleton Hsl. vm_compute in Hsl. subst slot.
    eexists. split; [by left|]. by split.
  - intros id p Hid Hl _. cbn [ex_engine e_maps ex_maps m_profiles] in Hl.
    apply lookup_singleton_Some in Hl as [Heq _].
    unfold id_ok, profile_index, RK_MAX_PROFILES in *.
    assert (slot = 1 /\ id = 3) as [-> ->] by lia. by left.
  - intros k v Hl Hsl. cbn [ex_engine e_maps ex_maps m_exec_allow m_file_protect] in Hl.
    apply lookup_singleton_Some in Hl as [<- _]. vm_compute in Hsl.
    subst slot. by left.
  - intros k v Hl Hsl. cbn [ex_engine e_maps ex_maps m_exec_allow m_file_protect] in Hl.
    apply lookup_singleton_Some in Hl as [<- _]. vm_compute in Hsl.
    subst slot. by left.
Qed.

Lemma ex_deploys s s' policy c :
  compile policy 8 = inr c -> policy_wf policy -> policy_ids_ok policy ->
  s = ex_engine [] -> apply_compiled c ex_exec ex_files 1 s = (Some tt, s') ->
  deploys policy 8 c ex_exec ex_files 1 s s'.
Proof.
  intros Hc Hwf Hids -> Hap. split; try done.
  - intros r ->%list_elem_of_singleton. unfold id_ok, RK_MAX_PROFILES. cbn. lia.
  - intros r ->%list_elem_of_singleton. unfold id_ok, RK_MAX_PROFILES. cbn. lia.
  - apply NoDup_singleton.
  - apply NoDup_singleton.
  - apply ex_engine_ok.
  - by apply ex_recorded.
Qed.

Definition ex_deployed : engine :=
  (apply_compiled ex_compiled ex_exec ex_files 1 (ex_engine [])).2.

Lemma ex_policy_deploys :
  deploys ex_policy 8 ex_compiled ex_exec ex_files 1 (ex_engine []) ex_deployed.
Proof.
  apply ex_deploys; [apply ex_policy_compiles|apply ex_policy_wf|apply ex_policy_ids|done|].
  unfold ex_deployed. by destruct (apply_compiled _ _ _ _ _) as [[[]|] ?] eqn:H; vm_compute in H.
Qed.

Definition ex_ctx (ip : Z) : bpf_sock_addr := mk_bpf_sock_addr ip 0 0 0 0 0xbb01 6.

Definition ex_rolled_out (s : engine) : world := mk_world (e_maps s) ex_env ex_tele.

Definition ex_emptied : engine :=
  (apply_compiled (compiled_of ex_empty_policy 8) ex_exec ex_files 1 (ex_engine [])).2.

Lemma ex_empty_deploys :
  deploys ex_empty_policy 8 (compiled_of ex_empty_policy 8) ex_exec ex_files 1 (ex_engine [])
    ex_emptied.
Proof.
  apply ex_deploys; [|split; [constructor|]|..|done|].
  - apply compile_inr. split_and!; [done| |done]. by intros p ?%elem_of_nil.
  - by intros p ?%elem_of_nil.
  - by intros p ?%elem_of_nil.
  - unfold ex_emptied.
    by destruct (apply_compiled _ _ _ _ _) as [[[]|] ?] eqn:H; vm_compute in H.
Qed.

Lemma removed_profile_fails_closed_witness :
  result (K:=reference_kernel) rk_governance (ex_rolled_out ex_emptied) =
  Some (fail_closed_gov 500 0).
Proof.
  rewrite (removed_profile_fails_closed (K:=reference_kernel) ex_empty_policy 8
    (compiled_of ex_empty_policy 8) ex_exec ex_files 1 (ex_engine []) ex_emptied
    (ex_rolled_out ex_emptied) (mk_rk_binding 3 0) 500 ex_empty_deploys);
    [by vm_compute|reflexivity|by vm_compute|reflexivity].
Defined.

Lemma ex_input : input_ok ex_compiled ex_exec ex_files.
Proof. eapply deploys_input, ex_policy_deploys. Qed.

Lemma apply_keeps_slots_recorded_witness : recorded 0 ex_deployed.
Proof.
  apply (apply_keeps_slots_recorded (ex_engine []) ex_compiled ex_exec ex_files 1
    (ex_engine_ok []) eq_refl eq_refl ex_input (ex_recorded [])). lia.
Defined.

Lemma apply_keeps_engine_ok_witness : engine_ok ex_deployed.
Proof.
  apply (apply_keeps_engine_ok (ex_engine []) ex_compiled ex_exec ex_files 1
    (ex_engine_ok []) eq_refl ex_input).
Defined.

(** The program is overtaken after its fifth call. *)
Definition ex_sched (i : nat) : nat := if (i <? 5)%nat then 2%nat else 100%nat.

Lemma ex_sched_in_order : in_order ex_sched.
Proof.
  intros i j Hij. unfold ex_sched.
  destruct (Nat.ltb_spec i 5), (Nat.ltb_spec j 5); lia.
Qed.

Lemma apply_is_atomic_witness :
  let p := entry (Connect4 (ex_ctx 0x0100090a)) in
  let w := ex_rolled_out (ex_engine []) in
  let r := run_at (K:=reference_kernel) (sees (ex_engine []) ex_deployed ex_sched) 0 p w in
  r = run_under (K:=reference_kernel) (e_maps (ex_engine [])) p w \/
  r = run_under (K:=reference_kernel) (e_maps ex_deployed) p w.
Proof.
  apply (apply_is_atomic (K:=reference_kernel) (HK:=reference_kernel_laws) (ex_engine [])
    ex_deployed ex_compiled ex_exec ex_files 1 ex_sched (Connect4 (ex_ctx 0x0100090a))
    (ex_rolled_out (ex_engine [])) (ex_engine_ok []) eq_refl ex_input ex_sched_in_order).
  apply (dp_applied _ _ _ _ _ _ _ _ ex_policy_deploys).
Defined.



