(* ===== verification/Host.v ===== *)
(** * A concrete host

    A sensor on the host of [Scenario] starts its heartbeat, applies a policy file and
    quarantines the agent; the theorems about parsing, resolving, running and enforcing a
    policy are evaluated on it. *)

From stdpp Require Import sorting.
From S2P Require Import Prelude Text Identity Abi Bpf Lpm Scenario Logic Common Governance.
From S2P Require Import Levels Net Exec File Guard Object Enforcement Ipnet Addr Policy.
From S2P Require Import Cidr Parse Flatten Reload Apply Resolve Engine Deploy Validated.
From S2P Require Import Bindings Metadata Resilience Steady Runtime Serving EndToEnd.
Open Scope string_scope.
Open Scope list_scope.
Open Scope Z_scope.

(** ** The environment *)

(** The agent may reach 10.0.0.0/8 on TCP port 443, run one program, and not write below
    one directory. *)
Definition ex_profile_file : ProfileFile :=
  mk_ProfileFile Enforce
    (mk_NetworkFile Deny ["cloud-metadata"] true true
       [mk_RuleFile "10.0.0.0/8" ["443"] [Tcp]] [])
    (Some (mk_ExecFile Deny ["/usr/bin/agent"] [] false false))
    (mk_FilesFile ["credentials"] None [mk_FileRuleFile "/srv/data" true ["write"]])
    ["user:operator"].

Definition ex_policy_file : PolicyFile :=
  mk_PolicyFile [("agent", ex_profile_file)] [mk_BindingFile "rk.slice/agent" "agent"]
    [("team", mk_NamespaceFile (Some "agent") None)].

Definition ex_text : string := "agent policy".

#[export] Instance ex_toml : Toml := {
  policy_from_str s := if decide (s = ex_text) then inr ex_policy_file else inl "no table";
  list_from_str s := inr cloud_metadata;
  file_list_from_str s := inr credentials;
  cloud_metadata_toml := "cloud metadata list";
  credentials_toml := "credentials list" }.

#[export] Instance ex_toml_laws : TomlLaws ex_toml.
Proof.
  split; [| |done|done]; intros text file; cbn; case_decide; [|done| |done];
    intros [= <-]; apply NoDup_singleton.
Qed.

Definition ex_regular (ino : Z) : Metadata := mk_Metadata ino 66 true false.
Definition ex_directory (ino : Z) : Metadata := mk_Metadata ino 66 false true.

Definition ex_stat (path : string) : ErrorKind + Metadata :=
  if decide (path = "/usr/bin/agent") then inr (ex_regular 1001)
  else if decide (path = "/srv/data") then inr (ex_directory 77)
  else inl NotFound.

(** One file system, of device 0:66, mounted as number 1. *)
#[export] Instance ex_os : Os := {
  os_open path :=
    match ex_stat path with
    | inl e => inl e
    | inr meta => inr (mk_OpenFile (inr meta) (inr "mnt_id:1"))
    end;
  os_metadata := ex_stat;
  os_read_dir _ := inl NotFound;
  os_mountinfo := inr "1 0 0:66 / / rw - ext4 /dev/vda rw" }.

#[export] Instance ex_cgroups : CgroupFs := {
  cg_create _ := true;
  cg_stat path := if decide (path = "rk.slice/agent") then inr (mk_CgMeta 500 0 493)
                  else inl NotFound }.

(** ** The run *)

(** Maps as the loader creates them: arrays of zeroes and empty tables. *)
Definition ex_blank : policy_maps :=
  mk_policy_maps ∅ ∅ (Some 0) (Some 0) (Some (mk_rk_config 0 0)) (Some (mk_rk_guard_target 0 0 0))
    ∅ [] [] ∅ ∅.

Definition ex_ids : ProfileIds := mk_ProfileIds ∅ 0.

Definition ex_kernel : engine := mk_engine ex_blank no_contents no_contents 0 0 [] [].

Definition ex_fresh : pengine (I:=reference_ipnet) :=
  mk_pengine ex_kernel ex_ids ∅ ∅ ∅ ∅ [] None None None true false
    (mk_StateFile true "epoch" None).

Definition ex_timeout : Z := 2000000000.
Definition ex_first_beat : Z := 9500000000.

Definition ex_started : pengine :=
  with_kernel (start ex_timeout ex_first_beat (pe_kernel ex_fresh)).2 ex_fresh.

Definition ex_applied : pengine := (perform (ApplyText ex_text) (begin [] ex_started)).2.

Definition ex_isolated : pengine :=
  (perform (Quarantine "rk.slice/agent") (begin [] ex_applied)).2.

Definition ex_now (s : pengine) : world :=
  mk_world (e_maps (pe_kernel s)) ex_env ex_tele.

Definition ex_seen (O : Os) : Prop := O = ex_os.

Lemma ex_blank_ok : engine_ok ex_kernel.
Proof.
  split; try done; [|apply contents_none..].
  split_and!; [|by intros ? ? ?|by intros ? ? ? ? ?%elem_of_nil|by intros ? ? ? ? ?%elem_of_nil].
  split; [by intros ? ? [?%elem_of_nil|?%elem_of_nil]|split; by intros].
Qed.

Lemma ex_fresh_ok : fresh ex_fresh.
Proof. split; [apply ex_blank_ok|]. by split_and!. Qed.

Lemma ex_fresh_recorded : slots_recorded ex_fresh.
Proof. intros slot Hs. split; try by intros. all: by intros ? ? ?%elem_of_nil. Qed.

Lemma ex_run_applied : rtc (process_step ex_seen) ex_fresh ex_applied.
Proof.
  eapply rtc_l; [apply (Starts ex_seen ex_fresh ex_timeout ex_first_beat)|].
  apply rtc_once. by apply (Operates ex_seen ex_started ex_os ex_cgroups (ApplyText ex_text) []).
Qed.

Lemma ex_run_isolated : rtc (process_step ex_seen) ex_fresh ex_isolated.
Proof.
  eapply rtc_r; [apply ex_run_applied|].
  by apply (Operates ex_seen ex_applied ex_os ex_cgroups (Quarantine "rk.slice/agent") []).
Qed.

(** ** The host enforces *)

(** The profile is number 0; its binding and its policy. *)
Definition ex_no_policy : Policy (I:=reference_ipnet) := mk_Policy [] [] [] ∅.
Definition ex_agent_policy : Policy := default ex_no_policy (pe_policy ex_applied).
Definition ex_no_profile : Profile (I:=reference_ipnet) :=
  mk_Profile 0 "" Audit Allow false [] None (mk_FilePolicy [] false) [].

Lemma default_Some {A} (d : A) (o : option A) :
  (if o then true else false) = true -> o = Some (default d o).
Proof. by destruct o. Qed.

Lemma ex_in_force : pe_policy ex_applied = Some ex_agent_policy.
Proof. apply default_Some. by vm_compute. Qed.


Lemma ex_governed :
  result (K:=reference_kernel) (rk_governed_binding 900) (ex_now ex_applied) =
  Some (mk_rk_binding 0 0, 500).
Proof. by vm_compute. Qed.

(** An IPv4 destination in the byte order of the kernel, port 443, TCP. *)
Definition ex_https (ip : Z) : bpf_sock_addr := mk_bpf_sock_addr ip 0 0 0 0 0xbb01 6.




(** 169.254.169.254:443. *)
Lemma host_blocks_metadata_witness :
  result (K:=reference_kernel) (entry (Connect4 (ex_https 0xfea9fea9))) (ex_now ex_applied) = 0.
Proof.
  apply (host_blocks_metadata (K:=reference_kernel) (HK:=reference_kernel_laws) ex_seen
    ex_fresh ex_applied ex_fresh_ok ex_fresh_recorded ex_run_applied ex_agent_policy ex_in_force
    (ex_now ex_applied) eq_refl (mk_rk_binding 0 0) 500 ex_governed ex_text ex_policy_file "agent"
    ex_profile_file (Connect4 (ex_https 0xfea9fea9)) (ex_https 0xfea9fea9) (V4 [169; 254; 169; 254])).
  - by vm_compute.
  - reflexivity.
  - by left.
  - by vm_compute.
  - reflexivity.
  - by left.
  - left. apply list_elem_of_In. by vm_compute; left.
  - reflexivity.
Defined.

(** Without a heartbeat, and the map write of the quarantine fails: the record still says
    what the kernel holds. *)
Definition ex_unstarted : pengine := (perform (ApplyText ex_text) (begin [] ex_fresh)).2.
Definition ex_failed : pengine :=
  (perform (Quarantine "rk.slice/agent") (begin [false; true] ex_unstarted)).2.

Lemma engine_record_is_kernel_state_witness :
  m_cgroup_profile (e_maps (pe_kernel ex_failed)) !! 500 = Some (binding_value 0).
Proof.
  destruct (engine_record_is_kernel_state ex_fresh ex_failed ex_fresh_ok) as (_ & Hb & _).
  - eapply rtc_l; [apply (Step ex_os ex_cgroups (ApplyText ex_text) [] ex_fresh)|].
    apply rtc_once.
    exact (Step ex_os ex_cgroups (Quarantine "rk.slice/agent") [false; true] ex_unstarted).
  - apply (Hb 500 "rk.slice/agent" 0). by vm_compute.
Defined.

(** ** The parsed policy *)

Definition ex_parsed : Policy :=
  match (parse ex_text ex_ids).1 with inr p => p | inl _ => ex_no_policy end.
Definition ex_parsed_ids : ProfileIds := (parse ex_text ex_ids).2.

Lemma ex_parses : parse ex_text ex_ids = (inr ex_parsed, ex_parsed_ids).
Proof.
  unfold ex_parsed, ex_parsed_ids.
  assert ((if (parse ex_text ex_ids).1 then false else true) = true) as H by (by vm_compute).
  by destruct (parse ex_text ex_ids) as [[e|p] ids].
Qed.

Lemma ex_ids_ok : ids_ok ex_ids.
Proof. split; [cbn; unfold MAX_PROFILES; lia|]. split; by intros. Qed.

Lemma parsed_policy_wf_witness : policy_wf ex_parsed.
Proof. by destruct (parsed_policy_wf ex_text ex_ids ex_parsed ex_parsed_ids ex_ids_ok ex_parses). Defined.

Lemma profile_ids_stable_witness : ids_ok ex_parsed_ids.
Proof. by destruct (profile_ids_stable ex_text ex_ids ex_ids_ok). Defined.

Definition ex_parsed_profile : Profile := default ex_no_profile (head (po_profiles ex_parsed)).

(** Rule 10 is the allow rule of the profile. *)
Lemma rule_ids_lead_to_origin_witness :
  exists o, policy_origin ex_parsed 10 = Some o /\ ro_profile o = p_name ex_parsed_profile.
Proof.
  apply (rule_ids_lead_to_origin ex_text ex_ids ex_parsed ex_parsed_ids ex_parsed_profile 10
    ex_ids_ok ex_parses).
  - by vm_compute.
  - apply head_Some_elem_of, default_Some. by vm_compute.
  - apply list_elem_of_In. by vm_compute; tauto.
Defined.

Lemma parsed_bindings_valid_witness :
  NoDup (b_cgroup <$> po_bindings ex_parsed).
Proof. by destruct (parsed_bindings_valid ex_text ex_ids ex_parsed ex_parsed_ids ex_parses). Defined.

(** A pod of the namespace without an annotation gets the namespace's profile. *)
Lemma pods_stay_governed_witness :
  resolve_pod_profile ex_parsed "team" None <> inr None.
Proof.
  destruct (pods_stay_governed ex_text ex_ids ex_parsed ex_parsed_ids ex_policy_file "team" None
    ex_parses eq_refl) as ([Hin _] & [Hnone _] & _).
  intros H. apply Hnone in H as [_ H]. destruct Hin as [r Hr]; [by left|congruence].
Defined.

Lemma nat64_equivalent_exact_witness :
  exists space, mapped_v4_space (I:=reference_ipnet) = Some space /\
  forall n, nat64_equivalent n = None <-> contains_net space n = false.
Proof.
  pose proof (default_Some ref_net_any (mapped_v4_space (I:=reference_ipnet)) eq_refl) as Hs.
  eexists. split; [exact Hs|]. intros n. exact (proj1 (nat64_equivalent_exact _ n Hs)).
Defined.

(** ** The heartbeat and the registration *)

Definition ex_beat : engine := (start ex_timeout ex_first_beat ex_kernel).2.

Lemma ex_beat_start : start ex_timeout ex_first_beat ex_kernel = (Some ex_first_beat, ex_beat).
Proof. done. Qed.

(** Two wake-ups, the second late by a second. *)
Lemma beating_sensor_stays_fresh_witness :
  heartbeat_fresh (e_maps (heartbeat_loop ex_first_beat
    (woken 12000000000 (wakes ex_timeout ex_first_beat [0; 1000000000])) ex_beat).2) 12000000000.
Proof.
  apply (beating_sensor_stays_fresh ex_timeout ex_first_beat [0; 1000000000] 12000000000 ex_kernel
    ex_first_beat ex_beat); try reflexivity.
  - repeat constructor; vm_compute; congruence.
  - vm_compute. congruence.
  - vm_compute. split; congruence.
Defined.

(** The agent's policy under the scenario's clock of 10 s and a beat at 7 s. *)
Definition ex_stale : engine :=
  (start ex_timeout 7000000000 (pe_kernel ex_applied)).2.

Definition ex_dead : world := mk_world (e_maps ex_stale) ex_env ex_tele.

Lemma ex_stale_start :
  start ex_timeout 7000000000 (pe_kernel ex_applied) = (Some 7000000000, ex_stale).
Proof.
  unfold ex_stale. assert ((start ex_timeout 7000000000 (pe_kernel ex_applied)).1 = Some 7000000000)
    as H by (by vm_compute). by destruct (start _ _ _) as [r k]; cbn in H; subst r.
Qed.

Definition ex_dead_context : rk_gov :=
  default (mk_rk_gov 0 0 0 0 0 0 0) (result (K:=reference_kernel) rk_governance ex_dead).

Lemma ex_dead_governed : result (K:=reference_kernel) rk_governance ex_dead = Some ex_dead_context.
Proof. apply default_Some. by vm_compute. Qed.

Lemma ex_dead_bindings : bindings_wf (w_maps ex_dead).
Proof.
  assert (m_cgroup_profile (w_maps ex_dead) = {[500 := mk_rk_binding 0 0]}) as H by (by vm_compute).
  intros id b. rewrite H. intros [_ <-]%lookup_singleton_Some. cbn. lia.
Qed.

Lemma ex_dead_clock : clock_wf ex_dead.
Proof.
  assert (m_heartbeat (w_maps ex_dead) = Some 7000000000) as Hh by (by vm_compute).
  assert (cfg_heartbeat_timeout_ns <$> m_config (w_maps ex_dead) = Some 2000000000) as Hc
    by (by vm_compute).
  split; [cbn; lia|]. split.
  - intros last. rewrite Hh. intros [= <-]. lia.
  - intros cfg H. rewrite H in Hc. injection Hc as ->. lia.
Qed.

Lemma dead_sensor_eventually_denies_witness :
  result (K:=reference_kernel) (entry (Connect4 (ex_https 0x0100090a))) ex_dead = 0.
Proof.
  refine (dead_sensor_eventually_denies (K:=reference_kernel) ex_timeout 7000000000 []
    (pe_kernel ex_applied) 7000000000 ex_stale 7000000000 ex_stale
    (Connect4 (ex_https 0x0100090a)) ex_dead ex_dead_context _ ex_stale_start _ eq_refl eq_refl
    ex_dead_bindings ex_dead_clock _ ex_dead_governed _ eq_refl _).
  - lia.
  - constructor.
  - by vm_compute.
  - by vm_compute.
  - by vm_compute.
Defined.

Definition ex_stat_fields : list string :=
  ["S"; "1"; "4242"; "4242"; "0"; "-1"; "4194560"; "100"; "0"; "0"; "0"; "1"; "2"; "0"; "0"; "20";
   "0"; "3"; "0"; "123"; "1000"; "10"].

(** The scenario's sensor is task 60 of thread group 4242; its name holds parentheses. *)
Definition ex_stat_line : string := stat_line "4242" "rk) s) e(n" ex_stat_fields.
Definition ex_protected : engine := (protect_self 4242 (Some ex_stat_line) ex_kernel).2.

Lemma ex_protects : protect_self 4242 (Some ex_stat_line) ex_kernel = (Some tt, ex_protected).
Proof. by vm_compute. Qed.

Lemma ex_plain_fields :
  Forall (fun f => f <> EmptyString /\ Forall plain (chars f)) ex_stat_fields.
Proof. apply (bool_decide_unpack _). by vm_compute. Qed.

Lemma registered_sensor_recognised_witness :
  result (K:=reference_kernel) (rk_is_sensor 60)
    (mk_world (e_maps ex_protected) ex_env ex_tele) = true.
Proof.
  refine (proj2 (registered_sensor_recognised (K:=reference_kernel) 4242 "4242" "rk) s) e(n"
    ex_stat_fields "123" 123 ex_kernel ex_protected (mk_world (e_maps ex_protected) ex_env ex_tele) 60 _ ex_plain_fields eq_refl _ ex_protects
    eq_refl) _).
  - lia.
  - by vm_compute.
  - by vm_compute.
Defined.
