(* ===== verification/Relaunch.v ===== *)
(** * Concrete takeovers, and a dry run

    On the host of [Host] the sensor restarts after the quarantine, with its state file,
    and after a container was bound, without it; and the first apply is tried out. *)

From stdpp Require Import sorting.
From S2P Require Import Prelude Text Identity Abi Bpf Lpm Scenario Logic Common Governance.
From S2P Require Import Levels Net Exec File Guard Object Enforcement Ipnet Addr Policy.
From S2P Require Import Cidr Parse Flatten Reload Apply Resolve Engine Deploy Validated.
From S2P Require Import Bindings Metadata Resilience Steady Runtime Reparse Adopt Restart.
From S2P Require Import Serving Takeover Preview Naming EndToEnd Host.
Open Scope string_scope.
Open Scope list_scope.
Open Scope Z_scope.

(** ** After the quarantine *)

(** The cgroup tree below the root. *)
#[export] Instance ex_dirs : CgroupDirs := fun dir =>
  if decide (dir = EmptyString)
  then Some [mk_CgEntry "cgroup.procs" false (Some 2); mk_CgEntry "rk.slice" true (Some 400);
             mk_CgEntry "pod" true (Some 700)]
  else if decide (dir = "rk.slice") then Some [mk_CgEntry "agent" true (Some 500)]
  else None.

(** A new process over the maps the last one left. *)
Local Notation ex_relaunch s store :=
  (adopt (new_engine (e_maps (pe_kernel s)) [] true false store)).

Definition ex_resumed : pengine := (ex_relaunch ex_isolated (pe_store ex_isolated)).2.
Strategy expand [ex_resumed].

Lemma took_over {E B} (used : bool) (r : (E + bool) * B) :
  match r.1 with inr b => Bool.eqb b used | inl _ => false end = true -> r = (inr used, r.2).
Proof. by destruct r as [[e|[]] ?], used. Qed.

Lemma ex_resumes : ex_relaunch ex_isolated (pe_store ex_isolated) = (inr true, ex_resumed).
Proof. unfold ex_resumed. apply took_over. by vm_compute. Qed.

Lemma ex_run_resumed : rtc (process_step ex_seen) ex_fresh ex_resumed.
Proof.
  eapply rtc_r; [apply ex_run_isolated|].
  exact (Restarts ex_seen ex_isolated ex_dirs [] true false _ ex_resumes).
Qed.

Definition ex_resumed_policy : Policy := default ex_no_policy (pe_policy ex_resumed).

Lemma ex_resumed_in_force : pe_policy ex_resumed = Some ex_resumed_policy.
Proof. apply default_Some. by vm_compute. Qed.

Lemma ex_now_maps s : w_maps (ex_now s) = e_maps (pe_kernel s).
Proof. done. Qed.

(** The quarantine holds in the new process. *)
Lemma host_isolates_quarantined_witness :
  result (K:=reference_kernel) (entry (Connect4 (ex_https 0x0100090a))) (ex_now ex_resumed) = 0 /\
  result (K:=reference_kernel) (entry (ExecCheck 5 0)) (ex_now ex_resumed) = -1.
Proof.
  destruct (host_isolates_quarantined (K:=reference_kernel) (HK:=reference_kernel_laws) ex_seen
    ex_fresh ex_resumed ex_fresh_ok ex_fresh_recorded ex_run_resumed ex_resumed_policy
    ex_resumed_in_force (ex_now ex_resumed) (ex_now_maps ex_resumed) (mk_rk_binding 1 0) 500)
    as (Hnet & _ & Hexec); [by vm_compute|apply (bool_decide_unpack _); by vm_compute|].
  split; [by apply (Hnet (Connect4 (ex_https 0x0100090a)) (ex_https 0x0100090a) (V4 [10; 9; 0; 1]))|
    apply Hexec].
Defined.

Definition ex_isolated_policy : Policy := default ex_no_policy (pe_policy ex_isolated).

Lemma ex_isolated_in_force : pe_policy ex_isolated = Some ex_isolated_policy.
Proof. apply default_Some. by vm_compute. Qed.

(** An operation that changed a binding has written the file. *)
Lemma rebound_synced o s id :
  rewrites o = false ->
  bool_decide (bind_profile <$> m_cgroup_profile (e_maps (pe_kernel (perform o s).2)) !! id =
    bind_profile <$> m_cgroup_profile (e_maps (pe_kernel s)) !! id) = false ->
  synced (perform o s).2.
Proof.
  intros Ho Hne%bool_decide_eq_false. destruct (perform_settled o s Ho) as [[Hm _]|Hs]; [|done].
  by rewrite Hm in Hne.
Qed.

Lemma ex_isolated_synced : synced ex_isolated.
Proof. apply (rebound_synced _ _ 500); by vm_compute. Qed.

Lemma restart_restores_engine_witness :
  exists s', ex_relaunch ex_isolated (pe_store ex_isolated) = (inr true, s') /\
    pe_policy s' = Some ex_isolated_policy /\ pe_quarantined s' = pe_quarantined ex_isolated.
Proof.
  destruct (restart_restores_engine ex_seen ex_fresh ex_isolated ex_isolated_policy true false
    ex_fresh_ok ex_fresh_recorded ex_run_isolated ex_isolated_in_force ex_isolated_synced)
    as (s' & Ha & _ & _ & _ & Hp & _ & _ & Hq & _); [by vm_compute|by vm_compute|].
  exists s'. exact (conj Ha (conj Hp Hq)).
Defined.

(** ** After the state file was lost *)

(** The host also runs a pod. *)
#[local] Instance ex_pods : CgroupFs := {
  cg_create _ := true;
  cg_stat path := if decide (path = "rk.slice/agent") then inr (mk_CgMeta 500 0 493)
                  else if decide (path = "pod") then inr (mk_CgMeta 700 0 493)
                  else inl NotFound }.

Definition ex_with_pod : pengine :=
  (perform (C:=ex_pods) (BindContainer "pod" "agent") (begin [] ex_isolated)).2.

Definition ex_lost : StateFile := mk_StateFile true "epoch" None.

Lemma ex_run_with_pod : rtc (process_step ex_seen) ex_fresh ex_with_pod.
Proof.
  eapply rtc_r; [apply ex_run_isolated|].
  by apply (Operates ex_seen ex_isolated ex_os ex_pods (BindContainer "pod" "agent") []).
Qed.

Definition ex_left : policy_maps := e_maps (pe_kernel ex_with_pod).

Lemma ex_left_behind : left_behind ex_left 1.
Proof.
  assert (engine_ok (pe_kernel ex_with_pod)) as [Hm Hact _ _ _].
  { apply sound_prior, (reachable_running ex_seen ex_fresh); [apply ex_fresh_ok|apply ex_fresh_recorded|].
    apply ex_run_with_pod. }
  split; [done| |lia|].
  - by vm_compute.
  - intros id b Hb%elem_of_map_to_list.
    assert (Forall (fun e => bind_pad e.2 = 0) (map_to_list (m_cgroup_profile ex_left))) as Hall
      by (apply (bool_decide_unpack _); by vm_compute).
    rewrite Forall_forall in Hall. exact (Hall (id, b) Hb).
Qed.

Local Notation ex_reapplied :=
  (apply_text ex_text (begin [] (adopt (new_engine ex_left [] true false ex_lost)).2)).

Definition ex_reapplied_policy : Policy := default ex_no_policy (pe_policy ex_reapplied.2).

Lemma ex_pod_not_static :
  forallb (fun bd => match cg_stat (b_cgroup bd) with
                     | inr meta => negb (cm_ino meta =? 700)
                     | inl _ => true
                     end) (po_bindings ex_reapplied_policy) = true.
Proof. by vm_compute. Qed.

Lemma succeeded {E B} (r : (E + unit) * B) :
  match r.1 with inr _ => true | inl _ => false end = true -> r = (inr tt, r.2).
Proof. by destruct r as [[e|[]] ?]. Qed.

(** The pod, which the applied policy does not mention, stays bound to the profile. *)
Lemma lost_state_keeps_bindings_witness :
  m_cgroup_profile (e_maps (pe_kernel ex_reapplied.2)) !! 700 = Some (mk_rk_binding 0 0).
Proof.
  destruct (lost_state_keeps_bindings ex_left 1 true false ex_lost ex_text ex_left_behind eq_refl)
    as (s1 & Ha & _ & _ & Hkeep).
  apply (f_equal snd) in Ha. cbn [snd] in Ha. rewrite Ha.
  apply (Hkeep _ ex_reapplied_policy).
  - rewrite <- Ha. apply succeeded. by vm_compute.
  - rewrite <- Ha. apply default_Some. by vm_compute.
  - by vm_compute.
  - by vm_compute.
  - intros bd meta Hin%list_elem_of_In Hst.
    pose proof (proj1 (forallb_forall _ _) ex_pod_not_static bd Hin) as Hne. cbv beta in Hne.
    rewrite Hst in Hne. by apply Z.eqb_neq, negb_true_iff.
Defined.

(** ** The first apply, tried out *)

(** The agent's cgroup is missing. *)
#[local] Instance ex_nothing_there : CgroupLook := fun _ => false.

Definition ex_before : CgroupFs := {| cg_create _ := false; cg_stat _ := inl NotFound |}.

Lemma same_result {E A B} (a a' : A) (b b' : B) :
  (inr a : E + A, b) = (inr a', b') -> a = a'.
Proof. by intros [= ->]. Qed.

Lemma ex_parsed_bindings : po_bindings ex_parsed = [mk_Binding "rk.slice/agent" 0].
Proof. by vm_compute. Qed.

Lemma ex_only_creates policy ids :
  parse ex_text (pe_ids ex_fresh) = (inr policy, ids) ->
  only_creates ex_before ex_cgroups (po_bindings policy) ex_fresh.
Proof.
  intros Hp. change (parse ex_text (pe_ids ex_fresh)) with (parse ex_text ex_ids) in Hp.
  rewrite ex_parses in Hp. apply same_result in Hp. rewrite <- Hp.
  rewrite ex_parsed_bindings.
  split.
  - done.
  - intros b _ []. done.
  - intros b ->%list_elem_of_singleton _. exists (mk_CgMeta 500 0 493).
    split; [reflexivity|]. split; apply lookup_empty.
  - by intros b b' meta meta' ->%list_elem_of_singleton ->%list_elem_of_singleton.
  - intros id path [[profile H]|[profile H]]; exfalso; exact (lookup_empty_Some _ _ H).
Qed.

Lemma ex_announced :
  match (dry_run (C:=ex_before) ex_text ex_fresh).1 with
  | inr r => dr_generation r =? 1
  | inl _ => false
  end = true.
Proof. by vm_compute. Qed.

Lemma dry_run_predicts_apply_witness :
  exists s', apply_text (C:=ex_cgroups) ex_text ex_fresh = (inr tt, s') /\
    e_generation (pe_kernel s') = 1.
Proof.
  destruct (dry_run_predicts_apply ex_before ex_cgroups ex_text ex_fresh) as [_ H].
  - apply sound_prior. left. apply ex_fresh_ok.
  - reflexivity.
  - exact ex_only_creates.
  - pose proof ex_announced as Hr.
    destruct (dry_run (C:=ex_before) ex_text ex_fresh).1 as [e|r]; [discriminate Hr|].
    destruct H as (s' & Ha & Hg). exists s'. split; [exact Ha|].
    rewrite Hg. by apply Z.eqb_eq.
Defined.

(** The dry run does not see that a path cannot become a cgroup, the apply does. *)
Lemma dry_run_misses_blocked_path :
  match (dry_run (C:=ex_before) ex_text ex_fresh).1, (apply_text (C:=ex_before) ex_text ex_fresh).1 with
  | inr _, inl (CgroupIo path) => bool_decide (path = "rk.slice/agent")
  | _, _ => false
  end = true.
Proof. by vm_compute. Qed.

(** ** Names in the audit log *)



(** ** A quarantine before any policy is on record *)

Local Notation ex_forgotten := (adopt (new_engine (e_maps (pe_kernel ex_applied)) [] true false ex_lost)).2.
Local Notation ex_quarantined := (quarantine "rk.slice/agent" ex_forgotten).

(** After a takeover without a state file no profile id is known, so the number made up
    for the quarantine is that of another profile: the quarantine succeeds, the cgroup is
    listed, and its tasks connect as before. *)
Lemma quarantine_after_lost_state_isolates_nothing :
  match ex_quarantined.1 with inr _ => true | inl _ => false end = true /\
  bool_decide (500 ∈ pe_quarantined ex_quarantined.2) = true /\
  result (K:=reference_kernel) (entry (Connect4 (ex_https 0x0100090a))) (ex_now ex_quarantined.2) = 1.
Proof. split_and!; by vm_compute. Qed.
