(* ===== verification/Json.v ===== *)
(** * JSON

    The interface of the serde_json crate as the audit log uses it: values, printing and
    parsing.  An object is its entries in the order of the text; the code only looks keys
    up.  At the end a prefix code of values that is an instance of the interface. *)

From S2P Require Import Prelude Text.
Open Scope string_scope.
Open Scope list_scope.
Open Scope Z_scope.

Notation bytes := (list ascii).

Definition newline : ascii := byte_char 10.

(** [Value]; a number that is not an integer keeps its text. *)
Inductive Value : Set :=
| VNull
| VBool (b : bool)
| VNumber (n : Z)
| VFloat (repr : string)
| VString (s : string)
| VArray (l : list Value)
| VObject (l : list (string * Value)).

(** Integers are an i64 or a u64, and an object has no key twice. *)
Fixpoint value_ok (v : Value) : bool :=
  match v with
  | VNumber n => (- 2 ^ 63 <=? n) && (n <? 2 ^ 64)
  | VArray l => forallb value_ok l
  | VObject l => bool_decide (NoDup l.*1) && forallb (fun e => value_ok e.2) l
  | _ => true
  end.

Fixpoint get_key (k : string) (l : list (string * Value)) : option Value :=
  match l with
  | [] => None
  | (k', v) :: l => if decide (k = k') then Some v else get_key k l
  end.

(** [to_vec] prints compactly: a newline inside a string is escaped and there is none
    outside. *)
Class Json := {
  json_to_vec : Value -> bytes;
  json_from_slice : bytes -> option Value }.

Class JsonLaws (J : Json) : Prop := {
  json_one_line v : newline ∉ json_to_vec v;
  json_round_trip v : value_ok v = true -> json_from_slice (json_to_vec v) = Some v }.

(** ** Deserialisation of fields *)

Definition as_u64 (v : Value) : option Z :=
  match v with
  | VNumber n => if (0 <=? n) && (n <? 2 ^ 64) then Some n else None
  | _ => None
  end.

Definition as_u8 (v : Value) : option Z :=
  match v with
  | VNumber n => if (0 <=? n) && (n <? 2 ^ 8) then Some n else None
  | _ => None
  end.

Definition as_string (v : Value) : option string :=
  match v with
  | VString s => Some s
  | _ => None
  end.

Definition as_bool (v : Value) : option bool :=
  match v with
  | VBool b => Some b
  | _ => None
  end.

(** ** An instance: a prefix code

    Every value starts with a character for its kind; texts and numbers are given by their
    bits, lists element by element with a mark before each and one at the end. *)

Section Code.

Fixpoint code_positive (p : positive) : bytes :=
  match p with
  | xH => ["."]%char
  | xO p => "0"%char :: code_positive p
  | xI p => "1"%char :: code_positive p
  end.

Definition code_z (z : Z) : bytes :=
  match z with
  | Z0 => ["z"]%char
  | Zpos p => "p"%char :: code_positive p
  | Zneg p => "n"%char :: code_positive p
  end.

Fixpoint code_bits (l : list bool) : bytes :=
  match l with
  | [] => []
  | b :: l => (if b then "1" else "0")%char :: code_bits l
  end.

Definition bits_of_ascii (c : ascii) : list bool :=
  let 'Ascii a b c d e f g h := c in [a; b; c; d; e; f; g; h].

Fixpoint code_string (s : string) : bytes :=
  match s with
  | EmptyString => ["."]%char
  | String c s => "+"%char :: code_bits (bits_of_ascii c) ++ code_string s
  end.

Fixpoint code (v : Value) : bytes :=
  match v with
  | VNull => ["N"]%char
  | VBool b => ["B"; if b then "1" else "0"]%char
  | VNumber n => "I"%char :: code_z n
  | VFloat s => "F"%char :: code_string s
  | VString s => "S"%char :: code_string s
  | VArray l => "A"%char :: flat_map (fun v => "+"%char :: code v) l ++ ["."]%char
  | VObject l =>
      "O"%char :: flat_map (fun e => "+"%char :: code_string e.1 ++ code e.2) l ++ ["."]%char
  end.

(** Reading back; [fuel] bounds the number of steps. *)
Definition code_reader (A : Type) : Type := bytes -> option (A * bytes).

Fixpoint read_positive (l : bytes) : option (positive * bytes) :=
  match l with
  | c :: l =>
      if decide (c = ".")%char then Some (xH, l)
      else
        '(p, l) ← read_positive l;
        Some (if decide (c = "1")%char then xI p else xO p, l)
  | [] => None
  end.

Definition read_z : code_reader Z := fun l =>
  match l with
  | c :: l =>
      if decide (c = "z")%char then Some (0, l)
      else
        '(p, l) ← read_positive l;
        Some (if decide (c = "p")%char then Zpos p else Zneg p, l)
  | [] => None
  end.

Definition is_one (c : ascii) : bool := bool_decide (c = "1")%char.

Fixpoint read_string (l : bytes) : option (string * bytes) :=
  match l with
  | m :: a :: b :: c :: d :: e :: f :: g :: h :: l' =>
      if decide (m = ".")%char then Some (EmptyString, a :: b :: c :: d :: e :: f :: g :: h :: l')
      else
        '(s, l) ← read_string l';
        Some (String (Ascii (is_one a) (is_one b) (is_one c) (is_one d) (is_one e) (is_one f)
                (is_one g) (is_one h)) s, l)
  | m :: l => if decide (m = ".")%char then Some (EmptyString, l) else None
  | [] => None
  end.

Fixpoint read_many {A} (read : code_reader A) (fuel : nat) (l : bytes)
    : option (list A * bytes) :=
  match fuel, l with
  | S fuel, m :: l =>
      if decide (m = ".")%char then Some ([], l)
      else
        '(a, l) ← read l;
        '(rest, l) ← read_many read fuel l;
        Some (a :: rest, l)
  | _, _ => None
  end.

Fixpoint read_value (fuel : nat) (l : bytes) : option (Value * bytes) :=
  match fuel, l with
  | S fuel, c :: l =>
      if decide (c = "N")%char then Some (VNull, l)
      else if decide (c = "B")%char then
        match l with
        | b :: l => Some (VBool (is_one b), l)
        | [] => None
        end
      else if decide (c = "I")%char then '(n, l) ← read_z l; Some (VNumber n, l)
      else if decide (c = "F")%char then '(s, l) ← read_string l; Some (VFloat s, l)
      else if decide (c = "S")%char then '(s, l) ← read_string l; Some (VString s, l)
      else if decide (c = "A")%char then
        '(vs, l) ← read_many (read_value fuel) fuel l; Some (VArray vs, l)
      else
        '(es, l) ← read_many (fun l => '(k, l) ← read_string l; '(v, l) ← read_value fuel l;
                               Some ((k, v), l)) fuel l;
        Some (VObject es, l)
  | _, _ => None
  end.

Definition coded_json : Json := {|
  json_to_vec := code;
  json_from_slice l :=
    match read_value (length l) l with
    | Some (v, []) => Some v
    | _ => None
    end |}.

Lemma Value_nested_ind (P : Value -> Prop) :
  P VNull -> (forall b, P (VBool b)) -> (forall n, P (VNumber n)) -> (forall s, P (VFloat s)) ->
  (forall s, P (VString s)) -> (forall l, Forall P l -> P (VArray l)) ->
  (forall l, Forall (fun e => P e.2) l -> P (VObject l)) -> forall v, P v.
Proof.
  intros HN HB HI HF HS HA HO.
  refine (fix go v := match v with
    | VNull => HN | VBool b => HB b | VNumber n => HI n | VFloat s => HF s | VString s => HS s
    | VArray l => HA l ((fix all l : Forall P l :=
        match l with [] => Forall_nil_2 _ | v :: l => Forall_cons_2 _ _ _ (go v) (all l) end) l)
    | VObject l => HO l ((fix all l : Forall (fun e => P e.2) l :=
        match l with [] => Forall_nil_2 _ | e :: l => Forall_cons_2 _ _ _ (go e.2) (all l) end) l)
    end).
Qed.

Lemma read_positive_code p l : read_positive (code_positive p ++ l) = Some (p, l).
Proof. induction p as [p IH|p IH|]; cbn; [by rewrite IH..|done]. Qed.

Lemma read_z_code z l : read_z (code_z z ++ l) = Some (z, l).
Proof. destruct z as [|p|p]; cbn; by rewrite ?read_positive_code. Qed.

Lemma read_string_code s l : read_string (code_string s ++ l) = Some (s, l).
Proof.
  induction s as [|[a b c d e f g h] s IH].
  - cbn. by do 8 (destruct l as [|? l]; [done|]).
  - cbn. rewrite IH. cbn. by destruct a, b, c, d, e, f, g, h.
Qed.

Lemma read_many_code {A} (read : code_reader A) (enc : A -> bytes) vs fuel l :
  Forall (fun v => forall l, read (enc v ++ l) = Some (v, l)) vs -> (length vs < fuel)%nat ->
  read_many read fuel (flat_map (fun v => "+"%char :: enc v) vs ++ "."%char :: l) = Some (vs, l).
Proof.
  intros Hvs. revert fuel. induction Hvs as [|v vs Hv _ IH]; intros [|fuel] Hf; cbn in *; try lia.
  - done.
  - rewrite <- app_assoc, Hv. cbn. by rewrite IH by lia.
Qed.

Lemma flat_map_length_le {A} (enc : A -> bytes) vs v :
  v ∈ vs -> (length (enc v) < length (flat_map (fun v => "+"%char :: enc v) vs))%nat.
Proof.
  induction vs as [|w vs IH]; [by intros ?%not_elem_of_nil|].
  intros [->|Hv]%elem_of_cons; cbn; rewrite length_app; [lia|]. specialize (IH Hv). lia.
Qed.

Lemma flat_map_count {A} (enc : A -> bytes) vs :
  (length vs <= length (flat_map (fun v => "+"%char :: enc v) vs))%nat.
Proof. induction vs as [|v vs IH]; cbn; [lia|]. rewrite length_app. lia. Qed.

Lemma read_value_code v : forall fuel l,
  (length (code v) <= fuel)%nat -> read_value fuel (code v ++ l) = Some (v, l).
Proof.
  induction v as [|b|n|s|s|vs IH|es IH] using Value_nested_ind; intros [|fuel] l Hf;
    cbn in Hf; try lia; cbn.
  - done.
  - by destruct b.
  - by rewrite read_z_code.
  - by rewrite read_string_code.
  - by rewrite read_string_code.
  - rewrite length_app in Hf. cbn in Hf. rewrite <- app_assoc. cbn.
    pose proof (flat_map_count code vs). rewrite read_many_code; [done| |lia].
    rewrite Forall_forall in IH |- *. intros v Hv l'. apply IH; [done|].
    pose proof (flat_map_length_le code vs v Hv). lia.
  - rewrite length_app in Hf. cbn in Hf. rewrite <- app_assoc. cbn.
    set (enc := fun e : string * Value => code_string e.1 ++ code e.2) in *.
    pose proof (flat_map_count enc es). rewrite (read_many_code _ enc); [done| |unfold enc in *; lia].
    rewrite Forall_forall in IH |- *. intros [k v] Hv l'. unfold enc at 1. cbn.
    rewrite <- app_assoc, read_string_code. cbn.
    specialize (IH (k, v) Hv fuel l'). cbn in IH. rewrite IH; [done|].
    pose proof (flat_map_length_le enc es (k, v) Hv) as Hl. unfold enc in Hl, Hf.
    cbn in Hl. rewrite length_app in Hl. lia.
Qed.

(** No code has a newline. *)
Lemma code_positive_line p : newline ∉ code_positive p.
Proof. induction p; cbn; rewrite ?not_elem_of_cons; split_and?; (done || by apply not_elem_of_nil). Qed.

Lemma code_string_line s : newline ∉ code_string s.
Proof.
  induction s as [|[a b c d e f g h] s IH]; cbn; rewrite ?not_elem_of_cons.
  - split; [done|apply not_elem_of_nil].
  - split_and!; try done; by case_match.
Qed.

Lemma flat_map_line {A} (enc : A -> bytes) vs :
  Forall (fun v => newline ∉ enc v) vs ->
  newline ∉ flat_map (fun v => "+"%char :: enc v) vs ++ ["."]%char.
Proof.
  induction 1 as [|v vs Hv _ IH]; cbn.
  - rewrite not_elem_of_cons. split; [done|apply not_elem_of_nil].
  - rewrite <- app_assoc, not_elem_of_cons, not_elem_of_app. by split_and!.
Qed.

Lemma code_line v : newline ∉ code v.
Proof.
  induction v as [|b|n|s|s|vs IH|es IH] using Value_nested_ind; cbn;
    rewrite not_elem_of_cons; (split; [done|]).
  - apply not_elem_of_nil.
  - rewrite not_elem_of_cons. split; [by destruct b|apply not_elem_of_nil].
  - destruct n as [|p|p]; cbn; rewrite not_elem_of_cons; split;
      (done || apply not_elem_of_nil || apply code_positive_line).
  - apply code_string_line.
  - apply code_string_line.
  - by apply (flat_map_line code).
  - apply (flat_map_line (fun e => code_string e.1 ++ code e.2)).
    eapply Forall_impl; [done|]. intros e He. rewrite not_elem_of_app.
    split; [apply code_string_line|done].
Qed.

Lemma coded_json_laws : JsonLaws coded_json.
Proof.
  split; cbn.
  - apply code_line.
  - intros v _. rewrite <- (app_nil_r (code v)) at 2. by rewrite read_value_code.
Qed.

End Code.
