(* ===== verification/Crypto.v ===== *)
(** * Digests, signatures and hexadecimal text

    The interfaces of the sha2, ed25519-dalek and hex crates as the audit log uses them.
    Nothing here says that digests do not collide or that signatures cannot be forged:
    the theorems that need it name the inputs for which they do.  At the end instances
    that evaluate; they are not secure. *)

From S2P Require Import Prelude Text Json.
Open Scope string_scope.
Open Scope list_scope.
Open Scope Z_scope.

(** A signing key is its seed.  [ed_verify] parses the public key and verifies. *)
Class Crypto := {
  sha256 : bytes -> bytes;
  ed_public : bytes -> bytes;
  ed_sign : bytes -> bytes -> bytes;
  ed_verify : bytes -> bytes -> bytes -> bool }.

Class CryptoLaws (C : Crypto) : Prop := {
  sha256_length m : length (sha256 m) = 32%nat;
  ed_public_length seed : length (ed_public seed) = 32%nat;
  ed_sign_length seed m : length (ed_sign seed m) = 64%nat;
  ed_sign_verifies seed m : ed_verify (ed_public seed) m (ed_sign seed m) = true }.

Class Hex := {
  hex_encode : bytes -> string;
  hex_decode : string -> option bytes }.

Definition is_hex_digit (c : ascii) : bool :=
  is_ascii_digit c || in_range "a" "f" c || in_range "A" "F" c.

Class HexLaws (H : Hex) : Prop := {
  hex_round_trip b : hex_decode (hex_encode b) = Some b;
  hex_digits b : Forall (fun c => is_hex_digit c = true) (chars (hex_encode b)) }.

(** There is nothing to trim around hexadecimal digits. *)
Lemma hex_digit_not_white c r :
  is_hex_digit c = true ->
  strip_any white_space (c :: r) = None /\ strip_any (reverse <$> white_space) (c :: r) = None.
Proof.
  destruct c as [[] [] [] [] [] [] [] []]; intros H;
    first [vm_compute in H; discriminate H|split; vm_compute; reflexivity].
Qed.

Lemma trim_hex s : Forall (fun c => is_hex_digit c = true) (chars s) -> trim s = s.
Proof.
  intros Hs. unfold trim. rewrite trim_start_none.
  - destruct (last (chars s)) as [c|] eqn:Hl.
    + rewrite (trim_end_none _ _ c Hl), text_chars; [done|].
      apply last_Some in Hl as [l' Hl]. rewrite Hl, Forall_app, Forall_singleton in Hs.
      intros r. exact (proj2 (hex_digit_not_white c r (proj2 Hs))).
    + apply last_None in Hl. rewrite Hl. vm_compute.
      rewrite <- (text_chars s), Hl. done.
  - destruct Hs as [|c l Hc _]; [done|].
    exact (proj1 (hex_digit_not_white c l Hc)).
Qed.

(** ** Integers as bytes *)

(** [to_be_bytes] of a u64. *)
Definition byte_of (z : Z) : ascii := ascii_of_N (Z.to_N (z mod 256)).

Fixpoint le_bytes (n : nat) (z : Z) : bytes :=
  match n with
  | O => []
  | S n => byte_of z :: le_bytes n (z / 256)
  end.

Definition be_bytes (z : Z) : bytes := rev (le_bytes 8 z).

Lemma le_bytes_length n z : length (le_bytes n z) = n.
Proof. revert z. induction n as [|n IH]; intros z; cbn; [done|]. by rewrite IH. Qed.

Lemma be_bytes_length z : length (be_bytes z) = 8%nat.
Proof. unfold be_bytes. by rewrite length_rev, le_bytes_length. Qed.

Lemma byte_of_inj a b : byte_of a = byte_of b -> a mod 256 = b mod 256.
Proof.
  unfold byte_of. intros H%(f_equal N_of_ascii).
  pose proof (Z.mod_pos_bound a 256 ltac:(lia)). pose proof (Z.mod_pos_bound b 256 ltac:(lia)).
  rewrite !N_ascii_embedding in H by lia. lia.
Qed.

Lemma le_bytes_inj n a b :
  0 <= a < 256 ^ Z.of_nat n -> 0 <= b < 256 ^ Z.of_nat n ->
  le_bytes n a = le_bytes n b -> a = b.
Proof.
  revert a b. induction n as [|n IH]; intros a b Ha Hb H; [cbn in *; lia|].
  rewrite Nat2Z.inj_succ, Z.pow_succ_r in Ha, Hb by lia.
  cbn in H. injection H as Hm%byte_of_inj Hd.
  rewrite (Z.div_mod a 256), (Z.div_mod b 256), Hm by lia. f_equal. f_equal. apply IH, Hd.
  - split; [apply Z.div_pos; lia|apply Z.div_lt_upper_bound; lia].
  - split; [apply Z.div_pos; lia|apply Z.div_lt_upper_bound; lia].
Qed.

Lemma be_bytes_inj a b :
  0 <= a < 2 ^ 64 -> 0 <= b < 2 ^ 64 -> be_bytes a = be_bytes b -> a = b.
Proof.
  intros Ha Hb H. apply (le_bytes_inj 8); [done..|].
  unfold be_bytes in H. by apply rev_inj in H.
Qed.

(** ** Instances *)

Definition pad (n : nat) (b : bytes) : bytes := take n (b ++ repeat (byte_of 0) n).

Lemma pad_length n b : length (pad n b) = n.
Proof. unfold pad. rewrite length_take, length_app, repeat_length. lia. Qed.

(** A polynomial digest, and a signature that names message and key. *)
Definition toy_digest (m : bytes) : bytes :=
  le_bytes 32 (foldl (fun h c => (h * 257 + Z.of_N (N_of_ascii c) + 1) mod 2 ^ 256) 1 m).

Definition toy_sign (seed m : bytes) : bytes := pad 64 (pad 32 m ++ pad 32 seed).

Definition toy_crypto : Crypto := {|
  sha256 := toy_digest;
  ed_public := pad 32;
  ed_sign := toy_sign;
  ed_verify pk m sig := bool_decide (sig = pad 64 (pad 32 m ++ pk)) |}.

Lemma toy_crypto_laws : CryptoLaws toy_crypto.
Proof.
  split.
  - intros m. apply le_bytes_length.
  - intros seed. apply pad_length.
  - intros seed m. apply pad_length.
  - intros seed m. by apply bool_decide_eq_true.
Qed.

Definition hex_digit (n : nat) : ascii :=
  if (n <? 10)%nat then byte_char (48 + n) else byte_char (87 + n).

Definition hex_value (c : ascii) : option nat :=
  let n := nat_of_ascii c in
  if (48 <=? n)%nat && (n <=? 57)%nat then Some (n - 48)%nat
  else if (97 <=? n)%nat && (n <=? 102)%nat then Some (n - 87)%nat
  else if (65 <=? n)%nat && (n <=? 70)%nat then Some (n - 55)%nat
  else None.

Definition hex_of_byte (c : ascii) : list ascii :=
  [hex_digit (nat_of_ascii c / 16); hex_digit (nat_of_ascii c mod 16)].

Fixpoint unhex (l : list ascii) : option bytes :=
  match l with
  | [] => Some []
  | [_] => None
  | a :: b :: l =>
      a ← hex_value a; b ← hex_value b; rest ← unhex l;
      Some (byte_char (16 * a + b) :: rest)
  end.

Definition plain_hex : Hex := {|
  hex_encode b := text (flat_map hex_of_byte b);
  hex_decode s := unhex (chars s) |}.

Lemma hex_byte_round_trip c l :
  unhex (hex_of_byte c ++ l) = (fun rest => c :: rest) <$> unhex l.
Proof. destruct c as [[] [] [] [] [] [] [] []]; cbn; by destruct (unhex l). Qed.

Lemma plain_hex_laws : HexLaws plain_hex.
Proof.
  split; intros b; cbn; rewrite chars_text.
  - induction b as [|c b IH]; [done|]. cbn [flat_map]. by rewrite hex_byte_round_trip, IH.
  - induction b as [|c b IH]; [constructor|]. cbn [flat_map]. apply Forall_app. split; [|done].
    destruct c as [[] [] [] [] [] [] [] []]; repeat constructor.
Qed.
