(* ===== verification/AuditWriter.v ===== *)
(** * The audit log: format and writer ([rk-audit/src/chain.rs], [key.rs])

    Batches of record lines, each closed by a signed trailer that chains it to the one
    before; segment files that start with a header; the writer, which appends, seals and
    starts segments; and the recovery of the chain position when a log is opened.  Files
    and their contents are explicit; any file operation may fail, a write after any number
    of bytes. *)

From stdpp Require Import sorting.
From S2P Require Import Prelude Text Json Crypto.
Open Scope string_scope.
Open Scope list_scope.
Open Scope Z_scope.

Definition DOMAIN : bytes := chars "rk-audit-v1".
Definition DOMAIN_V2 : bytes := chars "rk-audit-v2".
Definition TRAILER_V2 : Z := 2.
Definition GENESIS : bytes := repeat (byte_of 0) 32.

Record SegmentHeader : Set := mk_SegmentHeader {
  sh_seq : Z; sh_prev : string; sh_key_id : string; sh_public_key : string }.

Record Trailer : Set := mk_Trailer {
  t_seq : Z; t_records : Z; t_prev : string; t_hash : string; t_sig : string;
  t_key_id : string; t_recovered : bool; t_v : Z }.

Inductive Control : Set :=
| Segment (h : SegmentHeader)
| Batch (t : Trailer).

Inductive InvalidLine : Set := NotJson | NotObject | MalformedControl.

Inductive Line : Set :=
| LSegment (h : SegmentHeader)
| LBatch (t : Trailer)
| LRecord
| LInvalid (why : InvalidLine).

Record Head : Set := mk_Head { h_next_seq : Z; h_hash : bytes }.

#[export] Instance Head_eq_dec : EqDecision Head.
Proof. solve_decision. Defined.

(** ** Serialisation of the control lines *)

(** Fields that are false or 0 are not written. *)
Definition control_value (c : Control) : Value :=
  match c with
  | Segment h =>
      VObject [("rk_segment", VObject
        [("seq", VNumber (sh_seq h)); ("prev", VString (sh_prev h));
         ("key_id", VString (sh_key_id h)); ("public_key", VString (sh_public_key h))])]
  | Batch t =>
      VObject [("rk_batch", VObject
        ([("seq", VNumber (t_seq t)); ("records", VNumber (t_records t));
          ("prev", VString (t_prev t)); ("hash", VString (t_hash t));
          ("sig", VString (t_sig t)); ("key_id", VString (t_key_id t))] ++
         (if t_recovered t then [("recovered", VBool true)] else []) ++
         (if t_v t =? 0 then [] else [("v", VNumber (t_v t))])))]
  end.

(** A struct is read from an object, where unknown keys are ignored, or from an array of
    its fields in order. *)
Definition header_from_value (v : Value) : option SegmentHeader :=
  match v with
  | VObject l =>
      seq ← get_key "seq" l ≫= as_u64;
      prev ← get_key "prev" l ≫= as_string;
      key_id ← get_key "key_id" l ≫= as_string;
      public_key ← get_key "public_key" l ≫= as_string;
      Some (mk_SegmentHeader seq prev key_id public_key)
  | VArray [seq; prev; key_id; public_key] =>
      seq ← as_u64 seq;
      prev ← as_string prev;
      key_id ← as_string key_id;
      public_key ← as_string public_key;
      Some (mk_SegmentHeader seq prev key_id public_key)
  | _ => None
  end.

(** A field with a default may be missing. *)
Definition or_default {A} (default : A) (read : Value -> option A) (v : option Value)
    : option A :=
  match v with
  | None => Some default
  | Some v => read v
  end.

Definition trailer_from_value (v : Value) : option Trailer :=
  match v with
  | VObject l =>
      seq ← get_key "seq" l ≫= as_u64;
      records ← get_key "records" l ≫= as_u64;
      prev ← get_key "prev" l ≫= as_string;
      hash ← get_key "hash" l ≫= as_string;
      sig ← get_key "sig" l ≫= as_string;
      key_id ← get_key "key_id" l ≫= as_string;
      recovered ← or_default false as_bool (get_key "recovered" l);
      v ← or_default 0 as_u8 (get_key "v" l);
      Some (mk_Trailer seq records prev hash sig key_id recovered v)
  | VArray (seq :: records :: prev :: hash :: sig :: key_id :: more) =>
      seq ← as_u64 seq;
      records ← as_u64 records;
      prev ← as_string prev;
      hash ← as_string hash;
      sig ← as_string sig;
      key_id ← as_string key_id;
      recovered ← or_default false as_bool (more !! 0%nat);
      v ← or_default 0 as_u8 (more !! 1%nat);
      if (2 <? length more)%nat then None
      else Some (mk_Trailer seq records prev hash sig key_id recovered v)
  | _ => None
  end.

(** An enum is an object with the variant's name as its only key. *)
Definition control_from_value (v : Value) : option Control :=
  match v with
  | VObject [(variant, v)] =>
      if decide (variant = "rk_segment") then Segment <$> header_from_value v
      else if decide (variant = "rk_batch") then Batch <$> trailer_from_value v
      else None
  | _ => None
  end.

Section Audit.
Context {J : Json} {C : Crypto} {X : Hex}.

Definition classify (line : bytes) : Line :=
  match json_from_slice line with
  | None => LInvalid NotJson
  | Some value =>
      match value with
      | VObject obj =>
          if bool_decide (is_Some (get_key "rk_segment" obj) \/ is_Some (get_key "rk_batch" obj))
          then
            match control_from_value value with
            | Some (Segment h) => LSegment h
            | Some (Batch t) => LBatch t
            | None => LInvalid MalformedControl
            end
          else LRecord
      | _ => LInvalid NotObject
      end
  end.

Definition control_line (c : Control) : bytes := json_to_vec (control_value c) ++ [newline].

(** ** Hashes *)

Definition sized (n : nat) (b : bytes) : option bytes :=
  if (length b =? n)%nat then Some b else None.

Definition hex32 (s : string) : option bytes := hex_decode s ≫= sized 32.
Definition hex64 (s : string) : option bytes := hex_decode s ≫= sized 64.

Definition batch_hash (prev : bytes) (seq : Z) (records : bytes) : bytes :=
  sha256 (DOMAIN ++ prev ++ be_bytes seq ++ records).

Definition batch_hash_v2 (prev : bytes) (seq count : Z) (records : bytes) : bytes :=
  sha256 (DOMAIN_V2 ++ prev ++ be_bytes seq ++ be_bytes count ++ records).

Definition trailer_hash (prev : bytes) (t : Trailer) (records : bytes) : option bytes :=
  if t_v t =? 0 then Some (batch_hash prev (t_seq t) records)
  else if (t_v t =? TRAILER_V2) && negb (t_recovered t)
  then Some (batch_hash_v2 prev (t_seq t) (t_records t) records)
  else None.

(** [key.rs]. *)
Definition key_id (public_key : bytes) : string := hex_encode (take 8 (sha256 public_key)).

Definition parse_public_key (s : string) : option bytes := hex_decode (trim s) ≫= sized 32.

Definition Head_parse (s : string) : option Head :=
  '(seq, hash) ← split_once ":" (trim s);
  seq ← parse_uint u64_max seq;
  hash ← hex32 hash;
  Some (mk_Head seq hash).

(** ** Lines *)

(** [split_inclusive]: every line with its newline, the last one possibly without. *)
Fixpoint split_inclusive (l : bytes) : list bytes :=
  match l with
  | [] => []
  | c :: l =>
      if decide (c = newline) then [c] :: split_inclusive l
      else
        match split_inclusive l with
        | [] => [[c]]
        | line :: lines => (c :: line) :: lines
        end
  end.

Definition complete (line : bytes) : bool := bool_decide (last line = Some newline).

(** The line without its newline. *)
Definition body (line : bytes) : bytes := take (length line - 1) line.

(** ** Files

    The audit directory: the contents of its files by name, how much of each is known to
    be on disk, and what the coming operations do: [None] succeeds, [Some n] fails, a write
    after [n] bytes.  When the list is exhausted they succeed. *)

Record fs : Set := mk_fs {
  fs_files : gmap string bytes; fs_synced : gmap string nat; fs_faults : list (option nat) }.

Inductive AuditError : Set :=
| IoError
| BadPrev
| BadPublicKey
| WrongName (seq : Z)
| NoHeader.

Definition io (S A : Type) : Type := S -> (AuditError + A) * S.

#[global] Instance io_ret {S} : MRet (io S) := fun A a s => (inr a, s).
#[global] Instance io_bind {S} : MBind (io S) := fun A B f m s =>
  match m s with
  | (inl e, s) => (inl e, s)
  | (inr a, s) => f a s
  end.

Definition abort {S A} (e : AuditError) : io S A := fun s => (inl e, s).
Definition ask_io {S A} (f : S -> A) : io S A := fun s => (inr (f s), s).
Definition update_io {S} (f : S -> S) : io S unit := fun s => (inr tt, f s).

(** The error discarded. *)
Definition try_io {S A} (m : io S A) : io S unit := fun s => (inr tt, (m s).2).

(** One operation. *)
Definition operate (f : fs -> fs) : io fs unit := fun s =>
  let s' := mk_fs (fs_files s) (fs_synced s) (tail (fs_faults s)) in
  match head (fs_faults s) with
  | Some (Some _) => (inl IoError, s')
  | _ => (inr tt, f s')
  end.

Definition read_file (name : string) : io fs bytes :=
  operate id;;
  data ← ask_io (fun s => fs_files s !! name);
  match data with
  | Some data => mret data
  | None => abort IoError
  end.

Definition remove_file (name : string) : io fs unit :=
  operate (fun s => mk_fs (delete name (fs_files s)) (delete name (fs_synced s)) (fs_faults s)).

Definition rename (from to : string) : io fs unit :=
  operate (fun s =>
    match fs_files s !! from with
    | Some data =>
        mk_fs (<[to := data]> (delete from (fs_files s)))
          (match fs_synced s !! from with
           | Some n => <[to := n]> (delete from (fs_synced s))
           | None => delete to (fs_synced s)
           end) (fs_faults s)
    | None => s
    end).

(** Opened for writing, emptied. *)
Definition create (name : string) : io fs unit :=
  operate (fun s => mk_fs (<[name := []]> (fs_files s)) (delete name (fs_synced s)) (fs_faults s)).

(** Opened for writing; it must not exist. *)
Definition create_new (name : string) : io fs unit :=
  taken ← ask_io (fun s => bool_decide (is_Some (fs_files s !! name)));
  if (taken : bool) then abort IoError else create name.

Definition append_to (name : string) (data : bytes) (s : fs) : fs :=
  mk_fs (<[name := default [] (fs_files s !! name) ++ data]> (fs_files s)) (fs_synced s)
    (fs_faults s).

(** [write_all] on the file itself. *)
Definition write_file (name : string) (data : bytes) : io fs unit := fun s =>
  let s' := mk_fs (fs_files s) (fs_synced s) (tail (fs_faults s)) in
  match head (fs_faults s) with
  | Some (Some n) => (inl IoError, append_to name (take n data) s')
  | _ => (inr tt, append_to name data s')
  end.

Definition sync (name : string) : io fs unit :=
  operate (fun s =>
    mk_fs (fs_files s) (<[name := length (default [] (fs_files s !! name))]> (fs_synced s))
      (fs_faults s)).

Definition set_len (name : string) (n : nat) : io fs unit :=
  operate (fun s =>
    mk_fs (alter (take n) name (fs_files s)) (alter (Nat.min n) name (fs_synced s)) (fs_faults s)).

(** [read_dir]. *)
Definition list_names : io fs (list string) :=
  operate id;; ask_io (fun s => (map_to_list (fs_files s)).*1).

(** *** [BufWriter<File>]

    The state is the buffer and the directory. *)

Definition BUF_SIZE : nat := 8192.

Definition on_file {B A} (m : io fs A) : io (B * fs) A := fun '(b, s) =>
  let '(r, s) := m s in (r, (b, s)).

(** What a failed write did write leaves the buffer. *)
Definition flush_buf (file : string) : io (bytes * fs) unit := fun '(buffer, s) =>
  let n := match head (fs_faults s) with
           | Some (Some n) => n
           | _ => length buffer
           end in
  let '(r, s) := write_file file buffer s in (r, (drop n buffer, s)).

Definition buffer_room : io (bytes * fs) nat := ask_io (fun s => BUF_SIZE - length s.1)%nat.

Definition fill (data : bytes) : io (bytes * fs) unit :=
  update_io (fun '(buffer, s) => (buffer ++ data, s)).

Definition write_all (file : string) (data : bytes) : io (bytes * fs) unit :=
  room ← buffer_room;
  if (length data <? room)%nat then fill data
  else
    (if (room <? length data)%nat then flush_buf file else mret tt);;
    if (BUF_SIZE <=? length data)%nat then on_file (write_file file data) else fill data.

(** ** The writer *)

Record Discarded : Set := mk_Discarded {
  d_path : string; d_lines : Z; d_bytes : Z; d_forged : bool }.

Record WriterOptions : Set := mk_WriterOptions {
  wo_batch_records : Z; wo_batch_interval : Z; wo_segment_bytes : Z }.

Definition WriterOptions_default : WriterOptions := mk_WriterOptions 256 1000 (64 * 2 ^ 20).

(** [{first_seq:020}.jsonl] of a u64. *)
Definition decimal (z : Z) : ascii := byte_char (48 + Z.to_nat (z mod 10)).

Fixpoint decimals (n : nat) (z : Z) : list ascii :=
  match n with
  | O => []
  | S n => decimals n (z / 10) ++ [decimal z]
  end.

Definition segment_name (first_seq : Z) : string := text (decimals 20 first_seq) +:+ ".jsonl".

(** [Path::extension]: what follows the last dot, unless only the dot's left is empty. *)
Fixpoint split_last (c : ascii) (l : list ascii) : option (list ascii * list ascii) :=
  match l with
  | [] => None
  | a :: l =>
      match split_last c l with
      | Some (pre, post) => Some (a :: pre, post)
      | None => if decide (a = c) then Some ([], l) else None
      end
  end.

Definition extension (name : string) : option string :=
  '(stem, ext) ← split_last "." (chars name);
  match stem with
  | [] => None
  | _ => Some (text ext)
  end.

Definition is_segment (name : string) : bool := bool_decide (extension name = Some "jsonl").

Definition segments : io fs (list string) :=
  names ← list_names;
  mret (merge_sort String.le (filter (fun n => is_segment n = true) names)).

(** [w_file] and [w_buffer] are the [BufWriter]; times are in milliseconds. *)
Record Writer : Set := mk_Writer {
  w_key : bytes; w_opts : WriterOptions; w_file : string; w_buffer : bytes;
  w_segment_len : Z; w_head : Head; w_pending : bytes; w_pending_records : Z;
  w_batch_started : option Z; w_discarded : list Discarded }.

Definition sign_batch (key : bytes) (head : Head) (records : bytes) (count : Z) : Trailer :=
  let hash := batch_hash_v2 (h_hash head) (h_next_seq head) count records in
  mk_Trailer (h_next_seq head) count (hex_encode (h_hash head)) (hex_encode hash)
    (hex_encode (ed_sign key hash)) (key_id (ed_public key)) false TRAILER_V2.

Definition segment_header (key : bytes) (head : Head) : SegmentHeader :=
  mk_SegmentHeader (h_next_seq head) (hex_encode (h_hash head)) (key_id (ed_public key))
    (hex_encode (ed_public key)).

(** A [BufWriter] that goes out of scope writes what it still holds. *)
Definition start_segment (key : bytes) (head : Head) : io fs (string * Z) := fun s =>
  let name := segment_name (h_next_seq head) in
  let header := control_line (Segment (segment_header key head)) in
  match create name s with
  | (inl e, s) => (inl e, s)
  | (inr _, s) =>
      match (write_all name header;; flush_buf name) ([], s) with
      | (inr _, (_, s)) => (inr (name, Z.of_nat (length header)), s)
      | (inl e, out) => (inl e, (try_io (flush_buf name) out).2.2)
      end
  end.

(** *** Recovery *)

Definition DISCARDED_MARK : string := ".jsonl.unsealed".
Definition FORGED_MARK : string := ".jsonl.forged".

Fixpoint digits_of (fuel : nat) (z : Z) : list ascii :=
  match fuel with
  | O => []
  | S fuel => (if z <? 10 then [] else digits_of fuel (z / 10)) ++ [decimal z]
  end.

Definition decimal_text (n : nat) : string := text (digits_of (S n) (Z.of_nat n)).

(** [<segment><suffix>], or [<segment><suffix>.N] when that is taken: one more than the
    files there are suffices. *)
Fixpoint discarded_loop (files : gmap string bytes) (base : string) (fuel n : nat) : string :=
  let path := match n with
              | O => base
              | S _ => base +:+ "." +:+ decimal_text n
              end in
  match fuel with
  | O => path
  | S fuel => if decide (is_Some (files !! path)) then discarded_loop files base fuel (S n)
              else path
  end.

Definition discarded_path (segment suffix : string) : io fs string :=
  ask_io (fun s => discarded_loop (fs_files s) (segment +:+ suffix) (size (fs_files s)) 0).

(** The locals of [recover]; the first is set by the header, with the key. *)
Record rstate : Set := mk_rstate {
  r_head : option Head; r_key : option bytes; r_sealed_end : nat; r_unsealed_lines : Z;
  r_batches : Z; r_pending : bytes; r_pending_records : Z; r_forged : bool; r_offset : nat }.

Definition rstate_init : rstate := mk_rstate None None 0 0 0 [] 0 false 0.

Definition r_advance (n : nat) (r : rstate) : rstate :=
  mk_rstate (r_head r) (r_key r) (r_sealed_end r) (r_unsealed_lines r) (r_batches r)
    (r_pending r) (r_pending_records r) (r_forged r) (r_offset r + n).

Definition r_forge (r : rstate) : rstate :=
  mk_rstate (r_head r) (r_key r) (r_sealed_end r) (r_unsealed_lines r) (r_batches r)
    (r_pending r) (r_pending_records r) true (r_offset r).

(** The trailer closes the open batch at [hd]; the hash, if it does. *)
Definition closes (key : option bytes) (hd : Head) (t : Trailer) (pending : bytes)
    (records : Z) : option bytes :=
  computed ← trailer_hash (h_hash hd) t pending;
  let signed := match key, hex64 (t_sig t) with
                | Some k, Some sig => ed_verify k computed sig
                | _, _ => false
                end in
  if signed && (t_seq t =? h_next_seq hd) && bool_decide (hex32 (t_prev t) = Some (h_hash hd))
     && (t_records t =? records) && bool_decide (hex32 (t_hash t) = Some computed)
  then Some computed else None.

Definition r_header (name : string) (h : SegmentHeader) (r : rstate) : AuditError + rstate :=
  match hex32 (sh_prev h), parse_public_key (sh_public_key h) with
  | None, _ => inl BadPrev
  | Some _, None => inl BadPublicKey
  | Some prev, Some pk =>
      if negb (bool_decide (name = segment_name (sh_seq h))) then inl (WrongName (sh_seq h))
      else inr (mk_rstate (Some (mk_Head (sh_seq h) prev)) (Some pk) (r_offset r)
             (r_unsealed_lines r) (r_batches r) (r_pending r) (r_pending_records r)
             (r_forged r) (r_offset r))
  end.

Definition r_batch (t : Trailer) (computed : bytes) (r : rstate) : rstate :=
  mk_rstate (Some (mk_Head (u64 (t_seq t + 1)) computed)) (r_key r) (r_offset r) 0
    (u64 (r_batches r + 1)) [] 0 (r_forged r) (r_offset r).

Definition r_record (line : bytes) (r : rstate) : rstate :=
  mk_rstate (r_head r) (r_key r) (r_sealed_end r) (u64 (r_unsealed_lines r + 1)) (r_batches r)
    (r_pending r ++ line) (u64 (r_pending_records r + 1)) (r_forged r) (r_offset r).

Fixpoint recover_loop (name : string) (i : nat) (lines : list bytes) (r : rstate)
    : AuditError + rstate :=
  match lines with
  | [] => inr r
  | line :: lines =>
      let r := r_advance (length line) r in
      if negb (complete line) then inr r
      else
        match classify (body line), r_head r with
        | LSegment h, None =>
            if (i =? 0)%nat then
              match r_header name h r with
              | inl e => inl e
              | inr r => recover_loop name (S i) lines r
              end
            else inr r
        | LBatch t, Some hd =>
            match closes (r_key r) hd t (r_pending r) (r_pending_records r) with
            | Some computed => recover_loop name (S i) lines (r_batch t computed r)
            | None => inr (r_forge r)
            end
        | LRecord, Some _ => recover_loop name (S i) lines (r_record line r)
        | _, None => inr r
        | (LSegment _ | LInvalid _), Some _ => inr (r_forge r)
        end
  end.

Definition count_lines (data : bytes) : Z :=
  Z.of_nat (length (filter (fun c => c = newline) data)).

(** [discarded] is returned with the new entry. *)
Definition recover (name : string) (discarded : list Discarded)
    : io fs (option Head * list Discarded) :=
  data ← read_file name;
  if decide (data = []) then remove_file name;; mret (None, discarded)
  else
    match recover_loop name 0 (split_inclusive data) rstate_init with
    | inl e => abort e
    | inr r =>
        let rest := drop (r_sealed_end r) data in
        if bool_decide (r_head r = None) && bool_decide (newline ∈ data) then abort NoHeader
        else if (r_sealed_end r =? length data)%nat then mret (r_head r, discarded)
        else if r_forged r then
          if r_batches r =? 0 then
            aside ← discarded_path name ".forged";
            rename name aside;;
            mret (None, discarded ++ [mk_Discarded aside (count_lines data)
                                        (Z.of_nat (length data)) true])
          else
            mret (r_head r, discarded ++ [mk_Discarded name (count_lines rest)
                                            (Z.of_nat (length rest)) true])
        else
          aside ← discarded_path name ".unsealed";
          create_new aside;;
          write_file aside rest;;
          sync aside;;
          match r_head r with
          | Some _ => operate id;; set_len name (r_sealed_end r);; sync name
          | None => remove_file name
          end;;
          mret (r_head r, discarded ++ [mk_Discarded aside (r_unsealed_lines r)
                                          (Z.of_nat (length rest)) false])
    end.

(** *** Opening *)

(** [existing] in the order in which the loop pops them. *)
Fixpoint recover_head (existing : list string) (discarded : list Discarded)
    : io fs (Head * list Discarded) :=
  match existing with
  | [] => mret (mk_Head 0 GENESIS, discarded)
  | last :: existing =>
      '(head, discarded) ← recover last discarded;
      match head with
      | Some head => mret (head, discarded)
      | None => recover_head existing discarded
      end
  end.

(** The directory is created and its permissions set first. *)
Definition open (key : bytes) (opts : WriterOptions) : io fs Writer :=
  operate id;;
  operate id;;
  existing ← segments;
  '(head, discarded) ← recover_head (reverse existing) [];
  '(file, segment_len) ← start_segment key head;
  mret (mk_Writer key opts file [] segment_len head [] 0 None discarded).

(** *** Appending and sealing *)

Definition writing {A} (m : string -> io (bytes * fs) A) : io (Writer * fs) A := fun '(w, s) =>
  let '(r, (buffer, s)) := m (w_file w) (w_buffer w, s) in
  (r, (mk_Writer (w_key w) (w_opts w) (w_file w) buffer (w_segment_len w) (w_head w)
         (w_pending w) (w_pending_records w) (w_batch_started w) (w_discarded w), s)).

Definition update_writer (f : Writer -> Writer) : io (Writer * fs) unit :=
  update_io (fun '(w, s) => (f w, s)).

Definition grow (n : nat) (w : Writer) : Writer :=
  mk_Writer (w_key w) (w_opts w) (w_file w) (w_buffer w) (u64 (w_segment_len w + Z.of_nat n))
    (w_head w) (w_pending w) (w_pending_records w) (w_batch_started w) (w_discarded w).

Definition add_pending (line : bytes) (now : Z) (w : Writer) : Writer :=
  mk_Writer (w_key w) (w_opts w) (w_file w) (w_buffer w) (w_segment_len w) (w_head w)
    (w_pending w ++ line) (u64 (w_pending_records w + 1))
    (Some (default now (w_batch_started w))) (w_discarded w).

Definition close_batch (head : Head) (w : Writer) : Writer :=
  mk_Writer (w_key w) (w_opts w) (w_file w) (w_buffer w) (w_segment_len w) head [] 0 None
    (w_discarded w).

Definition switch_segment (file : string) (len : Z) (w : Writer) : Writer :=
  mk_Writer (w_key w) (w_opts w) file [] len (w_head w) (w_pending w) (w_pending_records w)
    (w_batch_started w) (w_discarded w).

(** The trailer's own hash always decodes. *)
Definition seal : io (Writer * fs) unit :=
  w ← ask_io fst;
  if w_pending_records w =? 0 then mret tt
  else
    let trailer := sign_batch (w_key w) (w_head w) (w_pending w) (w_pending_records w) in
    let line := control_line (Batch trailer) in
    writing (fun file => write_all file line);;
    writing flush_buf;;
    writing (fun file => on_file (sync file));;
    update_writer (grow (length line));;
    update_writer (close_batch (mk_Head (u64 (h_next_seq (w_head w) + 1))
                                  (default [] (hex32 (t_hash trailer)))));;
    w ← ask_io fst;
    if wo_segment_bytes (w_opts w) <=? w_segment_len w then
      '(file, len) ← on_file (start_segment (w_key w) (w_head w));
      update_writer (switch_segment file len)
    else mret tt.

Definition append (record : Value) (now : Z) : io (Writer * fs) unit :=
  let line := json_to_vec record ++ [newline] in
  writing (fun file => write_all file line);;
  update_writer (grow (length line));;
  update_writer (add_pending line now);;
  w ← ask_io fst;
  if wo_batch_records (w_opts w) <=? w_pending_records w then seal else mret tt.

Definition tick (now : Z) : io (Writer * fs) unit :=
  w ← ask_io fst;
  match w_batch_started w with
  | Some t => if wo_batch_interval (w_opts w) <=? now - t then seal else mret tt
  | None => mret tt
  end.

(** [drop]: the batch sealed if possible, then the buffer written if possible. *)
Definition close : io (Writer * fs) unit := try_io seal;; try_io (writing flush_buf).

End Audit.
