(* ===== verification/AuditVerify.v ===== *)
(** * Verification of the audit log ([rk-audit/src/chain.rs])

    [verify_segments_with] and [verify_dir_with], whole, with every problem and warning they
    report. *)

From stdpp Require Import sorting.
From S2P Require Import Prelude Text Json Crypto AuditWriter.
Open Scope string_scope.
Open Scope list_scope.
Open Scope Z_scope.

(** ** Reports *)

(** What is wrong with a batch. *)
Inductive BatchFault : Set :=
| WrongSequence (found expected : Z)
| NotChained
| WrongCount (claimed present : Z)
| HashMismatch
| UnknownForm (v : Z) (recovered : bool)
| BadSignature.

Inductive What : Set :=
| EmptyLog
| ForgedAside (name : string) (len : Z)
| TornInside
| HeaderInside
| MalformedHeader
| NotPinned (id : string)
| KeyChanged (before after : string)
| StartsLate (seq : Z)
| NotGenesis
| Discontinued (expected : Z)
| BatchWithoutHeader
| BadBatch (seq : Z) (faults : list BatchFault)
| BadLine (why : InvalidLine)
| HeaderMissing
| NotSealed (records : Z)
| HeadRewritten (head : Head)
| HeadNotReached (head : Head)
| NoBatch.

Record Problem : Set := mk_Problem {
  pr_segment : string; pr_line : nat; pr_seq : option Z; pr_what : What }.

Inductive Warning : Set :=
| KeyNotPinned
| TornTail (segment : string) (len : nat)
| Pruned (seq : Z)
| RecoveredBatches (n : Z)
| SetAside (name : string) (len : Z).

Record Report : Set := mk_Report {
  re_segments : nat; re_batches : Z; re_records : Z; re_recovered : Z;
  re_first_seq : option Z; re_head_seq : option Z; re_head_hash : option string;
  re_key_ids : list string; re_unsealed_tail : Z; re_head_anchored : bool;
  re_warnings : list Warning; re_problems : list Problem }.

Definition Report_ok (r : Report) : bool := bool_decide (re_problems r = []).

Record Expect : Set := mk_Expect {
  ex_keys : list bytes; ex_head : option Head; ex_allow_pruned : bool }.

Definition Expect_pinned (key : option bytes) : Expect :=
  mk_Expect (option_list key) None false.

(** ** The locals of the verification

    [v_key] to [v_pending_from] are set anew for every segment. *)

Record vstate : Set := mk_vstate {
  v_report : Report; v_head : option Head; v_last_key : option bytes; v_anchor : option bool;
  v_key : option bytes; v_pending : bytes; v_pending_records : Z; v_pending_from : nat }.

Definition on_report (f : Report -> Report) (v : vstate) : vstate :=
  mk_vstate (f (v_report v)) (v_head v) (v_last_key v) (v_anchor v) (v_key v) (v_pending v)
    (v_pending_records v) (v_pending_from v).

Definition add_problem (p : Problem) (r : Report) : Report :=
  mk_Report (re_segments r) (re_batches r) (re_records r) (re_recovered r) (re_first_seq r)
    (re_head_seq r) (re_head_hash r) (re_key_ids r) (re_unsealed_tail r) (re_head_anchored r)
    (re_warnings r) (re_problems r ++ [p]).

Definition add_warning (w : Warning) (r : Report) : Report :=
  mk_Report (re_segments r) (re_batches r) (re_records r) (re_recovered r) (re_first_seq r)
    (re_head_seq r) (re_head_hash r) (re_key_ids r) (re_unsealed_tail r) (re_head_anchored r)
    (re_warnings r ++ [w]) (re_problems r).

Definition global_problem (w : What) (r : Report) : Report :=
  add_problem (mk_Problem EmptyString 0 None w) r.

Definition add_key_id (id : string) (r : Report) : Report :=
  if decide (id ∈ re_key_ids r) then r
  else
    mk_Report (re_segments r) (re_batches r) (re_records r) (re_recovered r) (re_first_seq r)
      (re_head_seq r) (re_head_hash r) (re_key_ids r ++ [id]) (re_unsealed_tail r)
      (re_head_anchored r) (re_warnings r) (re_problems r).

Definition set_first_seq (seq : Z) (r : Report) : Report :=
  mk_Report (re_segments r) (re_batches r) (re_records r) (re_recovered r) (Some seq)
    (re_head_seq r) (re_head_hash r) (re_key_ids r) (re_unsealed_tail r) (re_head_anchored r)
    (re_warnings r) (re_problems r).

Definition set_reported_head (seq : option Z) (hash : option string) (r : Report) : Report :=
  mk_Report (re_segments r) (re_batches r) (re_records r) (re_recovered r) (re_first_seq r)
    seq hash (re_key_ids r) (re_unsealed_tail r) (re_head_anchored r) (re_warnings r)
    (re_problems r).

Definition count_batch (records : Z) (recovered : bool) (r : Report) : Report :=
  mk_Report (re_segments r) (u64 (re_batches r + 1)) (u64 (re_records r + records))
    (if recovered then u64 (re_recovered r + 1) else re_recovered r) (re_first_seq r)
    (re_head_seq r) (re_head_hash r) (re_key_ids r) (re_unsealed_tail r) (re_head_anchored r)
    (re_warnings r) (re_problems r).

Definition set_unsealed (n : Z) (r : Report) : Report :=
  mk_Report (re_segments r) (re_batches r) (re_records r) (re_recovered r) (re_first_seq r)
    (re_head_seq r) (re_head_hash r) (re_key_ids r) n (re_head_anchored r) (re_warnings r)
    (re_problems r).

Definition set_anchored (r : Report) : Report :=
  mk_Report (re_segments r) (re_batches r) (re_records r) (re_recovered r) (re_first_seq r)
    (re_head_seq r) (re_head_hash r) (re_key_ids r) (re_unsealed_tail r) true (re_warnings r)
    (re_problems r).

Definition set_head (h : Head) (v : vstate) : vstate :=
  mk_vstate (v_report v) (Some h) (v_last_key v) (v_anchor v) (v_key v) (v_pending v)
    (v_pending_records v) (v_pending_from v).

Definition set_key (k : bytes) (v : vstate) : vstate :=
  mk_vstate (v_report v) (v_head v) (Some k) (v_anchor v) (Some k) (v_pending v)
    (v_pending_records v) (v_pending_from v).

Definition set_anchor (a : option bool) (v : vstate) : vstate :=
  mk_vstate (v_report v) (v_head v) (v_last_key v) a (v_key v) (v_pending v)
    (v_pending_records v) (v_pending_from v).

Definition clear_pending (v : vstate) : vstate :=
  mk_vstate (v_report v) (v_head v) (v_last_key v) (v_anchor v) (v_key v) [] 0
    (v_pending_from v).

Definition push_pending (line : bytes) (v : vstate) : vstate :=
  mk_vstate (v_report v) (v_head v) (v_last_key v) (v_anchor v) (v_key v)
    (v_pending v ++ line) (u64 (v_pending_records v + 1)) (v_pending_from v).

Definition set_pending_from (lineno : nat) (v : vstate) : vstate :=
  mk_vstate (v_report v) (v_head v) (v_last_key v) (v_anchor v) (v_key v) (v_pending v)
    (v_pending_records v) lineno.

Definition new_segment (v : vstate) : vstate :=
  mk_vstate (v_report v) (v_head v) (v_last_key v) (v_anchor v) None [] 0 0.

(** [note_position]. *)
Definition note_position (expected : option Head) (at_ : Head) (seen : option bool)
    : option bool :=
  match expected with
  | Some want =>
      if h_next_seq want =? h_next_seq at_
      then Some (default true seen && bool_decide (h_hash want = h_hash at_))
      else seen
  | None => seen
  end.

Section Verify.
Context {J : Json} {C : Crypto} {X : Hex}.
Variable expect : Expect.

(** ** One line *)

Definition problem (name : string) (line : nat) (seq : option Z) (w : What) (v : vstate)
    : vstate :=
  on_report (add_problem (mk_Problem name line seq w)) v.

(** The key of a header against the pinned keys, or against the key before it. *)
Definition check_key (name : string) (lineno : nat) (seq : Z) (pk : bytes) (v : vstate)
    : vstate :=
  match ex_keys expect with
  | _ :: _ =>
      if decide (pk ∈ ex_keys expect) then v
      else problem name lineno (Some seq) (NotPinned (key_id pk)) v
  | [] =>
      match v_last_key v with
      | Some before =>
          if decide (before = pk) then v
          else problem name lineno (Some seq) (KeyChanged (key_id before) (key_id pk)) v
      | None => v
      end
  end.

(** The position a header names: the start of the chain, or where it stands. *)
Definition check_position (name : string) (lineno : nat) (seq : Z) (prev : bytes) (v : vstate)
    : vstate :=
  match v_head v with
  | None =>
      let v := on_report (set_first_seq seq) v in
      let v :=
        if negb (seq =? 0) then
          if ex_allow_pruned expect then on_report (add_warning (Pruned seq)) v
          else problem name lineno (Some seq) (StartsLate seq) v
        else if decide (prev = GENESIS) then v
        else problem name lineno (Some seq) NotGenesis v in
      let at_ := mk_Head seq prev in
      set_head at_ (set_anchor (note_position (ex_head expect) at_ (v_anchor v)) v)
  | Some hd =>
      if negb (h_next_seq hd =? seq) || negb (bool_decide (h_hash hd = prev))
      then problem name lineno (Some seq) (Discontinued (h_next_seq hd)) v
      else v
  end.

Definition verify_header (name : string) (i : nat) (h : SegmentHeader) (v : vstate) : vstate :=
  let lineno := S i in
  if negb (i =? 0)%nat then problem name lineno (Some (sh_seq h)) HeaderInside v
  else
    match hex32 (sh_prev h), parse_public_key (sh_public_key h) with
    | Some prev, Some pk =>
        let v := check_key name lineno (sh_seq h) pk v in
        let v := on_report (add_key_id (key_id pk)) v in
        check_position name lineno (sh_seq h) prev (set_key pk v)
    | _, _ => problem name lineno (Some (sh_seq h)) MalformedHeader v
    end.

(** [bad] of a trailer, in order, and the hash that was computed. *)
Definition batch_faults (hd : Head) (t : Trailer) (key : option bytes) (pending : bytes)
    (records : Z) : list BatchFault * bytes :=
  let stated := hex32 (t_hash t) in
  let '(form, computed) :=
    match trailer_hash (h_hash hd) t pending with
    | Some c => (if decide (stated = Some c) then [] else [HashMismatch], c)
    | None => ([UnknownForm (t_v t) (t_recovered t)], batch_hash (h_hash hd) (t_seq t) pending)
    end in
  let signed := match key, stated, hex64 (t_sig t) with
                | Some k, Some h, Some sig => ed_verify k h sig
                | _, _, _ => false
                end in
  ((if t_seq t =? h_next_seq hd then [] else [WrongSequence (t_seq t) (h_next_seq hd)]) ++
   (if decide (hex32 (t_prev t) = Some (h_hash hd)) then [] else [NotChained]) ++
   (if t_records t =? records then [] else [WrongCount (t_records t) records]) ++
   form ++ (if signed : bool then [] else [BadSignature]), computed).

Definition verify_batch (name : string) (i : nat) (t : Trailer) (v : vstate) : vstate :=
  let lineno := S i in
  match v_head v with
  | None => problem name lineno (Some (t_seq t)) BatchWithoutHeader v
  | Some hd =>
      let '(bad, computed) :=
        batch_faults hd t (v_key v) (v_pending v) (v_pending_records v) in
      let next := u64 (t_seq t + 1) in
      let v :=
        match bad with
        | [] =>
            let v := on_report (count_batch (v_pending_records v) (t_recovered t)) v in
            set_anchor (note_position (ex_head expect) (mk_Head next computed) (v_anchor v)) v
        | _ => problem name lineno (Some (t_seq t)) (BadBatch (t_seq t) bad) v
        end in
      clear_pending (set_head (mk_Head next (default computed (hex32 (t_hash t)))) v)
  end.

Definition verify_line (name : string) (i : nat) (line : bytes) (v : vstate) : vstate :=
  match classify (body line) with
  | LSegment h => verify_header name i h v
  | LBatch t => verify_batch name i t v
  | LRecord =>
      let v := if v_pending_records v =? 0 then set_pending_from (S i) v else v in
      push_pending line v
  | LInvalid why => push_pending line (problem name (S i) None (BadLine why) v)
  end.

Fixpoint verify_lines (name : string) (i : nat) (lines : list bytes) (v : vstate) : vstate :=
  match lines with
  | [] => v
  | line :: lines => verify_lines name (S i) lines (verify_line name i line v)
  end.

(** ** One segment *)

(** The complete lines, and the torn one that follows them. *)
Definition split_torn (data : bytes) : list bytes * option bytes :=
  let lines := split_inclusive data in
  match last lines with
  | Some l => if complete l then (lines, None) else (take (length lines - 1) lines, Some l)
  | None => (lines, None)
  end.

Definition verify_segment (newest : bool) (name : string) (data : bytes) (v : vstate) : vstate :=
  let v := new_segment v in
  let '(lines, torn) := split_torn data in
  let v :=
    match torn with
    | Some t =>
        if newest then on_report (add_warning (TornTail name (length t))) v
        else problem name (S (length lines)) None TornInside v
    | None => v
    end in
  let v := verify_lines name 0 lines v in
  let v := if decide (v_key v = None) then problem name 1 None HeaderMissing v else v in
  if 0 <? v_pending_records v then
    if newest then on_report (set_unsealed (v_pending_records v)) v
    else problem name (v_pending_from v) None (NotSealed (v_pending_records v)) v
  else v.

Fixpoint verify_all (segments : list (string * bytes)) (v : vstate) : vstate :=
  match segments with
  | [] => v
  | (name, data) :: rest =>
      verify_all rest (verify_segment (bool_decide (rest = [])) name data v)
  end.

(** ** The log *)

Definition Report_new (segments : nat) : Report :=
  mk_Report segments 0 0 0 None None None [] 0 false [] [].

Definition vstate_init (r : Report) : vstate := mk_vstate r None None None None [] 0 0.

Definition report_head (head : option Head) (r : Report) : Report :=
  match head with
  | Some hd => set_reported_head (Some (h_next_seq hd)) (Some (hex_encode (h_hash hd))) r
  | None => r
  end.

Definition check_anchor (anchor : option bool) (r : Report) : Report :=
  match ex_head expect with
  | None => r
  | Some want =>
      match anchor with
      | Some true => set_anchored r
      | Some false => global_problem (HeadRewritten want) r
      | None => global_problem (HeadNotReached want) r
      end
  end.

Definition conclude (v : vstate) : Report :=
  let r := report_head (v_head v) (v_report v) in
  let r := if 0 <? re_recovered r then add_warning (RecoveredBatches (re_recovered r)) r
           else r in
  let r := check_anchor (v_anchor v) r in
  let r := if re_batches r =? 0 then global_problem NoBatch r else r in
  if decide (re_problems r = []) then r else set_reported_head None None r.

Definition verify_segments_with (segments : list (string * bytes)) : Report :=
  let r := Report_new (length segments) in
  match segments with
  | [] => global_problem EmptyLog r
  | _ =>
      let r := match ex_keys expect with
               | [] => add_warning KeyNotPinned r
               | _ => r
               end in
      conclude (verify_all segments (vstate_init r))
  end.

(** ** The directory *)

(** [str::contains]. *)
Fixpoint contains_list (p l : list ascii) : bool :=
  bool_decide (is_Some (strip_list p l)) ||
  match l with
  | [] => false
  | _ :: l => contains_list p l
  end.

Definition contains_text (p s : string) : bool := contains_list (chars p) (chars s).

Definition note_aside (r : Report) (e : string * Z) : Report :=
  if contains_text FORGED_MARK e.1 then
    set_reported_head None None (global_problem (ForgedAside e.1 e.2) r)
  else add_warning (SetAside e.1 e.2) r.

Definition is_aside (name : string) : bool :=
  contains_text DISCARDED_MARK name || contains_text FORGED_MARK name.

Fixpoint read_all (names : list string) : io fs (list (string * bytes)) :=
  match names with
  | [] => mret []
  | name :: names =>
      data ← read_file name;
      rest ← read_all names;
      mret ((name, data) :: rest)
  end.

(** A file whose size cannot be read is left out. *)
Definition verify_dir_with : io fs Report :=
  names ← segments;
  loaded ← read_all names;
  let r := verify_segments_with loaded in
  names ← list_names;
  aside ← ask_io (fun s => omap (fun n =>
            if is_aside n then (fun d => (n, Z.of_nat (length d))) <$> fs_files s !! n
            else None) names);
  mret (foldl note_aside r (merge_sort (fun a b => String.le a.1 b.1) aside)).

End Verify.

Definition verify_segments `{J : Json, C : Crypto, X : Hex} (segments : list (string * bytes))
    (pinned : option bytes) : Report :=
  verify_segments_with (Expect_pinned pinned) segments.

Definition verify_dir `{J : Json, C : Crypto, X : Hex} (pinned : option bytes) : io fs Report :=
  verify_dir_with (Expect_pinned pinned).
