(* ===== verification/AuditChain.v ===== *)
(** * What a verified audit log is

    A log that verification accepts is a chain of batches from the genesis hash on, each
    with a signature of a pinned key over a hash that covers its position, its
    predecessor, its record count and its records.  So it holds nothing its writer did
    not seal, and with a recorded head nothing of what was sealed is missing or changed -
    unless someone forged a signature or found a collision, in which case the log shows
    it. *)

From S2P Require Import Prelude Text Json Crypto AuditWriter AuditVerify.
Open Scope string_scope.
Open Scope list_scope.
Open Scope Z_scope.

Section Chain.
Context {J : Json} {C : Crypto} {X : Hex}.

(** ** The batches of a log *)

(** A batch: its record lines and its trailer. *)
Notation batch := (list bytes * Trailer)%type (only parsing).

(** The batches so far and the lines since the last. *)
Definition scan_line (acc : list batch * list bytes) (line : bytes) : list batch * list bytes :=
  match classify (body line) with
  | LBatch t => (acc.1 ++ [(acc.2, t)], [])
  | LRecord => (acc.1, acc.2 ++ [line])
  | _ => acc
  end.

Definition scan_segment (bs : list batch) (data : bytes) : list batch :=
  (foldl scan_line (bs, []) (split_torn data).1).1.

Definition log_batches (segments : list (string * bytes)) : list batch :=
  foldl (fun bs s => scan_segment bs s.2) [] segments.

(** ** Chains *)

(** What the hash of a batch at [hd] is taken of. *)
Definition batch_input (hd : Head) (b : batch) : bytes :=
  if t_v b.2 =? 0 then DOMAIN ++ h_hash hd ++ be_bytes (h_next_seq hd) ++ concat b.1
  else DOMAIN_V2 ++ h_hash hd ++ be_bytes (h_next_seq hd) ++ be_bytes (t_records b.2) ++ concat b.1.

Definition advance (hd : Head) (b : batch) : Head :=
  mk_Head (u64 (h_next_seq hd + 1)) (sha256 (batch_input hd b)).

Definition chain_end (hd : Head) (bs : list batch) : Head := foldl advance hd bs.

(** The batch is what [keys] signed at [hd]. *)
Record signed_at (keys : list bytes) (hd : Head) (b : batch) : Prop := {
  sg_seq : t_seq b.2 = h_next_seq hd;
  sg_count : t_records b.2 = u64 (Z.of_nat (length b.1));
  sg_form : t_v b.2 = 0 \/ t_v b.2 = TRAILER_V2 /\ t_recovered b.2 = false;
  sg_sig : exists key sig, key ∈ keys /\ hex64 (t_sig b.2) = Some sig /\
             ed_verify key (sha256 (batch_input hd b)) sig = true }.

Fixpoint signed_chain (keys : list bytes) (hd : Head) (bs : list batch) : Prop :=
  match bs with
  | [] => True
  | b :: bs => signed_at keys hd b /\ signed_chain keys (advance hd b) bs
  end.

(** The positions a chain passes through. *)
Fixpoint positions (hd : Head) (bs : list batch) : list Head :=
  hd :: match bs with
        | [] => []
        | b :: bs => positions (advance hd b) bs
        end.

Lemma chain_end_app hd a b : chain_end hd (a ++ b) = chain_end (chain_end hd a) b.
Proof. apply foldl_app. Qed.

Lemma signed_chain_snoc keys hd bs b :
  signed_chain keys hd bs -> signed_at keys (chain_end hd bs) b ->
  signed_chain keys hd (bs ++ [b]).
Proof.
  revert hd. induction bs as [|c bs IH]; intros hd; cbn; [done|].
  intros [Hc Hbs] Hb. by split; [|apply IH].
Qed.

Lemma positions_snoc hd bs b :
  positions hd (bs ++ [b]) = positions hd bs ++ [chain_end hd (bs ++ [b])].
Proof. revert hd. induction bs as [|c bs IH]; intros hd; cbn; [done|]. by rewrite IH. Qed.

Lemma elem_of_positions hd bs p :
  p ∈ positions hd bs -> exists a b, bs = a ++ b /\ p = chain_end hd a.
Proof.
  revert hd. induction bs as [|c bs IH]; intros hd; cbn.
  - intros ->%list_elem_of_singleton. by exists [], [].
  - intros [->|H]%elem_of_cons; [by exists [], (c :: bs)|].
    destruct (IH _ H) as (a & b & -> & ->). by exists (c :: a), b.
Qed.

(** The expected head was met. *)
Lemma noted want ps : forall seen,
  foldl (fun seen p => note_position (Some want) p seen) seen ps = Some true ->
  seen = Some true \/ want ∈ ps.
Proof.
  induction ps as [|p ps IH]; intros seen H; [by left|]. cbn in H.
  destruct (IH _ H) as [Hs|Hp]; [|right; by apply elem_of_cons; right].
  unfold note_position in Hs. destruct (h_next_seq want =? h_next_seq p) eqn:Hq; [|by left].
  injection Hs as [_ Hh]%andb_true_iff. right. apply elem_of_cons. left.
  apply Z.eqb_eq in Hq. apply bool_decide_eq_true in Hh.
  destruct want, p. cbn in *. by subst.
Qed.

(** ** Verification follows the chain *)

Definition clean (v : vstate) : Prop := re_problems (v_report v) = [].

Lemma u64_succ n : u64 (u64 (Z.of_nat n) + 1) = u64 (Z.of_nat (S n)).
Proof. unfold u64. rewrite Zplus_mod_idemp_l. f_equal. lia. Qed.

(** A trailer without faults. *)
Lemma no_faults hd t key pending records computed :
  batch_faults hd t key pending records = ([], computed) ->
  t_seq t = h_next_seq hd /\ t_records t = records /\ hex32 (t_hash t) = Some computed /\
  trailer_hash (h_hash hd) t pending = Some computed /\
  exists k sig, key = Some k /\ hex64 (t_sig t) = Some sig /\ ed_verify k computed sig = true.
Proof.
  unfold batch_faults. destruct (t_seq t =? h_next_seq hd) eqn:Hs; [|by case_match].
  destruct (decide (hex32 (t_prev t) = _)); [|by case_match].
  destruct (t_records t =? records) eqn:Hr; [|by case_match].
  destruct (trailer_hash _ _ _) as [c|] eqn:Ht; [|done].
  case_decide as Hh; [|done]. rewrite Hh. destruct key as [k|]; [|done].
  destruct (hex64 (t_sig t)) as [sig|]; [|done].
  destruct (ed_verify k c sig) eqn:Hv; [|done]. intros [= <-].
  apply Z.eqb_eq in Hs, Hr. split_and!; [done..|]. by exists k, sig.
Qed.

Lemma trailer_form hd lines t c :
  t_seq t = h_next_seq hd -> trailer_hash (h_hash hd) t (concat lines) = Some c ->
  c = sha256 (batch_input hd (lines, t)) /\
  (t_v t = 0 \/ t_v t = TRAILER_V2 /\ t_recovered t = false).
Proof.
  intros Hs. unfold trailer_hash, batch_input, batch_hash, batch_hash_v2. cbn. rewrite Hs.
  destruct (t_v t =? 0) eqn:Hv; [intros [= <-]; split; [done|left; by apply Z.eqb_eq]|].
  destruct (t_v t =? TRAILER_V2) eqn:Hv2; [|done]. destruct (t_recovered t); [done|].
  intros [= <-]. split; [done|right; split; [by apply Z.eqb_eq|done]].
Qed.

Section Verified.
Variable expect : Expect.
Hypothesis Hkeys : ex_keys expect <> [].

Record traced (v : vstate) (acc : list batch * list bytes) : Prop := {
  tr_head :
    match v_head v with
    | None => acc.1 = [] /\ v_anchor v = None
    | Some hd => exists start,
        hd = chain_end start acc.1 /\ signed_chain (ex_keys expect) start acc.1 /\
        (ex_allow_pruned expect = false -> start = mk_Head 0 GENESIS) /\
        v_anchor v = foldl (fun seen p => note_position (ex_head expect) p seen) None
                       (positions start acc.1)
    end;
  tr_key : forall k, v_key v = Some k -> k ∈ ex_keys expect;
  tr_pending : v_pending v = concat acc.2;
  tr_records : v_pending_records v = u64 (Z.of_nat (length acc.2));
  tr_batches : re_batches (v_report v) = u64 (Z.of_nat (length acc.1)) }.

Lemma problem_unclean name i seq w v : ~ clean (problem name i seq w v).
Proof. unfold clean. cbn. by destruct (re_problems _). Qed.

Lemma check_key_clean name i seq pk v :
  clean (check_key expect name i seq pk v) ->
  check_key expect name i seq pk v = v /\ pk ∈ ex_keys expect.
Proof using Hkeys.
  unfold check_key. destruct (ex_keys expect) as [|k ks] eqn:He; [done|].
  case_decide; [done|]. by intros ?%problem_unclean.
Qed.

Lemma check_position_clean name i seq prev v :
  clean (check_position expect name i seq prev v) -> clean v.
Proof.
  unfold check_position. destruct (v_head v).
  - destruct (_ || _); [by intros ?%problem_unclean|done].
  - destruct (negb _); [destruct (ex_allow_pruned _)|case_decide]; try done;
      by intros ?%problem_unclean.
Qed.

Lemma check_position_traced name i seq prev v acc :
  traced v acc -> clean (check_position expect name i seq prev v) ->
  traced (check_position expect name i seq prev v) acc.
Proof.
  intros Ht. destruct Ht as [Hh Hk Hp Hr Hb] eqn:Heq. clear Heq. unfold check_position.
  destruct (v_head v) as [hd|] eqn:Hv.
  - destruct (_ || _); [by intros ?%problem_unclean|done].
  - destruct Hh as [Hnil Ha]. destruct (seq =? 0) eqn:Hs; cbn [negb].
    + case_decide as Hprev; [|by intros ?%problem_unclean]. intros Hc.
      split; cbn; [|done..]. exists (mk_Head seq prev). rewrite Hnil, Ha.
      split_and!; [done..| |done]. intros _. apply Z.eqb_eq in Hs. by subst.
    + destruct (ex_allow_pruned expect) eqn:Hal; [|by intros ?%problem_unclean].
      intros Hc. split; cbn; [|done..]. exists (mk_Head seq prev).
      rewrite Hnil, Ha. split_and!; [done..|congruence|done].
Qed.

Lemma add_key_id_problems id r : re_problems (add_key_id id r) = re_problems r.
Proof. unfold add_key_id. by case_decide. Qed.

Lemma add_key_id_batches id r : re_batches (add_key_id id r) = re_batches r.
Proof. unfold add_key_id. by case_decide. Qed.

Lemma verify_header_clean name i h v :
  clean (verify_header expect name i h v) ->
  clean v /\ exists prev pk, pk ∈ ex_keys expect /\
  verify_header expect name i h v =
  check_position expect name (S i) (sh_seq h) prev
    (set_key pk (on_report (add_key_id (key_id pk)) v)).
Proof using Hkeys.
  unfold verify_header. destruct (negb _); [by intros ?%problem_unclean|].
  destruct (hex32 _) as [prev|]; [|by intros ?%problem_unclean].
  destruct (parse_public_key _) as [pk|]; [|by intros ?%problem_unclean].
  intros Hc. pose proof (check_position_clean _ _ _ _ _ Hc) as Hc1.
  unfold clean in Hc1. cbn in Hc1. rewrite add_key_id_problems in Hc1.
  destruct (check_key_clean _ _ _ _ _ Hc1) as [Heq Hpk]. rewrite Heq in Hc1 |- *.
  split; [done|]. by exists prev, pk.
Qed.

Lemma verify_header_traced name i h v acc :
  traced v acc -> clean (verify_header expect name i h v) ->
  traced (verify_header expect name i h v) acc.
Proof using Hkeys.
  intros Ht Hc. destruct (verify_header_clean _ _ _ _ Hc) as (_ & prev & pk & Hpk & Heq).
  rewrite Heq in Hc |- *. apply check_position_traced; [|done].
  destruct Ht as [Hh Hk Hp Hr Hb]. split; cbn; [done| |done..|].
  - by intros k [= <-].
  - by rewrite add_key_id_batches.
Qed.

Lemma verify_batch_traced name i t v acc :
  traced v acc -> clean (verify_batch expect name i t v) ->
  traced (verify_batch expect name i t v) (acc.1 ++ [(acc.2, t)], []).
Proof.
  intros [Hh Hk Hp Hr Hb]. unfold verify_batch.
  destruct (v_head v) as [hd|] eqn:Hv; [|by intros ?%problem_unclean].
  destruct (batch_faults _ _ _ _ _) as [bad computed] eqn:Hf.
  destruct bad as [|f bad]; [|by intros ?%problem_unclean].
  intros Hc.
  destruct Hh as (start & -> & Hchain & Hstart & Ha).
  apply no_faults in Hf as (Hseq & Hcount & Hst & Ht & k & sig & Hkey & Hsig & Hver).
  rewrite Hp in Ht. destruct (trailer_form _ _ _ _ Hseq Ht) as [Hc' Hform].
  assert (mk_Head (u64 (t_seq t + 1)) computed =
          chain_end start (acc.1 ++ [(acc.2, t)])) as Hend.
  { rewrite chain_end_app. cbn. unfold advance. by rewrite Hseq, Hc'. }
  split; cbn; [|done..|].
  - exists start. rewrite Hst. cbn. split_and!; [done| |done|].
    + apply signed_chain_snoc; [done|]. split; cbn; [done|congruence|done|].
      exists k, sig. rewrite <- Hc'. split_and!; [by apply Hk|done..].
    + by rewrite positions_snoc, <- Hend, foldl_app, <- Ha.
  - by rewrite Hb, length_app, Nat.add_1_r, u64_succ.
Qed.

Lemma verify_line_clean name i line v : clean (verify_line expect name i line v) -> clean v.
Proof using Hkeys.
  unfold verify_line. destruct (classify _) as [h|t| |why].
  - by intros [? _]%verify_header_clean.
  - unfold verify_batch. destruct (v_head v); [|by intros ?%problem_unclean].
    destruct (batch_faults _ _ _ _ _) as [[|f bad] computed]; [done|].
    by intros ?%problem_unclean.
  - by destruct (_ =? 0).
  - by intros ?%problem_unclean.
Qed.

Lemma verify_line_traced name i line v acc :
  traced v acc -> clean (verify_line expect name i line v) ->
  traced (verify_line expect name i line v) (scan_line acc line).
Proof using Hkeys.
  intros Ht. unfold verify_line, scan_line. destruct (classify _) as [h|t| |why].
  - by apply verify_header_traced.
  - by apply verify_batch_traced.
  - intros _. destruct Ht as [Hh Hk Hp Hr Hb].
    assert (forall u, u = v \/ u = set_pending_from (S i) v ->
      traced (push_pending line u) (acc.1, acc.2 ++ [line])) as H.
    { intros u Hu. split; cbn.
      - by destruct Hu as [-> | ->].
      - by destruct Hu as [-> | ->].
      - rewrite concat_app. cbn. rewrite app_nil_r, <- Hp. by destruct Hu as [-> | ->].
      - rewrite length_app, Nat.add_1_r, <- u64_succ, <- Hr. by destruct Hu as [-> | ->].
      - by destruct Hu as [-> | ->]. }
    apply H. destruct (_ =? 0); auto.
  - by intros ?%problem_unclean.
Qed.

Lemma verify_lines_clean name lines : forall i v,
  clean (verify_lines expect name i lines v) -> clean v.
Proof using Hkeys.
  induction lines as [|line lines IH]; intros i v; [done|].
  cbn. intros Hc%IH. by eapply verify_line_clean.
Qed.

Lemma verify_lines_traced name lines : forall i v acc,
  traced v acc -> clean (verify_lines expect name i lines v) ->
  traced (verify_lines expect name i lines v) (foldl scan_line acc lines).
Proof using Hkeys.
  induction lines as [|line lines IH]; intros i v acc Ht; [done|]. cbn. intros Hc.
  apply IH; [|done]. apply verify_line_traced; [done|].
  by eapply verify_lines_clean.
Qed.

(** ** Segments and the whole log *)

Lemma verify_segment_clean newest name data v :
  clean (verify_segment expect newest name data v) ->
  clean v /\
  (forall acc, traced v acc ->
   exists pending, traced (verify_segment expect newest name data v)
     (scan_segment acc.1 data, pending)).
Proof using Hkeys.
  unfold verify_segment, scan_segment. destruct (split_torn data) as [lines torn]. cbn [fst].
  set (v1 := match torn with Some _ => _ | None => _ end).
  set (v2 := verify_lines expect name 0 lines v1).
  intros Hc.
  assert (clean v2 /\ v_key v2 <> None) as [Hc2 Hkey].
  { revert Hc. case_decide as Hn.
    - destruct (0 <? _); [destruct newest|]; by intros ?%problem_unclean.
    - destruct (0 <? _); [destruct newest|]; try done. by intros ?%problem_unclean. }
  rewrite decide_False in Hc |- * by done.
  assert (clean v1) as Hc1 by (by eapply verify_lines_clean).
  assert (v1 = new_segment v \/ exists w, v1 = on_report (add_warning w) (new_segment v)) as Hv1.
  { subst v1. destruct torn; [|by left]. destruct newest; [by right; eexists|].
    by apply problem_unclean in Hc1. }
  split; [by destruct Hv1 as [Heq|[w Heq]]; rewrite Heq in Hc1|].
  intros acc Ht.
  assert (traced v1 (acc.1, [])) as Ht1.
  { destruct Ht as [Hh _ _ _ Hb]. by destruct Hv1 as [Heq|[w Heq]]; rewrite Heq; split. }
  pose proof (verify_lines_traced name lines 0 v1 _ Ht1 Hc2) as Ht2. fold v2 in Ht2.
  exists (foldl scan_line (acc.1, []) lines).2.
  assert (traced v2 ((foldl scan_line (acc.1, []) lines).1,
            (foldl scan_line (acc.1, []) lines).2)) as Ht3.
  { by rewrite <- surjective_pairing. }
  destruct (0 <? _); [|done]. destruct newest; [|by apply problem_unclean in Hc].
  destruct Ht3. by split.
Qed.

Lemma verify_all_clean segs : forall v, clean (verify_all expect segs v) -> clean v.
Proof using Hkeys.
  induction segs as [|[name data] segs IH]; intros v; [done|].
  cbn. intros Hc%IH. by apply verify_segment_clean in Hc as [? _].
Qed.

Lemma verify_all_traced segs : forall v acc,
  traced v acc -> clean (verify_all expect segs v) ->
  exists pending, traced (verify_all expect segs v)
    (foldl (fun bs s => scan_segment bs s.2) acc.1 segs, pending).
Proof using Hkeys.
  induction segs as [|[name data] segs IH]; intros v acc Ht Hc; cbn.
  - exists acc.2. by rewrite <- surjective_pairing.
  - pose proof (verify_all_clean segs _ Hc) as Hc1.
    destruct (proj2 (verify_segment_clean _ _ _ _ Hc1) acc Ht) as [pending Ht1].
    by apply (IH _ (scan_segment acc.1 data, pending)).
Qed.

Lemma conclude_clean v :
  re_problems (conclude expect v) = [] ->
  clean v /\ re_batches (v_report v) <> 0 /\
  (forall want, ex_head expect = Some want -> v_anchor v = Some true) /\
  forall hd, v_head v = Some hd ->
  re_head_seq (conclude expect v) = Some (h_next_seq hd) /\
  re_head_hash (conclude expect v) = Some (hex_encode (h_hash hd)).
Proof.
  unfold conclude. set (r1 := report_head _ _). set (r2 := if 0 <? re_recovered r1 then _ else _).
  set (r3 := check_anchor _ _ _). set (r4 := if re_batches r3 =? 0 then _ else _).
  intros Hr. assert (re_problems r4 = []) as H4 by (revert Hr; by case_decide).
  rewrite decide_True by done. subst r4.
  destruct (re_batches r3 =? 0) eqn:Hb; [by apply app_nil in H4 as [_ ?]|].
  assert (re_problems r2 = [] /\ re_batches r3 = re_batches r2 /\
    re_head_seq r3 = re_head_seq r2 /\ re_head_hash r3 = re_head_hash r2 /\
    (forall want, ex_head expect = Some want -> v_anchor v = Some true))
    as (H2 & Hb3 & Hs3 & Hh3 & Ha).
  { subst r3. unfold check_anchor in *. destruct (ex_head expect); [|by split_and!].
    destruct (v_anchor v) as [[]|]; [by split_and!|by apply app_nil in H4 as [_ ?]..]. }
  assert (re_problems r2 = re_problems r1 /\ re_batches r2 = re_batches r1 /\
    re_head_seq r2 = re_head_seq r1 /\ re_head_hash r2 = re_head_hash r1) as (Hp1 & Hb1 & Hs1 & Hh1)
    by (subst r2; by destruct (0 <? _)).
  assert (re_problems r1 = re_problems (v_report v) /\ re_batches r1 = re_batches (v_report v))
    as [Hp0 Hb0] by (subst r1; unfold report_head; by destruct (v_head v)).
  rewrite Hs3, Hh3, Hs1, Hh1. split_and!; [by unfold clean; congruence| |done|].
  - apply Z.eqb_neq in Hb. congruence.
  - intros hd Hv. subst r1. by rewrite Hv.
Qed.

(** A log that is accepted is a signed chain through the expected head. *)
Lemma verified_chain segs :
  Report_ok (verify_segments_with expect segs) = true ->
  exists start,
  (ex_allow_pruned expect = false -> start = mk_Head 0 GENESIS) /\
  log_batches segs <> [] /\ signed_chain (ex_keys expect) start (log_batches segs) /\
  (forall want, ex_head expect = Some want ->
     exists a b, log_batches segs = a ++ b /\ chain_end start a = want) /\
  re_head_seq (verify_segments_with expect segs) =
    Some (h_next_seq (chain_end start (log_batches segs))) /\
  re_head_hash (verify_segments_with expect segs) =
    Some (hex_encode (h_hash (chain_end start (log_batches segs)))).
Proof using Hkeys.
  unfold Report_ok. rewrite bool_decide_eq_true. destruct segs as [|s segs]; [done|].
  set (v0 := vstate_init (Report_new (length (s :: segs)))).
  assert (verify_segments_with expect (s :: segs) =
          conclude expect (verify_all expect (s :: segs) v0)) as ->
    by (unfold verify_segments_with; by destruct (ex_keys expect)).
  assert (traced v0 ([], [])) as H0 by (by split).
  set (v := verify_all expect (s :: segs) v0).
  intros (Hc & Hb & Ha & Hhead)%conclude_clean.
  destruct (verify_all_traced _ _ _ H0 Hc) as [pending Ht].
  change (traced v (log_batches (s :: segs), pending)) in Ht.
  destruct Ht as [Hh _ _ _ Hbs]. cbn [fst] in Hh, Hbs.
  assert (log_batches (s :: segs) <> []) as Hne by (intros He; rewrite He in Hbs; done).
  destruct (v_head v) as [hd|] eqn:Hv; [|by destruct Hh].
  destruct Hh as (start & -> & Hchain & Hstart & Hanchor). exists start.
  destruct (Hhead _ eq_refl) as [Hseq Hhash].
  split_and!; [done..| |done|done]. intros want Hwant. rewrite (Ha _ Hwant), Hwant in Hanchor.
  symmetry in Hanchor. apply noted in Hanchor as [?|Hin]; [done|].
  apply elem_of_positions in Hin as (a & b & -> & ->). by exists a, b.
Qed.

End Verified.

(** ** Lines *)

Definition is_line (l : bytes) : Prop := exists b, l = b ++ [newline] /\ newline ∉ b.

Lemma split_inclusive_line b rest :
  newline ∉ b -> split_inclusive ((b ++ [newline]) ++ rest) = (b ++ [newline]) :: split_inclusive rest.
Proof.
  induction b as [|c b IH]; cbn.
  - by rewrite decide_True.
  - intros [Hc Hb]%not_elem_of_cons. rewrite decide_False by done. by rewrite IH.
Qed.

Lemma split_inclusive_lines lines rest :
  Forall is_line lines ->
  split_inclusive (concat lines ++ rest) = lines ++ split_inclusive rest.
Proof.
  induction 1 as [|l lines (b & -> & Hb) _ IH]; [done|].
  cbn. rewrite <- app_assoc, split_inclusive_line by done. by rewrite IH.
Qed.

Lemma split_inclusive_torn t : newline ∉ t -> t <> [] -> split_inclusive t = [t].
Proof.
  induction t as [|c t IH]; [done|]. intros [Hc Ht]%not_elem_of_cons _. cbn.
  rewrite decide_False by done. destruct t as [|d t]; [done|]. by rewrite IH.
Qed.

(** Every text is lines and possibly a torn one. *)
Lemma lines_of_text data : exists lines torn,
  data = concat lines ++ torn /\ Forall is_line lines /\ newline ∉ torn.
Proof.
  induction data as [|c data (lines & torn & -> & Hl & Ht)].
  - exists [], []. by repeat split; [|apply not_elem_of_nil].
  - destruct (decide (c = newline)) as [->|Hc].
    + exists ([newline] :: lines), torn. split_and!; [done| |done].
      constructor; [|done]. exists []. split; [done|apply not_elem_of_nil].
    + destruct Hl as [|l lines (b & -> & Hb) Hl].
      * exists [], (c :: torn). split_and!; [done..|]. by apply not_elem_of_cons.
      * exists (((c :: b) ++ [newline]) :: lines), torn. split_and!; [done| |done].
        constructor; [|done]. exists (c :: b). split; [done|]. by apply not_elem_of_cons.
Qed.

Lemma is_line_complete l : is_line l -> complete l = true.
Proof.
  intros (b & -> & _). unfold complete. apply bool_decide_eq_true. by rewrite last_snoc.
Qed.

Lemma split_torn_lines lines torn :
  Forall is_line lines -> newline ∉ torn ->
  split_torn (concat lines ++ torn) =
  (lines, if decide (torn = []) then None else Some torn).
Proof.
  intros Hl Ht. unfold split_torn. rewrite split_inclusive_lines by done.
  case_decide as Hn.
  - subst. cbn. rewrite app_nil_r. destruct (last lines) as [l|] eqn:Hlast; [|done].
    rewrite is_line_complete; [done|]. apply last_Some in Hlast as [lines' ->].
    rewrite Forall_app, Forall_singleton in Hl. by destruct Hl.
  - rewrite split_inclusive_torn by done. rewrite last_snoc.
    assert (complete torn = false) as ->.
    { apply bool_decide_eq_false. intros [t' ->]%last_Some. apply Ht.
      apply elem_of_app. right. by apply list_elem_of_singleton. }
    rewrite length_app. cbn. rewrite Nat.add_sub. by rewrite take_app_length.
Qed.

Lemma concat_lines_inj a b : Forall is_line a -> Forall is_line b -> concat a = concat b -> a = b.
Proof.
  intros Ha Hb H. apply (f_equal split_inclusive) in H.
  rewrite <- (app_nil_r (concat a)), <- (app_nil_r (concat b)) in H.
  rewrite !split_inclusive_lines in H by done. by rewrite !app_nil_r in H.
Qed.

(** The records of the batches are lines. *)
Lemma scan_lines lines : forall acc,
  Forall is_line lines -> Forall is_line acc.2 -> Forall (fun b => Forall is_line b.1) acc.1 ->
  Forall (fun b => Forall is_line b.1) (foldl scan_line acc lines).1.
Proof.
  induction lines as [|l lines IH]; intros acc Hl Ha Hb; [done|].
  apply Forall_cons in Hl as [Hl Hls]. cbn. apply IH; [done|..];
    unfold scan_line; destruct (classify _); cbn; try done.
  - apply Forall_app. by split; [|constructor].
  - apply Forall_app. split; [done|]. by constructor.
Qed.

Lemma log_batches_lines segs : Forall (fun b => Forall is_line b.1) (log_batches segs).
Proof.
  unfold log_batches. generalize (Forall_nil_2 (fun b : batch => Forall is_line b.1)).
  generalize (@nil batch). induction segs as [|s segs IH]; intros bs Hbs; [done|]. cbn.
  apply IH. unfold scan_segment. destruct (lines_of_text s.2) as (lines & torn & -> & Hl & Ht).
  rewrite split_torn_lines by done. apply scan_lines; [done|constructor|done].
Qed.

(** ** What the writer seals *)

(** The input of the hash when [lines] are sealed at [hd], and the position after. *)
Definition seal_input (hd : Head) (lines : list bytes) : bytes :=
  DOMAIN_V2 ++ h_hash hd ++ be_bytes (h_next_seq hd) ++
  be_bytes (u64 (Z.of_nat (length lines))) ++ concat lines.

Definition seal_head (hd : Head) (lines : list bytes) : Head :=
  mk_Head (u64 (h_next_seq hd + 1)) (sha256 (seal_input hd lines)).

Definition sealed_head (hd : Head) (history : list (list bytes)) : Head :=
  foldl seal_head hd history.

Fixpoint seal_inputs (hd : Head) (history : list (list bytes)) : list bytes :=
  match history with
  | [] => []
  | lines :: history => seal_input hd lines :: seal_inputs (seal_head hd lines) history
  end.

Fixpoint chain_inputs (hd : Head) (bs : list batch) : list bytes :=
  match bs with
  | [] => []
  | b :: bs => batch_input hd b :: chain_inputs (advance hd b) bs
  end.

(** No input of the one collides with another input of the other. *)
Definition apart (xs ys : list bytes) : Prop :=
  forall x y, x ∈ xs -> y ∈ ys -> sha256 x = sha256 y -> x = y.

Definition genesis : Head := mk_Head 0 GENESIS.

Definition head_ok (hd : Head) : Prop :=
  0 <= h_next_seq hd < 2 ^ 64 /\ length (h_hash hd) = 32%nat.

Section Genuine.
Context {CL : CryptoLaws C}.

Lemma genesis_ok : head_ok genesis.
Proof. split; [cbn; lia|]. apply repeat_length. Qed.

Lemma advance_ok hd b : head_ok (advance hd b).
Proof using CL. split; [apply u64_bound|apply sha256_length]. Qed.

Lemma chain_end_ok hd bs : head_ok hd -> head_ok (chain_end hd bs).
Proof using CL. revert hd. induction bs as [|b bs IH]; intros hd Hh; [done|]. apply IH, advance_ok. Qed.

Lemma sealed_head_ok hd h : head_ok hd -> head_ok (sealed_head hd h).
Proof using CL.
  revert hd. induction h as [|l h IH]; intros hd Hh; [done|]. apply IH.
  split; [apply u64_bound|apply sha256_length].
Qed.

(** The inputs determine position, count and records. *)
Lemma batch_input_inj hd hd' b lines :
  head_ok hd -> head_ok hd' -> Forall is_line b.1 -> Forall is_line lines ->
  t_v b.2 = 0 \/ t_v b.2 = TRAILER_V2 /\ t_recovered b.2 = false ->
  batch_input hd b = seal_input hd' lines -> hd = hd' /\ b.1 = lines.
Proof.
  intros [Hs Hl] [Hs' Hl'] Hb Hls Hform. unfold batch_input, seal_input.
  destruct (t_v b.2 =? 0); [by intros [? _]%app_inj_1|]. intros [_ H]%app_inj_1; [|done].
  apply app_inj_1 in H as [Hh H]; [|congruence].
  apply app_inj_1 in H as [Hq H]; [|by rewrite !be_bytes_length].
  apply app_inj_1 in H as [_ Hc]; [|by rewrite !be_bytes_length].
  apply be_bytes_inj in Hq; [|done..].
  split; [destruct hd, hd'; cbn in *; congruence|by apply concat_lines_inj].
Qed.

Lemma chain_inputs_app hd a b :
  chain_inputs hd (a ++ b) = chain_inputs hd a ++ chain_inputs (chain_end hd a) b.
Proof. revert hd. induction a as [|c a IH]; intros hd; cbn; [done|]. by rewrite IH. Qed.

Lemma seal_inputs_app hd a b :
  seal_inputs hd (a ++ b) = seal_inputs hd a ++ seal_inputs (sealed_head hd a) b.
Proof. revert hd. induction a as [|c a IH]; intros hd; cbn; [done|]. by rewrite IH. Qed.

Lemma elem_of_chain_inputs hd bs i b :
  bs !! i = Some b -> batch_input (chain_end hd (take i bs)) b ∈ chain_inputs hd bs.
Proof.
  revert hd i. induction bs as [|c bs IH]; intros hd [|i] H; [done..| |]; cbn in *.
  - injection H as ->. apply elem_of_cons. by left.
  - apply elem_of_cons. right. by apply IH.
Qed.

Lemma signed_chain_lookup keys hd bs i b :
  signed_chain keys hd bs -> bs !! i = Some b -> signed_at keys (chain_end hd (take i bs)) b.
Proof.
  revert hd i. induction bs as [|c bs IH]; intros hd [|i] Hs H; [done..| |]; cbn in *.
  - injection H as ->. apply Hs.
  - apply IH; [apply Hs|done].
Qed.

(** C11. Nothing is in a verified log that was not sealed.  Whatever files are presented: if
    verification with pinned keys accepts them, every batch in them - its position, the
    hash it follows and its record lines, byte for byte - is one that a holder of the keys
    sealed, provided that the log's signatures verify only for hashes such a holder
    signed, and that no input hashed in the log collides with one sealed. *)
Theorem verified_records_were_sealed expect segs (history : list (Head * list bytes)) i b
    (Hkeys : ex_keys expect <> []) (Hfull : ex_allow_pruned expect = false)
    (Hok : Report_ok (verify_segments_with expect segs) = true)
    (Hhist : Forall (fun e => head_ok e.1 /\ Forall is_line e.2) history)
    (Hsig : forall b key m sig, b ∈ log_batches segs -> hex64 (t_sig b.2) = Some sig ->
       key ∈ ex_keys expect -> length m = 32%nat -> ed_verify key m sig = true ->
       exists e, e ∈ history /\ m = sha256 (seal_input e.1 e.2))
    (Hapart : apart (chain_inputs genesis (log_batches segs))
       ((fun e => seal_input e.1 e.2) <$> history))
    (Hi : log_batches segs !! i = Some b) :
  (chain_end genesis (take i (log_batches segs)), b.1) ∈ history.
Proof using CL.
  destruct (verified_chain expect Hkeys segs Hok) as (start & Hstart & _ & Hchain & _).
  rewrite (Hstart Hfull) in Hchain. change (mk_Head 0 GENESIS) with genesis in Hchain.
  pose proof (signed_chain_lookup _ _ _ _ _ Hchain Hi) as [_ _ Hform (key & sig & Hk & Hs & Hv)].
  pose proof (list_elem_of_lookup_2 _ _ _ Hi) as Hb.
  destruct (Hsig b key _ sig Hb Hs Hk (sha256_length _) Hv) as ([hd lines] & He & Heq).
  assert (batch_input (chain_end genesis (take i (log_batches segs))) b = seal_input hd lines)
    as Hin.
  { apply Hapart; [by apply elem_of_chain_inputs| |done].
    apply list_elem_of_fmap. by exists (hd, lines). }
  rewrite Forall_forall in Hhist. destruct (Hhist _ He) as [Hhd Hlines].
  apply batch_input_inj in Hin as [-> ->]; [done|..].
  - apply chain_end_ok, genesis_ok.
  - done.
  - pose proof (log_batches_lines segs) as Hl. rewrite Forall_forall in Hl. by apply Hl.
  - done.
  - done.
Qed.

(** A chain that ends where the writer's does is the writer's. *)
Lemma same_end hd bs : forall history,
  head_ok hd -> length bs = length history ->
  Forall (fun b => Forall is_line b.1) bs -> Forall (Forall is_line) history ->
  Forall (fun b => t_v b.2 = 0 \/ t_v b.2 = TRAILER_V2 /\ t_recovered b.2 = false) bs ->
  apart (chain_inputs hd bs) (seal_inputs hd history) ->
  chain_end hd bs = sealed_head hd history -> bs.*1 = history.
Proof using CL.
  induction bs as [|b bs IH] using rev_ind; intros history Hh Hlen Hb Hls Hf Ha He.
  { by destruct history. }
  destruct history as [|lines history _] using rev_ind; [by rewrite length_app, Nat.add_comm in Hlen|].
  rewrite !length_app in Hlen. cbn in Hlen.
  apply Forall_app in Hb as [Hbs [Hb _]%Forall_cons].
  apply Forall_app in Hls as [Hhist [Hl _]%Forall_cons].
  apply Forall_app in Hf as [Hfs [Hf _]%Forall_cons].
  unfold sealed_head in He. rewrite chain_end_app, foldl_app in He. cbn in He.
  injection He as _ He. change (foldl seal_head hd history) with (sealed_head hd history) in He.
  rewrite chain_inputs_app, seal_inputs_app in Ha. cbn [chain_inputs seal_inputs] in Ha.
  apply Ha in He; [|by apply elem_of_app; right; constructor..].
  apply batch_input_inj in He as [He <-]; [|by apply chain_end_ok|by apply sealed_head_ok|done..].
  rewrite fmap_app. cbn. f_equal. apply IH; [done|lia|done|done|done| |done].
  intros x y Hx Hy. apply Ha; apply elem_of_app; by left.
Qed.

Lemma chain_end_seq hd bs :
  h_next_seq (chain_end hd bs) = u64 (h_next_seq hd + Z.of_nat (length bs)) \/ bs = [].
Proof.
  induction bs as [|b bs IH] using rev_ind; [by right|]. left.
  rewrite chain_end_app, length_app. cbn. destruct IH as [-> | ->]; cbn.
  - unfold u64. rewrite Zplus_mod_idemp_l. f_equal. lia.
  - f_equal; lia.
Qed.

Lemma sealed_head_seq hd history :
  h_next_seq (sealed_head hd history) = u64 (h_next_seq hd + Z.of_nat (length history)) \/
  history = [].
Proof.
  induction history as [|l history IH] using rev_ind; [by right|]. left.
  unfold sealed_head in *. rewrite foldl_app, length_app. cbn. destruct IH as [-> | ->]; cbn.
  - unfold u64. rewrite Zplus_mod_idemp_l. f_equal. lia.
  - f_equal; lia.
Qed.

Lemma signed_chain_app keys hd a b : signed_chain keys hd (a ++ b) -> signed_chain keys hd a.
Proof.
  revert hd. induction a as [|c a IH]; intros hd; cbn; [done|]. intros [Hc H].
  split; [done|by apply IH].
Qed.

Lemma signed_chain_forms keys hd bs :
  signed_chain keys hd bs ->
  Forall (fun b => t_v b.2 = 0 \/ t_v b.2 = TRAILER_V2 /\ t_recovered b.2 = false) bs.
Proof.
  revert hd. induction bs as [|b bs IH]; intros hd; [constructor|]. intros [[_ _ Hf _] Hbs].
  constructor; [done|by eapply IH].
Qed.

(** C12. Nothing sealed is missing from a verified log.  If the writer's head was recorded
    when it had sealed [history], and verification with that head and any pinned key
    accepts a log presented later, then the log starts with exactly those batches, record
    line for record line: none removed, none changed, none inserted - provided that no
    input hashed in the log collides with one the writer hashed.  Signatures need not be
    trusted for this. *)
Theorem anchored_log_is_complete expect segs (history : list (list bytes))
    (Hkeys : ex_keys expect <> []) (Hfull : ex_allow_pruned expect = false)
    (Hhead : ex_head expect = Some (sealed_head genesis history))
    (Hok : Report_ok (verify_segments_with expect segs) = true)
    (Hhist : Forall (Forall is_line) history) (Hn : Z.of_nat (length history) < 2 ^ 64)
    (Hlog : Z.of_nat (length (log_batches segs)) < 2 ^ 64)
    (Hapart : apart (chain_inputs genesis (log_batches segs)) (seal_inputs genesis history)) :
  exists newer, (log_batches segs).*1 = history ++ newer.
Proof using CL.
  destruct (verified_chain expect Hkeys segs Hok) as (start & Hstart & _ & Hchain & Hanchor & _).
  rewrite (Hstart Hfull) in Hchain, Hanchor. change (mk_Head 0 GENESIS) with genesis in *.
  destruct (Hanchor _ Hhead) as (a & b & Hab & Hend). exists b.*1.
  rewrite Hab, fmap_app in *. f_equal. rewrite length_app in Hlog.
  assert (length a = length history) as Hlen.
  { assert (h_next_seq (chain_end genesis a) = Z.of_nat (length a)) as Ha.
    { destruct (chain_end_seq genesis a) as [-> | ->]; [|done]. apply u64_small. cbn. lia. }
    assert (h_next_seq (sealed_head genesis history) = Z.of_nat (length history)) as Hh.
    { destruct (sealed_head_seq genesis history) as [-> | ->]; [|done]. apply u64_small. cbn. lia. }
    rewrite Hend in Ha. lia. }
  pose proof (log_batches_lines segs) as Hl. rewrite Hab, Forall_app in Hl.
  apply (same_end genesis); [apply genesis_ok|done|apply Hl|done| |  |done].
  - by eapply signed_chain_forms, signed_chain_app.
  - intros x y Hx. apply Hapart. rewrite chain_inputs_app. apply elem_of_app. by left.
Qed.

End Genuine.

End Chain.
