(* ===== verification/AuditWrite.v ===== *)
(** * What the audit writer writes

    The segments as the writer leaves them, how verification and recovery read them, and
    the histories of a writer that is opened, appends, seals, is killed at any point and is
    opened again: the log on disk verifies, and no sealed record is ever lost. *)

From stdpp Require Import sorting.
From S2P Require Import Prelude Text Json Crypto AuditWriter AuditVerify AuditChain.
Open Scope string_scope.
Open Scope list_scope.
Open Scope Z_scope.

Section Lines.
Context {J : Json} {C : Crypto} {X : Hex} {JL : JsonLaws J} {CL : CryptoLaws C} {XL : HexLaws X}.

(** ** Lines *)

Definition header_line (key : bytes) (hd : Head) : bytes :=
  control_line (Segment (segment_header key hd)).

Definition trailer_line (key : bytes) (hd : Head) (lines : list bytes) : bytes :=
  control_line (Batch (sign_batch key hd (concat lines) (u64 (Z.of_nat (length lines))))).

(** The lines of the batches from [hd] on, and of a segment. *)
Fixpoint history_lines (key : bytes) (hd : Head) (history : list (list bytes)) : list bytes :=
  match history with
  | [] => []
  | lines :: history =>
      lines ++ trailer_line key hd lines :: history_lines key (seal_head hd lines) history
  end.

Definition segment_lines (key : bytes) (hd : Head) (history : list (list bytes)) : list bytes :=
  header_line key hd :: history_lines key hd history.

(** A record: an object without control keys. *)
Definition record_ok (v : Value) : Prop :=
  value_ok v = true /\ exists l, v = VObject l /\
  get_key "rk_segment" l = None /\ get_key "rk_batch" l = None.

Definition record_line (v : Value) : bytes := json_to_vec v ++ [newline].

Definition is_record (l : bytes) : Prop := is_line l /\ classify (body l) = LRecord.

Lemma json_line v : is_line (json_to_vec v ++ [newline]).
Proof using JL. exists (json_to_vec v). split; [done|]. apply json_one_line. Qed.

Lemma body_line b : body (b ++ [newline]) = b.
Proof. unfold body. rewrite length_app. cbn. by rewrite Nat.add_sub, take_app_length. Qed.

Lemma record_line_ok v : record_ok v -> is_record (record_line v).
Proof using JL.
  intros (Hv & l & -> & Hs & Hb). split; [apply json_line|].
  unfold record_line, classify. rewrite body_line, json_round_trip by done.
  rewrite bool_decide_eq_false_2; [done|]. rewrite Hs, Hb. by intros [[]|[]].
Qed.

Lemma as_u64_ok n : 0 <= n < 2 ^ 64 -> as_u64 (VNumber n) = Some n.
Proof.
  intros Hn. unfold as_u64. by rewrite (proj2 (Z.leb_le 0 n)), (proj2 (Z.ltb_lt n (2 ^ 64))) by lia.
Qed.

Lemma as_u8_ok n : 0 <= n < 2 ^ 8 -> as_u8 (VNumber n) = Some n.
Proof.
  intros Hn. unfold as_u8. by rewrite (proj2 (Z.leb_le 0 n)), (proj2 (Z.ltb_lt n (2 ^ 8))) by lia.
Qed.

Lemma number_ok n : 0 <= n < 2 ^ 64 -> value_ok (VNumber n) = true.
Proof. intros Hn. cbn [value_ok]. apply andb_true_intro. split; lia. Qed.

Lemma object_ok l :
  value_ok (VObject l) = bool_decide (NoDup l.*1) && forallb (fun e => value_ok e.2) l.
Proof. done. Qed.

#[local] Arguments as_u64 : simpl never.
#[local] Arguments as_u8 : simpl never.

(** Looking up keys that are given. *)
Ltac look_up :=
  cbn [get_key]; repeat first [rewrite decide_True by done | rewrite decide_False by done].

Lemma header_round_trip h :
  0 <= sh_seq h < 2 ^ 64 -> control_from_value (control_value (Segment h)) = Some (Segment h).
Proof.
  intros Hs. unfold control_from_value, control_value, header_from_value. look_up. cbn.
  look_up. cbn. rewrite as_u64_ok by done. by destruct h.
Qed.

Lemma trailer_round_trip t :
  0 <= t_seq t < 2 ^ 64 -> 0 <= t_records t < 2 ^ 64 -> 0 <= t_v t < 2 ^ 8 ->
  control_from_value (control_value (Batch t)) = Some (Batch t).
Proof.
  intros Hs Hr Hv. unfold control_from_value, control_value, trailer_from_value.
  destruct t as [seq records prev hash sig key_id [] v]; cbn [app t_seq t_records t_prev t_hash
    t_sig t_key_id t_recovered t_v] in *; destruct (v =? 0) eqn:Hv0; look_up; cbn; look_up; cbn;
    rewrite !as_u64_ok by done; cbn; rewrite ?(as_u8_ok v) by done; try done;
    apply Z.eqb_eq in Hv0; by subst.
Qed.

Lemma classify_header key hd :
  head_ok hd -> classify (body (header_line key hd)) = LSegment (segment_header key hd).
Proof using JL.
  intros [Hs _]. unfold header_line, control_line, classify. rewrite body_line, json_round_trip.
  - rewrite header_round_trip by done. cbn [control_value].
    by rewrite bool_decide_eq_true_2 by (left; by eexists).
  - unfold control_value. rewrite !object_ok. cbn [forallb snd]. rewrite !object_ok.
    cbn [forallb snd]. rewrite number_ok by done. by vm_compute.
Qed.

Lemma classify_trailer key hd lines :
  head_ok hd ->
  classify (body (trailer_line key hd lines)) =
  LBatch (sign_batch key hd (concat lines) (u64 (Z.of_nat (length lines)))).
Proof using JL.
  intros [Hs _]. unfold trailer_line, control_line, classify. rewrite body_line.
  pose proof (u64_bound (Z.of_nat (length lines))) as Hn.
  set (n := u64 (Z.of_nat (length lines))) in *. rewrite json_round_trip.
  - rewrite trailer_round_trip by done. cbn [control_value].
    by rewrite bool_decide_eq_true_2 by (right; by eexists).
  - unfold control_value. rewrite object_ok. cbn [forallb snd t_recovered t_v sign_batch app].
    rewrite object_ok. cbn [forallb snd]. rewrite !number_ok by done. by vm_compute.
Qed.

Lemma hex32_encode b : length b = 32%nat -> hex32 (hex_encode b) = Some b.
Proof using XL. intros Hb. unfold hex32, sized. rewrite hex_round_trip. cbn. by rewrite Hb. Qed.

Lemma hex64_encode b : length b = 64%nat -> hex64 (hex_encode b) = Some b.
Proof using XL. intros Hb. unfold hex64, sized. rewrite hex_round_trip. cbn. by rewrite Hb. Qed.

Lemma parse_public_key_encode b : length b = 32%nat -> parse_public_key (hex_encode b) = Some b.
Proof using XL.
  intros Hb. unfold parse_public_key, sized. rewrite trim_hex by apply hex_digits.
  rewrite hex_round_trip. cbn. by rewrite Hb.
Qed.

Lemma seal_head_ok hd lines : head_ok (seal_head hd lines).
Proof using CL. split; [apply u64_bound|apply sha256_length]. Qed.

Lemma sign_hash hd lines :
  batch_hash_v2 (h_hash hd) (h_next_seq hd) (u64 (Z.of_nat (length lines))) (concat lines) =
  h_hash (seal_head hd lines).
Proof. done. Qed.

Lemma history_lines_app key hd a b :
  history_lines key hd (a ++ b) =
  history_lines key hd a ++ history_lines key (sealed_head hd a) b.
Proof.
  revert hd. induction a as [|l a IH]; intros hd; [done|]. cbn. rewrite IH.
  by rewrite <- app_assoc.
Qed.

Lemma control_is_line c : is_line (control_line c).
Proof using JL. apply json_line. Qed.

Lemma history_lines_are_lines key hd history :
  Forall (Forall is_record) history -> Forall is_line (history_lines key hd history).
Proof using JL.
  intros Hh. revert hd. induction Hh as [|lines history Hl _ IH]; intros hd; [constructor|].
  cbn. apply Forall_app. split; [by eapply Forall_impl; [done|intros ? []]|].
  constructor; [apply control_is_line|apply IH].
Qed.

Lemma segment_lines_are_lines key hd history :
  Forall (Forall is_record) history -> Forall is_line (segment_lines key hd history).
Proof using JL. constructor; [apply control_is_line|by apply history_lines_are_lines]. Qed.

(** ** Verification of what was written *)

Section Forward.
Variable expect : Expect.

Record stands (v : vstate) (hd : Head) (key : option bytes) (pending : list bytes)
    (batches records : Z) (anchor : option bool) : Prop := {
  st_clean : clean v;
  st_head : v_head v = Some hd;
  st_key : v_key v = key;
  st_pending : v_pending v = concat pending;
  st_count : v_pending_records v = u64 (Z.of_nat (length pending));
  st_batches : re_batches (v_report v) = u64 batches;
  st_records : re_records (v_report v) = u64 records;
  st_recovered : re_recovered (v_report v) = 0;
  st_anchor : v_anchor v = anchor }.

Lemma u64_add a b : u64 (u64 a + b) = u64 (a + b).
Proof. unfold u64. by rewrite Zplus_mod_idemp_l. Qed.

Lemma verify_lines_app name a b : forall i v,
  verify_lines expect name i (a ++ b) v =
  verify_lines expect name (i + length a) b (verify_lines expect name i a v).
Proof.
  induction a as [|l a IH]; intros i v; cbn; [by rewrite Nat.add_0_r|].
  rewrite IH. f_equal. lia.
Qed.

Lemma verify_records name ls : forall i v hd key p n r a,
  stands v hd key p n r a -> Forall is_record ls ->
  stands (verify_lines expect name i ls v) hd key (p ++ ls) n r a.
Proof.
  induction ls as [|l ls IH]; intros i v hd key p n r a Hv Hl; cbn; [by rewrite app_nil_r|].
  apply Forall_cons in Hl as [[_ Hc] Hls].
  replace (p ++ l :: ls) with ((p ++ [l]) ++ ls) by (by rewrite <- app_assoc).
  apply IH; [|done]. unfold verify_line. rewrite Hc.
  set (u := if _ =? 0 then _ else _).
  assert (u = v \/ u = set_pending_from (S i) v) as Hu by (subst u; destruct (_ =? 0); auto).
  destruct Hv. split; cbn; destruct Hu as [-> | ->]; cbn; try done.
  - by rewrite concat_app, st_pending0; cbn; rewrite app_nil_r.
  - by rewrite concat_app, st_pending0; cbn; rewrite app_nil_r.
  - by rewrite st_count0, length_app, u64_add, Nat2Z.inj_add.
  - by rewrite st_count0, length_app, u64_add, Nat2Z.inj_add.
Qed.

(** The writer's own trailer has no faults. *)
Lemma own_trailer key hd lines :
  head_ok hd ->
  batch_faults hd (sign_batch key hd (concat lines) (u64 (Z.of_nat (length lines))))
    (Some (ed_public key)) (concat lines) (u64 (Z.of_nat (length lines))) =
  ([], h_hash (seal_head hd lines)).
Proof using CL XL.
  intros [Hs Hh]. pose proof (seal_head_ok hd lines) as [_ Hn].
  unfold batch_faults, trailer_hash. cbn [sign_batch t_seq t_records t_prev t_hash t_sig t_v
    t_recovered negb andb]. rewrite sign_hash. set (h := h_hash (seal_head hd lines)) in *.
  rewrite (hex32_encode h), (hex32_encode (h_hash hd)), hex64_encode, ed_sign_verifies
    by (done || apply ed_sign_length).
  rewrite !Z.eqb_refl, decide_True by done. cbn [TRAILER_V2 Z.eqb Pos.eqb andb].
  by rewrite decide_True.
Qed.

Lemma verify_trailer name i key v hd lines n r a :
  head_ok hd -> stands v hd (Some (ed_public key)) lines n r a ->
  stands (verify_line expect name i (trailer_line key hd lines) v) (seal_head hd lines)
    (Some (ed_public key)) [] (n + 1) (r + Z.of_nat (length lines))
    (note_position (ex_head expect) (seal_head hd lines) a).
Proof using JL CL XL.
  intros Hh [Hc Hhd Hk Hp Hn Hb Hr Hre Ha]. unfold verify_line, verify_batch.
  rewrite classify_trailer, Hhd, Hk, Hp, Hn, own_trailer by done.
  pose proof (seal_head_ok hd lines) as [_ Hlen].
  split; cbn; try done.
  - by rewrite sign_hash, hex32_encode.
  - by rewrite Hb, u64_add.
  - rewrite Hr, u64_add. unfold u64. rewrite <- Zplus_mod_idemp_r, Zmod_mod, Zplus_mod_idemp_r. done.
  - by rewrite Ha.
Qed.

(** The positions after each batch. *)
Fixpoint seal_heads (hd : Head) (history : list (list bytes)) : list Head :=
  match history with
  | [] => []
  | lines :: history => seal_head hd lines :: seal_heads (seal_head hd lines) history
  end.

Definition note_all (heads : list Head) (a : option bool) : option bool :=
  foldl (fun seen p => note_position (ex_head expect) p seen) a heads.

Definition count_records (history : list (list bytes)) : Z := Z.of_nat (length (concat history)).

Lemma verify_history name key history : forall i v hd n r a,
  head_ok hd -> Forall (Forall is_record) history ->
  stands v hd (Some (ed_public key)) [] n r a ->
  stands (verify_lines expect name i (history_lines key hd history) v) (sealed_head hd history)
    (Some (ed_public key)) [] (n + Z.of_nat (length history)) (r + count_records history)
    (note_all (seal_heads hd history) a).
Proof using JL CL XL.
  induction history as [|lines history IH]; intros i v hd n r a Hh Hrec Hv; cbn.
  - by rewrite !Z.add_0_r.
  - apply Forall_cons in Hrec as [Hl Hrec]. rewrite verify_lines_app. cbn.
    replace (n + Z.of_nat (S (length history))) with (n + 1 + Z.of_nat (length history)) by lia.
    replace (r + count_records (lines :: history))
      with (r + Z.of_nat (length lines) + count_records history)
      by (unfold count_records; cbn; rewrite length_app; lia).
    apply IH; [apply seal_head_ok|done|]. apply verify_trailer; [done|].
    by apply (verify_records _ _ _ _ _ _ []).
Qed.

(** *** Segments *)

(** Before a segment that continues at [hd]; before the first, the chain starts. *)
Record ready (v : vstate) (hd : Head) (batches records : Z) (anchor : option bool) : Prop := {
  rd_clean : clean v;
  rd_head : v_head v = Some hd /\ v_anchor v = anchor \/
            v_head v = None /\ hd = genesis /\ v_anchor v = None /\
            anchor = note_position (ex_head expect) genesis None;
  rd_batches : re_batches (v_report v) = u64 batches;
  rd_records : re_records (v_report v) = u64 records;
  rd_recovered : re_recovered (v_report v) = 0 }.

Lemma ready_new_segment v hd n r a : ready v hd n r a -> ready (new_segment v) hd n r a.
Proof. intros []. by split. Qed.

Lemma ready_warning w v hd n r a :
  ready v hd n r a -> ready (on_report (add_warning w) v) hd n r a.
Proof. intros []. by split. Qed.

Lemma add_key_id_fields {A} (f : Report -> A) id r :
  (forall l, f (mk_Report (re_segments r) (re_batches r) (re_records r) (re_recovered r)
     (re_first_seq r) (re_head_seq r) (re_head_hash r) l (re_unsealed_tail r)
     (re_head_anchored r) (re_warnings r) (re_problems r)) = f r) ->
  f (add_key_id id r) = f r.
Proof. intros Hf. unfold add_key_id. case_decide; [done|apply Hf]. Qed.

Lemma verify_header_line name key v hd n r a :
  head_ok hd -> ed_public key ∈ ex_keys expect -> ready v hd n r a ->
  v_pending v = [] -> v_pending_records v = 0 ->
  stands (verify_line expect name 0 (header_line key hd) v) hd (Some (ed_public key)) [] n r a.
Proof using JL CL XL.
  intros Hh Hk [Hc Hhd Hb Hr Hre] Hp Hn. unfold verify_line, verify_header.
  rewrite classify_header by done. cbn [negb Nat.eqb segment_header sh_prev sh_public_key sh_seq].
  rewrite hex32_encode, parse_public_key_encode by (apply Hh || apply ed_public_length).
  assert (check_key expect name 1 (h_next_seq hd) (ed_public key) v = v) as ->.
  { unfold check_key. destruct (ex_keys expect) eqn:He; [by apply not_elem_of_nil in Hk|].
    by rewrite decide_True. }
  unfold check_position. cbn [v_head set_key on_report].
  destruct Hhd as [[Hv Ha]|(-> & -> & Ha & ->)].
  - rewrite Hv, Z.eqb_refl, bool_decide_eq_true_2 by done. cbn [negb orb].
    split; unfold clean; cbn; rewrite ?(add_key_id_fields re_problems), ?(add_key_id_fields re_batches),
      ?(add_key_id_fields re_records), ?(add_key_id_fields re_recovered) by done; done.
  - cbn [genesis h_next_seq h_hash Z.eqb negb]. rewrite decide_True by done.
    split; unfold clean; cbn; rewrite ?(add_key_id_fields re_problems), ?(add_key_id_fields re_batches),
      ?(add_key_id_fields re_records), ?(add_key_id_fields re_recovered) by done; try done.
    by rewrite Ha.
Qed.

Lemma ready_of_stands v hd k p n r a : stands v hd k p n r a -> ready v hd n r a.
Proof. intros []. split; try done. by left. Qed.

Lemma verify_segment_forward newest name key hd history tail torn v n r a :
  head_ok hd -> ed_public key ∈ ex_keys expect -> Forall (Forall is_record) history ->
  Forall is_record tail -> newline ∉ torn -> newest = true \/ tail = [] /\ torn = [] ->
  ready v hd n r a ->
  ready (verify_segment expect newest name
           (concat (segment_lines key hd history ++ tail) ++ torn) v)
    (sealed_head hd history) (n + Z.of_nat (length history)) (r + count_records history)
    (note_all (seal_heads hd history) a) /\
  v_head (verify_segment expect newest name
           (concat (segment_lines key hd history ++ tail) ++ torn) v) =
    Some (sealed_head hd history).
Proof using JL CL XL.
  intros Hh Hk Hhist Htail Htorn Hnew Hv. unfold verify_segment.
  assert (Forall is_line (segment_lines key hd history ++ tail)) as Hlines.
  { apply Forall_app. split; [by apply segment_lines_are_lines|].
    eapply Forall_impl; [done|]. by intros l [? _]. }
  rewrite split_torn_lines by done.
  set (v1 := match (if decide (torn = []) then None else Some torn) with
             | Some _ => _ | None => _ end).
  assert (ready v1 hd n r a /\ v_pending v1 = [] /\ v_pending_records v1 = 0) as (H1 & Hp1 & Hn1).
  { subst v1. case_decide; [split; [by apply ready_new_segment|done]|].
    destruct Hnew as [->|[_ ?]]; [|done].
    split; [by apply ready_warning, ready_new_segment|done]. }
  pose proof (verify_header_line name key v1 hd n r a Hh Hk H1 Hp1 Hn1) as H2.
  pose proof (verify_history name key history 1 _ hd n r a Hh Hhist H2) as H3.
  rewrite verify_lines_app. cbn [segment_lines length verify_lines].
  pose proof (verify_records name tail (0 + S (length (history_lines key hd history))) _ _ _ _
    _ _ _ H3 Htail) as H4.
  set (v4 := verify_lines expect name (0 + S _) tail _) in H4 |- *.
  pose proof (ready_of_stands _ _ _ _ _ _ _ H4) as H5.
  rewrite decide_False by (rewrite (st_key _ _ _ _ _ _ _ H4); done).
  pose proof (st_head _ _ _ _ _ _ _ H4) as Hhd.
  destruct (0 <? v_pending_records v4) eqn:Hn; [|done]. destruct Hnew as [->|[-> ->]].
  - split; [|done]. destruct H5. by split.
  - by rewrite (st_count _ _ _ _ _ _ _ H4) in Hn.
Qed.

(** *** The expected head *)

Lemma note_all_true want ps : forall a,
  ex_head expect = Some want ->
  (forall p, p ∈ ps -> h_next_seq p = h_next_seq want -> p = want) ->
  a = Some true \/ a = None /\ want ∈ ps -> note_all ps a = Some true.
Proof.
  unfold note_all. induction ps as [|p ps IH]; intros a Hw Hps Ha; cbn.
  - by destruct Ha as [?|[_ ?%not_elem_of_nil]].
  - rewrite Hw in IH |- *. apply IH; [done|intros q Hq; apply Hps; by apply elem_of_cons; right|].
    cbn. destruct (h_next_seq want =? h_next_seq p) eqn:He.
    + apply Z.eqb_eq in He. rewrite (Hps p) by (done || apply elem_of_cons; by left).
      rewrite bool_decide_eq_true_2 by done. left. by destruct Ha as [-> |[-> _]].
    + destruct Ha as [?|[? [->|?]%elem_of_cons]]; [by left|by rewrite Z.eqb_refl in He|by right].
Qed.

End Forward.

Lemma seal_heads_app hd a b :
  seal_heads hd (a ++ b) = seal_heads hd a ++ seal_heads (sealed_head hd a) b.
Proof. revert hd. induction a as [|l a IH]; intros hd; cbn; [done|]. by rewrite IH. Qed.

Lemma elem_of_seal_heads hd history p :
  p ∈ hd :: seal_heads hd history <->
  exists n, (n <= length history)%nat /\ p = sealed_head hd (take n history).
Proof.
  revert hd. induction history as [|l history IH]; intros hd; cbn.
  - rewrite list_elem_of_singleton. split; [intros ->; by exists 0%nat|].
    by intros ([|n] & ? & ->); [|lia].
  - rewrite elem_of_cons, IH. split.
    + intros [->|(n & ? & ->)]; [exists 0%nat; split; [lia|done]|].
      exists (S n). split; [lia|done].
    + intros ([|n] & ? & ->); [by left|right]. exists n. split; [lia|done].
Qed.

Lemma sealed_head_seq_small history :
  Z.of_nat (length history) < 2 ^ 64 ->
  h_next_seq (sealed_head genesis history) = Z.of_nat (length history).
Proof.
  intros Hn. destruct (sealed_head_seq genesis history) as [-> | ->]; [|done].
  apply u64_small. cbn. lia.
Qed.

(** A head the writer had at any time is met once. *)
Lemma note_own_heads expect history n :
  Z.of_nat (length history) < 2 ^ 64 -> (n <= length history)%nat ->
  ex_head expect = Some (sealed_head genesis (take n history)) ->
  note_all expect (seal_heads genesis history) (note_position (ex_head expect) genesis None) =
  Some true.
Proof.
  intros Hlen Hn Hw.
  change (note_all expect (genesis :: seal_heads genesis history) None = Some true).
  apply (note_all_true _ (sealed_head genesis (take n history))); [done| |].
  - intros p (m & Hm & ->)%elem_of_seal_heads.
    rewrite !sealed_head_seq_small by (rewrite length_take; lia).
    rewrite !length_take, !Nat.min_l by lia. by intros ->%Nat2Z.inj.
  - right. split; [done|]. apply elem_of_seal_heads. by exists n.
Qed.

(** ** Whole logs *)

(** Sealed segments from [hd] on: for each the key that signed it and its batches. *)
Fixpoint log_files (hd : Head) (segs : list (bytes * list (list bytes)))
    : list (string * bytes) :=
  match segs with
  | [] => []
  | (key, history) :: segs =>
      (segment_name (h_next_seq hd), concat (segment_lines key hd history)) ::
      log_files (sealed_head hd history) segs
  end.

Definition log_history (segs : list (bytes * list (list bytes))) : list (list bytes) :=
  concat segs.*2.

(** A log whose newest segment may have an open batch and a torn line. *)
Definition written_log (older : list (bytes * list (list bytes))) (key : bytes)
    (history : list (list bytes)) (tail : list bytes) (torn : bytes) : list (string * bytes) :=
  let hd := sealed_head genesis (log_history older) in
  log_files genesis older ++
  [(segment_name (h_next_seq hd), concat (segment_lines key hd history ++ tail) ++ torn)].

Lemma sealed_head_app hd a b : sealed_head hd (a ++ b) = sealed_head (sealed_head hd a) b.
Proof. apply foldl_app. Qed.

Lemma count_records_app a b : count_records (a ++ b) = count_records a + count_records b.
Proof. unfold count_records. rewrite concat_app, length_app. lia. Qed.

Lemma note_all_app expect a b x :
  note_all expect (a ++ b) x = note_all expect b (note_all expect a x).
Proof. apply foldl_app. Qed.

Lemma verify_older expect segs : forall rest v hd n r a,
  rest <> [] -> head_ok hd -> Forall (fun s => ed_public s.1 ∈ ex_keys expect) segs ->
  Forall (fun s => Forall (Forall is_record) s.2) segs -> ready expect v hd n r a ->
  exists v', verify_all expect (log_files hd segs ++ rest) v = verify_all expect rest v' /\
  ready expect v' (sealed_head hd (log_history segs)) (n + Z.of_nat (length (log_history segs)))
    (r + count_records (log_history segs)) (note_all expect (seal_heads hd (log_history segs)) a).
Proof using JL CL XL.
  induction segs as [|[key history] segs IH]; intros rest v hd n r a Hne Hh Hk Hr Hv.
  - exists v. cbn. by rewrite !Z.add_0_r.
  - apply Forall_cons in Hk as [Hk Hks], Hr as [Hr Hrs]. cbn [log_files app verify_all].
    rewrite bool_decide_eq_false_2 by (by intros [_ ?]%app_nil).
    destruct (verify_segment_forward expect false (segment_name (h_next_seq hd)) key hd history
      [] [] v n r a) as [H1 _]; [done..|apply not_elem_of_nil|by right|done|].
    rewrite !app_nil_r in H1.
    destruct (IH rest _ _ _ _ _ Hne (sealed_head_ok hd history Hh) Hks Hrs H1) as (v' & -> & Hv').
    exists v'. split; [done|]. unfold log_history in *. cbn [fmap list_fmap concat snd] in *.
    rewrite sealed_head_app, seal_heads_app, count_records_app, length_app, note_all_app.
    by rewrite Nat2Z.inj_add, !Z.add_assoc.
Qed.

Lemma conclude_ready expect v hd n r a :
  ready expect v hd n r a -> v_head v = Some hd -> 0 < n -> n < 2 ^ 64 ->
  (forall want, ex_head expect = Some want -> a = Some true) ->
  let rep := conclude expect v in
  Report_ok rep = true /\ re_batches rep = n /\ re_records rep = u64 r /\
  re_head_seq rep = Some (h_next_seq hd) /\ re_head_hash rep = Some (hex_encode (h_hash hd)).
Proof.
  intros [Hc Hv Hb Hr Hre] Hhd H0 Hn Ha. rewrite u64_small in Hb by lia.
  assert (forall want, ex_head expect = Some want -> v_anchor v = Some true) as Hanchor.
  { intros want Hw. destruct Hv as [[_ ->]|[Hv _]]; [by eapply Ha|congruence]. }
  unfold conclude. rewrite Hhd. cbn [report_head]. cbn [re_recovered set_reported_head].
  rewrite Hre. cbn [Z.ltb Z.compare]. unfold check_anchor.
  destruct (ex_head expect) as [want|]; [rewrite (Hanchor _ eq_refl)|];
    cbn; rewrite Hb; (destruct (n =? 0) eqn:Hz; [lia|]); cbn; unfold clean in Hc;
    rewrite decide_True by done; cbn; unfold Report_ok; cbn;
    rewrite bool_decide_eq_true_2 by done; by rewrite Hb, Hr.
Qed.

(** What the writer wrote is accepted, with any head it ever had. *)
Lemma verify_written expect older key history tail torn n :
  let all := log_history older ++ history in
  Forall (fun s => ed_public s.1 ∈ ex_keys expect) older -> ed_public key ∈ ex_keys expect ->
  Forall (fun s => Forall (Forall is_record) s.2) older -> Forall (Forall is_record) history ->
  Forall is_record tail -> newline ∉ torn -> all <> [] -> Z.of_nat (length all) < 2 ^ 64 ->
  (n <= length all)%nat ->
  ex_head expect = None \/ ex_head expect = Some (sealed_head genesis (take n all)) ->
  let r := verify_segments_with expect (written_log older key history tail torn) in
  Report_ok r = true /\ re_batches r = Z.of_nat (length all) /\
  re_records r = u64 (count_records all) /\
  re_head_seq r = Some (h_next_seq (sealed_head genesis all)) /\
  re_head_hash r = Some (hex_encode (h_hash (sealed_head genesis all))).
Proof using JL CL XL.
  intros all Hko Hk Hro Hr Htail Htorn Hne Hlen Hn Hw.
  set (v0 := vstate_init (Report_new (length (written_log older key history tail torn)))).
  assert (verify_segments_with expect (written_log older key history tail torn) =
          conclude expect (verify_all expect (written_log older key history tail torn) v0)) as Heq.
  { unfold verify_segments_with. subst v0. destruct (ex_keys expect); [by apply not_elem_of_nil in Hk|].
    unfold written_log. by destruct (log_files genesis older). }
  assert (ready expect v0 genesis 0 0 (note_position (ex_head expect) genesis None)) as H0.
  { split; try done. by right. }
  destruct (verify_older expect older
    [(segment_name (h_next_seq (sealed_head genesis (log_history older))),
      concat (segment_lines key (sealed_head genesis (log_history older)) history ++ tail) ++ torn)]
    v0 genesis 0 0 _ ltac:(done) genesis_ok Hko Hro H0) as (v1 & H1 & Hv1).
  destruct (verify_segment_forward expect true
    (segment_name (h_next_seq (sealed_head genesis (log_history older)))) key
    (sealed_head genesis (log_history older)) history tail torn v1 _ _ _
    (sealed_head_ok _ _ genesis_ok) Hk Hr Htail Htorn (or_introl eq_refl) Hv1) as [Hv2 Hhd].
  fold (written_log older key history tail torn) in H1. cbn [verify_all] in H1.
  rewrite bool_decide_eq_true_2 in H1 by done. rewrite Heq, H1.
  rewrite <- sealed_head_app, <- note_all_app, <- seal_heads_app, <- !Z.add_assoc,
    <- Nat2Z.inj_add, <- length_app, <- count_records_app in Hv2.
  rewrite <- sealed_head_app in Hhd. fold all in Hv2, Hhd.
  apply (conclude_ready _ _ _ _ _ _ Hv2 Hhd).
  - destruct all; [done|cbn; lia].
  - done.
  - intros want Hwant. destruct Hw as [?|Hw]; [congruence|].
    by apply (note_own_heads _ _ n).
Qed.

End Lines.
