(* ===== verification/AuditNames.v ===== *)
(** * File names of the audit log

    Segment names sort as the chain does, and files set aside are not segments. *)

From stdpp Require Import sorting.
From S2P Require Import Prelude Text Json Crypto AuditWriter.
Open Scope string_scope.
Open Scope list_scope.
Open Scope Z_scope.

(** ** Order *)

(** The first difference decides. *)
Definition lex_lt (a b : list ascii) : Prop :=
  exists p c d a' b', a = p ++ c :: a' /\ b = p ++ d :: b' /\ (N_of_ascii c < N_of_ascii d)%N.

Lemma lex_lt_app a b x y : lex_lt a b -> lex_lt (a ++ x) (b ++ y).
Proof.
  intros (p & c & d & a' & b' & -> & -> & Hcd). exists p, c, d, (a' ++ x), (b' ++ y).
  by rewrite <- !app_assoc.
Qed.

Lemma lex_lt_compare a b : lex_lt a b -> (text a ?= text b)%string = Lt.
Proof.
  intros (p & c & d & a' & b' & -> & -> & Hcd). induction p as [|e p IH]; cbn.
  - unfold Ascii.compare. by rewrite (proj2 (N.compare_lt_iff _ _)).
  - unfold Ascii.compare. by rewrite N.compare_refl.
Qed.

Lemma lex_lt_le a b : lex_lt a b -> String.le (text a) (text b).
Proof. intros H%lex_lt_compare. unfold String.le, String.leb. by rewrite H. Qed.

Lemma lex_lt_ne a b : lex_lt a b -> text a <> text b.
Proof.
  intros H%lex_lt_compare He. rewrite He in H.
  pose proof (String.compare_antisym (text b) (text b)) as Ha. by rewrite H in Ha.
Qed.

Lemma decimal_lt a b : a mod 10 < b mod 10 -> (N_of_ascii (decimal a) < N_of_ascii (decimal b))%N.
Proof.
  intros H. pose proof (Z.mod_pos_bound a 10 ltac:(lia)). pose proof (Z.mod_pos_bound b 10 ltac:(lia)).
  unfold decimal, byte_char, ascii_of_nat. rewrite !N_ascii_embedding by lia. lia.
Qed.

Lemma decimals_lt n : forall a b,
  0 <= a < b -> b < 10 ^ Z.of_nat n -> lex_lt (decimals n a) (decimals n b).
Proof.
  induction n as [|n IH]; intros a b Hab Hb; [cbn in Hb; lia|].
  rewrite Nat2Z.inj_succ, Z.pow_succ_r in Hb by lia. cbn [decimals].
  pose proof (Z.div_mod a 10 ltac:(lia)) as Ha1. pose proof (Z.div_mod b 10 ltac:(lia)) as Hb1.
  pose proof (Z.mod_pos_bound a 10 ltac:(lia)). pose proof (Z.mod_pos_bound b 10 ltac:(lia)).
  destruct (Z.lt_trichotomy (a / 10) (b / 10)) as [Hlt|[Heq|Hgt]].
  - apply lex_lt_app, IH; [|apply Z.div_lt_upper_bound; lia].
    split; [apply Z.div_pos; lia|done].
  - rewrite Heq. exists (decimals n (b / 10)), (decimal a), (decimal b), [], [].
    split_and!; [done..|]. apply decimal_lt. lia.
  - lia.
Qed.

Lemma chars_segment_name z : chars (segment_name z) = decimals 20 z ++ chars ".jsonl".
Proof. unfold segment_name. by rewrite chars_app, chars_text. Qed.

Lemma segment_name_lex a b :
  0 <= a < b -> b < 2 ^ 64 -> lex_lt (chars (segment_name a)) (chars (segment_name b)).
Proof.
  intros Hab Hb. rewrite !chars_segment_name. apply lex_lt_app, decimals_lt; [done|].
  apply (Z.lt_trans _ (2 ^ 64)); [done|]. by vm_compute.
Qed.

Lemma segment_name_le a b : 0 <= a < b -> b < 2 ^ 64 -> String.le (segment_name a) (segment_name b).
Proof.
  intros Hab Hb. rewrite <- (text_chars (segment_name a)), <- (text_chars (segment_name b)).
  by apply lex_lt_le, segment_name_lex.
Qed.

Lemma segment_name_ne a b : 0 <= a < b -> b < 2 ^ 64 -> segment_name a <> segment_name b.
Proof.
  intros Hab Hb. rewrite <- (text_chars (segment_name a)), <- (text_chars (segment_name b)).
  by apply lex_lt_ne, segment_name_lex.
Qed.

(** ** Extensions *)

Lemma split_last_app c l r : c ∉ r -> split_last c (l ++ c :: r) = Some (l, r).
Proof.
  intros Hr. assert (split_last c r = None) as Hn.
  { induction r as [|a r IH]; [done|]. apply not_elem_of_cons in Hr as [Ha Hr]. cbn.
    rewrite IH by done. by rewrite decide_False by done. }
  induction l as [|a l IH]; cbn; [rewrite Hn; by rewrite decide_True|by rewrite IH].
Qed.

Lemma extension_app stem ext :
  stem <> [] -> "."%char ∉ ext -> extension (text (stem ++ "."%char :: ext)) = Some (text ext).
Proof.
  intros Hs He. unfold extension. rewrite chars_text, split_last_app by done. cbn.
  by destruct stem.
Qed.

Lemma segment_name_is_segment z : is_segment (segment_name z) = true.
Proof.
  unfold is_segment. apply bool_decide_eq_true.
  rewrite <- (text_chars (segment_name z)), chars_segment_name.
  change (chars ".jsonl") with ("."%char :: chars "jsonl"). rewrite extension_app; [done|..].
  - cbn [decimals]. intros [_ ?]%app_nil. done.
  - apply (bool_decide_eq_true_1 (_ ∉ _)). by vm_compute.
Qed.

Lemma is_segment_suffix base ext :
  "."%char ∉ ext -> text ext <> "jsonl" -> chars base <> [] ->
  is_segment (text (chars base ++ "."%char :: ext)) = false.
Proof.
  intros He Hj Hb. unfold is_segment. apply bool_decide_eq_false.
  rewrite extension_app by done. by intros [= ?].
Qed.

(** ** Names to set files aside *)

Definition digit (c : ascii) : Prop := (48 <= nat_of_ascii c <= 57)%nat.

Lemma decimal_digit z : digit (decimal z).
Proof.
  unfold digit, decimal, byte_char. pose proof (Z.mod_pos_bound z 10 ltac:(lia)).
  rewrite nat_ascii_embedding; lia.
Qed.

Lemma digits_of_digits fuel : forall z, Forall digit (digits_of fuel z).
Proof.
  induction fuel as [|fuel IH]; intros z; [constructor|]. cbn. apply Forall_app.
  split; [destruct (z <? 10); [constructor|apply IH]|].
  constructor; [apply decimal_digit|constructor].
Qed.

Definition number (l : list ascii) : Z :=
  foldl (fun n c => n * 10 + (Z.of_nat (nat_of_ascii c) - 48)) 0 l.

Lemma number_decimal z : Z.of_nat (nat_of_ascii (decimal z)) - 48 = z mod 10.
Proof.
  unfold decimal, byte_char. pose proof (Z.mod_pos_bound z 10 ltac:(lia)).
  rewrite nat_ascii_embedding by lia. lia.
Qed.

Lemma number_digits fuel : forall z, 0 <= z < Z.of_nat fuel -> number (digits_of fuel z) = z.
Proof.
  unfold number. induction fuel as [|fuel IH]; intros z Hz; [lia|]. cbn [digits_of].
  rewrite foldl_app. cbn [foldl]. rewrite number_decimal.
  pose proof (Z.div_mod z 10 ltac:(lia)). pose proof (Z.mod_pos_bound z 10 ltac:(lia)).
  destruct (z <? 10) eqn:H10; bool_to_prop.
  - cbn [foldl]. rewrite Z.mod_small by lia. lia.
  - rewrite IH; [lia|]. split; [apply Z.div_pos; lia|]. apply Z.div_lt_upper_bound; lia.
Qed.

Lemma decimal_text_inj a b : decimal_text a = decimal_text b -> a = b.
Proof.
  unfold decimal_text. intros H%(f_equal chars). rewrite !chars_text in H.
  apply (f_equal number) in H. rewrite !number_digits in H by lia. lia.
Qed.

Definition candidate (base : string) (n : nat) : string :=
  match n with
  | O => base
  | S _ => base +:+ "." +:+ decimal_text n
  end.

Lemma candidate_chars base n :
  chars (candidate base n) =
  chars base ++ match n with O => [] | S _ => "."%char :: chars (decimal_text n) end.
Proof.
  destruct n; cbn [candidate]; [by rewrite app_nil_r|]. by rewrite !chars_app.
Qed.

Lemma candidate_inj base a b : candidate base a = candidate base b -> a = b.
Proof.
  intros H%(f_equal chars). rewrite !candidate_chars in H. apply app_inv_head in H.
  destruct a, b; [done..|]. injection H as H.
  apply decimal_text_inj. rewrite <- (text_chars (decimal_text (S a))), H. apply text_chars.
Qed.

(** The name found is free. *)
Lemma discarded_loop_free files base fuel : forall n,
  (forall m, (m < n)%nat -> is_Some (files !! candidate base m)) ->
  (size files < n + S fuel)%nat ->
  exists m, discarded_loop files base fuel n = candidate base m /\ files !! candidate base m = None.
Proof.
  induction fuel as [|fuel IH]; intros n Hn Hs; cbn.
  - exists n. split; [by destruct n|]. destruct (files !! candidate base n) eqn:He; [|done].
    exfalso. assert (NoDup (candidate base <$> seq 0 (S n))) as Hnd.
    { apply NoDup_fmap_2; [intros ??; apply candidate_inj|apply NoDup_seq]. }
    assert (list_to_set (candidate base <$> seq 0 (S n)) ⊆ dom files) as Hsub.
    { intros x. rewrite elem_of_list_to_set, list_elem_of_fmap. intros (m & -> & Hm%elem_of_seq).
      apply elem_of_dom. destruct (decide (m = n)) as [->|]; [by rewrite He|]. apply Hn. lia. }
    apply subseteq_size in Hsub. rewrite size_list_to_set, length_fmap, length_seq, size_dom in Hsub
      by done. lia.
  - change (match n with O => base | S _ => base +:+ "." +:+ decimal_text n end)
      with (candidate base n). case_decide as Hd; [|exists n; split; [done|by apply eq_None_not_Some]].
    apply IH; [|lia]. intros m Hm. destruct (decide (m = n)) as [->|]; [done|]. apply Hn. lia.
Qed.

Lemma candidate_not_segment base suffix n :
  chars base <> [] -> "."%char ∉ chars suffix -> suffix <> "jsonl" ->
  is_segment (candidate (base +:+ "." +:+ suffix) n) = false.
Proof.
  intros Hb Hs Hj.
  assert (forall ext, "."%char ∉ ext -> text ext <> "jsonl" -> forall b, chars b <> [] ->
    is_segment (text (chars b ++ "."%char :: ext)) = false) as H
    by (intros; by apply is_segment_suffix).
  rewrite <- (text_chars (candidate _ n)), candidate_chars. destruct n as [|n].
  - rewrite app_nil_r, !chars_app. cbn [chars list_ascii_of_string app].
    apply H; [done| |done]. by rewrite text_chars.
  - apply H.
    + intros Hd. unfold decimal_text in Hd. rewrite chars_text in Hd.
      pose proof (digits_of_digits (S (S n)) (Z.of_nat (S n))) as Hf. rewrite Forall_forall in Hf.
      apply Hf in Hd. vm_compute in Hd. lia.
    + rewrite text_chars. unfold decimal_text. intros Hd%(f_equal chars). rewrite chars_text in Hd.
      pose proof (digits_of_digits (S (S n)) (Z.of_nat (S n))) as Hf. rewrite Hd in Hf.
      apply Forall_cons in Hf as [Hf _]. vm_compute in Hf. lia.
    + rewrite chars_app. by intros [? _]%app_nil.
Qed.
