(* ===== verification/AuditRun.v ===== *)
(** * The life of an audit log

    A writer is opened, appends, seals and is stopped or killed at any point, and another
    is opened on what is left; files keep what was synced and any part of the rest.  No
    file operation fails.  At every moment of every such history the log verifies, the
    next writer continues it, and no sealed record is lost. *)

From stdpp Require Import sorting.
From S2P Require Import Prelude Text Json Crypto AuditWriter AuditVerify AuditChain AuditWrite.
From S2P Require Import AuditNames.
Open Scope string_scope.
Open Scope list_scope.
Open Scope Z_scope.

(** ** File operations that succeed *)

Notation calm f y := (mk_fs f y []).

Section Calm.
Context {J : Json} {C : Crypto} {X : Hex} {JL : JsonLaws J} {CL : CryptoLaws C} {XL : HexLaws X}.

Lemma flush_buf_calm file buf f y d :
  f !! file = Some d ->
  flush_buf file (buf, calm f y) = (inr tt, ([], calm (<[file := d ++ buf]> f) y)).
Proof.
  intros Hd. unfold flush_buf, write_file, append_to. cbn. by rewrite Hd, drop_all.
Qed.

Lemma write_all_calm file data buf f y d :
  f !! file = Some d ->
  exists buf' d', write_all file data (buf, calm f y) =
    (inr tt, (buf', calm (<[file := d']> f) y)) /\ d' ++ buf' = d ++ buf ++ data /\
    (length d <= length d')%nat.
Proof.
  intros Hd. unfold write_all, mbind, io_bind, buffer_room, ask_io. cbn [fst].
  destruct (length data <? BUF_SIZE - length buf)%nat eqn:H1.
  { exists (buf ++ data), d. by rewrite insert_id. }
  destruct (BUF_SIZE - length buf <? length data)%nat eqn:H2.
  - rewrite (flush_buf_calm _ _ _ _ d) by done. destruct (BUF_SIZE <=? length data)%nat.
    + exists [], ((d ++ buf) ++ data). unfold on_file, write_file, append_to. cbn.
      rewrite lookup_insert_eq, insert_insert_eq. split; [done|].
      rewrite app_nil_r, <- app_assoc, length_app. split; [done|lia].
    + exists data, (d ++ buf). rewrite <- app_assoc, length_app. split_and!; [done..|lia].
  - unfold mret, io_ret. destruct (BUF_SIZE <=? length data)%nat eqn:H3.
    + unfold on_file, write_file, append_to. cbn. exists buf, (d ++ data).
      rewrite Hd, length_app. split; [done|]. split; [|lia].
      apply Nat.ltb_ge in H1, H2. apply Nat.leb_le in H3.
      assert (0 < BUF_SIZE)%nat by (by apply Nat.ltb_lt).
      destruct buf as [|c buf]; [by rewrite app_nil_r|]. cbn [length] in *. lia.
    + exists (buf ++ data), d. by rewrite insert_id.
Qed.

Lemma start_segment_calm key hd f y :
  start_segment key hd (calm f y) =
  (inr (segment_name (h_next_seq hd), Z.of_nat (length (header_line key hd))),
   calm (<[segment_name (h_next_seq hd) := header_line key hd]> f)
     (delete (segment_name (h_next_seq hd)) y)).
Proof.
  unfold start_segment, create, operate, mbind, io_bind. cbn [fs_faults tail head fs_files fs_synced].
  set (name := segment_name (h_next_seq hd)).
  destruct (write_all_calm name (header_line key hd) [] (<[name := []]> f) (delete name y) [])
    as (buf & d & Hw & Hd & _); [by rewrite lookup_insert_eq|].
  unfold header_line in Hw at 1. rewrite Hw, insert_insert_eq.
  rewrite (flush_buf_calm _ _ _ _ d) by apply lookup_insert_eq.
  by rewrite insert_insert_eq, Hd.
Qed.

(** ** Directories *)

(** The segments among the files. *)
Definition seg_map (f : gmap string bytes) : gmap string bytes :=
  filter (fun e => is_segment e.1 = true) f.

Lemma seg_map_segment f name d :
  is_segment name = true -> seg_map (<[name := d]> f) = <[name := d]> (seg_map f).
Proof. intros Hn. unfold seg_map. by rewrite map_filter_insert_True. Qed.

Lemma seg_map_other f name d :
  is_segment name = false -> f !! name = None -> seg_map (<[name := d]> f) = seg_map f.
Proof.
  intros Hn Hf. unfold seg_map. rewrite map_filter_insert_False by (cbn; congruence).
  by rewrite delete_id.
Qed.

Lemma seg_map_lookup f name d :
  seg_map f !! name = Some d -> f !! name = Some d /\ is_segment name = true.
Proof. unfold seg_map. by rewrite map_lookup_filter_Some. Qed.

Lemma seg_map_delete f name : seg_map (delete name f) = delete name (seg_map f).
Proof. unfold seg_map. by rewrite map_filter_delete. Qed.

Lemma list_names_calm f y : list_names (calm f y) = (inr (map_to_list f).*1, calm f y).
Proof. done. Qed.

Lemma read_file_calm f y name d :
  f !! name = Some d -> read_file name (calm f y) = (inr d, calm f y).
Proof.
  intros Hd. unfold read_file, mbind, io_bind. cbn. unfold ask_io. cbn. by rewrite Hd.
Qed.

(** Listing yields the segments in order. *)
Lemma segments_calm f y files :
  seg_map f = list_to_map files -> NoDup files.*1 -> Sorted String.le files.*1 ->
  segments (calm f y) = (inr files.*1, calm f y).
Proof.
  intros Hf Hnd Hs. unfold segments, mbind, io_bind. rewrite list_names_calm.
  unfold mret, io_ret. f_equal. f_equal.
  apply (Sorted_unique String.le); [apply Sorted_merge_sort; apply _|done|].
  rewrite merge_sort_Permutation. apply NoDup_Permutation; [|done|].
  - apply NoDup_filter, NoDup_fst_map_to_list.
  - intros name. rewrite list_elem_of_filter, list_elem_of_fmap. split.
    + intros (Hn & [n d] & -> & Hd%elem_of_map_to_list). cbn in *.
      assert (seg_map f !! n = Some d) as H by (unfold seg_map; by apply map_lookup_filter_Some).
      rewrite Hf in H. apply elem_of_list_to_map_2 in H.
      apply list_elem_of_fmap. by exists (n, d).
    + intros ([n d] & -> & Hd)%list_elem_of_fmap. cbn.
      apply elem_of_list_to_map_1 in Hd; [|done]. rewrite <- Hf in Hd.
      apply seg_map_lookup in Hd as [Hd Hn]. split; [done|]. exists (n, d).
      by rewrite elem_of_map_to_list.
Qed.

Lemma read_all_calm f y files :
  (forall n d, (n, d) ∈ files -> f !! n = Some d) ->
  read_all files.*1 (calm f y) = (inr files, calm f y).
Proof.
  induction files as [|[n d] files IH]; intros Hf; [done|]. cbn [fmap list_fmap fst read_all].
  unfold mbind, io_bind. rewrite (read_file_calm _ _ n d) by (apply Hf; constructor).
  rewrite IH; [done|]. intros n' d' H. apply Hf. by constructor.
Qed.

(** ** Names in order *)

Fixpoint log_seqs (hd : Head) (segs : list (bytes * list (list bytes))) : list Z :=
  match segs with
  | [] => []
  | (_, history) :: segs => h_next_seq hd :: log_seqs (sealed_head hd history) segs
  end.

Lemma log_files_names hd segs : (log_files hd segs).*1 = segment_name <$> log_seqs hd segs.
Proof.
  revert hd. induction segs as [|[k h] segs IH]; intros hd; [done|]. cbn. by rewrite IH.
Qed.

Lemma sealed_seq hd history :
  0 <= h_next_seq hd -> h_next_seq hd + Z.of_nat (length history) < 2 ^ 64 ->
  h_next_seq (sealed_head hd history) = h_next_seq hd + Z.of_nat (length history).
Proof.
  intros H0 Hn. destruct (sealed_head_seq hd history) as [-> | ->]; [|cbn; lia].
  apply u64_small. lia.
Qed.

Lemma log_seqs_sorted segs : forall hd,
  0 <= h_next_seq hd -> h_next_seq hd + Z.of_nat (length (log_history segs)) < 2 ^ 64 ->
  Forall (fun s => s.2 <> []) segs ->
  let l := log_seqs hd segs ++ [h_next_seq (sealed_head hd (log_history segs))] in
  StronglySorted Z.lt l /\ Forall (fun z => h_next_seq hd <= z < 2 ^ 64) l.
Proof.
  induction segs as [|[k h] segs IH]; intros hd H0 Hn Hne; cbn [log_seqs app].
  - cbn in *. split; [by repeat constructor|]. by repeat constructor; lia.
  - apply Forall_cons in Hne as [Hh Hne]. cbn in Hh.
    assert (log_history ((k, h) :: segs) = h ++ log_history segs) as Heq by done.
    rewrite Heq in Hn |- *. rewrite length_app in Hn. rewrite sealed_head_app.
    assert (0 < Z.of_nat (length h)) by (destruct h; [done|cbn; lia]).
    pose proof (sealed_seq hd h H0 ltac:(lia)) as Hs.
    destruct (IH (sealed_head hd h)) as [H1 H2]; [lia|lia|done|]. split.
    + constructor; [done|]. eapply Forall_impl; [exact H2|]. cbn. lia.
    + constructor; [lia|]. eapply Forall_impl; [exact H2|]. cbn. lia.
Qed.

(** ** Recovery of what was written *)

Record recovering (r : rstate) (hd : Head) (key : bytes) (pending : list bytes)
    (sealed total batches : nat) : Prop := {
  rc_head : r_head r = Some hd;
  rc_key : r_key r = Some (ed_public key);
  rc_pending : r_pending r = concat pending;
  rc_count : r_pending_records r = u64 (Z.of_nat (length pending));
  rc_sealed : r_sealed_end r = sealed;
  rc_offset : r_offset r = total;
  rc_batches : r_batches r = u64 (Z.of_nat batches);
  rc_forged : r_forged r = false }.

Lemma recover_records name ls rest : forall i r hd key p sealed total batches,
  recovering r hd key p sealed total batches -> Forall is_record ls ->
  exists r', recover_loop name i (ls ++ rest) r = recover_loop name (i + length ls) rest r' /\
  recovering r' hd key (p ++ ls) sealed (total + length (concat ls)) batches.
Proof.
  induction ls as [|l ls IH]; intros i r hd key p sealed total batches Hr Hl.
  - exists r. cbn. by rewrite !Nat.add_0_r, app_nil_r.
  - apply Forall_cons in Hl as [[Hline Hc] Hls]. cbn [app recover_loop].
    rewrite is_line_complete by done. cbn [negb]. rewrite Hc.
    destruct Hr as [Hh Hk Hp Hn Hs Ho Hb Hf]. change (r_head (r_advance _ r)) with (r_head r). rewrite Hh.
    destruct (IH (S i) (r_record l (r_advance (length l) r)) hd key (p ++ [l]) sealed
      (total + length l)%nat batches) as (r' & Heq & Hr'); [split; cbn; try done|done|].
    + by rewrite concat_app, Hp; cbn; rewrite app_nil_r.
    + by rewrite Hn, u64_add, length_app, Nat2Z.inj_add.
    + by rewrite Ho.
    + exists r'. rewrite Heq. cbn [length concat].
      rewrite length_app, <- app_assoc in *. cbn [app] in Hr'.
      replace (i + S (length ls))%nat with (S i + length ls)%nat by lia.
      by rewrite Nat.add_assoc.
Qed.

(** The writer's own trailer closes its batch. *)
Lemma own_trailer_closes key hd lines :
  head_ok hd ->
  closes (Some (ed_public key)) hd
    (sign_batch key hd (concat lines) (u64 (Z.of_nat (length lines)))) (concat lines)
    (u64 (Z.of_nat (length lines))) = Some (h_hash (seal_head hd lines)).
Proof using CL XL.
  intros [Hs Hh]. pose proof (seal_head_ok hd lines) as [_ Hn].
  unfold closes, trailer_hash. cbn [sign_batch t_seq t_records t_prev t_hash t_sig t_v t_recovered
    negb andb TRAILER_V2 Z.eqb Pos.eqb]. rewrite sign_hash.
  set (h := h_hash (seal_head hd lines)) in *. cbn [mbind option_bind].
  rewrite (hex32_encode h), (hex32_encode (h_hash hd)), hex64_encode, ed_sign_verifies
    by (done || apply ed_sign_length).
  rewrite !Z.eqb_refl. by rewrite !bool_decide_eq_true_2 by done.
Qed.

Lemma recover_history name key history rest : forall i r hd sealed total batches,
  head_ok hd -> recovering r hd key [] sealed total batches -> Forall (Forall is_record) history ->
  (history = [] -> sealed = total) ->
  exists r', recover_loop name i (history_lines key hd history ++ rest) r =
    recover_loop name (i + length (history_lines key hd history)) rest r' /\
  recovering r' (sealed_head hd history) key [] (total + length (concat (history_lines key hd history)))
    (total + length (concat (history_lines key hd history))) (batches + length history).
Proof using JL CL XL.
  induction history as [|lines history IH]; intros i r hd sealed total batches Hh Hr Hrec Hnil.
  - exists r. cbn. rewrite !Nat.add_0_r. by rewrite <- Hnil at 1.
  - apply Forall_cons in Hrec as [Hl Hrec]. cbn [history_lines]. rewrite <- app_assoc.
    destruct (recover_records name lines
      ((trailer_line key hd lines :: history_lines key (seal_head hd lines) history) ++ rest)
      i r hd key [] sealed total batches Hr Hl) as (r1 & -> & H1).
    destruct H1 as [Hh1 Hk1 Hp1 Hn1 Hs1 Ho1 Hb1 Hf1]. cbn [app recover_loop].
    rewrite is_line_complete by apply control_is_line. cbn [negb].
    set (r2 := r_advance _ r1). change (r_head r2) with (r_head r1).
    change (r_key r2) with (r_key r1). change (r_pending r2) with (r_pending r1).
    change (r_pending_records r2) with (r_pending_records r1).
    rewrite classify_trailer, Hh1, Hk1, Hp1, Hn1 by done. cbn [app].
    rewrite own_trailer_closes by done.
    set (r3 := r_batch _ _ r2).
    set (total' := (total + length (concat lines) + length (trailer_line key hd lines))%nat).
    assert (recovering r3 (seal_head hd lines) key [] total' total' (S batches)) as H3.
    { split; cbn; rewrite ?Ho1; try done. by rewrite Hb1, u64_succ. }
    destruct (IH (S (i + length lines)) r3 _ _ _ _ (seal_head_ok _ _) H3 Hrec (fun _ => eq_refl))
      as (r' & -> & Hr').
    exists r'. rewrite concat_app, !length_app. cbn [length concat]. rewrite length_app.
    split; [f_equal; lia|]. subst total'. rewrite Nat.add_succ_r. by rewrite !Nat.add_assoc in *.
Qed.

Lemma recover_torn name i torn r :
  newline ∉ torn ->
  exists total, recover_loop name i (split_inclusive torn) r = inr (r_advance total r).
Proof.
  intros Ht. destruct (decide (torn = [])) as [->|Hne].
  - exists 0%nat. cbn. unfold r_advance. rewrite Nat.add_0_r. by destruct r.
  - exists (length torn). rewrite split_inclusive_torn by done. cbn [recover_loop].
    assert (complete torn = false) as ->; [|done].
    apply bool_decide_eq_false. intros [t' ->]%last_Some. apply Ht.
    apply elem_of_app. right. by apply list_elem_of_singleton.
Qed.

(** The sealed part of a segment, whatever follows it. *)
Lemma recover_sealed_part key hd history rest :
  head_ok hd -> Forall (Forall is_record) history ->
  let name := segment_name (h_next_seq hd) in
  let n := length (concat (segment_lines key hd history)) in
  exists r,
  recover_loop name 0 (split_inclusive (concat (segment_lines key hd history) ++ rest)) rstate_init =
    recover_loop name (length (segment_lines key hd history)) (split_inclusive rest) r /\
  recovering r (sealed_head hd history) key [] n n (length history).
Proof using JL CL XL.
  intros Hh Hrec name n.
  rewrite split_inclusive_lines by (by apply segment_lines_are_lines).
  cbn [segment_lines app recover_loop]. rewrite is_line_complete by apply control_is_line. cbn [negb].
  rewrite classify_header by done. change (r_head (r_advance _ rstate_init)) with (@None Head).
  cbn [Nat.eqb]. unfold r_header. cbn [segment_header sh_prev sh_public_key sh_seq].
  rewrite hex32_encode, parse_public_key_encode by (apply Hh || apply ed_public_length).
  subst name. rewrite bool_decide_eq_true_2 by done. cbn [negb].
  set (r0 := mk_rstate _ _ _ _ _ _ _ _ _). set (m := length (header_line key hd)).
  assert (recovering r0 hd key [] m m 0) as H0 by (split; cbn; destruct hd; done).
  destruct (recover_history (segment_name (h_next_seq hd)) key history (split_inclusive rest)
    1 r0 hd m m 0 Hh H0 Hrec (fun _ => eq_refl)) as (r1 & -> & H1).
  exists r1. split; [done|]. subst n. cbn [segment_lines concat]. by rewrite length_app.
Qed.

(** The position and the sealed length of a segment the writer left. *)
Lemma recover_segment key hd history tail torn :
  head_ok hd -> Forall (Forall is_record) history -> Forall is_record tail -> newline ∉ torn ->
  exists r,
  recover_loop (segment_name (h_next_seq hd)) 0
    (split_inclusive (concat (segment_lines key hd history) ++ concat tail ++ torn)) rstate_init = inr r /\
  r_head r = Some (sealed_head hd history) /\
  r_sealed_end r = length (concat (segment_lines key hd history)) /\ r_forged r = false.
Proof using JL CL XL.
  intros Hh Hrec Htail Htorn.
  destruct (recover_sealed_part key hd history (concat tail ++ torn) Hh Hrec) as (r1 & -> & H1).
  rewrite split_inclusive_lines by (eapply Forall_impl; [done|]; by intros l [? _]).
  destruct (recover_records (segment_name (h_next_seq hd)) tail (split_inclusive torn)
    (length (segment_lines key hd history)) r1 _ _ _ _ _ _ H1 Htail) as (r2 & -> & H2).
  edestruct (recover_torn (segment_name (h_next_seq hd))) as [total ->]; [exact Htorn|].
  eexists. split; [done|]. by destruct H2.
Qed.

Lemma names_sorted l :
  StronglySorted Z.lt l -> Forall (fun z => 0 <= z < 2 ^ 64) l ->
  Sorted String.le (segment_name <$> l) /\ NoDup (segment_name <$> l).
Proof.
  intros Hs Hb. cut (StronglySorted String.le (segment_name <$> l) /\ NoDup (segment_name <$> l)).
  { intros [? ?]. split; [by apply StronglySorted_Sorted|done]. }
  induction Hs as [|z l Hs IH Hz]; [split; constructor|].
  apply Forall_cons in Hb as [Hz0 Hb]. destruct (IH Hb) as [H1 H2]. cbn.
  rewrite Forall_forall in Hz, Hb. split.
  - constructor; [done|]. rewrite Forall_forall. intros n (x & -> & Hx)%list_elem_of_fmap.
    specialize (Hz _ Hx). specialize (Hb _ Hx). apply segment_name_le; lia.
  - constructor; [|done]. intros (x & Hn & Hx)%list_elem_of_fmap.
    specialize (Hz _ Hx). specialize (Hb _ Hx). by apply (segment_name_ne z x); [lia..|].
Qed.

(** ** A running writer *)

Section Running.
(** The keys the writers are given. *)
Variable seeds : list bytes.

Notation seg_head older := (sealed_head genesis (log_history older)).
Notation sealed_text key older history := (concat (segment_lines key (seg_head older) history)).

Definition small {A} (l : list A) : Prop := Z.of_nat (length l) < 2 ^ 64.

(** The sealed segments are complete, on disk and not empty. *)
Record settled (f : gmap string bytes) (y : gmap string nat)
    (older : list (bytes * list (list bytes))) : Prop := {
  se_older : Forall (fun s => s.2 <> [] /\ Forall (Forall is_record) s.2 /\ s.1 ∈ seeds) older;
  se_synced : forall n d, (n, d) ∈ log_files genesis older -> y !! n = Some (length d);
  se_names : forall n d, f !! n = Some d -> "f"%char ∉ chars n }.

(** [disk] is what the newest segment holds; the rest of what was written is in the
    buffer. *)
Record writes (w : Writer) (f : gmap string bytes) (y : gmap string nat)
    (older : list (bytes * list (list bytes))) (history : list (list bytes))
    (pending : list bytes) (disk : bytes) : Prop := {
  wr_settled : settled f y older;
  wr_segs : seg_map f = list_to_map (log_files genesis older ++ [(w_file w, disk)]);
  wr_file : w_file w = segment_name (h_next_seq (seg_head older));
  wr_text : disk ++ w_buffer w =
            concat (segment_lines (w_key w) (seg_head older) history ++ pending);
  wr_flushed : (length (sealed_text (w_key w) older history) <= length disk)%nat;
  wr_head : w_head w = sealed_head genesis (log_history older ++ history);
  wr_pending : w_pending w = concat pending;
  wr_count : w_pending_records w = u64 (Z.of_nat (length pending));
  wr_open : Forall is_record pending;
  wr_sealed : Forall (Forall is_record) history;
  wr_key : w_key w ∈ seeds;
  wr_synced : history <> [] ->
              y !! w_file w = Some (length (sealed_text (w_key w) older history)) }.

Lemma names_ok older d :
  small (log_history older) -> Forall (fun s => s.2 <> []) older ->
  let files := log_files genesis older ++ [(segment_name (h_next_seq (seg_head older)), d)] in
  Sorted String.le files.*1 /\ NoDup files.*1.
Proof.
  intros Hs Hne files. subst files. rewrite fmap_app, log_files_names. cbn [fmap list_fmap fst].
  destruct (log_seqs_sorted older genesis) as [H1 H2]; [done|unfold small in Hs; cbn; lia|done|].
  pose proof (names_sorted _ H1 H2) as H. by rewrite fmap_app in H.
Qed.

Lemma fresh_name older :
  small (log_history older) -> Forall (fun s => s.2 <> []) older ->
  segment_name (h_next_seq (seg_head older)) ∉ (log_files genesis older).*1.
Proof.
  intros Hs Hne. destruct (names_ok older [] Hs Hne) as [_ H].
  rewrite fmap_app in H. apply NoDup_app in H as (_ & H & _). intros Hin.
  apply (H _ Hin). by apply list_elem_of_singleton.
Qed.

Lemma settled_nonempty f y older : settled f y older -> Forall (fun s => s.2 <> []) older.
Proof. intros []. eapply Forall_impl; [done|]. by intros s (? & _). Qed.

Lemma newest_file f older n d :
  seg_map f = list_to_map (log_files genesis older ++ [(n, d)]) ->
  n ∉ (log_files genesis older).*1 -> f !! n = Some d.
Proof.
  intros Hf Hn. apply seg_map_lookup. rewrite Hf, list_to_map_snoc by done.
  apply lookup_insert_eq.
Qed.

Lemma newest_update f older n d d' :
  seg_map f = list_to_map (log_files genesis older ++ [(n, d)]) ->
  n ∉ (log_files genesis older).*1 -> is_segment n = true ->
  seg_map (<[n := d']> f) = list_to_map (log_files genesis older ++ [(n, d')]).
Proof.
  intros Hf Hn Hs. rewrite seg_map_segment, Hf, !list_to_map_snoc by done.
  apply insert_insert_eq.
Qed.

Lemma settled_update f y older n d :
  settled f y older -> "f"%char ∉ chars n -> settled (<[n := d]> f) y older.
Proof.
  intros [Ho Hy Hn] Hf. split; [done..|]. intros m e.
  destruct (decide (m = n)) as [->|Hm]; [done|]. rewrite lookup_insert_ne by done. apply Hn.
Qed.

Lemma segment_name_no_f z : "f"%char ∉ chars (segment_name z).
Proof.
  rewrite chars_segment_name. intros [H|H]%elem_of_app.
  - assert (forall n z, Forall digit (decimals n z)) as Hd.
    { induction n as [|n IH]; intros x; [constructor|]. cbn. apply Forall_app. split; [done|].
      constructor; [apply decimal_digit|constructor]. }
    specialize (Hd 20%nat z). rewrite Forall_forall in Hd. apply Hd in H. vm_compute in H. lia.
  - revert H. apply (bool_decide_eq_true_1 (_ ∉ _)). by vm_compute.
Qed.

(** The log as a whole: everything sealed so far, and the open batch. *)
Definition logs (w : Writer) (f : gmap string bytes) (y : gmap string nat)
    (sealed : list (list bytes)) (pending : list bytes) : Prop :=
  exists older history disk, writes w f y older history pending disk /\
    sealed = log_history older ++ history.

Lemma small_app_l {A} (a b : list A) : small (a ++ b) -> small a.
Proof. unfold small. rewrite length_app. lia. Qed.

Definition with_buffer (buffer : bytes) (w : Writer) : Writer :=
  mk_Writer (w_key w) (w_opts w) (w_file w) buffer (w_segment_len w) (w_head w) (w_pending w)
    (w_pending_records w) (w_batch_started w) (w_discarded w).

(** Writing a line into the current segment. *)
Lemma writes_line w f y older history pending disk line :
  writes w f y older history pending disk -> small (log_history older) ->
  exists buffer disk',
  writing (fun file => write_all file line) (w, calm f y) =
    (inr tt, (with_buffer buffer w, calm (<[w_file w := disk']> f) y)) /\
  settled (<[w_file w := disk']> f) y older /\
  seg_map (<[w_file w := disk']> f) =
    list_to_map (log_files genesis older ++ [(w_file w, disk')]) /\
  disk' ++ buffer = disk ++ w_buffer w ++ line /\ (length disk <= length disk')%nat.
Proof.
  intros Hw Hs. destruct Hw as [Hse Hsegs Hfile _ _ _ _ _ _ _ _ _].
  pose proof (fresh_name older Hs (settled_nonempty _ _ _ Hse)) as Hfresh. rewrite <- Hfile in Hfresh.
  destruct (write_all_calm (w_file w) line (w_buffer w) f y disk) as (buffer & disk' & Heq & Ht & Hl).
  { by eapply newest_file. }
  exists buffer, disk'. unfold writing. rewrite Heq. split_and!; [done| | |done..].
  - apply settled_update; [done|]. rewrite Hfile. apply segment_name_no_f.
  - eapply newest_update; [done..|]. rewrite Hfile. apply segment_name_is_segment.
Qed.

(** Flushing. *)
Lemma flush_line w f y disk :
  f !! w_file w = Some disk ->
  writing flush_buf (w, calm f y) =
  (inr tt, (with_buffer [] w, calm (<[w_file w := disk ++ w_buffer w]> f) y)).
Proof. intros Hf. unfold writing. by rewrite (flush_buf_calm _ _ _ _ disk). Qed.

Lemma sync_line w f y disk :
  f !! w_file w = Some disk ->
  writing (fun file => on_file (sync file)) (w, calm f y) =
  (inr tt, (w, calm f (<[w_file w := length disk]> y))).
Proof.
  intros Hf. unfold writing, on_file, sync, operate. cbn. rewrite Hf. by destruct w.
Qed.

Lemma log_history_snoc older key history :
  log_history (older ++ [(key, history)]) = log_history older ++ history.
Proof. unfold log_history. by rewrite fmap_app, concat_app; cbn; rewrite app_nil_r. Qed.

Lemma log_files_snoc hd older key history :
  log_files hd (older ++ [(key, history)]) =
  log_files hd older ++
  [(segment_name (h_next_seq (sealed_head hd (log_history older))),
    concat (segment_lines key (sealed_head hd (log_history older)) history))].
Proof.
  revert hd. induction older as [|[k h] older IH]; intros hd; cbn [log_files app]; [done|].
  rewrite IH. f_equal. unfold log_history. cbn [fmap list_fmap concat snd].
  by rewrite sealed_head_app.
Qed.

(** The next segment. *)
Lemma start_next key f y older :
  settled f y older -> key ∈ seeds -> small (log_history older) ->
  seg_map f = list_to_map (log_files genesis older) ->
  let name := segment_name (h_next_seq (seg_head older)) in
  let f' := <[name := header_line key (seg_head older)]> f in
  settled f' (delete name y) older /\
  seg_map f' = list_to_map (log_files genesis older ++ [(name, header_line key (seg_head older))]).
Proof.
  intros Hse Hk Hs Hf name f'.
  pose proof (fresh_name older Hs (settled_nonempty _ _ _ Hse)) as Hfresh. fold name in Hfresh. split.
  - destruct (settled_update f y older name (header_line key (seg_head older)) Hse
      (segment_name_no_f _)) as [Ho Hy Hn]. split; [done| |done].
    intros n d Hin. rewrite lookup_delete_ne; [by apply Hy|]. intros <-. apply Hfresh.
    apply list_elem_of_fmap. by exists (name, d).
  - subst f'. rewrite seg_map_segment by apply segment_name_is_segment.
    by rewrite Hf, list_to_map_snoc.
Qed.

(** What [seal] makes of the writer before it may start a segment. *)
Definition sealed_writer (buffer : bytes) (w : Writer) (pending : list bytes) : Writer :=
  close_batch (seal_head (w_head w) pending)
    (grow (length (trailer_line (w_key w) (w_head w) pending)) (with_buffer buffer w)).

Lemma sealed_text_snoc key older history pending :
  sealed_text key older (history ++ [pending]) =
  concat (segment_lines key (seg_head older) history ++ pending) ++
  trailer_line key (sealed_head genesis (log_history older ++ history)) pending.
Proof.
  unfold segment_lines. rewrite history_lines_app. cbn [history_lines].
  rewrite <- sealed_head_app. cbn [concat app]. rewrite !concat_app. cbn [concat app].
  by rewrite !app_nil_r, <- !app_assoc.
Qed.

Lemma seal_before_rotation w f y older history pending disk :
  writes w f y older history pending disk ->
  small (log_history older) -> (w_pending_records w =? 0) = false ->
  exists f' y',
  writes (sealed_writer [] w pending) f' y' older (history ++ [pending]) []
    (sealed_text (w_key w) older (history ++ [pending])) /\
  f' !! w_file w = Some (sealed_text (w_key w) older (history ++ [pending])) /\
  seal (w, calm f y) =
  let w' := sealed_writer [] w pending in
  if wo_segment_bytes (w_opts w') <=? w_segment_len w' then
    ('(file, len) ← on_file (start_segment (w_key w') (w_head w'));
     update_writer (switch_segment file len)) (w', calm f' y')
  else (inr tt, (w', calm f' y')).
Proof using JL CL XL.
  intros Hw Hs Hn. pose proof (fresh_name older Hs (settled_nonempty _ _ _ (wr_settled _ _ _ _ _ _ _ Hw))) as Hfresh.
  set (line := trailer_line (w_key w) (w_head w) pending).
  destruct (writes_line w f y older history pending disk line Hw Hs)
    as (buffer & disk' & Hline & Hse1 & Hseg1 & Ht1 & _).
  destruct Hw as [Hse Hsegs Hfile Htext Hfl Hhead Hpend Hcount Hopen Hsealed Hkey Hsync].
  rewrite <- Hfile in Hfresh.
  set (text := sealed_text (w_key w) older (history ++ [pending])).
  assert (disk' ++ buffer = text) as Htext'.
  { rewrite Ht1, app_assoc, Htext. subst text line. by rewrite sealed_text_snoc, Hhead. }
  set (f1 := <[w_file w := disk']> f) in *.
  set (f2 := <[w_file w := text]> f1).
  set (y2 := <[w_file w := length text]> y).
  assert (seg_map f2 = list_to_map (log_files genesis older ++ [(w_file w, text)])) as Hseg2.
  { eapply newest_update; [done..|]. rewrite Hfile. apply segment_name_is_segment. }
  exists f2, y2. split_and!.
  - split; cbn; try done.
    + destruct (settled_update f1 y older (w_file w) text Hse1) as [Ho Hy Hnm];
        [rewrite Hfile; apply segment_name_no_f|].
      split; [done| |done]. intros n d Hin. subst y2. rewrite lookup_insert_ne; [by apply Hy|].
      intros <-. apply Hfresh. apply list_elem_of_fmap. by exists (w_file w, d).
    + by rewrite !app_nil_r.
    + rewrite app_assoc, sealed_head_app, <- Hhead. done.
    + apply Forall_app. split; [done|]. by constructor.
    + intros _. subst y2. by rewrite lookup_insert_eq.
  - subst f2. by rewrite lookup_insert_eq.
  - unfold seal, mbind, io_bind, ask_io. cbn [fst]. rewrite Hn.
    assert (control_line (Batch (sign_batch (w_key w) (w_head w) (w_pending w)
      (w_pending_records w))) = line) as Hl by (subst line; by rewrite Hpend, Hcount).
    rewrite Hl, Hline. rewrite (flush_line (with_buffer buffer w) f1 y disk')
      by (subst f1; cbn; by rewrite lookup_insert_eq).
    cbn [w_file w_buffer with_buffer]. rewrite Htext'. fold f2.
    rewrite (sync_line _ f2 y text) by (subst f2; cbn; by rewrite lookup_insert_eq).
    unfold update_writer, update_io. cbn [w_file with_buffer]. fold y2.
    set (w' := close_batch _ _).
    assert (w' = sealed_writer [] w pending) as ->.
    { subst w'. rewrite Hpend, Hcount. cbn [t_hash sign_batch].
      rewrite sign_hash, hex32_encode; [done|apply seal_head_ok]. }
    cbn [fst]. by destruct (_ <=? _).
Qed.

Lemma seal_logs w f y sealed pending :
  logs w f y sealed pending -> small (sealed ++ [pending]) ->
  exists w' f' y', seal (w, calm f y) = (inr tt, (w', calm f' y')) /\
  if w_pending_records w =? 0 then w' = w /\ f' = f /\ y' = y
  else logs w' f' y' (sealed ++ [pending]) [] /\ w_head w' = seal_head (w_head w) pending.
Proof using JL CL XL.
  intros (older & history & disk & Hw & ->) Hs.
  destruct (w_pending_records w =? 0) eqn:Hn.
  { exists w, f, y. split; [|done]. unfold seal, mbind, io_bind, ask_io. cbn [fst]. by rewrite Hn. }
  assert (small (log_history older)) as Hs0 by (by do 2 apply small_app_l in Hs).
  destruct (seal_before_rotation _ _ _ _ _ _ _ Hw Hs0 Hn) as (f' & y' & Hw' & Hf' & ->).
  cbv zeta. set (w' := sealed_writer [] w pending) in *. destruct (_ <=? _).
  2:{ exists w', f', y'. split; [done|]. split; [|done]. rewrite <- app_assoc. by do 3 eexists. }
  unfold mbind, io_bind, on_file. rewrite start_segment_calm.
  set (older' := older ++ [(w_key w, history ++ [pending])]).
  destruct Hw' as [Hse Hsegs Hfile Htext Hfl Hhead Hpend Hcount Hopen Hsealed Hkey Hsync].
  assert (log_history older' = (log_history older ++ history) ++ [pending]) as Hlog.
  { unfold older'. by rewrite log_history_snoc, app_assoc. }
  assert (settled f' y' older') as Hse'.
  { destruct Hse as [Ho Hy Hnm]. split; [| |done].
    - apply Forall_app. split; [done|]. constructor; [|constructor]. split_and!; try done.
      by intros [_ ?]%app_nil.
    - intros n d. unfold older'. rewrite log_files_snoc.
      intros [Hin|[= -> ->]%list_elem_of_singleton]%elem_of_app; [by apply Hy|].
      rewrite <- Hfile. apply Hsync. by intros [_ ?]%app_nil. }
  assert (seg_map f' = list_to_map (log_files genesis older')) as Hseg'.
  { unfold older'. rewrite log_files_snoc, <- Hfile. exact Hsegs. }
  assert (w_head w' = seg_head older') as Hh by (rewrite Hlog, <- app_assoc; exact Hhead).
  rewrite Hh. destruct (start_next (w_key w) f' y' older' Hse' Hkey) as [Hse2 Hseg2];
    [by rewrite Hlog|done|].
  eexists _, _, _. split; [done|]. split; [|done].
  exists older', [], (header_line (w_key w) (seg_head older')).
  split; [|by rewrite Hlog, app_nil_r]. split; cbn; try done.
  - by rewrite !app_nil_r.
  - by rewrite app_nil_r.
Qed.

Lemma append_logs w f y sealed pending v now :
  logs w f y sealed pending -> record_ok v -> small (sealed ++ [pending ++ [record_line v]]) ->
  exists w' f' y', append v now (w, calm f y) = (inr tt, (w', calm f' y')) /\
  (logs w' f' y' sealed (pending ++ [record_line v]) /\ w_head w' = w_head w \/
   logs w' f' y' (sealed ++ [pending ++ [record_line v]]) [] /\
   w_head w' = seal_head (w_head w) (pending ++ [record_line v])).
Proof using JL CL XL.
  intros (older & history & disk & Hw & ->) Hv Hs.
  assert (small (log_history older)) as Hs0 by (by do 2 apply small_app_l in Hs).
  destruct (writes_line w f y older history pending disk (record_line v) Hw Hs0)
    as (buffer & disk' & Hline & Hse1 & Hseg1 & Ht1 & Hlen).
  unfold append, mbind, io_bind. fold (record_line v). rewrite Hline.
  unfold update_writer, update_io, ask_io. cbn [fst].
  set (w1 := add_pending _ _ _). set (f1 := <[w_file w := disk']> f) in *.
  assert (logs w1 f1 y (log_history older ++ history) (pending ++ [record_line v])) as H1.
  { exists older, history, disk'. split; [|done].
    destruct Hw as [Hse Hsegs Hfile Htext Hfl Hhead Hpend Hcount Hopen Hsealed Hkey Hsync].
    split; cbn; try done.
    - cbn in Htext. rewrite Ht1, app_assoc, Htext, !concat_app. cbn.
      by rewrite app_nil_r, <- !app_assoc.
    - etrans; [exact Hfl|done].
    - by rewrite Hpend, concat_app; cbn; rewrite app_nil_r.
    - by rewrite Hcount, u64_add, length_app, Nat2Z.inj_add.
    - apply Forall_app. split; [done|]. constructor; [by apply record_line_ok|constructor]. }
  destruct (wo_batch_records _ <=? _).
  - destruct (seal_logs _ _ _ _ _ H1 Hs) as (w' & f' & y' & Heq & Hpost).
    exists w', f', y'. split; [exact Heq|]. destruct (w_pending_records w1 =? 0).
    + left. by destruct Hpost as (-> & -> & ->).
    + by right.
  - exists w1, f1, y. split; [done|]. by left.
Qed.

(** ** Opening a log *)

Lemma candidate_no_f z m : "f"%char ∉ chars (candidate (segment_name z +:+ ".unsealed") m).
Proof.
  rewrite candidate_chars, chars_app. intros [[H|H]%elem_of_app|H]%elem_of_app.
  - by apply segment_name_no_f in H.
  - revert H. apply (bool_decide_eq_true_1 (_ ∉ _)). by vm_compute.
  - destruct m as [|m]; [by apply not_elem_of_nil in H|].
    apply elem_of_cons in H as [H|H]; [done|]. unfold decimal_text in H. rewrite chars_text in H.
    pose proof (digits_of_digits (S (S m)) (Z.of_nat (S m))) as Hf. rewrite Forall_forall in Hf.
    apply Hf in H. vm_compute in H. lia.
Qed.

Lemma segment_name_nonempty z : chars (segment_name z) <> [].
Proof. rewrite chars_segment_name. by intros [_ ?]%app_nil. Qed.

(** Setting bytes aside. *)
Lemma set_aside z f y rest :
  let name := segment_name z in
  is_Some (f !! name) ->
  exists aside, (forall s, fs_files s = f -> discarded_path name ".unsealed" s = (inr aside, s)) /\
  f !! aside = None /\ is_segment aside = false /\ "f"%char ∉ chars aside /\ aside <> name /\
  create_new aside (calm f y) = (inr tt, calm (<[aside := []]> f) (delete aside y)) /\
  write_file aside rest (calm (<[aside := []]> f) (delete aside y)) =
    (inr tt, calm (<[aside := rest]> f) (delete aside y)) /\
  sync aside (calm (<[aside := rest]> f) (delete aside y)) =
    (inr tt, calm (<[aside := rest]> f) (<[aside := length rest]> y)).
Proof.
  intros name [d Hd].
  destruct (discarded_loop_free f (name +:+ ".unsealed") (size f) 0) as (m & Hm & Hfree);
    [lia..|].
  exists (candidate (name +:+ ".unsealed") m).
  assert (is_segment (candidate (name +:+ ".unsealed") m) = false) as Hseg.
  { apply (candidate_not_segment name "unsealed"); [apply segment_name_nonempty| |done].
    apply (bool_decide_eq_true_1 (_ ∉ _)). by vm_compute. }
  split_and!; [|done|done|apply candidate_no_f|by intros He; rewrite He in Hfree; congruence|..].
  - intros s <-. unfold discarded_path, ask_io. by rewrite Hm.
  - unfold create_new, mbind, io_bind, ask_io. cbn [fs_files].
    by rewrite bool_decide_eq_false_2 by (rewrite Hfree; by intros []).
  - unfold write_file, append_to. cbn. by rewrite lookup_insert_eq, insert_insert_eq.
  - unfold sync, operate. cbn. by rewrite lookup_insert_eq, insert_delete_eq.
Qed.

(** What recovery changes: the segment [name] is cut to [text], synced if it was longer;
    other files may be added that are not segments. *)
Record recovered_to (name : string) (text : bytes) (f f' : gmap string bytes)
    (y y' : gmap string nat) : Prop := {
  rt_segs : seg_map f' = <[name := text]> (seg_map f);
  rt_names : (forall n d, f !! n = Some d -> "f"%char ∉ chars n) ->
             forall n d, f' !! n = Some d -> "f"%char ∉ chars n;
  rt_synced : forall n, is_segment n = true -> n <> name -> y' !! n = y !! n;
  rt_text : f !! name = Some text /\ y' !! name = y !! name \/ y' !! name = Some (length text) }.

Lemma header_line_nonempty key hd : header_line key hd <> [].
Proof. unfold header_line, control_line. by intros [_ ?]%app_nil. Qed.

Lemma segment_text_nonempty key hd history : concat (segment_lines key hd history) <> [].
Proof. cbn [segment_lines concat]. by intros [?%header_line_nonempty _]%app_nil. Qed.

(** What follows the sealed part is moved to another file. *)
Lemma recover_unforged z text rest f y discarded r hd :
  let name := segment_name z in
  f !! name = Some (text ++ rest) -> text <> [] ->
  recover_loop name 0 (split_inclusive (text ++ rest)) rstate_init = inr r ->
  r_head r = Some hd -> r_sealed_end r = length text -> r_forged r = false ->
  exists d f' y', recover name discarded (calm f y) = (inr (Some hd, d), calm f' y') /\
  recovered_to name text f f' y y'.
Proof.
  intros name Hf Hne Hloop Hhead Hend Hforged. remember (text ++ rest) as data eqn:Hdata.
  assert (data <> []) as Hne' by (subst data; by intros [? _]%app_nil).
  unfold recover, mbind, io_bind. rewrite (read_file_calm _ _ _ data) by done.
  rewrite decide_False, Hloop, Hhead, Hend, Hforged by done.
  rewrite bool_decide_eq_false_2 by done. cbn [andb].
  destruct (length text =? length data)%nat eqn:Hlen.
  - assert (data = text) as Heq.
    { apply Nat.eqb_eq in Hlen. rewrite Hdata, length_app in Hlen.
      rewrite Hdata. destruct rest; [apply app_nil_r|cbn in Hlen; lia]. }
    eexists _, f, y. split; [done|]. rewrite Heq in Hf. split; [|done..|by left].
    rewrite insert_id; [done|]. unfold seg_map. apply map_lookup_filter_Some.
    split; [done|apply segment_name_is_segment].
  - assert (drop (length text) data = rest) as -> by (by rewrite Hdata, drop_app_length).
    destruct (set_aside z f y rest) as (aside & Hp & Hfree & Hseg & Hno & Hna & Hc & Hw & Hsy);
      [by eexists|]. fold name in Hp, Hna. rewrite Hp by done. rewrite Hc, Hw, Hsy.
    unfold operate at 1. cbn [fs_files fs_synced fs_faults head tail id].
    unfold set_len, sync, operate, mret, io_ret. cbn [fs_files fs_synced fs_faults head tail id].
    set (f1 := alter (take (length text)) name (<[aside := rest]> f)).
    assert (f1 = <[aside := rest]> (<[name := text]> f)) as Hf1.
    { apply map_eq. intros n. subst f1. destruct (decide (n = name)) as [->|Hn].
      - rewrite lookup_alter_eq, !(lookup_insert_ne _ aside), lookup_insert_eq, Hf by done. cbn.
        by rewrite Hdata, take_app_length.
      - rewrite lookup_alter_ne by done. destruct (decide (n = aside)) as [->|Hn'];
          [by rewrite !lookup_insert_eq|by rewrite !lookup_insert_ne]. }
    eexists _, f1, _. split; [done|].
    assert (f1 !! name = Some text) as Htext.
    { rewrite Hf1, lookup_insert_ne, lookup_insert_eq by done. done. }
    split.
    + rewrite Hf1, seg_map_other, seg_map_segment;
        [done|apply segment_name_is_segment|done|by rewrite lookup_insert_ne].
    + intros Hn n d. rewrite Hf1. destruct (decide (n = aside)) as [->|Hna']; [done|].
      rewrite lookup_insert_ne by done. destruct (decide (n = name)) as [->|Hnn].
      * intros _. apply segment_name_no_f.
      * rewrite lookup_insert_ne by done. apply Hn.
    + intros n Hn Hnn. rewrite lookup_insert_ne, lookup_alter_ne, lookup_insert_ne by congruence.
      done.
    + right. rewrite lookup_insert_eq, Htext. done.
Qed.

Lemma recover_complete key hd history tl torn f y discarded :
  let name := segment_name (h_next_seq hd) in
  let text := concat (segment_lines key hd history) in
  f !! name = Some (concat (segment_lines key hd history ++ tl) ++ torn) ->
  head_ok hd -> Forall (Forall is_record) history -> Forall is_record tl -> newline ∉ torn ->
  exists d f' y', recover name discarded (calm f y) =
    (inr (Some (sealed_head hd history), d), calm f' y') /\ recovered_to name text f f' y y'.
Proof using JL CL XL.
  intros name text Hf Hh Hrec Htail Htorn. rewrite concat_app, <- app_assoc in Hf.
  destruct (recover_segment key hd history tl torn Hh Hrec Htail Htorn)
    as (r & Hloop & Hhead & Hend & Hforged).
  eapply recover_unforged; [done| |done..]. apply segment_text_nonempty.
Qed.

(** A segment without a complete line is removed. *)
Lemma recover_nothing z f y disk discarded :
  let name := segment_name z in
  f !! name = Some disk -> newline ∉ disk ->
  exists d f' y', recover name discarded (calm f y) = (inr (None, d), calm f' y') /\
  seg_map f' = delete name (seg_map f) /\
  ((forall n d, f !! n = Some d -> "f"%char ∉ chars n) ->
   forall n d, f' !! n = Some d -> "f"%char ∉ chars n) /\
  (forall n, is_segment n = true -> n <> name -> y' !! n = y !! n).
Proof.
  intros name Hf Hd. unfold recover, mbind, io_bind. rewrite (read_file_calm _ _ _ disk) by done.
  destruct (decide (disk = [])) as [->|Hne].
  - eexists _, _, _. split; [done|]. split_and!.
    + apply seg_map_delete.
    + intros Hn n d Hnd. apply lookup_delete_Some in Hnd as [_ Hnd]. by eapply Hn.
    + intros n _ Hn. by rewrite lookup_delete_ne.
  - destruct (recover_torn name 0 disk rstate_init Hd) as [total ->].
    cbn [r_advance rstate_init r_head r_sealed_end r_forged]. rewrite bool_decide_eq_true_2 by done.
    rewrite bool_decide_eq_false_2 by done. cbn [andb].
    destruct (0 =? length disk)%nat eqn:Hl; [destruct disk; done|]. rewrite drop_0.
    destruct (set_aside z f y disk) as (aside & Hp & Hfree & Hseg & Hno & Hna & Hc & Hw & Hsy);
      [by eexists|]. fold name in Hp, Hna. rewrite Hp by done. rewrite Hc, Hw, Hsy.
    unfold remove_file, operate, mret, io_ret. cbn [fs_files fs_synced fs_faults head tail].
    eexists _, _, _. split; [done|]. split_and!.
    + by rewrite seg_map_delete, seg_map_other.
    + intros Hn n d [_ Hnd]%lookup_delete_Some. destruct (decide (n = aside)) as [->|]; [done|].
      rewrite lookup_insert_ne in Hnd by done. by eapply Hn.
    + intros n Hs Hn. rewrite lookup_delete_ne, lookup_insert_ne by congruence. done.
Qed.

(** Older segments are complete: nothing changes. *)
Lemma recover_older key history older f y discarded :
  settled f y (older ++ [(key, history)]) -> small (log_history older) ->
  seg_map f = list_to_map (log_files genesis (older ++ [(key, history)])) ->
  exists d f' y',
  recover (segment_name (h_next_seq (seg_head older))) discarded (calm f y) =
    (inr (Some (seg_head (older ++ [(key, history)])), d), calm f' y') /\
  settled f' y' (older ++ [(key, history)]) /\
  seg_map f' = list_to_map (log_files genesis (older ++ [(key, history)])).
Proof using JL CL XL.
  intros Hse Hs Hf. pose proof (settled_nonempty _ _ _ Hse) as Hne.
  apply Forall_app in Hne as [Hne _]. pose proof (fresh_name older Hs Hne) as Hfresh.
  destruct Hse as [Ho Hy Hn]. rewrite log_files_snoc in Hf, Hy |- *.
  pose proof (newest_file _ _ _ _ Hf Hfresh) as Hfile.
  pose proof Ho as Ho'. apply Forall_app in Ho' as [_ [(_ & Hrec & _) _]%Forall_cons].
  destruct (recover_complete key (seg_head older) history [] [] f y discarded)
    as (d & f' & y' & Heq & [Hsegs Hnames Hsync Htext]);
    [by rewrite !app_nil_r|apply sealed_head_ok, genesis_ok|done|constructor|apply not_elem_of_nil|].
  exists d, f', y'. rewrite Heq, log_history_snoc, sealed_head_app. split; [done|].
  assert (seg_map f' = seg_map f) as Hsame.
  { rewrite Hsegs. apply insert_id. rewrite Hf, list_to_map_snoc by done. apply lookup_insert_eq. }
  split; [|by rewrite Hsame]. split; [done| |by apply Hnames].
  intros n e. rewrite log_files_snoc. intros Hin.
  destruct (decide (n = segment_name (h_next_seq (seg_head older)))) as [->|Hnn].
  - assert (e = concat (segment_lines key (seg_head older) history)) as ->.
    { apply elem_of_app in Hin as [Hin|[= ->]%list_elem_of_singleton]; [|done].
      exfalso. apply Hfresh. apply list_elem_of_fmap. by exists (segment_name (h_next_seq (seg_head older)), e). }
    destruct Htext as [[_ ->]| ->]; [|done]. by apply Hy.
  - rewrite Hsync; [by apply Hy| |done].
    assert (f !! n = Some e /\ is_segment n = true) as [_ ?]; [|done].
    apply seg_map_lookup. rewrite Hf. apply elem_of_list_to_map_1; [|done].
    apply (names_ok older _ Hs Hne).
Qed.

Lemma sorted_app_l {A} (R : relation A) a b : Sorted R (a ++ b) -> Sorted R a.
Proof.
  induction a as [|x a IH]; [constructor|]. cbn. intros [Hs Hx]%Sorted_inv.
  constructor; [by apply IH|]. destruct a; constructor. by apply HdRel_inv in Hx.
Qed.

Lemma recover_head_older older f y discarded :
  settled f y older -> small (log_history older) ->
  seg_map f = list_to_map (log_files genesis older) ->
  exists d f' y',
  recover_head (reverse (log_files genesis older).*1) discarded (calm f y) =
    (inr (seg_head older, d), calm f' y') /\
  settled f' y' older /\ seg_map f' = list_to_map (log_files genesis older).
Proof using JL CL XL.
  intros Hse Hs Hf. destruct older as [|[key history] older _] using rev_ind.
  { by exists discarded, f, y. }
  assert (small (log_history older)) as Hs0.
  { rewrite log_history_snoc in Hs. by apply small_app_l in Hs. }
  destruct (recover_older key history older f y discarded Hse Hs0 Hf) as (d & f' & y' & Heq & H).
  exists d, f', y'. rewrite log_files_snoc at 1. rewrite fmap_app, reverse_app. cbn.
  unfold mbind, io_bind. by rewrite Heq.
Qed.

(** A newest segment that may have been cut: complete up to a torn line, or without a
    complete line and without a batch. *)
Definition cut_newest key older history (disk : bytes) : Prop :=
  (exists tl torn, disk = concat (segment_lines key (seg_head older) history ++ tl) ++ torn /\
     Forall is_record tl /\ newline ∉ torn) \/
  history = [] /\ newline ∉ disk.

(** The newest segment, if it is there. *)
Record newest (f : gmap string bytes) (y : gmap string nat)
    (older : list (bytes * list (list bytes))) (key : bytes) (history : list (list bytes))
    (disk : bytes) : Prop := {
  ne_key : key ∈ seeds;
  ne_records : Forall (Forall is_record) history;
  ne_segs : seg_map f =
    list_to_map (log_files genesis older ++ [(segment_name (h_next_seq (seg_head older)), disk)]);
  ne_synced : history <> [] -> y !! segment_name (h_next_seq (seg_head older)) =
    Some (length (sealed_text key older history));
  ne_disk : cut_newest key older history disk }.

Definition remains (f : gmap string bytes) (y : gmap string nat) (sealed : list (list bytes)) : Prop :=
  exists older, settled f y older /\
  (sealed = log_history older /\ seg_map f = list_to_map (log_files genesis older) \/
   exists key history disk, sealed = log_history older ++ history /\
     newest f y older key history disk).

Lemma recovered_settled f f' y y' older key history disk :
  let name := segment_name (h_next_seq (seg_head older)) in
  settled f y older -> small (log_history older) ->
  seg_map f = list_to_map (log_files genesis older ++ [(name, disk)]) ->
  key ∈ seeds -> Forall (Forall is_record) history ->
  (history <> [] -> y !! name = Some (length (sealed_text key older history))) ->
  recovered_to name (sealed_text key older history) f f' y y' ->
  let older' := if decide (history = []) then older else older ++ [(key, history)] in
  settled f' y' older' /\
  seg_map f' = list_to_map (log_files genesis older ++ [(name, sealed_text key older history)]) /\
  (history <> [] -> seg_map f' = list_to_map (log_files genesis older')).
Proof.
  intros name Hse Hs Hsegs Hk Hrec Hsync [Hsegs' Hnames Hy' Htext].
  pose proof (fresh_name older Hs (settled_nonempty _ _ _ Hse)) as Hfresh. fold name in Hfresh.
  assert (seg_map f' = list_to_map (log_files genesis older ++
    [(name, sealed_text key older history)])) as Hf'.
  { rewrite Hsegs', Hsegs, !list_to_map_snoc by done. apply insert_insert_eq. }
  assert (settled f' y' older) as Hse'.
  { pose proof (names_ok older (sealed_text key older history) Hs (settled_nonempty _ _ _ Hse)) as [_ Hnd].
    destruct Hse as [Ho Hy Hn]. split; [done| |by apply Hnames]. intros n e Hin.
    rewrite Hy'; [by apply Hy|..].
    - assert (seg_map f' !! n = Some e) as [_ ?]%seg_map_lookup; [|done].
      rewrite Hf'. apply elem_of_list_to_map_1; [done|]. apply elem_of_app. by left.
    - intros ->. apply Hfresh. apply list_elem_of_fmap. by exists (name, e). }
  cbv zeta. case_decide as Hd; [by split_and!|]. rewrite log_files_snoc. split_and!; [|done..].
  destruct Hse' as [Ho Hy Hn]. split; [| |done].
  - apply Forall_app. split; [done|]. by constructor.
  - intros n e. rewrite log_files_snoc.
    intros [Hin|[= -> ->]%list_elem_of_singleton]%elem_of_app; [by apply Hy|].
    fold name. destruct Htext as [[_ ->]| ->]; [by apply Hsync|done].
Qed.

(** Recovery finds the position of the last sealed batch and leaves a settled log. *)
Lemma recover_remains f y sealed :
  remains f y sealed -> small sealed ->
  exists names d f' y' older,
  segments (calm f y) = (inr names, calm f y) /\
  recover_head (reverse names) [] (calm f y) = (inr (sealed_head genesis sealed, d), calm f' y') /\
  sealed = log_history older /\ settled f' y' older /\
  (seg_map f' = list_to_map (log_files genesis older) \/
   exists disk, seg_map f' = list_to_map
     (log_files genesis older ++ [(segment_name (h_next_seq (seg_head older)), disk)])).
Proof using JL CL XL.
  intros (older & Hse & [[-> Hf]|(key & history & disk & -> & Hnew)]) Hs;
    pose proof (settled_nonempty _ _ _ Hse) as Hne.
  - destruct (recover_head_older older f y [] Hse Hs Hf) as (d & f' & y' & Heq & Hse' & Hf').
    destruct (names_ok older [] Hs Hne) as [Hsort Hnd]. rewrite fmap_app in Hsort, Hnd.
    apply NoDup_app in Hnd as [Hnd _]. apply sorted_app_l in Hsort.
    exists (log_files genesis older).*1, d, f', y', older. split_and!; [|done..|by left].
    by apply segments_calm.
  - assert (small (log_history older)) as Hs0 by (by apply small_app_l in Hs).
    pose proof (fresh_name older Hs0 Hne) as Hfresh.
    destruct (names_ok older disk Hs0 Hne) as [Hsort Hnd].
    destruct Hnew as [Hk Hrec Hsegs Hsync Hdisk].
    set (name := segment_name (h_next_seq (seg_head older))) in *.
    pose proof (newest_file _ _ _ _ Hsegs Hfresh) as Hfile.
    assert (segments (calm f y) =
      (inr (log_files genesis older ++ [(name, disk)]).*1, calm f y)) as Hsg by (by apply segments_calm).
    rewrite fmap_app in Hsg. cbn [fmap list_fmap fst] in Hsg.
    destruct Hdisk as [(tl & torn & -> & Htl & Htorn)|[-> Hnl]].
    + destruct (recover_complete key (seg_head older) history tl torn f y [] Hfile
        (sealed_head_ok _ _ genesis_ok) Hrec Htl Htorn) as (d & f' & y' & Heq & Hto).
      fold name in Heq, Hto. eexists _, d, f', y', (if decide (history = []) then older else older ++ [(key, history)]).
      split; [exact Hsg|]. split.
      { rewrite reverse_app. cbn. unfold mbind, io_bind. rewrite Heq. by rewrite sealed_head_app. }
      destruct (recovered_settled _ _ _ _ _ _ _ _ Hse Hs0 Hsegs Hk Hrec Hsync Hto) as (H1 & H2 & H3).
      split_and!; [|done|].
      * case_decide as Hd; [by rewrite Hd, app_nil_r|by rewrite log_history_snoc].
      * case_decide as Hd; [right; by eexists|left; by apply H3].
    + destruct (recover_nothing (h_next_seq (seg_head older)) f y disk [] Hfile Hnl)
        as (d & f1 & y1 & Heq & Hf1 & Hn1 & Hy1). fold name in Heq, Hf1, Hy1.
      rewrite app_nil_r in *.
      assert (seg_map f1 = list_to_map (log_files genesis older)) as Hf1'.
      { rewrite Hf1, Hsegs, list_to_map_snoc by done. apply delete_insert_id.
        by apply not_elem_of_list_to_map_1. }
      assert (settled f1 y1 older) as Hse1.
      { destruct Hse as [Ho Hy Hn]. split; [done| |by apply Hn1]. intros n e Hin.
        rewrite Hy1; [by apply Hy|..].
        - assert (seg_map f1 !! n = Some e) as [_ ?]%seg_map_lookup; [|done].
          rewrite Hf1'. apply elem_of_list_to_map_1; [|done].
          rewrite fmap_app in Hnd. by apply NoDup_app in Hnd as [? _].
        - intros ->. apply Hfresh. apply list_elem_of_fmap. by exists (name, e). }
      destruct (recover_head_older older f1 y1 d Hse1 Hs Hf1') as (d' & f' & y' & Heq' & Hse' & Hf').
      exists ((log_files genesis older).*1 ++ [name]), d', f', y', older. split; [exact Hsg|]. split.
      { rewrite reverse_app. cbn. unfold mbind, io_bind. by rewrite Heq. }
      split_and!; [done..|by left].
Qed.

Lemma open_remains f y sealed key opts :
  remains f y sealed -> small sealed -> key ∈ seeds ->
  exists w f' y', open key opts (calm f y) = (inr w, calm f' y') /\
  logs w f' y' sealed [] /\ w_head w = sealed_head genesis sealed.
Proof using JL CL XL.
  intros Hr Hs Hk.
  destruct (recover_remains f y sealed Hr Hs) as (names & d & f1 & y1 & older & Hnames & Hhead & -> & Hse & Hf).
  unfold open, mbind, io_bind.
  change (operate id (calm f y)) with (@inr AuditError unit tt, calm f y). cbv iota beta.
  change (operate id (calm f y)) with (@inr AuditError unit tt, calm f y). cbv iota beta.
  rewrite Hnames, Hhead, start_segment_calm. unfold mret, io_ret.
  eexists _, _, _. split; [done|]. split; [|done].
  pose proof (fresh_name older Hs (settled_nonempty _ _ _ Hse)) as Hfresh.
  set (name := segment_name (h_next_seq (seg_head older))) in *.
  exists older, [], (header_line key (seg_head older)). split; [|by rewrite app_nil_r].
  assert (settled (<[name := header_line key (seg_head older)]> f1) (delete name y1) older /\
    seg_map (<[name := header_line key (seg_head older)]> f1) =
    list_to_map (log_files genesis older ++ [(name, header_line key (seg_head older))]))
    as [Hse' Hf'].
  { destruct Hf as [Hf|[disk Hf]]; [by apply start_next|]. split.
    - destruct (settled_update f1 y1 older name (header_line key (seg_head older)) Hse
        (segment_name_no_f _)) as [Ho Hy Hn]. split; [done| |done].
      intros n e Hin. rewrite lookup_delete_ne; [by apply Hy|]. intros <-. apply Hfresh.
      apply list_elem_of_fmap. by exists (name, e).
    - eapply newest_update; [done..|apply segment_name_is_segment]. }
  split; cbn; try done; by rewrite !app_nil_r.
Qed.

(** ** Stopping *)

(** What a kill or a power failure leaves: of every file at least what was synced; a file
    of which nothing was synced may be gone. *)
Definition survives (s s' : fs) : Prop :=
  fs_faults s' = fs_faults s /\ fs_synced s' = fs_synced s /\
  forall name,
  match fs_files s !! name with
  | Some d =>
      (exists n, (default 0 (fs_synced s !! name) <= n)%nat /\ fs_files s' !! name = Some (take n d)) \/
      fs_synced s !! name = None /\ fs_files s' !! name = None
  | None => fs_files s' !! name = None
  end.

Lemma no_newline_l a b : newline ∉ a ++ b -> newline ∉ a.
Proof. intros H Ha. apply H, elem_of_app. by left. Qed.

Lemma survives_refl s : survives s s.
Proof.
  split_and!; [done..|]. intros name. destruct (fs_files s !! name) as [d|]; [|done]. left.
  exists (Nat.max (default 0%nat (fs_synced s !! name)) (length d)). split; [lia|].
  by rewrite take_ge by lia.
Qed.

(** A line that is cut holds no newline, unless it is cut at its end. *)
Lemma cut_line b d k :
  newline ∉ b -> b ++ [newline] = d ++ k -> d = b ++ [newline] /\ k = [] \/ newline ∉ d.
Proof.
  intros Hb He. destruct k as [|c k _] using rev_ind; [left; by rewrite app_nil_r in He|].
  right. rewrite app_assoc in He. apply app_inj_tail in He as [-> _]. by eapply no_newline_l.
Qed.

Lemma prefix_of_lines lines torn0 : forall disk rest,
  Forall is_line lines -> newline ∉ torn0 -> disk ++ rest = concat lines ++ torn0 ->
  exists n torn, disk = concat (take n lines) ++ torn /\ newline ∉ torn.
Proof.
  induction lines as [|l lines IH]; intros disk rest Hl Ht He.
  - exists 0%nat, disk. split; [done|]. cbn in He. rewrite <- He in Ht. by eapply no_newline_l.
  - apply Forall_cons in Hl as [(b & -> & Hb) Hls]. cbn [concat] in He. rewrite <- app_assoc in He.
    apply app_eq_inv in He as [(k & -> & He)|(k & He & _)].
    + destruct (IH k rest Hls Ht (eq_sym He)) as (n & torn & -> & Htorn).
      exists (S n), torn. cbn. by rewrite !app_assoc.
    + destruct (cut_line _ _ _ Hb He) as [[-> ->]|Hd].
      * exists 1%nat, []. cbn. rewrite !app_nil_r. split; [done|apply not_elem_of_nil].
      * by exists 0%nat, disk.
Qed.

(** What a prefix of what the writer wrote into the newest segment holds. *)
Lemma newest_prefix key older history pending torn0 disk rest :
  Forall is_record pending -> newline ∉ torn0 ->
  disk ++ rest = concat (segment_lines key (seg_head older) history ++ pending) ++ torn0 ->
  (history <> [] -> (length (sealed_text key older history) <= length disk)%nat) ->
  cut_newest key older history disk.
Proof using JL.
  intros Hp Ht He Hlen. rewrite concat_app, <- app_assoc in He.
  apply app_eq_inv in He as [(k & -> & He)|(k & He & _)].
  { destruct (prefix_of_lines pending torn0 k rest) as (m & torn & -> & Htorn);
      [by eapply Forall_impl; [done|intros ? []]|done..|].
    left. exists (take m pending), torn. rewrite concat_app, <- app_assoc.
    split_and!; [done|by apply Forall_take|done]. }
  assert (k = [] -> cut_newest key older history disk) as Hall.
  { intros ->. left. exists [], []. rewrite !app_nil_r, He, app_nil_r. split_and!; [done|constructor|apply not_elem_of_nil]. }
  destruct history as [|batch history].
  - destruct (control_is_line (Segment (segment_header key (seg_head older)))) as (b & Hb & Hnb).
    cbn in He. rewrite app_nil_r in He. unfold header_line in He. rewrite Hb in He.
    destruct (cut_line _ _ _ Hnb He) as [[_ Hk]|Hd]; [by apply Hall|by right].
  - specialize (Hlen ltac:(done)). rewrite He, length_app in Hlen. apply Hall.
    destruct k; [done|cbn in Hlen; lia].
Qed.

Lemma newest_cut key older history disk n :
  cut_newest key older history disk ->
  (history <> [] -> (length (sealed_text key older history) <= n)%nat) ->
  cut_newest key older history (take n disk).
Proof using JL.
  intros [(tl & torn & Hd & Htl & Htorn)|[-> Hd]] Hn.
  - apply (newest_prefix key older history tl torn (take n disk) (drop n disk)); [done..| |].
    + by rewrite take_drop.
    + intros Hne. specialize (Hn Hne). rewrite length_take, Hd, concat_app, !length_app. lia.
  - right. split; [done|]. rewrite <- (take_drop n disk) in Hd. by eapply no_newline_l.
Qed.

(** A stopped writer leaves the newest segment. *)
Lemma logs_remain w f y sealed pending : logs w f y sealed pending -> remains f y sealed.
Proof using JL.
  intros (older & history & disk & [] & ->). exists older. split; [done|]. right.
  exists (w_key w), history, disk. split; [done|]. split; [done..| | |].
  - by rewrite <- wr_file0.
  - by rewrite <- wr_file0.
  - apply (newest_prefix _ _ _ pending [] disk (w_buffer w)); [done|apply not_elem_of_nil| |done].
    by rewrite app_nil_r.
Qed.

(** ** Losing power *)

Section Crash.
Variables (f f' : gmap string bytes) (y : gmap string nat).
Hypothesis Hf : survives (calm f y) (calm f' y).

Lemma survives_sub n d : f' !! n = Some d -> is_Some (f !! n).
Proof using Hf.
  intros Hn. destruct Hf as (_ & _ & H). specialize (H n). cbn in H. destruct (f !! n); [by eexists|congruence].
Qed.

Lemma survives_settled older : settled f y older -> settled f' y older.
Proof using Hf.
  intros [Ho Hy Hn]. split; [done..|]. intros n d Hnd. destruct (survives_sub _ _ Hnd) as [e He]. by eapply Hn.
Qed.

Lemma survives_synced n d : f !! n = Some d -> y !! n = Some (length d) -> f' !! n = Some d.
Proof using Hf.
  intros Hn Hy. destruct Hf as (_ & _ & H). specialize (H n). cbn in H. rewrite Hn, Hy in H.
  destruct H as [(m & Hm & ->)|[? _]]; [|done]. cbn in Hm. by rewrite take_ge.
Qed.

(** The segments before the newest are all there, and no other segment is. *)
Lemma survives_older older extra n :
  settled f y older -> seg_map f = list_to_map (log_files genesis older ++ extra) ->
  NoDup (log_files genesis older ++ extra).*1 -> n ∉ extra.*1 ->
  seg_map f' !! n = (list_to_map (log_files genesis older) : gmap string bytes) !! n.
Proof using Hf.
  intros Hse Hsegs Hnd Hn.
  assert (seg_map f !! n = (list_to_map (log_files genesis older) : gmap string bytes) !! n) as Hl.
  { rewrite Hsegs, list_to_map_app. apply lookup_union_l. by apply not_elem_of_list_to_map_1. }
  rewrite <- Hl. destruct (seg_map f !! n) as [d|] eqn:Hd.
  - pose proof (seg_map_lookup _ _ _ Hd) as [Hfd Hseg]. symmetry in Hl.
    apply elem_of_list_to_map_2 in Hl. unfold seg_map. apply map_lookup_filter_Some. split; [|done].
    apply survives_synced; [done|]. by apply (se_synced _ _ _ Hse).
  - destruct (seg_map f' !! n) as [e|] eqn:He; [|done]. exfalso.
    apply seg_map_lookup in He as [He Hseg]. destruct (survives_sub _ _ He) as [d Hfd].
    assert (seg_map f !! n = Some d); [|congruence]. unfold seg_map. by apply map_lookup_filter_Some.
Qed.

Lemma crash_newest older key history disk :
  settled f y older -> newest f y older key history disk -> small (log_history older) ->
  remains f' y (log_history older ++ history).
Proof using Hf JL.
  intros Hse [Hk Hr Hsegs Hsync Hdisk] Hs.
  pose proof (settled_nonempty _ _ _ Hse) as Hne. pose proof (fresh_name older Hs Hne) as Hfresh.
  destruct (names_ok older disk Hs Hne) as [_ Hnd].
  set (name := segment_name (h_next_seq (seg_head older))) in *.
  assert (forall n, n <> name ->
    seg_map f' !! n = (list_to_map (log_files genesis older) : gmap string bytes) !! n) as Hother.
  { intros n Hn. apply (survives_older older _ n Hse Hsegs Hnd). by intros ?%list_elem_of_singleton. }
  exists older. split; [by apply survives_settled|].
  pose proof (newest_file _ _ _ _ Hsegs Hfresh) as Hwf.
  destruct Hf as (_ & _ & H). specialize (H name). cbn in H. rewrite Hwf in H.
  destruct H as [(n & Hn & Hf')|[Hy0 Hf']].
  - right. exists key, history, (take n disk). split; [done|]. split; [done..| |done|].
    + apply map_eq. intros m. rewrite list_to_map_snoc by done.
      destruct (decide (m = name)) as [->|Hm].
      * rewrite lookup_insert_eq. unfold seg_map. apply map_lookup_filter_Some.
        split; [done|apply segment_name_is_segment].
      * rewrite lookup_insert_ne by done. by apply Hother.
    + apply newest_cut; [done|]. intros Hhne. by rewrite (Hsync Hhne) in Hn.
  - left. assert (history = []) as -> by (destruct history; [done|by rewrite Hsync in Hy0]).
    split; [by rewrite app_nil_r|]. apply map_eq. intros m.
    destruct (decide (m = name)) as [->|Hm]; [|by apply Hother].
    rewrite (not_elem_of_list_to_map_1 _ _ Hfresh). unfold seg_map. apply map_lookup_filter_None. by left.
Qed.
End Crash.

Lemma crash_remains f y sealed s' :
  remains f y sealed -> small sealed -> survives (calm f y) s' ->
  exists f', s' = calm f' y /\ remains f' y sealed.
Proof using JL.
  intros (older & Hse & Hr) Hs Hf. destruct s' as [f' y' faults].
  pose proof Hf as (Hfa & Hsy & _). cbn in Hfa, Hsy. subst. exists f'. split; [done|].
  destruct Hr as [[-> Hsegs]|(key & history & disk & -> & Hn)].
  - exists older. split; [by eapply survives_settled|]. left. split; [done|]. apply map_eq. intros n.
    destruct (names_ok older [] Hs (settled_nonempty _ _ _ Hse)) as [_ Hnd].
    rewrite fmap_app in Hnd. apply NoDup_app in Hnd as [Hnd _].
    apply (survives_older f f' y Hf older [] n Hse); [by rewrite app_nil_r..|apply not_elem_of_nil].
  - apply (crash_newest f f' y Hf older key history disk Hse Hn). by apply small_app_l in Hs.
Qed.

Lemma crash_logs w f y sealed pending s' :
  logs w f y sealed pending -> small sealed -> survives (calm f y) s' ->
  exists f', s' = calm f' y /\ remains f' y sealed.
Proof using JL. intros Hl. apply crash_remains. by eapply logs_remain. Qed.

Lemma flush_logs w f y sealed pending :
  logs w f y sealed pending -> small sealed ->
  exists w' f', writing flush_buf (w, calm f y) = (inr tt, (w', calm f' y)) /\
  logs w' f' y sealed pending.
Proof.
  intros (older & history & disk & Hw & ->) Hs.
  assert (small (log_history older)) as Hs0 by (by apply small_app_l in Hs).
  destruct Hw as [Hse Hsegs Hfile Htext Hfl Hhead Hpend Hcount Hopen Hsealed Hkey Hsync].
  pose proof (fresh_name older Hs0 (settled_nonempty _ _ _ Hse)) as Hfresh. rewrite <- Hfile in Hfresh.
  rewrite (flush_line w f y disk) by (by eapply newest_file).
  eexists _, _. split; [done|]. exists older, history, (disk ++ w_buffer w). split; [|done].
  split; cbn; try done.
  - apply settled_update; [done|]. rewrite Hfile. apply segment_name_no_f.
  - eapply newest_update; [done..|]. rewrite Hfile. apply segment_name_is_segment.
  - by rewrite app_nil_r.
  - rewrite (length_app disk). etrans; [exact Hfl|]. apply Nat.le_add_r.
Qed.

Lemma close_logs w f y sealed pending :
  logs w f y sealed pending -> small (sealed ++ [pending]) ->
  exists w' f' y' sealed' pending', close (w, calm f y) = (inr tt, (w', calm f' y')) /\
  logs w' f' y' sealed' pending' /\
  (if w_pending_records w =? 0 then w_head w' = w_head w /\ sealed' = sealed
   else w_head w' = seal_head (w_head w) pending /\ sealed' = sealed ++ [pending]).
Proof using JL CL XL.
  intros Hl Hs. pose proof (small_app_l _ _ Hs) as Hs0.
  destruct (seal_logs _ _ _ _ _ Hl Hs) as (w1 & f1 & y1 & Heq & Hpost).
  unfold close, mbind, io_bind, try_io. rewrite Heq. cbn [snd].
  destruct (w_pending_records w =? 0).
  - destruct Hpost as (-> & -> & ->). destruct (flush_logs _ _ _ _ _ Hl Hs0) as (w2 & f2 & Heq2 & Hl2).
    rewrite Heq2. cbn [snd]. exists w2, f2, y, sealed, pending. split; [done|]. split; [done|].
    split; [|done]. unfold writing in Heq2. destruct (flush_buf _ _) as [? [? ?]].
    by injection Heq2 as _ <- _.
  - destruct Hpost as [Hl1 Hh1]. destruct (flush_logs _ _ _ _ _ Hl1 Hs) as (w2 & f2 & Heq2 & Hl2).
    rewrite Heq2. cbn [snd]. exists w2, f2, y1, (sealed ++ [pending]), []. split; [done|].
    split; [done|]. split; [|done]. unfold writing in Heq2. destruct (flush_buf _ _) as [? [? ?]].
    injection Heq2 as _ <- _. exact Hh1.
Qed.

(** ** Reading the log *)

Definition read_log : io fs (list (string * bytes)) := names ← segments; read_all names.

Lemma scan_records ls : forall bs p,
  Forall is_record ls -> foldl scan_line (bs, p) ls = (bs, p ++ ls).
Proof.
  induction ls as [|l ls IH]; intros bs p Hl; cbn; [by rewrite app_nil_r|].
  apply Forall_cons in Hl as [[_ Hc] Hl]. unfold scan_line at 2. rewrite Hc. cbn.
  rewrite IH by done. by rewrite <- app_assoc.
Qed.

Lemma scan_history key history : forall hd bs,
  head_ok hd -> Forall (Forall is_record) history ->
  exists bs', foldl scan_line (bs, []) (history_lines key hd history) = (bs', []) /\
  bs'.*1 = bs.*1 ++ history.
Proof using JL CL.
  induction history as [|lines history IH]; intros hd bs Hh Hr; cbn.
  - exists bs. by rewrite app_nil_r.
  - apply Forall_cons in Hr as [Hl Hr]. rewrite foldl_app, scan_records by done. cbn.
    unfold scan_line at 2. rewrite classify_trailer by done. cbn.
    edestruct (IH (seal_head hd lines)) as (bs' & Hf & Hb); [apply seal_head_ok|done|].
    exists bs'. rewrite Hf. split; [done|]. rewrite Hb, fmap_app, <- app_assoc. done.
Qed.

Lemma scan_segment_lines key hd history tl torn bs :
  head_ok hd -> Forall (Forall is_record) history -> Forall is_record tl -> newline ∉ torn ->
  (scan_segment bs (concat (segment_lines key hd history ++ tl) ++ torn)).*1 = bs.*1 ++ history.
Proof using JL CL.
  intros Hh Hr Ht Htorn. unfold scan_segment. rewrite split_torn_lines; [|..|done].
  2:{ apply Forall_app. split; [by apply segment_lines_are_lines|].
      eapply Forall_impl; [done|]. by intros l [? _]. }
  cbn [fst]. rewrite foldl_app. cbn [segment_lines foldl]. unfold scan_line at 3.
  rewrite classify_header by done. destruct (scan_history key history hd bs Hh Hr) as (bs' & -> & Hb).
  by rewrite scan_records by done.
Qed.

Lemma log_batches_written older key history tl torn :
  Forall (fun s => Forall (Forall is_record) s.2) older -> Forall (Forall is_record) history ->
  Forall is_record tl -> newline ∉ torn ->
  (log_batches (written_log older key history tl torn)).*1 = log_history older ++ history.
Proof using JL CL.
  intros Ho Hr Ht Htorn. unfold written_log, log_batches. rewrite foldl_app. cbn [foldl snd].
  rewrite scan_segment_lines by (done || apply sealed_head_ok, genesis_ok). f_equal.
  assert (forall hd bs, head_ok hd ->
    (foldl (fun bs s => scan_segment bs s.2) bs (log_files hd older)).*1 = bs.*1 ++ log_history older) as H.
  { induction Ho as [|[k h] older Hk _ IH]; intros hd bs Hh; cbn; [by rewrite app_nil_r|].
    rewrite IH by (by apply sealed_head_ok). unfold log_history. cbn [fmap list_fmap concat snd].
    rewrite app_assoc. f_equal.
    pose proof (scan_segment_lines k hd h [] [] bs Hh Hk) as Hs. rewrite !app_nil_r in Hs.
    apply Hs; [constructor|apply not_elem_of_nil]. }
  rewrite H; [done|apply genesis_ok].
Qed.

End Running.

End Calm.
