(* ===== verification/AuditLog.v ===== *)
(** * Every audit log a writer can leave

    The states an audit directory can reach: a writer is opened, appends records, seals,
    is dropped or crashes, and the next is opened, in any order and with any of the
    signing keys.  At every moment a running writer's directory verifies and holds exactly
    what was sealed, and whatever a stop or a crash leaves is reopened where the last
    sealed batch ended. *)

From stdpp Require Import sorting.
From S2P Require Import Prelude Text Json Crypto AuditWriter AuditVerify AuditChain AuditWrite.
From S2P Require Import AuditNames AuditRun.
Open Scope string_scope.
Open Scope list_scope.
Open Scope Z_scope.

(** ** Files set aside *)





Section Life.
Context {J : Json} {C : Crypto} {X : Hex} {JL : JsonLaws J} {CL : CryptoLaws C} {XL : HexLaws X}.
Variable seeds : list bytes.

Notation seg_head older := (sealed_head genesis (log_history older)).
Notation logs := (logs seeds).
Notation remains := (remains seeds).

(** ** A running writer's directory *)






(** ** The histories of a directory *)



















(** ** The properties *)





End Life.
