(* ===== verification/AuditForge.v ===== *)
(** * Lines someone else appends

    Who can write the audit directory but has no signing key can append to the newest
    segment: records, copies of earlier trailers, headers, broken lines.  Recovery is shown
    to continue the chain at the last genuine batch regardless. *)

From S2P Require Import Prelude Text Json Crypto AuditWriter AuditVerify AuditChain AuditWrite.
From S2P Require Import AuditNames AuditRun.
Open Scope string_scope.
Open Scope list_scope.
Open Scope Z_scope.

Section Forge.
Context {J : Json} {C : Crypto} {X : Hex} {JL : JsonLaws J} {CL : CryptoLaws C} {XL : HexLaws X}.

(** Recovery over lines of which no trailer closes a batch. *)
Lemma recover_without_batch name hd pk : forall lines i r p,
  r_head r = Some hd -> r_key r = Some pk -> r_pending r = concat p ->
  r_pending_records r = u64 (Z.of_nat (length p)) ->
  (forall j l t, lines !! j = Some l -> classify (body l) = LBatch t ->
     closes (Some pk) hd t (concat (p ++ take j lines))
       (u64 (Z.of_nat (length (p ++ take j lines)))) = None) ->
  exists r', recover_loop name i lines r = inr r' /\ r_head r' = Some hd /\
  r_sealed_end r' = r_sealed_end r /\ r_batches r' = r_batches r.
Proof.
  induction lines as [|l lines IH]; intros i r p Hh Hk Hp Hn Hno; [by exists r|].
  cbn [recover_loop]. destruct (complete l); cbn [negb]; [|by eexists].
  change (r_head (r_advance _ r)) with (r_head r). change (r_key (r_advance _ r)) with (r_key r).
  change (r_pending (r_advance _ r)) with (r_pending r).
  change (r_pending_records (r_advance _ r)) with (r_pending_records r). rewrite Hh.
  destruct (classify (body l)) as [h|t| |e] eqn:Hc; [by eexists| | |by eexists].
  - specialize (Hno 0%nat l t eq_refl Hc). cbn [take] in Hno. rewrite app_nil_r in Hno.
    rewrite Hk, Hp, Hn, Hno. by eexists.
  - apply (IH (S i) (r_record l (r_advance (length l) r)) (p ++ [l])); cbn; try done.
    + by rewrite Hp, concat_app; cbn; rewrite app_nil_r.
    + by rewrite Hn, u64_add, length_app, Nat2Z.inj_add.
    + intros j l' t Hj Ht. specialize (Hno (S j) l' t Hj Ht). cbn [take] in Hno.
      by rewrite <- app_assoc.
Qed.

(** What a trailer in [lines] would have to be signed for: the lines before it as a batch
    at [hd]. *)
Fixpoint trailer_inputs (hd : Head) (before lines : list bytes) : list bytes :=
  match lines with
  | [] => []
  | l :: lines =>
      match classify (body l) with
      | LBatch t => [batch_input hd (before, t)]
      | _ => []
      end ++ trailer_inputs hd (before ++ [l]) lines
  end.

Lemma elem_of_trailer_inputs hd lines : forall before j l t,
  lines !! j = Some l -> classify (body l) = LBatch t ->
  batch_input hd (before ++ take j lines, t) ∈ trailer_inputs hd before lines.
Proof.
  induction lines as [|l lines IH]; intros before [|j] l' t Hj Ht; cbn in Hj |- *; try done.
  - injection Hj as ->. rewrite Ht, app_nil_r. by left.
  - apply elem_of_app. right. specialize (IH (before ++ [l]) j l' t Hj Ht).
    by rewrite <- app_assoc in IH.
Qed.

Lemma batch_input_head hd hd' b lines :
  head_ok hd -> head_ok hd' -> batch_input hd b = seal_input hd' lines ->
  h_next_seq hd = h_next_seq hd'.
Proof.
  intros [Hs Hl] [Hs' Hl']. unfold batch_input, seal_input.
  destruct (t_v b.2 =? 0); [by intros [? _]%app_inj_1|]. intros [_ H]%app_inj_1; [|done].
  apply app_inj_1 in H as [_ H]; [|congruence].
  apply app_inj_1 in H as [Hq _]; [|by rewrite !be_bytes_length]. by apply be_bytes_inj in Hq.
Qed.

(** What closes a batch is signed. *)
Lemma closes_signed pk hd t p n c :
  closes (Some pk) hd t (concat p) n = Some c ->
  c = sha256 (batch_input hd (p, t)) /\
  exists sig, hex64 (t_sig t) = Some sig /\ ed_verify pk c sig = true.
Proof.
  unfold closes. destruct (trailer_hash _ _ _) as [c'|] eqn:Ht; [|done]. cbn.
  destruct (hex64 (t_sig t)) as [sig|]; [|done]. destruct (ed_verify pk c' sig) eqn:Hv; [|done].
  destruct (t_seq t =? h_next_seq hd) eqn:Hs; [|done]. case_match; [|done]. intros [= <-].
  apply Z.eqb_eq in Hs. destruct (trailer_form _ _ _ _ Hs Ht) as [-> _].
  split; [done|]. by exists sig.
Qed.

Section Appended.
(** Who appends has signatures only for what was sealed, at positions before [hd], and
    no input collides with a sealed one. *)
Variables (pk : bytes) (hd : Head) (signed : list (Head * list bytes)) (lines : list bytes).
Hypothesis hd_ok : head_ok hd.
Hypothesis signed_before :
  Forall (fun e => head_ok e.1 /\ h_next_seq e.1 <> h_next_seq hd) signed.
Hypothesis signatures : forall l t m sig,
  l ∈ lines -> classify (body l) = LBatch t -> hex64 (t_sig t) = Some sig ->
  length m = 32%nat -> ed_verify pk m sig = true ->
  exists e, e ∈ signed /\ m = sha256 (seal_input e.1 e.2).
Hypothesis no_collision :
  apart (trailer_inputs hd [] lines) ((fun e => seal_input e.1 e.2) <$> signed).

Lemma appended_never_closes j l t :
  lines !! j = Some l -> classify (body l) = LBatch t ->
  closes (Some pk) hd t (concat (take j lines)) (u64 (Z.of_nat (length (take j lines)))) = None.
Proof using hd_ok signed_before signatures no_collision CL.
  intros Hj Ht. destruct (closes _ _ _ _ _) as [c|] eqn:Hc; [|done]. exfalso.
  apply closes_signed in Hc as (-> & sig & Hsig & Hv).
  destruct (signatures l t _ sig (list_elem_of_lookup_2 _ _ _ Hj) Ht Hsig (sha256_length _) Hv)
    as (e & He & Heq).
  rewrite Forall_forall in signed_before. destruct (signed_before e He) as [Hok Hne]. apply Hne.
  symmetry. apply (batch_input_head hd e.1 (take j lines, t) e.2 hd_ok Hok).
  apply no_collision; [|apply list_elem_of_fmap; by exists e|done].
  by apply (elem_of_trailer_inputs hd lines [] j l t).
Qed.
End Appended.

(** Recovery of a segment with a forged line. *)
Lemma recover_forged name text rest f y discarded r hd :
  f !! name = Some (text ++ rest) -> text <> [] ->
  recover_loop name 0 (split_inclusive (text ++ rest)) rstate_init = inr r ->
  r_head r = Some hd -> r_sealed_end r = length text -> r_forged r = true ->
  exists found d f' y', recover name discarded (calm f y) = (inr (found, d), calm f' y') /\
  (found = Some hd /\ f' = f \/ found = None /\ r_batches r = 0).
Proof.
  intros Hf Hne Hloop Hh He Hfo. unfold recover, mbind, io_bind.
  rewrite (read_file_calm _ _ _ (text ++ rest)) by done.
  rewrite decide_False by (by intros [? _]%app_nil). rewrite Hloop, Hh, Hfo.
  rewrite bool_decide_eq_false_2 by done. cbn [andb].
  destruct (r_sealed_end r =? length (text ++ rest))%nat.
  { eexists _, _, f, y. split; [done|]. by left. }
  destruct (r_batches r =? 0) eqn:Hb.
  - unfold discarded_path, ask_io, rename, operate. cbn [fs_files fs_synced fs_faults List.tl tail head].
    rewrite Hf. eexists None, _, _, _. split; [done|]. right. split; [done|]. by apply Z.eqb_eq.
  - eexists _, _, f, y. split; [done|]. by left.
Qed.

(** C19. Whatever someone without the key appends to the newest segment - records, broken
    lines, headers, copies of genuine trailers - the next writer continues the chain right
    after the last genuine batch of the segment, and keeps the genuine lines.  Only a
    segment without a batch may be moved aside whole, and the search continues with the one
    before it.  The signatures appended verify only for hashes signed before, and no
    hashed input collides with a signed one. *)
Theorem appended_lines_never_move_chain key hd history appended signed f y discarded
    (name := segment_name (h_next_seq hd)) (text := concat (segment_lines key hd history))
    (here := sealed_head hd history)
    (Hok : head_ok hd) (Hrecords : Forall (Forall is_record) history) (Hsmall : small history)
    (Hfile : f !! name = Some (text ++ appended))
    (Hsigned : Forall (fun e => head_ok e.1 /\ h_next_seq e.1 <> h_next_seq here) signed)
    (Hsig : forall l t m sig, l ∈ split_inclusive appended -> classify (body l) = LBatch t ->
       hex64 (t_sig t) = Some sig -> length m = 32%nat ->
       ed_verify (ed_public key) m sig = true ->
       exists e, e ∈ signed /\ m = sha256 (seal_input e.1 e.2))
    (Hapart : apart (trailer_inputs here [] (split_inclusive appended))
       ((fun e => seal_input e.1 e.2) <$> signed)) :
  exists found d f' y', recover name discarded (calm f y) = (inr (found, d), calm f' y') /\
  (found = Some here /\ (exists rest, f' !! name = Some (text ++ rest)) \/
   found = None /\ history = []).
Proof using JL CL XL.
  destruct (recover_sealed_part key hd history appended Hok Hrecords) as (r0 & Hloop & H0).
  destruct H0 as [Hh0 Hk0 Hp0 Hn0 Hs0 Ho0 Hb0 Hf0].
  destruct (recover_without_batch name here (ed_public key) (split_inclusive appended)
    (length (segment_lines key hd history)) r0 []) as (r & Hr & Hh & He & Hb); try done.
  { intros j l t Hj Ht. cbn [app].
    by apply (appended_never_closes (ed_public key) here signed (split_inclusive appended)
      (sealed_head_ok _ _ Hok) Hsigned Hsig Hapart j l t). }
  fold name in Hloop. rewrite Hr in Hloop. rewrite Hs0 in He. fold text in Hloop, He.
  destruct (r_forged r) eqn:Hfo.
  - destruct (recover_forged name text appended f y discarded r here) as (found & d & f' & y' & Heq & Hfound);
      [done|apply segment_text_nonempty|done..|].
    exists found, d, f', y'. split; [done|]. destruct Hfound as [[-> ->]|[-> Hz]]; [left|right].
    + split; [done|]. by exists appended.
    + split; [done|]. rewrite Hb, Hb0, u64_small in Hz by (unfold small in Hsmall; lia).
      destruct history; [done|cbn in Hz; lia].
  - destruct (recover_unforged (h_next_seq hd) text appended f y discarded r here)
      as (d & f' & y' & Heq & [Hsegs _ _ _]); [done|apply segment_text_nonempty|done..|].
    exists (Some here), d, f', y'. split; [done|]. left. split; [done|]. exists [].
    apply seg_map_lookup. by rewrite Hsegs, app_nil_r, lookup_insert_eq.
Qed.

End Forge.
