(* ===== verification/AuditHost.v ===== *)
(** * An audit log

    A log written with the concrete encodings of [Json] and [Crypto]: a writer that seals
    after two records, three records appended.  On it the properties of the audit log are
    instantiated, and the behaviours reported as findings are computed. *)

From S2P Require Import Prelude Text Json Crypto AuditWriter AuditVerify AuditChain AuditWrite.
From S2P Require Import AuditNames AuditRun AuditLog AuditForge.
Open Scope string_scope.
Open Scope list_scope.
Open Scope Z_scope.

#[local] Existing Instances coded_json toy_crypto plain_hex.
#[local] Existing Instances coded_json_laws toy_crypto_laws plain_hex_laws.

Definition log_seed : bytes := chars "the signing key of this sensor".
Definition log_options : WriterOptions := mk_WriterOptions 2 1000 (64 * 2 ^ 20).
Definition log_record (n : Z) : Value := VObject [("class_uid", VNumber n)].
Definition log_line (n : Z) : bytes := record_line (log_record n).
Definition log_expect (anchor : option Head) : Expect := mk_Expect [ed_public log_seed] anchor false.

(** The writer after each step. *)
Definition no_writer : Writer := mk_Writer [] log_options "" [] 0 genesis [] 0 None [].

Definition step_open : Writer * fs :=
  match open log_seed log_options (calm ∅ ∅) with
  | (inr w, s) => (w, s)
  | (inl _, s) => (no_writer, s)
  end.

Definition step1 : Writer * fs := Eval vm_compute in (append (log_record 1) 0 step_open).2.
Definition step2 : Writer * fs := Eval vm_compute in (append (log_record 2) 10 step1).2.
Definition step3 : Writer * fs := Eval vm_compute in (append (log_record 3) 20 step2).2.

Definition batch1 : list bytes := [log_line 1; log_line 2].

Lemma log_record_ok n : 0 <= n < 2 ^ 64 -> record_ok (log_record n).
Proof.
  intros Hn. split; [|by eexists]. cbn. by rewrite (proj2 (Z.leb_le _ _)), (proj2 (Z.ltb_lt _ _)) by lia.
Qed.




(** ** Running, stopping and reopening *)






(** ** Tampering *)

Lemma pad_full m : length m = 32%nat -> pad 32 m = m.
Proof. intros H. unfold pad. by rewrite <- H, take_app_length. Qed.

(** A signature verifies for the message that was signed only. *)
Lemma toy_verifies_one pk m m' :
  length m = 32%nat -> length m' = 32%nat -> ed_verify pk m (ed_sign log_seed m') = true -> m = m'.
Proof.
  intros Hm Hm' H. apply bool_decide_eq_true_1 in H. unfold ed_sign, toy_crypto, toy_sign in H.
  apply (f_equal (take 32)) in H. unfold pad at 1 4 in H. rewrite !take_take, !(pad_full m),
    !(pad_full m') in H by done. change (Nat.min 32 64) with 32%nat in H.
  rewrite <- !app_assoc in H. by rewrite <- Hm' in H at 1; rewrite <- Hm in H; rewrite !take_app_length in H.
Qed.

(** The segment at rest, and what was signed for it. *)
Definition segment1 : bytes := concat (segment_lines log_seed genesis [batch1]).
Definition segs1 : list (string * bytes) := [(segment_name 0, segment1)].
Definition signed1 : list (Head * list bytes) := [(genesis, batch1)].
Definition hash1 : bytes := sha256 (seal_input genesis batch1).

Lemma log_batches1 :
  log_batches segs1 = [(batch1, sign_batch log_seed genesis (concat batch1) 2)].
Proof. vm_compute. reflexivity. Qed.

Lemma signature1 :
  hex64 (t_sig (sign_batch log_seed genesis (concat batch1) 2)) = Some (ed_sign log_seed hash1).
Proof. vm_compute. reflexivity. Qed.

Lemma signed_hash1 pk m sig :
  hex64 (t_sig (sign_batch log_seed genesis (concat batch1) 2)) = Some sig ->
  length m = 32%nat -> ed_verify pk m sig = true ->
  exists e, e ∈ signed1 /\ m = sha256 (seal_input e.1 e.2).
Proof.
  rewrite signature1. intros [= <-] Hm Hv. exists (genesis, batch1). split; [by left|].
  apply (toy_verifies_one pk m hash1 Hm); [apply sha256_length|exact Hv].
Qed.

Lemma inputs1 : chain_inputs genesis (log_batches segs1) = [seal_input genesis batch1].
Proof. vm_compute. reflexivity. Qed.

Lemma apart_same x : apart [x] [x].
Proof. intros a b ->%list_elem_of_singleton ->%list_elem_of_singleton. done. Qed.

Lemma log_line_is_line n : is_line (log_line n).
Proof. apply json_line. Qed.

Lemma verified_records_were_sealed_witness :
  (genesis, batch1) ∈ signed1.
Proof.
  apply (verified_records_were_sealed (log_expect None) segs1 signed1 0
    (batch1, sign_batch log_seed genesis (concat batch1) 2)).
  - done.
  - done.
  - vm_compute. reflexivity.
  - constructor; [|constructor]. split; [apply genesis_ok|]. repeat constructor; apply log_line_is_line.
  - intros b key m sig Hb Hs _ Hm Hv. rewrite log_batches1 in Hb.
    apply list_elem_of_singleton in Hb as ->. by apply (signed_hash1 key m sig).
  - rewrite inputs1. apply apart_same.
  - rewrite log_batches1. reflexivity.
Defined.

Lemma anchored_log_is_complete_witness :
  exists newer, (log_batches segs1).*1 = [batch1] ++ newer.
Proof.
  apply (anchored_log_is_complete (log_expect (Some (sealed_head genesis [batch1]))) segs1 [batch1]).
  - done.
  - done.
  - done.
  - vm_compute. reflexivity.
  - repeat constructor; apply log_line_is_line.
  - cbn. lia.
  - rewrite log_batches1. cbn. lia.
  - rewrite inputs1. apply apart_same.
Defined.

(** The genuine trailer once more, a record and half a line. *)
Definition appended1 : bytes :=
  trailer_line log_seed genesis batch1 ++ log_line 9 ++ chars "half a line".

Lemma appended1_lines :
  split_inclusive appended1 =
  [trailer_line log_seed genesis batch1; log_line 9; chars "half a line"].
Proof. vm_compute. reflexivity. Qed.

Lemma appended_lines_never_move_chain_witness :
  exists found d f' y',
  recover (segment_name 0) [] (calm {[segment_name 0 := segment1 ++ appended1]} ∅) =
    (inr (found, d), calm f' y') /\
  (found = Some (sealed_head genesis [batch1]) /\
     (exists rest, f' !! segment_name 0 = Some (segment1 ++ rest)) \/
   found = None /\ [batch1] = []).
Proof.
  apply (appended_lines_never_move_chain log_seed genesis [batch1] appended1 signed1
    {[segment_name 0 := segment1 ++ appended1]} ∅ []).
  - apply genesis_ok.
  - repeat constructor; apply record_line_ok, log_record_ok; lia.
  - unfold small. cbn. lia.
  - apply lookup_singleton_eq.
  - constructor; [|constructor]. split; [apply genesis_ok|vm_compute; discriminate].
  - rewrite appended1_lines. intros l t m sig Hl Ht Hs Hm Hv.
    apply elem_of_cons in Hl as [->|Hl].
    + rewrite classify_trailer in Ht by apply genesis_ok.
      injection Ht as <-. by apply (signed_hash1 (ed_public log_seed) m sig).
    + exfalso. apply elem_of_cons in Hl as [->|Hl%list_elem_of_singleton]; [|subst l];
        vm_compute in Ht; discriminate Ht.
  - rewrite appended1_lines. intros a b Ha Hb H. exfalso.
    assert (a = batch_input (sealed_head genesis [batch1])
      ([], sign_batch log_seed genesis (concat batch1) 2)) as ->.
    { apply list_elem_of_singleton. revert Ha. vm_compute. done. }
    apply list_elem_of_singleton in Hb as ->. vm_compute in H. discriminate H.
Defined.

(** ** Behaviours reported as findings *)

(** The directory with its next operations failing as given. *)
Definition failing (faults : list (option nat)) (s : fs) : fs :=
  mk_fs (fs_files s) (fs_synced s) faults.

(** A failed flush keeps the trailer in the buffer and the batch open: the next seal writes
    a second trailer for the same batch, and the log no longer verifies although nobody
    tampered with it. *)
Lemma failed_seal_spoils_log :
  let '(r1, (w1, s1)) := seal (step3.1, failing [Some 0%nat] step3.2) in
  let '(r2, (w2, s2)) := seal (w1, s1) in
  r1 = inl IoError /\ w_head w1 = w_head step3.1 /\ r2 = inr tt /\
  Report_ok <$> (match fst (verify_dir_with (log_expect None) s2) with
                 | inr r => Some r
                 | inl _ => None
                 end) = Some false.
Proof. vm_compute. done. Qed.

(** A planted newest segment that holds nothing but a header chooses the position at which
    the next writer continues. *)
Definition planted_head : Head := mk_Head 7 (repeat (byte_of 1) 32).

Lemma planted_header_moves_chain :
  let planted := <[segment_name 7 := header_line log_seed planted_head]> (fs_files step3.2) in
  exists w s, open log_seed log_options (calm planted ∅) = (inr w, s) /\
  w_head w = planted_head /\ w_head step3.1 <> planted_head.
Proof.
  eexists _, _. split; [vm_compute; reflexivity|]. split; [vm_compute; reflexivity|].
  vm_compute. discriminate.
Qed.
